(** * Query-answering pipeline of the Irishman context-graph explorer

    A shallow embedding of the TypeScript query pipeline
    (queryContract.ts, queryRouter.ts, answers/shared.ts, answers/kgAnswer.ts,
    answers/traceAnswer.ts, answers/hybridAnswer.ts, answers/baselineRagLike.ts,
    answers/synthesizeWithLLM.ts, queryService.ts) and the properties of its
    response contract.

    Modelling conventions.
    - A JavaScript string is the list of its UTF-16 code units ([jsstring]).
      Literals are written [js "..."].
    - A JavaScript number is [JsNum]: an exact rational, or one of the three
      non-finite values.  Rounding of IEEE doubles and the sign of zero are
      not represented.
    - [async] functions are pure functions of the values their awaited calls
      deliver; the two graph stores and the text-generation provider are
      records of read results (they are external to the pipeline).
    - [String.prototype.localeCompare] depends on the host collation and is a
      parameter ([Collator]). *)

From Stdlib Require Import List Bool Arith ZArith NArith QArith Qabs Qround Lia.
From Stdlib Require Import String Ascii Sorted.
Import ListNotations.

Set Implicit Arguments.
Close Scope Q_scope.
Set Warnings "-abstract-large-number".
Set Warnings "-notation-overridden".
Open Scope nat_scope.

(* ================================================================== *)
(** ** JavaScript strings *)
(* ================================================================== *)

Module JsString.

Definition jsstring := list N.

Definition js (s : string) : jsstring :=
  List.map N_of_ascii (list_ascii_of_string s).

Fixpoint str_eqb (a b : jsstring) : bool :=
  match a, b with
  | [], [] => true
  | x :: a', y :: b' => N.eqb x y && str_eqb a' b'
  | _, _ => false
  end.

(** [!v] on a string: true for the empty string only. *)
Definition isEmpty (s : jsstring) : bool :=
  match s with [] => true | _ :: _ => false end.

Fixpoint mem (v : jsstring) (seen : list jsstring) : bool :=
  match seen with
  | [] => false
  | s :: rest => str_eqb v s || mem v rest
  end.

(** WhiteSpace and LineTerminator code units of ECMAScript: what [trim]
    strips and what [\s] matches. *)
Definition isWhitespace (c : N) : bool :=
  let c := Z.of_N c in
  ((9 <=? c) && (c <=? 13) || (c =? 32) || (c =? 160) || (c =? 5760)
   || (8192 <=? c) && (c <=? 8202) || (c =? 8232) || (c =? 8233)
   || (c =? 8239) || (c =? 8287) || (c =? 12288) || (c =? 65279))%Z.

Fixpoint trimStart (s : jsstring) : jsstring :=
  match s with
  | [] => []
  | c :: t => if isWhitespace c then trimStart t else s
  end.

Fixpoint trimEnd (s : jsstring) : jsstring :=
  match s with
  | [] => []
  | c :: t =>
      match trimEnd t with
      | [] => if isWhitespace c then [] else [c]
      | t' => c :: t'
      end
  end.

Definition trim (s : jsstring) : jsstring := trimEnd (trimStart s).

(** [toLowerCase] on the ASCII and Latin-1 letters.  Code units above
    U+00FF are left as they are (the keyword tables, mode names and notes of
    the pipeline are ASCII), so this is [String.prototype.toLowerCase] on the
    strings whose units are all below U+0100 ([isLatin1] below); the host
    also lowers the cased letters above them (U+212A to [k], for one). *)
Definition lowerUnit (c : N) : N :=
  let z := Z.of_N c in
  if ((65 <=? z) && (z <=? 90))%Z then (c + 32)%N
  else if ((192 <=? z) && (z <=? 222) && negb (z =? 215))%Z then (c + 32)%N
  else c.

Definition toLowerCase (s : jsstring) : jsstring := List.map lowerUnit s.

(** The strings on which [toLowerCase] above is the host's: every unit is
    below U+0100. *)
Definition isLatin1 (s : jsstring) : bool :=
  forallb (fun c => N.ltb c 256) s.

Fixpoint startsWith (s p : jsstring) : bool :=
  match p, s with
  | [], _ => true
  | _ :: _, [] => false
  | x :: p', y :: s' => N.eqb x y && startsWith s' p'
  end.

Fixpoint includes (s w : jsstring) : bool :=
  startsWith s w ||
  match s with
  | [] => false
  | _ :: s' => includes s' w
  end.

Definition includesAny (text : jsstring) (needles : list jsstring) : bool :=
  existsb (includes text) needles.

(** [s.slice(0, n)] for [n >= 0]. *)
Definition sliceTo (n : nat) (s : jsstring) : jsstring := firstn n s.

Definition truncate (text : jsstring) (maxLen : nat) : jsstring :=
  if Nat.leb (List.length text) maxLen then text
  else trimEnd (sliceTo (maxLen - 3) text) ++ js "...".

Fixpoint join (sep : jsstring) (parts : list jsstring) : jsstring :=
  match parts with
  | [] => []
  | [p] => p
  | p :: rest => p ++ sep ++ join sep rest
  end.

(** Decimal rendering of a non-negative integer, as [String(n)] gives it. *)
Definition digitUnit (d : nat) : N := (48 + N.of_nat d)%N.

Fixpoint natDigits (fuel n : nat) (acc : jsstring) : jsstring :=
  match fuel with
  | O => acc
  | S fuel' =>
      let acc' := digitUnit (n mod 10) :: acc in
      if Nat.ltb n 10 then acc' else natDigits fuel' (n / 10) acc'
  end.

Definition natToString (n : nat) : jsstring := natDigits (S n) n [].

Definition intToString (z : Z) : jsstring :=
  if (z <? 0)%Z then js "-" ++ natToString (Z.abs_nat z)
  else natToString (Z.abs_nat z).

End JsString.
Export JsString.

(* ================================================================== *)
(** ** JavaScript numbers *)
(* ================================================================== *)

Module JsNumber.

Inductive JsNum : Type :=
| JsFinite (q : Q)
| JsNaN
| JsPosInf
| JsNegInf.

(** [Number.isFinite]. *)
Definition isFinite (v : JsNum) : bool :=
  match v with JsFinite _ => true | _ => false end.

Definition Qsign (q : Q) : Z := Z.sgn (Qnum q).

(** [Math.min] and [Math.max]: NaN is contagious. *)
Definition jsMin (a b : JsNum) : JsNum :=
  match a, b with
  | JsNaN, _ | _, JsNaN => JsNaN
  | JsNegInf, _ | _, JsNegInf => JsNegInf
  | JsPosInf, x | x, JsPosInf => x
  | JsFinite x, JsFinite y => if Qle_bool x y then a else b
  end.

Definition jsMax (a b : JsNum) : JsNum :=
  match a, b with
  | JsNaN, _ | _, JsNaN => JsNaN
  | JsPosInf, _ | _, JsPosInf => JsPosInf
  | JsNegInf, x | x, JsNegInf => x
  | JsFinite x, JsFinite y => if Qle_bool x y then b else a
  end.

Definition jsNeg (a : JsNum) : JsNum :=
  match a with
  | JsFinite x => JsFinite (- x)
  | JsNaN => JsNaN
  | JsPosInf => JsNegInf
  | JsNegInf => JsPosInf
  end.

Definition jsAdd (a b : JsNum) : JsNum :=
  match a, b with
  | JsNaN, _ | _, JsNaN => JsNaN
  | JsPosInf, JsNegInf | JsNegInf, JsPosInf => JsNaN
  | JsPosInf, _ | _, JsPosInf => JsPosInf
  | JsNegInf, _ | _, JsNegInf => JsNegInf
  | JsFinite x, JsFinite y => JsFinite (x + y)
  end.

Definition infTimes (positive : bool) (s : Z) : JsNum :=
  match s with
  | Z0 => JsNaN
  | Zpos _ => if positive then JsPosInf else JsNegInf
  | Zneg _ => if positive then JsNegInf else JsPosInf
  end.

Definition jsSign (a : JsNum) : Z :=
  match a with
  | JsFinite x => Qsign x
  | JsPosInf => 1
  | JsNegInf => (-1)
  | JsNaN => 0
  end.

Definition jsMul (a b : JsNum) : JsNum :=
  match a, b with
  | JsNaN, _ | _, JsNaN => JsNaN
  | JsFinite x, JsFinite y => JsFinite (x * y)
  | JsPosInf, _ => infTimes true (jsSign b)
  | JsNegInf, _ => infTimes false (jsSign b)
  | _, JsPosInf => infTimes true (jsSign a)
  | _, JsNegInf => infTimes false (jsSign a)
  end.

Definition ofNat (n : nat) : JsNum := JsFinite (inject_Z (Z.of_nat n)).

(** Numeric comparison [a <= b] of two finite numbers ([false] otherwise). *)
Definition jsLeb (a b : JsNum) : bool :=
  match a, b with
  | JsFinite x, JsFinite y => Qle_bool x y
  | _, _ => false
  end.

(** [x.toFixed(2)] of a finite number: the sign, then the multiple of 1/100
    nearest to the absolute value (the larger on a tie), with two decimals.
    The value is the exact rational: the double the host stores for a
    decimal can lie just below a tie, where the host rounds down (its 0.575
    prints as 0.57). *)
Definition toFixed2 (q : Q) : jsstring :=
  let scaled := Qfloor (Qabs q * 100 + (1 # 2))%Q in
  let whole := Z.abs_nat (scaled / 100)%Z in
  let cents := Z.abs_nat (scaled mod 100)%Z in
  let sign := if (Qnum q <? 0)%Z then js "-" else [] in
  sign ++ natToString whole ++ js "."
       ++ natToString (cents / 10) ++ natToString (cents mod 10).

End JsNumber.
Export JsNumber.

(* ================================================================== *)
(** ** The response contract (queryContract.ts) *)
(* ================================================================== *)

Inductive QueryType : Type :=
| fact | timeline | state_change | causal_chain | evidence | comparison.

Inductive AnswerMode : Type :=
| kg | ntg | hybrid | baseline_rag.

Inductive PreferredMode : Type :=
| pm_auto | pm_kg | pm_ntg | pm_hybrid | pm_baseline_rag | pm_baseline.

Definition QueryType_eqb (a b : QueryType) : bool :=
  match a, b with
  | fact, fact | timeline, timeline | state_change, state_change
  | causal_chain, causal_chain | evidence, evidence
  | comparison, comparison => true
  | _, _ => false
  end.

Definition AnswerMode_eqb (a b : AnswerMode) : bool :=
  match a, b with
  | kg, kg | ntg, ntg | hybrid, hybrid | baseline_rag, baseline_rag => true
  | _, _ => false
  end.

(** The string a mode or query type is in the TypeScript source. *)
Definition queryTypeName (t : QueryType) : jsstring :=
  match t with
  | fact => js "fact"
  | timeline => js "timeline"
  | state_change => js "state_change"
  | causal_chain => js "causal_chain"
  | evidence => js "evidence"
  | comparison => js "comparison"
  end.

Definition answerModeName (m : AnswerMode) : jsstring :=
  match m with
  | kg => js "kg"
  | ntg => js "ntg"
  | hybrid => js "hybrid"
  | baseline_rag => js "baseline_rag"
  end.

Definition preferredModeName (m : PreferredMode) : jsstring :=
  match m with
  | pm_auto => js "auto"
  | pm_kg => js "kg"
  | pm_ntg => js "ntg"
  | pm_hybrid => js "hybrid"
  | pm_baseline_rag => js "baseline_rag"
  | pm_baseline => js "baseline"
  end.

Record QueryRequest : Type := mkQueryRequest {
  req_question : jsstring;
  req_preferredMode : PreferredMode;
  req_includeEvidence : bool;
  req_includeBaselineComparison : bool
}.

Record StructuredAnswerCore : Type := mkAnswer {
  answerText : jsstring;
  modeUsed : AnswerMode;
  queryType : QueryType;
  confidence : JsNum;
  entitiesUsed : list jsstring;
  eventsUsed : list jsstring;
  stateChangesUsed : list jsstring;
  evidenceRefs : list jsstring;
  reasoningNotes : jsstring
}.

(** [QueryResponse = StructuredAnswerCore & { question, baselineComparison }];
    the spread answer is the field [resp_answer]. *)
Record QueryResponse : Type := mkQueryResponse {
  resp_question : jsstring;
  resp_answer : StructuredAnswerCore;
  baselineComparison : option StructuredAnswerCore
}.

Definition clampConfidence (value : JsNum) : JsNum :=
  if negb (isFinite value) then JsFinite 0
  else jsMax (JsFinite 0) (jsMin (JsFinite 1) value).

(** The loop of [uniqueStrings], with the set [seen] as an explicit
    argument; [out] is the list of values pushed, in order. *)
Fixpoint uniqueStringsFrom (seen : list jsstring) (values : list jsstring)
  : list jsstring :=
  match values with
  | [] => []
  | value :: rest =>
      let v := trim value in
      if isEmpty v || mem v seen then uniqueStringsFrom seen rest
      else v :: uniqueStringsFrom (v :: seen) rest
  end.

Definition uniqueStrings (values : list jsstring) : list jsstring :=
  uniqueStringsFrom [] values.

(** The id lists of a [StructuredAnswerCore] are arrays by their type, so
    the [?? []] defaults of the source are not reached. *)
Definition normalizeStructuredAnswer (input : StructuredAnswerCore)
  : StructuredAnswerCore :=
  {| answerText := trim (answerText input);
     modeUsed := modeUsed input;
     queryType := queryType input;
     confidence := clampConfidence (confidence input);
     entitiesUsed := uniqueStrings (entitiesUsed input);
     eventsUsed := uniqueStrings (eventsUsed input);
     stateChangesUsed := uniqueStrings (stateChangesUsed input);
     evidenceRefs := uniqueStrings (evidenceRefs input);
     reasoningNotes := trim (reasoningNotes input) |}.

(** What [validateApiAnswerPayload] checks of a typed answer: the enums and
    the arrays hold by typing, the confidence must be finite and in [0,1]. *)
Definition validConfidence (c : JsNum) : bool :=
  match c with
  | JsFinite q => Qle_bool 0 q && Qle_bool q 1
  | _ => false
  end.

Definition validAnswer (a : StructuredAnswerCore) : bool :=
  validConfidence (confidence a).

(* ================================================================== *)
(** ** Helpers shared by the answer builders (answers/shared.ts) *)
(* ================================================================== *)

Inductive MatchKind : Type := mk_canonical | mk_alias | mk_hint.

Record DetectedEntityMention : Type := mkMention {
  entityId : jsstring;
  canonicalName : jsstring;
  entityType : jsstring;
  matchedText : jsstring;
  matchKind : MatchKind;
  startIndex : nat
}.

Record AnswerBuilderContext : Type := mkContext {
  ctx_question : jsstring;
  ctx_queryType : QueryType;
  ctx_routeReasoning : jsstring;
  ctx_entities : list DetectedEntityMention;
  ctx_includeEvidence : bool
}.

Definition isLowerAlnum (c : N) : bool :=
  let z := Z.of_N c in
  ((97 <=? z) && (z <=? 122) || (48 <=? z) && (z <=? 57))%Z.

(** [s.split(/\s+/)]: the pieces between maximal runs of whitespace. *)
Fixpoint splitWhitespace (s : jsstring) (cur : jsstring) (prevWs : bool)
  : list jsstring :=
  match s with
  | [] => [rev cur]
  | c :: t =>
      if isWhitespace c
      then (if prevWs then splitWhitespace t cur true
            else rev cur :: splitWhitespace t [] true)
      else splitWhitespace t (c :: cur) false
  end.

Definition tokenize (text : jsstring) : list jsstring :=
  let lowered := toLowerCase text in
  let cleaned :=
    List.map (fun c => if isLowerAlnum c || isWhitespace c || N.eqb c 39
                       then c else 32%N) lowered in
  List.filter (fun token => Nat.leb 2 (List.length token))
    (List.map trim (splitWhitespace cleaned [] false)).

Definition overlapScore (query text : jsstring) : nat :=
  let qTokens := tokenize query in
  if Nat.eqb (List.length qTokens) 0 then 0
  else
    let tTokens := tokenize text in
    if Nat.eqb (List.length tTokens) 0 then 0
    else
      let hits := List.length (List.filter (fun token => mem token qTokens) tTokens) in
      let substringBonus :=
        if includes (toLowerCase text) (toLowerCase (trim query)) then 2 else 0 in
      hits + substringBonus.

Definition displayEntityList (names : list jsstring) (maxItems : nat) : jsstring :=
  let items := List.filter (fun n => negb (isEmpty n)) names in
  if Nat.eqb (List.length items) 0 then js "no matched entities"
  else if Nat.leb (List.length items) maxItems then join (js ", ") items
  else join (js ", ") (firstn maxItems items)
         ++ js " (+" ++ natToString (List.length items - maxItems) ++ js " more)".

Definition EVIDENCE_OMITTED_PROBE : jsstring := js "Evidence refs omitted by request".
Definition EVIDENCE_OMITTED_NOTE : jsstring := js "Evidence refs omitted by request.".

Definition setEvidenceAndNotes (a : StructuredAnswerCore)
    (refs : list jsstring) (notes : jsstring) : StructuredAnswerCore :=
  {| answerText := answerText a;
     modeUsed := modeUsed a;
     queryType := queryType a;
     confidence := confidence a;
     entitiesUsed := entitiesUsed a;
     eventsUsed := eventsUsed a;
     stateChangesUsed := stateChangesUsed a;
     evidenceRefs := refs;
     reasoningNotes := notes |}.

Definition setReasoningNotes (a : StructuredAnswerCore) (notes : jsstring)
  : StructuredAnswerCore :=
  setEvidenceAndNotes a (evidenceRefs a) notes.

Definition setEvidenceRefs (a : StructuredAnswerCore) (refs : list jsstring)
  : StructuredAnswerCore :=
  setEvidenceAndNotes a refs (reasoningNotes a).

Definition maybeStripEvidence (answer : StructuredAnswerCore)
    (includeEvidence : bool) : StructuredAnswerCore :=
  if includeEvidence then answer
  else setEvidenceAndNotes answer []
         (if includes (reasoningNotes answer) EVIDENCE_OMITTED_PROBE
          then reasoningNotes answer
          else reasoningNotes answer ++ js " " ++ EVIDENCE_OMITTED_NOTE).

(** [Partial<StructuredAnswerCore>]: every field may be absent. *)
Record AnswerOverrides : Type := mkOverrides {
  ov_answerText : option jsstring;
  ov_modeUsed : option AnswerMode;
  ov_queryType : option QueryType;
  ov_confidence : option JsNum;
  ov_entitiesUsed : option (list jsstring);
  ov_eventsUsed : option (list jsstring);
  ov_stateChangesUsed : option (list jsstring);
  ov_evidenceRefs : option (list jsstring);
  ov_reasoningNotes : option jsstring
}.

Definition noOverrides : AnswerOverrides :=
  mkOverrides None None None None None None None None None.

(** [a ?? b]. *)
Definition orElse {A : Type} (a : option A) (b : A) : A :=
  match a with Some x => x | None => b end.

Definition mergeAnswerCores (primary secondary : StructuredAnswerCore)
    (overrides : AnswerOverrides) : StructuredAnswerCore :=
  {| answerText := orElse (ov_answerText overrides) (answerText primary);
     modeUsed := orElse (ov_modeUsed overrides) (modeUsed primary);
     queryType := orElse (ov_queryType overrides) (queryType primary);
     confidence :=
       orElse (ov_confidence overrides)
         (jsMul (jsMax (confidence primary) (confidence secondary))
                (JsFinite 0.95%Q));
     entitiesUsed :=
       uniqueStrings (orElse (ov_entitiesUsed overrides) []
                      ++ entitiesUsed primary ++ entitiesUsed secondary);
     eventsUsed :=
       uniqueStrings (orElse (ov_eventsUsed overrides) []
                      ++ eventsUsed primary ++ eventsUsed secondary);
     stateChangesUsed :=
       uniqueStrings (orElse (ov_stateChangesUsed overrides) []
                      ++ stateChangesUsed primary ++ stateChangesUsed secondary);
     evidenceRefs :=
       uniqueStrings (orElse (ov_evidenceRefs overrides) []
                      ++ evidenceRefs primary ++ evidenceRefs secondary);
     reasoningNotes :=
       orElse (ov_reasoningNotes overrides)
         (trim (reasoningNotes primary ++ js " " ++ reasoningNotes secondary)) |}.

(* ================================================================== *)
(** ** The query router (queryRouter.ts) *)
(* ================================================================== *)

Module Router.

Record QuerySignals : Type := mkSignals {
  questionLower : jsstring;
  hasWho : bool;
  hasWhat : bool;
  hasWhen : bool;
  hasWhy : bool;
  hasHow : bool;
  mentionsEvidence : bool;
  mentionsCompare : bool;
  mentionsRag : bool;
  mentionsStateChange : bool;
  mentionsRelationship : bool;
  mentionsTimeline : bool;
  mentionsCause : bool;
  mentionsSequence : bool
}.

Record QueryRouteDecision : Type := mkRoute {
  route_queryType : QueryType;
  route_modeUsed : AnswerMode;
  route_reasoning : jsstring;
  route_signals : QuerySignals;
  route_entityCount : nat
}.

Definition EVIDENCE_KEYWORDS : list jsstring :=
  [js "evidence"; js "supporting scene"; js "supporting scenes";
   js "supporting evidence"; js "what supports"; js "show supporting";
   js "show proof"; js "cite"; js "cites"; js "proof"; js "which scene";
   js "which scenes"].

Definition COMPARISON_KEYWORDS : list jsstring :=
  [js "compare"; js "comparison"; js "versus"; js "vs "; js "vs.";
   js "baseline"; js "rag"; js "not just rag"; js "why is this not just rag"].

Definition STATE_CHANGE_KEYWORDS : list jsstring :=
  [js "relationship"; js "change over time"; js "changes over time";
   js "how does"; js "trust"; js "fear"; js "distance"; js "loyalty";
   js "respect"; js "resentment"; js "state change"; js "trajectory"].

Definition TIMELINE_KEYWORDS : list jsstring :=
  [js "timeline"; js "over time"; js "in order"; js "sequence"; js "before";
   js "after"; js "when does"; js "when did"; js "what happens first";
   js "what happens next"].

Definition CAUSAL_KEYWORDS : list jsstring :=
  [js "lead up"; js "leads up"; js "leads to"; js "what events lead";
   js "contributes to"; js "contribute to"; js "cause"; js "caused";
   js "why did"; js "what makes"; js "because"].

(** [\w] of a regular expression without the unicode flag. *)
Definition isWordChar (c : N) : bool :=
  let z := Z.of_N c in
  ((97 <=? z) && (z <=? 122) || (65 <=? z) && (z <=? 90)
   || (48 <=? z) && (z <=? 57) || (z =? 95))%Z.

Definition notWordChar (c : option N) : bool :=
  match c with None => true | Some x => negb (isWordChar x) end.

(** [/\bw\b/.test(s)] for a word [w] made of word characters: [prev] is the
    code unit before [s], if any. *)
Fixpoint testWord (prev : option N) (s w : jsstring) : bool :=
  (notWordChar prev && startsWith s w
     && notWordChar (nth_error s (List.length w)))
  || match s with
     | [] => false
     | c :: t => testWord (Some c) t w
     end.

Definition extractQuerySignals (question : jsstring) : QuerySignals :=
  let q := toLowerCase (trim question) in
  {| questionLower := q;
     hasWho := testWord None q (js "who");
     hasWhat := testWord None q (js "what");
     hasWhen := testWord None q (js "when");
     hasWhy := testWord None q (js "why");
     hasHow := testWord None q (js "how");
     mentionsEvidence := includesAny q EVIDENCE_KEYWORDS;
     mentionsCompare := includesAny q COMPARISON_KEYWORDS;
     mentionsRag := includes q (js "rag");
     mentionsStateChange := includesAny q STATE_CHANGE_KEYWORDS;
     mentionsRelationship :=
       includes q (js "relationship") || includes q (js "connected to")
       || includes q (js "connected with");
     mentionsTimeline := includesAny q TIMELINE_KEYWORDS;
     mentionsCause := includesAny q CAUSAL_KEYWORDS;
     mentionsSequence :=
       includes q (js "sequence") || includes q (js "in order")
       || includes q (js "chronolog") || includes q (js "timeline") |}.

Definition classifyQueryType (question : jsstring) : QueryType :=
  let s := extractQuerySignals question in
  let q := questionLower s in
  if mentionsCompare s then comparison
  else if mentionsEvidence s
          || (startsWith q (js "show ") && includes q (js "scene"))
  then evidence
  else if includes q (js "relationship with")
          || includes q (js "relationship between")
          || includes q (js "relationship change")
          || includes q (js "state change")
          || (includes q (js "how does") && includes q (js "change over time"))
          || (mentionsStateChange s
              && (includes q (js "how does") || includes q (js "over time")
                  || includes q (js "trajectory")))
  then state_change
  else if mentionsCause s then causal_chain
  else if mentionsTimeline s || hasWhen s || mentionsSequence s then timeline
  else fact.

(** The membership test of [normalizePreferredMode]: the raw string is one of
    the six mode names, and is then used as a [PreferredMode]. *)
Definition parsePreferredMode (raw : jsstring) : option PreferredMode :=
  if str_eqb raw (js "auto") then Some pm_auto
  else if str_eqb raw (js "kg") then Some pm_kg
  else if str_eqb raw (js "ntg") then Some pm_ntg
  else if str_eqb raw (js "hybrid") then Some pm_hybrid
  else if str_eqb raw (js "baseline_rag") then Some pm_baseline_rag
  else if str_eqb raw (js "baseline") then Some pm_baseline
  else None.

(** [preferredMode] is a mode name, any other string, or [undefined]. *)
Definition normalizePreferredMode (preferredMode : option jsstring)
  : PreferredMode :=
  let raw := toLowerCase (trim (orElse preferredMode (js "auto"))) in
  orElse (parsePreferredMode raw) pm_auto.

Record ModeSelection : Type := mkSelection {
  sel_modeUsed : AnswerMode;
  sel_reasoning : jsstring
}.

Definition selectModeForQueryType (queryType : QueryType)
    (preferredMode : option jsstring) (entityCountOpt : option nat)
  : ModeSelection :=
  let preferred := normalizePreferredMode preferredMode in
  let entityCount := orElse entityCountOpt 0 in
  let override (m : AnswerMode) :=
    mkSelection m (js "User preferred " ++ preferredModeName preferred
                     ++ js " mode override.") in
  match preferred with
  | pm_baseline =>
      mkSelection baseline_rag (js "User preferred baseline mode override.")
  | pm_kg => override kg
  | pm_ntg => override ntg
  | pm_hybrid => override hybrid
  | pm_baseline_rag => override baseline_rag
  | pm_auto =>
      match queryType with
      | fact =>
          mkSelection kg
            (if Nat.ltb 0 entityCount
             then js "Fact-style query with entity mention routes to KG."
             else js "Fact-style query defaults to KG lookup.")
      | timeline =>
          mkSelection ntg
            (js "Timeline/order query depends on event chronology and temporal edges (NTG).")
      | state_change =>
          mkSelection ntg
            (js "State-change query depends on inferred relationship shifts over time (NTG).")
      | causal_chain =>
          mkSelection hybrid
            (js "Causal-chain query benefits from NTG chronology plus KG entity context (hybrid).")
      | evidence =>
          mkSelection hybrid
            (js "Evidence query can require tracing prior answer structures plus source snippets (hybrid).")
      | comparison =>
          mkSelection hybrid
            (js "Comparison query is best answered by contrasting graph and baseline behavior (hybrid).")
      end
  end.

Definition routeQuery (question : jsstring)
    (preferredMode : option jsstring) (entityCount : option nat)
  : QueryRouteDecision :=
  let signals := extractQuerySignals question in
  let queryType := classifyQueryType question in
  let selected := selectModeForQueryType queryType preferredMode entityCount in
  {| route_queryType := queryType;
     route_modeUsed := sel_modeUsed selected;
     route_reasoning := sel_reasoning selected;
     route_signals := signals;
     route_entityCount := orElse entityCount 0 |}.

End Router.
Export Router.

(* ================================================================== *)
(** ** Array helpers *)
(* ================================================================== *)

(** [String.prototype.localeCompare] of the host. *)
Definition Collator : Type := jsstring -> jsstring -> Z.

Section ArrayHelpers.
Variable A : Type.

(** [Array.prototype.sort] with a comparator is stable: an element goes
    before the first element it compares less than or equal to. *)
Fixpoint insertBy (cmp : A -> A -> Z) (x : A) (l : list A) : list A :=
  match l with
  | [] => [x]
  | y :: l' => if (cmp x y <=? 0)%Z then x :: l else y :: insertBy cmp x l'
  end.

Fixpoint sortBy (cmp : A -> A -> Z) (l : list A) : list A :=
  match l with
  | [] => []
  | x :: l' => insertBy cmp x (sortBy cmp l')
  end.

(** [l.map((row, idx) => f(row, idx))], the index starting at [i]. *)
Fixpoint mapiFrom (B : Type) (i : nat) (f : A -> nat -> B) (l : list A)
  : list B :=
  match l with
  | [] => []
  | x :: l' => f x i :: mapiFrom (S i) f l'
  end.
End ArrayHelpers.

Definition mapi {A B : Type} (f : A -> nat -> B) (l : list A) : list B :=
  mapiFrom 0 f l.

(** Comparison of strings by code units (the default order of [sort()]). *)
Fixpoint str_leb (a b : jsstring) : bool :=
  match a, b with
  | [], _ => true
  | _ :: _, [] => false
  | x :: a', y :: b' =>
      if N.ltb x y then true else if N.ltb y x then false else str_leb a' b'
  end.

(* ================================================================== *)
(** ** The graph-neighbourhood store and its builder
       (kgData.ts read API, answers/kgAnswer.ts) *)
(* ================================================================== *)

Module KgBuilder.

Record Entity : Type := mkEntity {
  ent_entityId : jsstring;
  ent_canonicalName : jsstring;
  ent_entityType : jsstring
}.

Record KGEdge : Type := mkEdge {
  edge_edgeId : jsstring;
  edge_objectId : jsstring;
  edge_predicate : jsstring;
  edge_stability : jsstring;
  edge_evidenceRefs : list jsstring
}.

Inductive Direction : Type := outgoing | incoming.

Record KGNeighbor : Type := mkNeighbor {
  nb_direction : Direction;
  nb_edge : KGEdge;
  nb_neighbor : option Entity
}.

(** The store as the builder reads it: whether the artifacts were loaded,
    and what the two read calls answer when they were. *)
Record KgStore : Type := mkKgStore {
  kg_available : bool;
  kg_entityOf : jsstring -> option Entity;
  kg_neighborsOf : jsstring -> list KGNeighbor;
  kg_search : jsstring -> list Entity
}.

Record NeighborsResult : Type := mkNeighborsResult {
  nr_available : bool;
  nr_entity : option Entity;
  nr_neighbors : list KGNeighbor
}.

Definition getEntityNeighbors (store : KgStore) (id : jsstring)
  : NeighborsResult :=
  if negb (kg_available store) then mkNeighborsResult false None []
  else match kg_entityOf store id with
       | None => mkNeighborsResult true None []
       | Some e => mkNeighborsResult true (Some e) (kg_neighborsOf store id)
       end.

Record EntitiesResult : Type := mkEntitiesResult {
  er_available : bool;
  er_items : list Entity
}.

Definition listEntities (store : KgStore) (q : jsstring) (limit : nat)
  : EntitiesResult :=
  if negb (kg_available store) then mkEntitiesResult false []
  else mkEntitiesResult true (firstn (Nat.max 1 (Nat.min limit 500))
                                     (kg_search store q)).

Definition predicateWeight (predicate : jsstring) : nat :=
  let p := toLowerCase predicate in
  if str_eqb p (js "family") then 100
  else if str_eqb p (js "associated_with") then 95
  else if str_eqb p (js "works_with") || str_eqb p (js "allied_with") then 90
  else if str_eqb p (js "advisor_to") || str_eqb p (js "counsel_to") then 85
  else if str_eqb p (js "co_present_dialogue") then 50
  else 60.

Definition neighborName (row : KGNeighbor) : jsstring :=
  match nb_neighbor row with
  | Some n => ent_canonicalName n
  | None => edge_edgeId (nb_edge row)
  end.

Definition rankCompare (localeCompare : Collator) (a b : KGNeighbor) : Z :=
  let aw := predicateWeight (edge_predicate (nb_edge a)) in
  let bw := predicateWeight (edge_predicate (nb_edge b)) in
  if negb (Nat.eqb aw bw) then (Z.of_nat bw - Z.of_nat aw)%Z
  else localeCompare (neighborName a) (neighborName b).

Definition isCharacterRow (row : KGNeighbor) : bool :=
  match nb_neighbor row with
  | Some n => str_eqb (ent_entityType n) (js "character")
  | None => false
  end.

Definition neighborLine (row : KGNeighbor) (idx : nat) : jsstring :=
  let neighborLabel :=
    match nb_neighbor row with
    | Some n => ent_canonicalName n ++ js " (" ++ ent_entityType n ++ js ")"
    | None => edge_objectId (nb_edge row)
    end in
  let dir := match nb_direction row with outgoing => js "out" | incoming => js "in" end in
  let evidenceCount := List.length (edge_evidenceRefs (nb_edge row)) in
  natToString (idx + 1) ++ js ". [" ++ dir ++ js "] "
    ++ edge_predicate (nb_edge row) ++ js " -> " ++ neighborLabel
    ++ js " [" ++ edge_stability (nb_edge row) ++ js "]"
    ++ (if Nat.eqb evidenceCount 0 then []
        else js ", evidence refs: " ++ natToString evidenceCount).

Definition LF : jsstring := [10%N].

Definition kgUnavailableAnswer (context : AnswerBuilderContext)
  : StructuredAnswerCore :=
  {| answerText := js "KG artifacts are unavailable. Run the Phase 2 entity/KG builders and retry.";
     modeUsed := kg;
     queryType := ctx_queryType context;
     confidence := JsFinite 0.1%Q;
     entitiesUsed := List.map entityId (ctx_entities context);
     eventsUsed := [];
     stateChangesUsed := [];
     evidenceRefs := [];
     reasoningNotes := js "KG answer builder depends on entities.json and kg_edges.json." |}.

Definition kgNeighborhoodAnswer (localeCompare : Collator)
    (context : AnswerBuilderContext) (entity : Entity)
    (neighbors : list KGNeighbor) : StructuredAnswerCore :=
  let ranked := sortBy (rankCompare localeCompare) neighbors in
  let rows := firstn 8 ranked in
  let characterRows := List.filter isCharacterRow rows in
  let emphasisRows :=
    if Nat.leb 3 (List.length characterRows) then firstn 6 characterRows else rows in
  let answerLines :=
    (js "KG view of " ++ ent_canonicalName entity ++ js ": "
       ++ natToString (List.length emphasisRows)
       ++ js " high-signal relationship(s) from the local graph artifact.")
    :: mapi neighborLine emphasisRows
    ++ (if Nat.ltb (List.length emphasisRows) (List.length ranked)
        then [js "Additional relationships omitted for brevity: "
                ++ natToString (List.length ranked - List.length emphasisRows)
                ++ js "."]
        else []) in
  {| answerText := join LF answerLines;
     modeUsed := kg;
     queryType := ctx_queryType context;
     confidence :=
       jsMin (JsFinite 0.95%Q)
             (jsAdd (JsFinite 0.55%Q)
                    (jsMul (ofNat (List.length emphasisRows)) (JsFinite 0.05%Q)));
     entitiesUsed :=
       ent_entityId entity
       :: flat_map (fun row => match nb_neighbor row with
                               | Some n => [ent_entityId n]
                               | None => []
                               end) emphasisRows;
     eventsUsed := [];
     stateChangesUsed := [];
     evidenceRefs := flat_map (fun row => edge_evidenceRefs (nb_edge row)) emphasisRows;
     reasoningNotes :=
       js "KG mode returns canonical entities and relationship edges (static/semi-stable/volatile) without timeline sequencing." |}.

Definition kgFallbackAnswer (store : KgStore) (context : AnswerBuilderContext)
  : StructuredAnswerCore :=
  let entitySearch := listEntities store (ctx_question context) 8 in
  let topEntities :=
    if er_available entitySearch then firstn 5 (er_items entitySearch) else [] in
  let found := negb (Nat.eqb (List.length topEntities) 0) in
  let fallbackLines :=
    (if found
     then js "KG entity search candidates for this question (no direct focus entity detected):"
     else js "No direct entity match detected for this fact-style query.")
    :: mapi (fun e idx =>
               natToString (idx + 1) ++ js ". " ++ ent_canonicalName e
                 ++ js " (" ++ ent_entityType e ++ js ") ["
                 ++ ent_entityId e ++ js "]") topEntities
    ++ [if found
        then js "Ask with a specific entity name (for example " ++ [34%N]
               ++ js "Frank Sheeran" ++ [34%N] ++ js " or " ++ [34%N]
               ++ js "Jimmy Hoffa" ++ [34%N] ++ js ") for relationship neighbors."
        else js "Try including a specific person or organization name to retrieve KG relationships."] in
  {| answerText := join LF (List.map (fun line => truncate line 220) fallbackLines);
     modeUsed := kg;
     queryType := ctx_queryType context;
     confidence := if found then JsFinite 0.42%Q else JsFinite 0.2%Q;
     entitiesUsed :=
       List.map entityId (ctx_entities context) ++ List.map ent_entityId topEntities;
     eventsUsed := [];
     stateChangesUsed := [];
     evidenceRefs := [];
     reasoningNotes :=
       js "KG mode fell back to entity-name search because no specific graph neighborhood target was detected." |}.

Definition buildKgAnswer (localeCompare : Collator) (store : KgStore)
    (context : AnswerBuilderContext) : StructuredAnswerCore :=
  if negb (kg_available store)
  then maybeStripEvidence (kgUnavailableAnswer context) (ctx_includeEvidence context)
  else
    let fallback :=
      maybeStripEvidence (kgFallbackAnswer store context)
                         (ctx_includeEvidence context) in
    match ctx_entities context with
    | focusMention :: _ =>
        let neighborhood := getEntityNeighbors store (entityId focusMention) in
        match nr_available neighborhood, nr_entity neighborhood with
        | true, Some entity =>
            maybeStripEvidence
              (kgNeighborhoodAnswer localeCompare context entity
                                    (nr_neighbors neighborhood))
              (ctx_includeEvidence context)
        | _, _ => fallback
        end
    | [] => fallback
    end.

End KgBuilder.
Export KgBuilder.

(* ================================================================== *)
(** ** The narrative-trace store (ntgData.ts read API) *)
(* ================================================================== *)

Module NtgStoreApi.

(** An event, with the fields the builders read.  [ev_firstSnippet] is
    [String(metadata.evidence_spans[0]?.snippet ?? '')], the empty string
    when there is no span. *)
Record EventRecord : Type := mkEvent {
  ev_eventId : jsstring;
  ev_sceneId : jsstring;
  ev_eventTypeL2 : jsstring;
  ev_summary : jsstring;
  ev_sequenceInScene : Z;
  ev_participantIds : list jsstring;
  ev_firstSnippet : jsstring;
  ev_evidenceRefs : list jsstring
}.

Record StateChangeRecord : Type := mkStateChange {
  sc_stateChangeId : jsstring;
  sc_subjectId : jsstring;
  sc_objectId : jsstring;
  sc_sceneId : jsstring;
  sc_stateDimension : jsstring;
  sc_direction : jsstring;
  sc_magnitude : option jsstring;
  sc_claimType : jsstring;
  sc_confidence : JsNum;
  sc_ruleIds : option (list jsstring);
  sc_evidenceRefs : list jsstring
}.

Record ScriptBlock : Type := mkBlock {
  blk_blockId : jsstring;
  blk_sceneId : jsstring;
  blk_blockType : jsstring;
  blk_text : jsstring;
  blk_speakerCueRaw : option jsstring
}.

(** A row of [listStateChanges]: [sci_subjectName] is
    [subject?.canonicalName], [sci_sceneHeader] is [scene?.headerRaw]. *)
Record StateChangeItem : Type := mkStateChangeItem {
  sci_stateChange : StateChangeRecord;
  sci_subjectName : option jsstring;
  sci_objectName : option jsstring;
  sci_sceneHeader : option jsstring;
  sci_triggerEvents : list EventRecord
}.

(** A row of [listTraceExplorerEvents]. *)
Record TraceExplorerRow : Type := mkTraceRow {
  tr_event : EventRecord;
  tr_sceneHeader : option jsstring;
  tr_participantIds : list jsstring;
  tr_stateChangesTriggered : list jsstring
}.

(** A scene of [getTimelineSlice]. *)
Record TimelineSceneRow : Type := mkSceneRow {
  ts_sceneId : jsstring;
  ts_headerRaw : jsstring;
  ts_yearExplicit : option Z;
  ts_yearInferred : option Z;
  ts_year : option Z;
  ts_events : list EventRecord;
  ts_matchingEventCount : nat;
  ts_matchingStateChangeCount : nat
}.

Record ListStateChangesOptions : Type := mkScOptions {
  sco_pair : option jsstring;
  sco_entityId : option jsstring;
  sco_limit : nat
}.

Record TraceExplorerOptions : Type := mkTraceOptions {
  teo_q : option jsstring;
  teo_entityId : option jsstring;
  teo_pair : option jsstring;
  teo_year : option Z;
  teo_limit : nat
}.

Record TimelineOptions : Type := mkTimelineOptions {
  tlo_q : option jsstring;
  tlo_entityId : option jsstring;
  tlo_pair : option jsstring;
  tlo_year : option Z;
  tlo_limitScenes : nat
}.

(** The store as the builders read it: whether the artifacts were loaded,
    the three collections of [loadNtgArtifacts], and what the three list
    calls answer when the artifacts are there ([ntg_stateChangeRows] gives
    the rows and the count [filtered]). *)
Record NtgStore : Type := mkNtgStore {
  ntg_available : bool;
  ntg_events : list EventRecord;
  ntg_stateChanges : list StateChangeRecord;
  ntg_scriptBlocks : list ScriptBlock;
  ntg_stateChangeRows : ListStateChangesOptions -> list StateChangeItem * nat;
  ntg_traceRows : TraceExplorerOptions -> list TraceExplorerRow;
  ntg_timelineScenes : TimelineOptions -> list TimelineSceneRow
}.

Record StateChangesResult : Type := mkScResult {
  scr_available : bool;
  scr_items : list StateChangeItem;
  scr_filtered : nat
}.

Record TraceRowsResult : Type := mkTraceResult {
  trr_available : bool;
  trr_items : list TraceExplorerRow
}.

Record TimelineResult : Type := mkTimelineResult {
  tlr_available : bool;
  tlr_scenes : list TimelineSceneRow
}.

Definition listStateChanges (store : NtgStore) (options : ListStateChangesOptions)
  : StateChangesResult :=
  if negb (ntg_available store) then mkScResult false [] 0
  else mkScResult true (fst (ntg_stateChangeRows store options))
                       (snd (ntg_stateChangeRows store options)).

Definition listTraceExplorerEvents (store : NtgStore)
    (options : TraceExplorerOptions) : TraceRowsResult :=
  if negb (ntg_available store) then mkTraceResult false []
  else mkTraceResult true (ntg_traceRows store options).

Definition getTimelineSlice (store : NtgStore) (options : TimelineOptions)
  : TimelineResult :=
  if negb (ntg_available store) then mkTimelineResult false []
  else mkTimelineResult true (ntg_timelineScenes store options).

End NtgStoreApi.
Export NtgStoreApi.

(* ================================================================== *)
(** ** The narrative-trace builder (answers/traceAnswer.ts) *)
(* ================================================================== *)

Module TraceBuilder.

Definition contextEntityIds (context : AnswerBuilderContext) : list jsstring :=
  List.map entityId (ctx_entities context).

Definition contextEntityNames (context : AnswerBuilderContext) : list jsstring :=
  List.map canonicalName (ctx_entities context).

Definition pairFromContext (context : AnswerBuilderContext) : option jsstring :=
  match ctx_entities context with
  | e0 :: e1 :: _ =>
      let a := entityId e0 in
      let b := entityId e1 in
      Some (if str_leb a b then a ++ js "::" ++ b else b ++ js "::" ++ a)
  | _ => None
  end.

Definition isDigit (c : N) : bool :=
  let z := Z.of_N c in ((48 <=? z) && (z <=? 57))%Z.

Definition digitValue (c : N) : Z := (Z.of_N c - 48)%Z.

(** One attempt of [/\b(19\d{2}|20\d{2})\b/] at the start of [s], the code
    unit before it being [prev]. *)
Definition yearAt (prev : option N) (s : jsstring) : option Z :=
  match s with
  | a :: b :: c :: d :: rest =>
      if notWordChar prev
         && ((N.eqb a 49 && N.eqb b 57) || (N.eqb a 50 && N.eqb b 48))
         && isDigit c && isDigit d && notWordChar (List.hd_error rest)
      then Some (1000 * digitValue a + 100 * digitValue b
                 + 10 * digitValue c + digitValue d)%Z
      else None
  | _ => None
  end.

Fixpoint findYear (prev : option N) (s : jsstring) : option Z :=
  match yearAt prev s with
  | Some y => Some y
  | None => match s with
            | [] => None
            | c :: t => findYear (Some c) t
            end
  end.

Definition qLooksLikeYear (q : jsstring) : option Z := findYear None q.

Definition traceTextFilterFromQuestion (context : AnswerBuilderContext)
  : option jsstring :=
  let question := trim (ctx_question context) in
  if isEmpty question then None
  else if QueryType_eqb (ctx_queryType context) timeline then None
  else Some question.

Definition numToFixed2 (v : JsNum) : jsstring :=
  match v with
  | JsFinite q => toFixed2 q
  | JsNaN => js "NaN"
  | JsPosInf => js "Infinity"
  | JsNegInf => js "-Infinity"
  end.

Definition ntgAnswer (context : AnswerBuilderContext) (qt : QueryType)
    (text : jsstring) (conf : JsNum) (extraEntities events stateChanges refs : list jsstring)
    (notes : jsstring) : StructuredAnswerCore :=
  {| answerText := text;
     modeUsed := ntg;
     queryType := qt;
     confidence := conf;
     entitiesUsed := contextEntityIds context ++ extraEntities;
     eventsUsed := events;
     stateChangesUsed := stateChanges;
     evidenceRefs := refs;
     reasoningNotes := notes |}.

Definition triggerLabel (event : EventRecord) : jsstring :=
  ev_eventTypeL2 event ++ js " (" ++ ev_sceneId event ++ js "/"
    ++ intToString (ev_sequenceInScene event) ++ js ")".

Definition stateChangeLine (item : StateChangeItem) : jsstring :=
  let sc := sci_stateChange item in
  let subject := orElse (sci_subjectName item) (sc_subjectId sc) in
  let object := orElse (sci_objectName item) (sc_objectId sc) in
  let sceneLabel := orElse (sci_sceneHeader item) (sc_sceneId sc) in
  let triggerList :=
    join (js "; ") (List.map triggerLabel (firstn 2 (sci_triggerEvents item))) in
  js "- " ++ subject ++ js " -> " ++ object ++ js ": "
    ++ sc_stateDimension sc ++ js " " ++ sc_direction sc
    ++ match sc_magnitude sc with
       | Some m => if isEmpty m then [] else js " (" ++ m ++ js ")"
       | None => []
       end
    ++ js " [" ++ sc_claimType sc ++ js "] in " ++ sceneLabel
    ++ js " (conf " ++ numToFixed2 (sc_confidence sc) ++ js ")."
    ++ (if isEmpty triggerList then []
        else js " Triggers: " ++ triggerList ++ js ".").

Definition stateChangesUnavailableAnswer (context : AnswerBuilderContext)
  : StructuredAnswerCore :=
  ntgAnswer context (ctx_queryType context)
    (js "NTG state-change artifacts are unavailable. Run Phase 4 generation and retry.")
    (JsFinite 0.12%Q) [] [] [] []
    (js "State-change answer builder depends on state_changes.json and supporting NTG artifacts.").

Definition summarizeStateChangesAnswer (context : AnswerBuilderContext)
    (rows : StateChangesResult) : StructuredAnswerCore :=
  if negb (scr_available rows) then
    maybeStripEvidence (stateChangesUnavailableAnswer context)
                       (ctx_includeEvidence context)
  else
    let top := firstn 8 (scr_items rows) in
    if Nat.eqb (List.length top) 0 then
      maybeStripEvidence
        (ntgAnswer context (ctx_queryType context)
           (js "No inferred state changes matched the current question filters. Try specifying a relationship pair (for example Frank and Peggy) or a dimension like trust/fear/distance.")
           (JsFinite 0.25%Q) [] [] [] []
           (js "NTG state-change retrieval returned zero rows for the inferred pair/entity filters."))
        (ctx_includeEvidence context)
    else
      let lines :=
        (js "NTG state-change view (" ++ natToString (List.length top) ++ js " of "
           ++ natToString (scr_filtered rows) ++ js " matching changes) for "
           ++ displayEntityList (contextEntityNames context) 4 ++ js ".")
        :: List.map stateChangeLine top
        ++ (if Nat.ltb (List.length top) (scr_filtered rows)
            then [js "Additional matching state changes omitted: "
                    ++ natToString (scr_filtered rows - List.length top) ++ js "."]
            else []) in
      maybeStripEvidence
        (ntgAnswer context (ctx_queryType context)
           (join LF (List.map (fun line => truncate line 320) lines))
           (jsMin (JsFinite 0.92%Q)
                  (jsAdd (JsFinite 0.58%Q)
                         (jsMul (ofNat (List.length top)) (JsFinite 0.04%Q))))
           (flat_map (fun item => [sc_subjectId (sci_stateChange item);
                                   sc_objectId (sci_stateChange item)]) top)
           (flat_map (fun item => List.map ev_eventId (sci_triggerEvents item)) top)
           (List.map (fun item => sc_stateChangeId (sci_stateChange item)) top)
           (flat_map (fun item => sc_evidenceRefs (sci_stateChange item)) top)
           (js "NTG mode answered using inferred state changes linked to trigger events and evidence refs; inferred vs explicit claims remain labeled."))
        (ctx_includeEvidence context).

Definition findRow (rows : list TraceExplorerRow) (eventId : jsstring)
  : option TraceExplorerRow :=
  List.find (fun row => str_eqb (ev_eventId (tr_event row)) eventId) rows.

Definition timelineEventLine (traceItems : list TraceExplorerRow)
    (event : EventRecord) : jsstring :=
  let overlayCount :=
    match findRow traceItems (ev_eventId event) with
    | Some row => List.length (tr_stateChangesTriggered row)
    | None => 0
    end in
  let overlayLabel :=
    if Nat.eqb overlayCount 0 then []
    else js ", state overlays=" ++ natToString overlayCount in
  js "   - " ++ ev_eventId event ++ js " " ++ ev_eventTypeL2 event
    ++ js " (#" ++ intToString (ev_sequenceInScene event) ++ overlayLabel
    ++ js "): " ++ truncate (ev_summary event) 160.

Definition optOr {A : Type} (a b : option A) : option A :=
  match a with Some _ => a | None => b end.

Definition timelineSceneLines (traceItems : list TraceExplorerRow)
    (scene : TimelineSceneRow) (idx : nat) : list jsstring :=
  let sceneHeader :=
    if isEmpty (ts_headerRaw scene) then ts_sceneId scene else ts_headerRaw scene in
  let year := optOr (ts_year scene) (optOr (ts_yearExplicit scene) (ts_yearInferred scene)) in
  let matchingTag :=
    if Nat.eqb (ts_matchingEventCount scene) 0
       && Nat.eqb (ts_matchingStateChangeCount scene) 0
    then []
    else js " matched events=" ++ natToString (ts_matchingEventCount scene)
           ++ js ", state changes=" ++ natToString (ts_matchingStateChangeCount scene) in
  (natToString (idx + 1) ++ js ". " ++ ts_sceneId scene ++ js " ["
     ++ match year with Some y => intToString y | None => js "-" end
     ++ js "] " ++ truncate sceneHeader 140 ++ matchingTag)
  :: List.map (timelineEventLine traceItems) (firstn 3 (ts_events scene)).

Definition timelineUnavailableAnswer (context : AnswerBuilderContext)
    (qt : QueryType) : StructuredAnswerCore :=
  ntgAnswer context qt
    (js "NTG artifacts are unavailable. Run Phase 3/4 generation and retry.")
    (JsFinite 0.12%Q) [] [] [] []
    (js "Trace/timeline answer builder depends on events, temporal edges, and scene index artifacts.").

Definition summarizeTimelineLikeAnswer (context : AnswerBuilderContext)
    (qt : QueryType) (traceRows : TraceRowsResult) (timelineRes : TimelineResult)
  : StructuredAnswerCore :=
  if negb (trr_available traceRows) || negb (tlr_available timelineRes) then
    maybeStripEvidence (timelineUnavailableAnswer context qt)
                       (ctx_includeEvidence context)
  else
    let topEvents :=
      firstn (if QueryType_eqb qt causal_chain then 10 else 8) (trr_items traceRows) in
    let topScenes := firstn 6 (tlr_scenes timelineRes) in
    if Nat.eqb (List.length topEvents) 0 && Nat.eqb (List.length topScenes) 0 then
      maybeStripEvidence
        (ntgAnswer context qt
           (js "No matching timeline events were found. Try adding a character name, event type, or year.")
           (JsFinite 0.22%Q) [] [] [] []
           (js "Timeline/event search returned zero rows for the current query filters."))
        (ctx_includeEvidence context)
    else
      let heading :=
        if QueryType_eqb qt causal_chain
        then js "Heuristic event chain (NTG) for "
               ++ displayEntityList (contextEntityNames context) 4 ++ js ":"
        else js "Scene-ordered NTG timeline slice for "
               ++ displayEntityList (contextEntityNames context) 4 ++ js ":" in
      let lines :=
        heading
        :: List.concat (mapi (timelineSceneLines (trr_items traceRows)) topScenes)
        ++ (if QueryType_eqb qt causal_chain
            then [js "This is a heuristic chain assembled from filtered event order and state-change overlays; it is not a formal causal proof."]
            else []) in
      maybeStripEvidence
        (ntgAnswer context qt
           (join LF (List.map (fun line => truncate line 360) lines))
           (jsMin (JsFinite 0.88%Q)
                  (jsAdd (JsFinite 0.5%Q)
                         (jsMul (ofNat (Nat.min (List.length topEvents) 10))
                                (JsFinite 0.03%Q))))
           (flat_map tr_participantIds topEvents)
           (List.map (fun row => ev_eventId (tr_event row)) topEvents)
           (flat_map tr_stateChangesTriggered topEvents)
           (flat_map (fun row => ev_evidenceRefs (tr_event row)) topEvents)
           (if QueryType_eqb qt timeline
            then js "NTG mode answered using scene/event ordering plus temporal edges and evidence-linked event nodes."
            else js "NTG mode provided a heuristic chain using filtered event order and state-change overlays."))
        (ctx_includeEvidence context).

Definition evidenceRowLine (row : TraceExplorerRow) (idx : nat) : jsstring :=
  let snippet := ev_firstSnippet (tr_event row) in
  natToString (idx + 1) ++ js ". " ++ ev_eventId (tr_event row) ++ js " "
    ++ ev_eventTypeL2 (tr_event row) ++ js " in "
    ++ orElse (tr_sceneHeader row) (ev_sceneId (tr_event row))
    ++ js " [refs: " ++ natToString (List.length (ev_evidenceRefs (tr_event row)))
    ++ js "] "
    ++ truncate (if isEmpty snippet then ev_summary (tr_event row) else snippet) 180.

(** The evidence branch of [buildTraceAnswer] once the rows are there. *)
Definition evidenceAnswer (context : AnswerBuilderContext)
    (items : list TraceExplorerRow) : StructuredAnswerCore :=
  let top := firstn 8 items in
  let lines :=
    (js "Evidence-centric NTG response (" ++ natToString (List.length top)
       ++ js " event(s)) for "
       ++ displayEntityList (contextEntityNames context) 4 ++ js ".")
    :: mapi evidenceRowLine top in
  ntgAnswer context evidence
    (join LF lines)
    (if Nat.eqb (List.length top) 0 then JsFinite 0.2%Q
     else jsMin (JsFinite 0.86%Q)
                (jsAdd (JsFinite 0.45%Q)
                       (jsMul (ofNat (List.length top)) (JsFinite 0.04%Q))))
    (flat_map tr_participantIds top)
    (List.map (fun row => ev_eventId (tr_event row)) top)
    (flat_map tr_stateChangesTriggered top)
    (flat_map (fun row => ev_evidenceRefs (tr_event row)) top)
    (js "NTG evidence response selected events and surfaced their evidence refs/snippets directly.").

Definition buildTraceAnswer (store : NtgStore) (context : AnswerBuilderContext)
  : StructuredAnswerCore :=
  let pair := pairFromContext context in
  let primaryEntityId := option_map entityId (List.hd_error (ctx_entities context)) in
  let derivedYear := qLooksLikeYear (ctx_question context) in
  let traceTextFilter := traceTextFilterFromQuestion context in
  match ctx_queryType context with
  | state_change =>
      let rows :=
        listStateChanges store
          {| sco_pair := pair;
             sco_entityId := match pair with Some _ => None | None => primaryEntityId end;
             sco_limit := 40 |} in
      summarizeStateChangesAnswer context rows
  | evidence =>
      let traceRows :=
        listTraceExplorerEvents store
          {| teo_q := Some (ctx_question context);
             teo_entityId := primaryEntityId;
             teo_pair := pair;
             teo_year := derivedYear;
             teo_limit := 14 |} in
      if negb (trr_available traceRows)
      then summarizeTimelineLikeAnswer context evidence traceRows
             (mkTimelineResult false [])
      else maybeStripEvidence (evidenceAnswer context (trr_items traceRows))
                              (ctx_includeEvidence context)
  | _ =>
      let traceRows :=
        listTraceExplorerEvents store
          {| teo_q := traceTextFilter;
             teo_entityId := primaryEntityId;
             teo_pair := pair;
             teo_year := derivedYear;
             teo_limit := 40 |} in
      let timelineRes :=
        getTimelineSlice store
          {| tlo_q := if QueryType_eqb (ctx_queryType context) timeline
                      then traceTextFilter else None;
             tlo_entityId := primaryEntityId;
             tlo_pair := pair;
             tlo_year := derivedYear;
             tlo_limitScenes := 8 |} in
      summarizeTimelineLikeAnswer context (ctx_queryType context) traceRows timelineRes
  end.

End TraceBuilder.
Export TraceBuilder.

(* ================================================================== *)
(** ** The lexical-baseline builder (answers/baselineRagLike.ts) *)
(* ================================================================== *)

Module BaselineBuilder.

Inductive RowSource : Type := src_event | src_script_block | src_state_change.

Definition rowSourceName (s : RowSource) : jsstring :=
  match s with
  | src_event => js "event"
  | src_script_block => js "script_block"
  | src_state_change => js "state_change"
  end.

Record RetrievalRow : Type := mkRow {
  row_source : RowSource;
  row_id : jsstring;
  row_sceneId : jsstring;
  row_text : jsstring;
  row_evidenceRefs : list jsstring;
  row_score : nat
}.

Definition isEventRow (r : RetrievalRow) : bool :=
  match row_source r with src_event => true | _ => false end.

Definition isStateChangeRow (r : RetrievalRow) : bool :=
  match row_source r with src_state_change => true | _ => false end.

Definition eventDocs (context : AnswerBuilderContext) (events : list EventRecord)
  : list RetrievalRow :=
  let ids := List.map entityId (ctx_entities context) in
  flat_map (fun event =>
    let hasEntityMatch :=
      Nat.eqb (List.length ids) 0
      || existsb (fun id => mem id (ev_participantIds event)) ids in
    if negb hasEntityMatch then []
    else
      let text := trim (ev_summary event ++ LF ++ ev_firstSnippet event) in
      [mkRow src_event (ev_eventId event) (ev_sceneId event) text
             (ev_evidenceRefs event)
             (overlapScore (ctx_question context)
                           (ev_eventTypeL2 event ++ js " " ++ text))]) events.

Definition stateChangeDocs (context : AnswerBuilderContext)
    (stateChanges : list StateChangeRecord) : list RetrievalRow :=
  let ids := List.map entityId (ctx_entities context) in
  flat_map (fun sc =>
    let hasEntityMatch :=
      Nat.eqb (List.length ids) 0 || mem (sc_subjectId sc) ids
      || mem (sc_objectId sc) ids in
    if negb hasEntityMatch then []
    else
      let label :=
        sc_stateDimension sc ++ js " " ++ sc_direction sc ++ js " " ++ sc_claimType sc in
      [mkRow src_state_change (sc_stateChangeId sc) (sc_sceneId sc)
             (label ++ js " " ++ sc_subjectId sc ++ js " " ++ sc_objectId sc)
             (sc_evidenceRefs sc)
             (overlapScore (ctx_question context)
                (label ++ js " "
                   ++ match sc_ruleIds sc with
                      | Some ids' => join (js " ") ids'
                      | None => []
                      end))]) stateChanges.

Definition truthy (s : option jsstring) : bool :=
  match s with Some v => negb (isEmpty v) | None => false end.

Definition scriptBlockDocs (context : AnswerBuilderContext)
    (blocks : list ScriptBlock) : list RetrievalRow :=
  flat_map (fun block =>
    let hasEntityMatch :=
      if Nat.eqb (List.length (ctx_entities context)) 0 then true
      else
        let blockLower :=
          toLowerCase (orElse (blk_speakerCueRaw block) [] ++ js " " ++ blk_text block) in
        existsb (fun entity => includes blockLower (toLowerCase (canonicalName entity)))
                (ctx_entities context) in
    if negb hasEntityMatch then []
    else
      [mkRow src_script_block (blk_blockId block) (blk_sceneId block)
             ((if truthy (blk_speakerCueRaw block)
               then orElse (blk_speakerCueRaw block) [] ++ js ": " else [])
              ++ blk_text block)
             []
             (overlapScore (ctx_question context)
                           (blk_blockType block ++ js " " ++ blk_text block))]) blocks.

Definition docCompare (localeCompare : Collator) (a b : RetrievalRow) : Z :=
  let byScore := (Z.of_nat (row_score b) - Z.of_nat (row_score a))%Z in
  if negb (byScore =? 0)%Z then byScore
  else
    let byScene := localeCompare (row_sceneId a) (row_sceneId b) in
    if negb (byScene =? 0)%Z then byScene
    else localeCompare (row_id a) (row_id b).

Definition baselineRowLine (row : RetrievalRow) (idx : nat) : jsstring :=
  let scenePrefix :=
    if isEmpty (row_sceneId row) then [] else js " (" ++ row_sceneId row ++ js ")" in
  natToString (idx + 1) ++ js ". [" ++ rowSourceName (row_source row) ++ scenePrefix
    ++ js "] " ++ truncate (row_text row) 220.

Definition baselineUnavailableAnswer (context : AnswerBuilderContext)
  : StructuredAnswerCore :=
  {| answerText :=
       js "Baseline retrieval is unavailable because narrative trace artifacts are missing. Generate Phase 3/4 artifacts and retry.";
     modeUsed := baseline_rag;
     queryType := ctx_queryType context;
     confidence := JsFinite 0.1%Q;
     entitiesUsed := List.map entityId (ctx_entities context);
     eventsUsed := [];
     stateChangesUsed := [];
     evidenceRefs := [];
     reasoningNotes :=
       js "Baseline RAG-like placeholder depends on local event/script-block artifacts." |}.

Definition baselineRetrievalAnswer (localeCompare : Collator) (store : NtgStore)
    (context : AnswerBuilderContext) : StructuredAnswerCore :=
  let docs :=
    eventDocs context (ntg_events store)
    ++ stateChangeDocs context (ntg_stateChanges store)
    ++ scriptBlockDocs context (ntg_scriptBlocks store) in
  let sorted := sortBy (docCompare localeCompare) docs in
  let top := firstn 6 (List.filter (fun row => Nat.ltb 0 (row_score row)) sorted) in
  let answerLines :=
    match top with
    | [] =>
        [js "Baseline retrieval found no strong lexical matches for this question. Try a more specific entity name or scene/event phrase."]
    | _ :: _ =>
        (js "Baseline retrieval returned " ++ natToString (List.length top)
           ++ js " top text chunk(s) for "
           ++ displayEntityList (List.map canonicalName (ctx_entities context)) 4
           ++ js ".")
        :: mapi baselineRowLine top
        ++ [js "This baseline is lexical retrieval only; it does not explicitly model temporal edges or inferred relationship state changes."]
    end in
  {| answerText := join LF answerLines;
     modeUsed := baseline_rag;
     queryType := ctx_queryType context;
     confidence :=
       match top with
       | [] => JsFinite 0.12%Q
       | first :: _ =>
           jsMin (JsFinite 0.78%Q)
                 (jsAdd (JsFinite 0.28%Q)
                        (JsFinite (inject_Z (Z.of_nat (row_score first)) / 12)%Q))
       end;
     entitiesUsed := List.map entityId (ctx_entities context);
     eventsUsed := List.map row_id (List.filter isEventRow top);
     stateChangesUsed := List.map row_id (List.filter isStateChangeRow top);
     evidenceRefs := flat_map row_evidenceRefs top;
     reasoningNotes :=
       js "Baseline RAG-like mode ranked event summaries, script blocks, and state-change labels by lexical overlap with the question." |}.

Definition buildBaselineRagLikeAnswer (localeCompare : Collator) (store : NtgStore)
    (context : AnswerBuilderContext) : StructuredAnswerCore :=
  if negb (ntg_available store)
  then maybeStripEvidence (baselineUnavailableAnswer context)
                          (ctx_includeEvidence context)
  else maybeStripEvidence (baselineRetrievalAnswer localeCompare store context)
                          (ctx_includeEvidence context).

End BaselineBuilder.
Export BaselineBuilder.

(* ================================================================== *)
(** ** The hybrid builder (answers/hybridAnswer.ts) *)
(* ================================================================== *)

Definition HYBRID_NOTES : jsstring :=
  js "Hybrid mode combined KG entity-relationship facts with NTG chronology/state-change evidence to answer a query that spans both structures.".

Definition hybridText (qt : QueryType) (kgAnswer traceAnswer : StructuredAnswerCore)
  : jsstring :=
  if QueryType_eqb qt comparison
  then join LF
         [js "Hybrid comparison answer:";
          js "KG view (entity/relationship structure):";
          answerText kgAnswer;
          [];
          js "NTG view (timeline/state-change structure):";
          answerText traceAnswer;
          [];
          js "Use the baseline comparator for a lexical-only contrast if requested."]
  else join LF
         [js "Hybrid answer (KG + NTG):";
          js "- KG contribution: " ++ reasoningNotes kgAnswer;
          js "- NTG contribution: " ++ reasoningNotes traceAnswer;
          [];
          js "KG summary:";
          answerText kgAnswer;
          [];
          js "NTG summary:";
          answerText traceAnswer].

Definition hybridConfidence (kgAnswer traceAnswer : StructuredAnswerCore) : JsNum :=
  jsMin (JsFinite 0.93%Q)
        (jsAdd (jsMul (jsMax (confidence kgAnswer) (confidence traceAnswer))
                      (JsFinite 0.97%Q))
               (JsFinite 0.03%Q)).

Definition buildHybridAnswer (localeCompare : Collator) (kgStore : KgStore)
    (ntgStore : NtgStore) (context : AnswerBuilderContext) : StructuredAnswerCore :=
  let kgAnswer := buildKgAnswer localeCompare kgStore context in
  let traceAnswer := buildTraceAnswer ntgStore context in
  let blendedText := hybridText (ctx_queryType context) kgAnswer traceAnswer in
  let merged :=
    mergeAnswerCores kgAnswer traceAnswer
      {| ov_answerText := Some blendedText;
         ov_modeUsed := Some hybrid;
         ov_queryType := Some (ctx_queryType context);
         ov_confidence := Some (hybridConfidence kgAnswer traceAnswer);
         ov_entitiesUsed := None;
         ov_eventsUsed := None;
         ov_stateChangesUsed := None;
         ov_evidenceRefs := None;
         ov_reasoningNotes := Some HYBRID_NOTES |} in
  maybeStripEvidence merged (ctx_includeEvidence context).

(* ================================================================== *)
(** ** The optional synthesis layer
       (llm/config.ts, llm/openaiClient.ts result type,
        answers/synthesizeWithLLM.ts) *)
(* ================================================================== *)

Module Synthesis.

(** The fields of [LlmConfig] the synthesis layer reads; [cfg_apiKey] is
    [null] when the environment variable is empty. *)
Record LlmConfig : Type := mkLlmConfig {
  cfg_apiKey : option jsstring;
  cfg_model : jsstring;
  cfg_enableLlmSynthesisFlag : bool
}.

Record LlmSynthesisStatus : Type := mkLlmStatus {
  st_enabled : bool;
  st_hasApiKey : bool;
  st_reason : jsstring
}.

Definition getLlmSynthesisStatus (cfg : LlmConfig) : LlmSynthesisStatus :=
  let hasApiKey := truthy (cfg_apiKey cfg) in
  if negb (cfg_enableLlmSynthesisFlag cfg)
  then mkLlmStatus false hasApiKey (js "ENABLE_LLM_SYNTHESIS is disabled")
  else if negb hasApiKey
  then mkLlmStatus false hasApiKey (js "OPENAI_API_KEY is missing")
  else mkLlmStatus true hasApiKey (js "LLM synthesis enabled").

(** [OpenAITextGenerationResult]: what [generateOpenAIText] resolves to.  It
    catches every transport error, time-out and unreadable payload and
    reports them as [GenError]. *)
Inductive OpenAITextGenerationResult : Type :=
| GenOk (text model : jsstring) (responseId : option jsstring)
| GenError (error model : jsstring).

(** The provider: the result of one call for a system and a user prompt. *)
Definition TextGenerator : Type :=
  jsstring -> jsstring -> OpenAITextGenerationResult.

Definition compactList (values : list jsstring) (limit : nat) : jsstring :=
  if Nat.eqb (List.length values) 0 then js "(none)"
  else
    let shown := firstn limit values in
    let suffix :=
      if Nat.ltb (List.length shown) (List.length values)
      then js " (+" ++ natToString (List.length values - List.length shown) ++ js " more)"
      else [] in
    join (js ", ") shown ++ suffix.

Definition buildSystemPrompt : jsstring :=
  join (js " ")
    [js "You are rewriting a deterministic graph-backed answer for clarity for a recruiter demo.";
     js "Do not invent facts, events, scenes, dates, or relationships.";
     js "Do not contradict the structured answer provided by the system.";
     js "Keep uncertainty and inferred-vs-explicit distinctions if present.";
     js "Do not remove or alter references to evidence support; evidence refs are preserved downstream in the payload.";
     js "Return only rewritten answer text (no markdown code fences, no JSON)."].

Definition buildUserPrompt (question : jsstring) (answer : StructuredAnswerCore)
  : jsstring :=
  join LF
    [js "Question: " ++ question;
     js "Mode: " ++ answerModeName (modeUsed answer);
     js "Query type: " ++ queryTypeName (queryType answer);
     js "Confidence: " ++ numToFixed2 (confidence answer);
     js "Structured counts: entities=" ++ natToString (List.length (entitiesUsed answer))
       ++ js ", events=" ++ natToString (List.length (eventsUsed answer))
       ++ js ", state_changes=" ++ natToString (List.length (stateChangesUsed answer))
       ++ js ", evidence_refs=" ++ natToString (List.length (evidenceRefs answer));
     js "Entity IDs (sample): " ++ compactList (entitiesUsed answer) 8;
     js "Event IDs (sample): " ++ compactList (eventsUsed answer) 10;
     js "State change IDs (sample): " ++ compactList (stateChangesUsed answer) 8;
     js "Evidence refs (sample): " ++ compactList (evidenceRefs answer) 10;
     js "Reasoning notes: " ++ truncate (reasoningNotes answer) 900;
     js "Structured answer to rewrite:";
     truncate (answerText answer) 4000;
     [];
     js "Rewrite for readability while preserving the same core content and caveats. Avoid adding claims not present above."].

(** Case-insensitive prefix test, as [/^p/i.test(s)] for an ASCII [p]. *)
Fixpoint startsWithIgnoreCase (s p : jsstring) : bool :=
  match p, s with
  | [], _ => true
  | _ :: _, [] => false
  | x :: p', y :: s' => N.eqb (lowerUnit x) (lowerUnit y) && startsWithIgnoreCase s' p'
  end.

Definition ASSISTED_PREFIX : jsstring := js "LLM-assisted".

Definition ensureAssistedLabel (text : jsstring) : jsstring :=
  let trimmed := trim text in
  if isEmpty trimmed
  then js "LLM-assisted synthesis is unavailable; using deterministic answer."
  else if startsWithIgnoreCase trimmed ASSISTED_PREFIX then trimmed
  else js "LLM-assisted (structured evidence preserved)" ++ LF ++ trimmed.

Definition appendNote (base addendum : jsstring) : jsstring :=
  let trimmedBase := trim base in
  if isEmpty trimmedBase then trim addendum
  else if includes trimmedBase addendum then trimmedBase
  else trim (trimmedBase ++ js " " ++ addendum).

Record LlmSynthesisOutcome : Type := mkOutcome {
  out_answer : StructuredAnswerCore;
  out_assisted : bool;
  out_skippedReason : option jsstring;
  out_error : option jsstring
}.

Definition setAnswerText (a : StructuredAnswerCore) (text : jsstring)
  : StructuredAnswerCore :=
  {| answerText := text;
     modeUsed := modeUsed a;
     queryType := queryType a;
     confidence := confidence a;
     entitiesUsed := entitiesUsed a;
     eventsUsed := eventsUsed a;
     stateChangesUsed := stateChangesUsed a;
     evidenceRefs := evidenceRefs a;
     reasoningNotes := reasoningNotes a |}.

Definition fallbackNote (model error : jsstring) : jsstring :=
  js "LLM synthesis attempted but fell back to deterministic answer ("
    ++ model ++ js ": " ++ truncate error 220 ++ js ").".

Definition assistedNote (model : jsstring) (label : option jsstring)
    (responseId : option jsstring) : jsstring :=
  join (js " ")
    ([js "LLM-assisted synthesis applied on top of deterministic structured retrieval/traversal.";
      js "Structured IDs and evidence refs were preserved from the upstream answer.";
      js "OpenAI model: " ++ model ++ js "."]
     ++ (if truthy label then [js "Context: " ++ orElse label [] ++ js "."] else [])
     ++ (if truthy responseId then [js "response_id=" ++ orElse responseId [] ++ js "."] else [])).

Definition maybeSynthesizeStructuredAnswerWithLLM (cfg : LlmConfig)
    (generateOpenAIText : TextGenerator) (answer : StructuredAnswerCore)
    (question : jsstring) (label : option jsstring) : LlmSynthesisOutcome :=
  let normalized := normalizeStructuredAnswer answer in
  let llmStatus := getLlmSynthesisStatus cfg in
  if isEmpty (trim (answerText normalized))
  then mkOutcome normalized false (Some (js "empty structured answer text")) None
  else if negb (st_enabled llmStatus)
  then mkOutcome normalized false (Some (st_reason llmStatus)) None
  else
    match generateOpenAIText buildSystemPrompt (buildUserPrompt question normalized) with
    | GenError error model =>
        mkOutcome
          (setReasoningNotes normalized
             (appendNote (reasoningNotes normalized) (fallbackNote model error)))
          false None (Some error)
    | GenOk text model responseId =>
        let labeledAnswerText := ensureAssistedLabel (truncate text 8000) in
        mkOutcome
          (setReasoningNotes (setAnswerText normalized labeledAnswerText)
             (appendNote (reasoningNotes normalized)
                         (assistedNote model label responseId)))
          true None None
    end.

End Synthesis.
Export Synthesis.

(* ================================================================== *)
(** ** The query service (queryService.ts) *)
(* ================================================================== *)

Module QueryService.

Record EntityDetectionLexiconEntry : Type := mkLexEntry {
  lex_entityId : jsstring;
  lex_canonicalName : jsstring;
  lex_entityType : jsstring;
  lex_phrase : jsstring;
  lex_matchKind : MatchKind;
  lex_priority : nat
}.

(** [s.replace(/\s+/g, ' ')]. *)
Fixpoint collapseWhitespace (s : jsstring) (prevWs : bool) : jsstring :=
  match s with
  | [] => []
  | c :: t =>
      if isWhitespace c
      then (if prevWs then collapseWhitespace t true
            else 32%N :: collapseWhitespace t true)
      else c :: collapseWhitespace t false
  end.

Definition normalizeText (input : jsstring) : jsstring :=
  trim (collapseWhitespace (toLowerCase input) false).

(** A code unit in [[a-z0-9]] under the [i] flag. *)
Definition isAlnumIgnoreCase (c : N) : bool :=
  let z := Z.of_N c in
  ((97 <=? z) && (z <=? 122) || (65 <=? z) && (z <=? 90)
   || (48 <=? z) && (z <=? 57))%Z.

(** The look-ahead [(?=$|[^a-z0-9])] on the text that follows. *)
Definition boundaryAhead (rest : jsstring) : bool :=
  match rest with
  | [] => true
  | c :: _ => negb (isAlnumIgnoreCase c)
  end.

(** The escaped phrase (a literal) followed by the look-ahead. *)
Definition phraseAt (s phrase : jsstring) : bool :=
  startsWithIgnoreCase s phrase && boundaryAhead (skipn (List.length phrase) s).

(** [pattern.exec(text)] for
    [(^|[^a-z0-9])(phrase)(?=$|[^a-z0-9])]: the attempts go left to right,
    [s] is the text from index [i]; the result is
    [match.index + match[1].length], where the phrase starts. *)
Fixpoint execFrom (i : nat) (s phrase : jsstring) : option nat :=
  if Nat.eqb i 0 && phraseAt s phrase then Some i
  else match s with
       | [] => None
       | c :: t =>
           if negb (isAlnumIgnoreCase c) && phraseAt t phrase then Some (S i)
           else execFrom (S i) t phrase
       end.

Record Span : Type := mkSpan { span_start : nat; span_end : nat }.

Definition overlapsSpan (startIdx endIdx : nat) (span : Span) : bool :=
  negb (Nat.leb endIdx (span_start span) || Nat.leb (span_end span) startIdx).

(** One turn of the loop over the lexicon: [hits] and [occupied] are the
    two arrays, in push order. *)
Definition scanEntry (qLower : jsstring)
    (state : list DetectedEntityMention * list Span)
    (entry : EntityDetectionLexiconEntry)
  : list DetectedEntityMention * list Span :=
  let (hits, occupied) := state in
  match execFrom 0 qLower (lex_phrase entry) with
  | None => state
  | Some startIdx =>
      let matchText := firstn (List.length (lex_phrase entry)) (skipn startIdx qLower) in
      let endIdx := startIdx + List.length matchText in
      if existsb (overlapsSpan startIdx endIdx) occupied then state
      else (hits ++ [mkMention (lex_entityId entry) (lex_canonicalName entry)
                               (lex_entityType entry) matchText
                               (lex_matchKind entry) startIdx],
            occupied ++ [mkSpan startIdx endIdx])
  end.

Definition hitCompare (localeCompare : Collator) (a b : DetectedEntityMention) : Z :=
  let byStart := (Z.of_nat (startIndex a) - Z.of_nat (startIndex b))%Z in
  if negb (byStart =? 0)%Z then byStart
  else localeCompare (canonicalName a) (canonicalName b).

Fixpoint dedupeByEntity (seenEntityIds : list jsstring)
    (hits : list DetectedEntityMention) : list DetectedEntityMention :=
  match hits with
  | [] => []
  | hit :: rest =>
      if mem (entityId hit) seenEntityIds then dedupeByEntity seenEntityIds rest
      else hit :: dedupeByEntity (entityId hit :: seenEntityIds) rest
  end.

(** [entries] is the memoised lexicon ([entityLexiconCache]), already
    sorted by [buildEntityDetectionLexicon]; it is empty when the KG
    artifacts are missing. *)
Definition detectEntitiesInQuestion (localeCompare : Collator)
    (entries : list EntityDetectionLexiconEntry) (question : jsstring)
  : list DetectedEntityMention :=
  if Nat.eqb (List.length entries) 0 then []
  else
    let qLower := normalizeText question in
    let hits := fst (fold_left (scanEntry qLower) entries ([], [])) in
    dedupeByEntity [] (sortBy (hitCompare localeCompare) hits).

Definition appendRouteReasoning (answer : StructuredAnswerCore)
    (routeReasoning : jsstring) : StructuredAnswerCore :=
  setReasoningNotes answer
    (if includes (reasoningNotes answer) routeReasoning
     then reasoningNotes answer
     else trim (reasoningNotes answer ++ js " " ++ routeReasoning)).

Definition EVIDENCE_WARNING : jsstring :=
  js "Warning: no evidence refs were available for some cited rows in this deterministic pass.".

Definition enforceEvidenceInvariant (answer : StructuredAnswerCore)
  : StructuredAnswerCore :=
  if Nat.ltb 0 (List.length (evidenceRefs answer)) then answer
  else if Nat.eqb (List.length (eventsUsed answer)) 0
          && Nat.eqb (List.length (stateChangesUsed answer)) 0
  then answer
  else setReasoningNotes answer (reasoningNotes answer ++ js " " ++ EVIDENCE_WARNING).

(** What a request runs against: the host collation, the memoised lexicon,
    the two stores, the synthesis configuration and the provider. *)
Record Env : Type := mkEnv {
  env_localeCompare : Collator;
  env_lexicon : list EntityDetectionLexiconEntry;
  env_kg : KgStore;
  env_ntg : NtgStore;
  env_llmConfig : LlmConfig;
  env_generate : TextGenerator
}.

Definition buildMainAnswer (env : Env) (context : AnswerBuilderContext)
    (mode : AnswerMode) : StructuredAnswerCore :=
  match mode with
  | kg => buildKgAnswer (env_localeCompare env) (env_kg env) context
  | ntg => buildTraceAnswer (env_ntg env) context
  | hybrid =>
      buildHybridAnswer (env_localeCompare env) (env_kg env) (env_ntg env) context
  | baseline_rag =>
      buildBaselineRagLikeAnswer (env_localeCompare env) (env_ntg env) context
  end.

Definition BASELINE_COMPARATOR_NOTE : jsstring :=
  js "Baseline comparator generated for side-by-side deterministic comparison.".

Definition answerQueryRequest (env : Env) (request : QueryRequest) : QueryResponse :=
  let detectedEntities :=
    detectEntitiesInQuestion (env_localeCompare env) (env_lexicon env)
                             (req_question request) in
  let route :=
    routeQuery (req_question request)
               (Some (preferredModeName (req_preferredMode request)))
               (Some (List.length detectedEntities)) in
  let context :=
    {| ctx_question := req_question request;
       ctx_queryType := route_queryType route;
       ctx_routeReasoning := route_reasoning route;
       ctx_entities := detectedEntities;
       ctx_includeEvidence := req_includeEvidence request |} in
  let built := buildMainAnswer env context (route_modeUsed route) in
  let enforced :=
    enforceEvidenceInvariant
      (appendRouteReasoning (normalizeStructuredAnswer built) (route_reasoning route)) in
  let synthesized :=
    out_answer
      (maybeSynthesizeStructuredAnswerWithLLM (env_llmConfig env) (env_generate env)
         enforced (req_question request)
         (Some (js "mode=" ++ answerModeName (route_modeUsed route)
                  ++ js ", query_type=" ++ queryTypeName (route_queryType route)))) in
  let shouldIncludeBaseline :=
    req_includeBaselineComparison request
    || QueryType_eqb (route_queryType route) comparison in
  let baseline :=
    if shouldIncludeBaseline && negb (AnswerMode_eqb (route_modeUsed route) baseline_rag)
    then Some (enforceEvidenceInvariant
                 (appendRouteReasoning
                    (normalizeStructuredAnswer
                       (buildBaselineRagLikeAnswer (env_localeCompare env)
                                                   (env_ntg env) context))
                    BASELINE_COMPARATOR_NOTE))
    else None in
  if negb (req_includeEvidence request)
  then {| resp_question := req_question request;
          resp_answer := setEvidenceRefs synthesized [];
          baselineComparison :=
            option_map (fun b => setEvidenceRefs b []) baseline |}
  else {| resp_question := req_question request;
          resp_answer := synthesized;
          baselineComparison := baseline |}.

Definition answerBaselineOnly (env : Env) (question : jsstring)
    (includeEvidence : bool) : QueryResponse :=
  let detectedEntities :=
    detectEntitiesInQuestion (env_localeCompare env) (env_lexicon env) question in
  let route :=
    routeQuery question (Some (js "baseline_rag"))
               (Some (List.length detectedEntities)) in
  let context :=
    {| ctx_question := question;
       ctx_queryType := route_queryType route;
       ctx_routeReasoning := route_reasoning route;
       ctx_entities := detectedEntities;
       ctx_includeEvidence := includeEvidence |} in
  let baseline :=
    buildBaselineRagLikeAnswer (env_localeCompare env) (env_ntg env) context in
  {| resp_question := question;
     resp_answer :=
       enforceEvidenceInvariant
         (appendRouteReasoning (normalizeStructuredAnswer baseline)
                               (route_reasoning route));
     baselineComparison := None |}.

End QueryService.
Export QueryService.

(* ================================================================== *)
(** ** The wire side of the contract (queryContract.ts) *)
(* ================================================================== *)

(** A value as [JSON.parse] gives it ([unknown] in the source).  An object is
    the list of its own properties, the keys distinct; [VUndefined] is what a
    missing property reads as. *)
#[warnings="-register-all"]
Inductive JsValue : Type :=
| VUndefined
| VNull
| VBool (b : bool)
| VNumber (n : JsNum)
| VString (s : jsstring)
| VArray (items : list JsValue)
| VObject (fields : list (jsstring * JsValue)).

(** [obj.key]. *)
Fixpoint getProp (fields : list (jsstring * JsValue)) (key : jsstring) : JsValue :=
  match fields with
  | [] => VUndefined
  | (k, v) :: rest => if str_eqb k key then v else getProp rest key
  end.

Definition asObject (value : JsValue) : list (jsstring * JsValue) :=
  match value with
  | VObject fields => fields
  | _ => []
  end.

Definition asString (value : JsValue) : option jsstring :=
  match value with VString s => Some s | _ => None end.

Definition asBoolean (value : JsValue) : option bool :=
  match value with VBool b => Some b | _ => None end.

Definition asFiniteNumber (value : JsValue) : option JsNum :=
  match value with
  | VNumber n => if isFinite n then Some n else None
  | _ => None
  end.

Definition asStringArray (value : JsValue) : option (list jsstring) :=
  match value with
  | VArray items =>
      let strings :=
        flat_map (fun item => match item with VString s => [s] | _ => [] end) items in
      if Nat.eqb (List.length strings) (List.length items) then Some strings else None
  | _ => None
  end.

(** [{ ok: true; value } | { ok: false; error }]. *)
Inductive Result (A : Type) : Type :=
| Ok (value : A)
| Err (error : jsstring).
Arguments Ok {A} value.
Arguments Err {A} error.

Definition normalizeQueryRequest (input : JsValue) : Result QueryRequest :=
  let obj := asObject input in
  let question := trim (orElse (asString (getProp obj (js "question"))) []) in
  if isEmpty question then Err (js "Missing non-empty " ++ [34%N] ++ js "question"
                                  ++ [34%N] ++ js " string")
  else
    let preferredModeRaw :=
      toLowerCase
        (trim (orElse (optOr (asString (getProp obj (js "preferred_mode")))
                             (asString (getProp obj (js "preferredMode"))))
                      (js "auto"))) in
    let preferredMode := orElse (parsePreferredMode preferredModeRaw) pm_auto in
    let includeEvidenceRaw :=
      optOr (asBoolean (getProp obj (js "include_evidence")))
            (asBoolean (getProp obj (js "includeEvidence"))) in
    let includeBaselineComparisonRaw :=
      optOr (asBoolean (getProp obj (js "include_baseline_comparison")))
            (asBoolean (getProp obj (js "includeBaselineComparison"))) in
    Ok {| req_question := question;
          req_preferredMode := preferredMode;
          req_includeEvidence := orElse includeEvidenceRaw true;
          req_includeBaselineComparison := orElse includeBaselineComparisonRaw false |}.

(** The properties of an [ApiAnswerPayload], in the order of the literal. *)
Definition toApiAnswerPayload (answer : StructuredAnswerCore)
  : list (jsstring * JsValue) :=
  let normalized := normalizeStructuredAnswer answer in
  [(js "query_type", VString (queryTypeName (queryType normalized)));
   (js "mode_used", VString (answerModeName (modeUsed normalized)));
   (js "answer_text", VString (answerText normalized));
   (js "confidence", VNumber (confidence normalized));
   (js "entities_used", VArray (List.map VString (entitiesUsed normalized)));
   (js "events_used", VArray (List.map VString (eventsUsed normalized)));
   (js "state_changes_used", VArray (List.map VString (stateChangesUsed normalized)));
   (js "evidence_refs", VArray (List.map VString (evidenceRefs normalized)));
   (js "reasoning_notes", VString (reasoningNotes normalized))].

Definition toApiQueryResponse (response : QueryResponse) : JsValue :=
  VObject
    ((js "question", VString (resp_question response))
     :: toApiAnswerPayload (resp_answer response)
     ++ [(js "baseline_comparison",
          match baselineComparison response with
          | Some baseline => VObject (toApiAnswerPayload baseline)
          | None => VNull
          end)]).

Definition QUERY_TYPE_NAMES : list jsstring :=
  [js "fact"; js "timeline"; js "state_change"; js "causal_chain";
   js "evidence"; js "comparison"].

Definition ANSWER_MODE_NAMES : list jsstring :=
  [js "kg"; js "ntg"; js "hybrid"; js "baseline_rag"].

(** [!s || !names.includes(s)] for [s = asString(...)]. *)
Definition notOneOf (s : option jsstring) (names : list jsstring) : bool :=
  match s with
  | None => true
  | Some v => isEmpty v || negb (mem v names)
  end.

Definition isNone {A : Type} (o : option A) : bool :=
  match o with Some _ => false | None => true end.

Definition validateApiAnswerPayload (value : JsValue) (allowNull : bool)
  : Result unit :=
  if allowNull && match value with VNull => true | _ => false end then Ok tt
  else
    let obj := asObject value in
    let queryType := asString (getProp obj (js "query_type")) in
    let modeUsed := asString (getProp obj (js "mode_used")) in
    let answerText := asString (getProp obj (js "answer_text")) in
    let confidence := asFiniteNumber (getProp obj (js "confidence")) in
    let entitiesUsed := asStringArray (getProp obj (js "entities_used")) in
    let eventsUsed := asStringArray (getProp obj (js "events_used")) in
    let stateChangesUsed := asStringArray (getProp obj (js "state_changes_used")) in
    let evidenceRefs := asStringArray (getProp obj (js "evidence_refs")) in
    let reasoningNotes := asString (getProp obj (js "reasoning_notes")) in
    if notOneOf queryType QUERY_TYPE_NAMES then Err (js "Invalid query_type")
    else if notOneOf modeUsed ANSWER_MODE_NAMES then Err (js "Invalid mode_used")
    else if isNone answerText then Err (js "Missing answer_text")
    else if match confidence with
            | None => true
            | Some c => negb (jsLeb (JsFinite 0) c) || negb (jsLeb c (JsFinite 1))
            end
    then Err (js "Invalid confidence")
    else if isNone entitiesUsed then Err (js "Invalid entities_used")
    else if isNone eventsUsed then Err (js "Invalid events_used")
    else if isNone stateChangesUsed then Err (js "Invalid state_changes_used")
    else if isNone evidenceRefs then Err (js "Invalid evidence_refs")
    else if isNone reasoningNotes then Err (js "Missing reasoning_notes")
    else Ok tt.

Definition validateApiQueryResponse (value : JsValue) : Result unit :=
  let obj := asObject value in
  let question := asString (getProp obj (js "question")) in
  if match question with
     | None => true
     | Some q => isEmpty q || isEmpty (trim q)
     end
  then Err (js "Missing question")
  else
    match validateApiAnswerPayload (VObject obj) false with
    | Err error => Err error
    | Ok _ =>
        match validateApiAnswerPayload (getProp obj (js "baseline_comparison")) true with
        | Err error => Err error
        | Ok _ => Ok tt
        end
    end.

(* ================================================================== *)
(** ** The baseline endpoint (app/api/query/baseline-rag/route.ts) *)
(* ================================================================== *)

(** [NextResponse.json(body, { status })]; the status is 200 when none is
    given. *)
Record JsonResponse : Type := mkJsonResponse {
  res_status : nat;
  res_body : JsValue
}.

Definition errorBody (message : jsstring) : JsValue :=
  VObject [(js "error", VString message)].

(** What running the pipeline comes to: it runs to its end on the
    environment its reads produce, or a value is thrown on the way
    ([readJson] throws on an artifact file that is not JSON).  A thrown
    [Error] carries its message; any other thrown value carries none. *)
Inductive PipelineRun : Type :=
  | Runs (env : Env)
  | Throws (message : option jsstring).

(** [body] is what [request.json()] resolves to, [None] when it throws.  The
    second [catch] of the handler answers what the pipeline throws. *)
Definition POST (run : PipelineRun) (body : option JsValue) : JsonResponse :=
  match body with
  | None => mkJsonResponse 400 (errorBody (js "Invalid JSON body"))
  | Some payload =>
      match normalizeQueryRequest payload with
      | Err error => mkJsonResponse 400 (errorBody error)
      | Ok parsed =>
          match run with
          | Runs env =>
              let response :=
                answerBaselineOnly env (req_question parsed)
                                   (req_includeEvidence parsed) in
              let apiPayload := toApiQueryResponse response in
              match validateApiQueryResponse apiPayload with
              | Err error =>
                  mkJsonResponse 500
                    (errorBody (js "Internal response contract validation failed: "
                                  ++ error))
              | Ok _ => mkJsonResponse 200 apiPayload
              end
          | Throws message =>
              mkJsonResponse 500
                (errorBody (js "Baseline query processing failed: "
                              ++ orElse message (js "Unknown error")))
          end
      end
  end.

(* ================================================================== *)
(** ** The graph artifacts and their read API (kgData.ts) *)
(* ================================================================== *)

Module KgData.

(** [Entity], [EntityAliasRecord] and [KGEdgeRecord] with all the fields the
    normalisers fill.  [KgBuilder.Entity] and [KgBuilder.KGEdge] are their
    projections on the fields the answer builder reads. *)
Record KgEntity : Type := mkKgEntity {
  kent_entityId : jsstring;
  kent_entityType : jsstring;
  kent_canonicalName : jsstring;
  kent_aliases : list jsstring;
  kent_firstSceneId : option jsstring;
  kent_metadata : list (jsstring * JsValue)
}.

Record EntityAliasRecord : Type := mkAliasRecord {
  al_aliasRecordId : jsstring;
  al_aliasRaw : jsstring;
  al_aliasNormalized : jsstring;
  al_entityId : jsstring;
  al_entityType : jsstring;
  al_aliasKind : jsstring;
  al_source : jsstring;
  al_firstSceneId : option jsstring;
  al_count : option JsNum
}.

Record KGEdgeRecord : Type := mkEdgeRecord {
  rec_edgeId : jsstring;
  rec_subjectId : jsstring;
  rec_predicate : jsstring;
  rec_objectId : jsstring;
  rec_stability : jsstring;
  rec_evidenceRefs : list jsstring;
  rec_metadata : list (jsstring * JsValue)
}.

(** The [asStringArray] of kgData.ts: the strings of an array, the empty
    list for anything else. *)
Definition stringItems (value : JsValue) : list jsstring :=
  match value with
  | VArray items =>
      flat_map (fun item => match item with VString s => [s] | _ => [] end) items
  | _ => []
  end.

(** [asString(v)] when it is a non-empty string ([!s] fails). *)
Definition nonEmptyString (value : JsValue) : option jsstring :=
  match asString value with
  | Some s => if isEmpty s then None else Some s
  | None => None
  end.

Definition ENTITY_TYPES : list jsstring :=
  [js "character"; js "location"; js "organization"; js "group"; js "object"].

Definition STABILITIES : list jsstring :=
  [js "stable"; js "semi_stable"; js "volatile"].

Definition normalizeEntity (raw : JsValue) : option KgEntity :=
  let obj := asObject raw in
  match nonEmptyString (getProp obj (js "entity_id")),
        nonEmptyString (getProp obj (js "entity_type")),
        nonEmptyString (getProp obj (js "canonical_name")) with
  | Some entityId, Some entityType, Some canonicalName =>
      if negb (mem entityType ENTITY_TYPES) then None
      else Some {| kent_entityId := entityId;
                   kent_entityType := entityType;
                   kent_canonicalName := canonicalName;
                   kent_aliases := stringItems (getProp obj (js "aliases"));
                   kent_firstSceneId := asString (getProp obj (js "first_scene_id"));
                   kent_metadata := asObject (getProp obj (js "metadata")) |}
  | _, _, _ => None
  end.

Definition normalizeAlias (raw : JsValue) : option EntityAliasRecord :=
  let obj := asObject raw in
  match nonEmptyString (getProp obj (js "alias_record_id")),
        nonEmptyString (getProp obj (js "alias_raw")),
        nonEmptyString (getProp obj (js "alias_normalized")),
        nonEmptyString (getProp obj (js "entity_id")),
        nonEmptyString (getProp obj (js "entity_type")),
        nonEmptyString (getProp obj (js "alias_kind")),
        nonEmptyString (getProp obj (js "source")) with
  | Some aliasRecordId, Some aliasRaw, Some aliasNormalized, Some entityId,
    Some entityType, Some aliasKind, Some source =>
      if negb (mem entityType ENTITY_TYPES) then None
      else Some {| al_aliasRecordId := aliasRecordId;
                   al_aliasRaw := aliasRaw;
                   al_aliasNormalized := aliasNormalized;
                   al_entityId := entityId;
                   al_entityType := entityType;
                   al_aliasKind := aliasKind;
                   al_source := source;
                   al_firstSceneId := asString (getProp obj (js "first_scene_id"));
                   al_count := match getProp obj (js "count") with
                               | VNumber n => Some n
                               | _ => None
                               end |}
  | _, _, _, _, _, _, _ => None
  end.

Definition normalizeKgEdge (raw : JsValue) : option KGEdgeRecord :=
  let obj := asObject raw in
  match nonEmptyString (getProp obj (js "edge_id")),
        nonEmptyString (getProp obj (js "subject_id")),
        nonEmptyString (getProp obj (js "predicate")),
        nonEmptyString (getProp obj (js "object_id")),
        nonEmptyString (getProp obj (js "stability")) with
  | Some edgeId, Some subjectId, Some predicate, Some objectId, Some stability =>
      if negb (mem stability STABILITIES) then None
      else Some {| rec_edgeId := edgeId;
                   rec_subjectId := subjectId;
                   rec_predicate := predicate;
                   rec_objectId := objectId;
                   rec_stability := stability;
                   rec_evidenceRefs := stringItems (getProp obj (js "evidence_refs"));
                   rec_metadata := asObject (getProp obj (js "metadata")) |}
  | _, _, _, _, _ => None
  end.

Record RawEnvelope : Type := mkEnvelope {
  env_metadata : JsValue;
  env_items : list JsValue
}.

(** [file] is the parsed content of the file, [None] when the file does
    not exist (a file that is no JSON makes [JSON.parse] throw, which is not
    represented).  An envelope is an object whose [items] is an array. *)
Definition readEnvelope (file : option JsValue) : option RawEnvelope :=
  match file with
  | Some (VObject fields) =>
      match getProp fields (js "items") with
      | VArray items => Some (mkEnvelope (getProp fields (js "metadata")) items)
      | _ => None
      end
  | _ => None
  end.

Record KgMetadata : Type := mkKgMetadata {
  md_entities : list (jsstring * JsValue);
  md_aliases : list (jsstring * JsValue);
  md_kgEdges : list (jsstring * JsValue)
}.

(** [entityMap] is not a field here: it is [new Map] of the entities by id,
    read through [entityMapGet]. *)
Record KgArtifacts : Type := mkKgArtifacts {
  kga_available : bool;
  kga_entities : list KgEntity;
  kga_aliases : list EntityAliasRecord;
  kga_edges : list KGEdgeRecord;
  kga_metadata : KgMetadata;
  kga_missingFiles : list jsstring
}.

(** [items.map(f).filter(e => e !== null)]. *)
Definition mapFilter {A B : Type} (f : A -> option B) (items : list A) : list B :=
  flat_map (fun item => match f item with Some b => [b] | None => [] end) items.

Definition loadKgArtifactsUncached (entitiesFile aliasesFile edgesFile : option JsValue)
  : KgArtifacts :=
  let entitiesEnv := readEnvelope entitiesFile in
  let aliasesEnv := readEnvelope aliasesFile in
  let edgesEnv := readEnvelope edgesFile in
  let missingFiles :=
    (if isNone entitiesEnv then [js "data/derived/entities.json"] else [])
    ++ (if isNone aliasesEnv then [js "data/derived/entity_aliases.json"] else [])
    ++ (if isNone edgesEnv then [js "data/derived/kg_edges.json"] else []) in
  match entitiesEnv, aliasesEnv, edgesEnv with
  | Some entitiesEnv, Some aliasesEnv, Some edgesEnv =>
      {| kga_available := true;
         kga_entities := mapFilter normalizeEntity (env_items entitiesEnv);
         kga_aliases := mapFilter normalizeAlias (env_items aliasesEnv);
         kga_edges := mapFilter normalizeKgEdge (env_items edgesEnv);
         kga_metadata :=
           mkKgMetadata (asObject (env_metadata entitiesEnv))
                        (asObject (env_metadata aliasesEnv))
                        (asObject (env_metadata edgesEnv));
         kga_missingFiles := [] |}
  | _, _, _ =>
      {| kga_available := false;
         kga_entities := [];
         kga_aliases := [];
         kga_edges := [];
         kga_metadata := mkKgMetadata [] [] [];
         kga_missingFiles := missingFiles |}
  end.

(** [entityMap.get(id)]: of the entities with this id the last one, which
    is the one [new Map] keeps. *)
Definition entityMapGet (entities : list KgEntity) (id : jsstring) : option KgEntity :=
  List.find (fun entity => str_eqb (kent_entityId entity) id) (rev entities).

Record NeighborRow : Type := mkNeighborRow {
  nbr_direction : Direction;
  nbr_edge : KGEdgeRecord;
  nbr_neighbor : option KgEntity
}.

Record NeighborsResult : Type := mkNeighborsResult {
  nres_available : bool;
  nres_entity : option KgEntity;
  nres_neighbors : list NeighborRow;
  nres_missingFiles : option (list jsstring)
}.

Definition neighborRows (artifacts : KgArtifacts) (entityId : jsstring)
  : list NeighborRow :=
  flat_map (fun edge =>
    if str_eqb (rec_subjectId edge) entityId
    then [mkNeighborRow outgoing edge
            (entityMapGet (kga_entities artifacts) (rec_objectId edge))]
    else if str_eqb (rec_objectId edge) entityId
    then [mkNeighborRow incoming edge
            (entityMapGet (kga_entities artifacts) (rec_subjectId edge))]
    else []) (kga_edges artifacts).

Definition neighborSortName (row : NeighborRow) : jsstring :=
  match nbr_neighbor row with
  | Some n => kent_canonicalName n
  | None => rec_edgeId (nbr_edge row)
  end.

Definition neighborCompare (localeCompare : Collator) (a b : NeighborRow) : Z :=
  let an := neighborSortName a in
  let bn := neighborSortName b in
  if negb (str_eqb an bn) then localeCompare an bn
  else if negb (str_eqb (rec_predicate (nbr_edge a)) (rec_predicate (nbr_edge b)))
  then localeCompare (rec_predicate (nbr_edge a)) (rec_predicate (nbr_edge b))
  else localeCompare (rec_edgeId (nbr_edge a)) (rec_edgeId (nbr_edge b)).

Definition getEntityNeighbors (localeCompare : Collator) (artifacts : KgArtifacts)
    (entityId : jsstring) : NeighborsResult :=
  if negb (kga_available artifacts)
  then mkNeighborsResult false None [] (Some (kga_missingFiles artifacts))
  else
    match entityMapGet (kga_entities artifacts) entityId with
    | None => mkNeighborsResult true None [] None
    | Some entity =>
        mkNeighborsResult true (Some entity)
          (sortBy (neighborCompare localeCompare) (neighborRows artifacts entityId))
          None
    end.

Record ListEntitiesOptions : Type := mkListEntitiesOptions {
  leo_q : option jsstring;
  leo_type : option jsstring;
  leo_limit : option nat
}.

Record EntitiesResult : Type := mkEntitiesResult {
  eres_available : bool;
  eres_items : list KgEntity;
  eres_total : nat;
  eres_filtered : nat;
  eres_missingFiles : option (list jsstring)
}.

Definition entityMatches (q : jsstring) (entity : KgEntity) : bool :=
  includes (toLowerCase (kent_canonicalName entity)) q
  || includes (toLowerCase (kent_entityId entity)) q
  || existsb (fun alias => includes (toLowerCase alias) q) (kent_aliases entity).

Definition entityCompare (localeCompare : Collator) (a b : KgEntity) : Z :=
  if negb (str_eqb (kent_entityType a) (kent_entityType b))
  then localeCompare (kent_entityType a) (kent_entityType b)
  else localeCompare (kent_canonicalName a) (kent_canonicalName b).

(** The entities left by the two filters of [listEntities], sorted: what
    the result counts as [filtered] and slices its [items] from. *)
Definition matchingEntities (localeCompare : Collator) (artifacts : KgArtifacts)
    (options : ListEntitiesOptions) : list KgEntity :=
  let q := toLowerCase (trim (orElse (leo_q options) [])) in
  let type :=
    match leo_type options with
    | Some t => if isEmpty t || str_eqb t (js "all") then None else Some t
    | None => None
    end in
  let byType :=
    match type with
    | Some t => List.filter (fun entity => str_eqb (kent_entityType entity) t)
                            (kga_entities artifacts)
    | None => kga_entities artifacts
    end in
  let byQuery :=
    if isEmpty q then byType else List.filter (entityMatches q) byType in
  sortBy (entityCompare localeCompare) byQuery.

Definition listEntities (localeCompare : Collator) (artifacts : KgArtifacts)
    (options : ListEntitiesOptions) : EntitiesResult :=
  if negb (kga_available artifacts)
  then mkEntitiesResult false [] 0 0 (Some (kga_missingFiles artifacts))
  else
    let limit := Nat.max 1 (Nat.min (orElse (leo_limit options) 200) 500) in
    let filtered := matchingEntities localeCompare artifacts options in
    mkEntitiesResult true (firstn limit filtered)
                     (List.length (kga_entities artifacts))
                     (List.length filtered) None.

End KgData.

(* ================================================================== *)
(** ** The entity-detection lexicon (queryService.ts) *)
(* ================================================================== *)

Module Lexicon.

Import KgData.

Definition matchKindName (k : MatchKind) : jsstring :=
  match k with
  | mk_canonical => js "canonical"
  | mk_alias => js "alias"
  | mk_hint => js "hint"
  end.

(** [entityById]: a [Map] filled by [set] in the order of the entities, so
    the last entity of an id is the one it holds. *)
Definition entityById (entities : list KgEntity) (id : jsstring)
  : option (jsstring * jsstring) :=
  option_map (fun entity => (kent_canonicalName entity, kent_entityType entity))
    (List.find (fun entity => str_eqb (kent_entityId entity) id) (rev entities)).

(** The two accumulators of the builder: [entries] in push order, and the
    set [seen] of keys. *)
Definition LexiconState : Type :=
  (list EntityDetectionLexiconEntry * list jsstring)%type.

Definition entryKey (entityId phrase : jsstring) (matchKind : MatchKind) : jsstring :=
  entityId ++ js "|" ++ phrase ++ js "|" ++ matchKindName matchKind.

Definition addEntry (state : LexiconState)
    (entityId canonicalName entityType phraseRaw : jsstring)
    (matchKind : MatchKind) (priority : nat) : LexiconState :=
  let phrase := normalizeText phraseRaw in
  if isEmpty phrase || Nat.ltb (List.length phrase) 3 then state
  else
    let key := entryKey entityId phrase matchKind in
    if mem key (snd state) then state
    else (fst state ++ [mkLexEntry entityId canonicalName entityType phrase
                                   matchKind priority],
          key :: snd state).

Definition addCanonical (state : LexiconState) (entity : KgEntity) : LexiconState :=
  addEntry state (kent_entityId entity) (kent_canonicalName entity)
           (kent_entityType entity) (kent_canonicalName entity) mk_canonical 100.

Definition addAlias (entities : list KgEntity) (state : LexiconState)
    (alias : EntityAliasRecord) : LexiconState :=
  if negb (includes (toLowerCase (al_source alias)) (js "manual")) then state
  else match entityById entities (al_entityId alias) with
       | None => state
       | Some (canonicalName, entityType) =>
           addEntry
             (addEntry state (al_entityId alias) canonicalName entityType
                       (al_aliasRaw alias) mk_alias 80)
             (al_entityId alias) canonicalName entityType
             (al_aliasNormalized alias) mk_alias 75
       end.

Definition manualHints : list (jsstring * jsstring) :=
  [(js "char_frank_sheeran", js "frank sheeran");
   (js "char_frank_sheeran", js "frank");
   (js "char_peggy_sheeran", js "peggy sheeran");
   (js "char_peggy_sheeran", js "peggy");
   (js "char_jimmy_hoffa", js "jimmy hoffa");
   (js "char_jimmy_hoffa", js "hoffa");
   (js "char_russell_bufalino", js "russell bufalino");
   (js "char_russell_bufalino", js "russell");
   (js "char_russell_bufalino", js "bufalino");
   (js "group_teamsters", js "teamsters");
   (js "group_teamsters_union", js "teamsters");
   (js "org_fbi", js "fbi")].

Definition addHint (entities : list KgEntity) (priority : nat)
    (state : LexiconState) (hint : jsstring * jsstring) : LexiconState :=
  match entityById entities (fst hint) with
  | None => state
  | Some (canonicalName, entityType) =>
      addEntry state (fst hint) canonicalName entityType (snd hint) mk_hint priority
  end.

(** [lastNameToEntityIds]: a [Map] from a last name to the ids pushed for
    it, the keys in the order of their first [set]. *)
Fixpoint pushLastName (map : list (jsstring * list jsstring))
    (last entityId : jsstring) : list (jsstring * list jsstring) :=
  match map with
  | [] => [(last, [entityId])]
  | (key, ids) :: rest =>
      if str_eqb key last then (key, ids ++ [entityId]) :: rest
      else (key, ids) :: pushLastName rest last entityId
  end.

Definition collectLastName (map : list (jsstring * list jsstring))
    (entity : KgEntity) : list (jsstring * list jsstring) :=
  if negb (str_eqb (kent_entityType entity) (js "character")) then map
  else
    let parts :=
      List.filter (fun part => negb (isEmpty part))
        (splitWhitespace (toLowerCase (kent_canonicalName entity)) [] false) in
    if Nat.ltb (List.length parts) 2 then map
    else
      let last := List.last parts [] in
      if Nat.ltb (List.length last) 4 then map
      else pushLastName map last (kent_entityId entity).

Definition addLastName (entities : list KgEntity) (state : LexiconState)
    (item : jsstring * list jsstring) : LexiconState :=
  match snd item with
  | [entityId] => addHint entities 70 state (entityId, fst item)
  | _ => state
  end.

Definition lexiconCompare (localeCompare : Collator)
    (a b : EntityDetectionLexiconEntry) : Z :=
  let byLength :=
    (Z.of_nat (List.length (lex_phrase b)) - Z.of_nat (List.length (lex_phrase a)))%Z in
  if negb (byLength =? 0)%Z then byLength
  else
    let byPriority := (Z.of_nat (lex_priority b) - Z.of_nat (lex_priority a))%Z in
    if negb (byPriority =? 0)%Z then byPriority
    else localeCompare (lex_phrase a) (lex_phrase b).

(** The entries before the final sort. *)
Definition collectEntries (kg : KgArtifacts) : LexiconState :=
  let entities := kga_entities kg in
  let canonical := fold_left addCanonical entities ([], []) in
  let aliases := fold_left (addAlias entities) (kga_aliases kg) canonical in
  let hints := fold_left (addHint entities 90) manualHints aliases in
  let lastNames := fold_left collectLastName entities [] in
  fold_left (addLastName entities) lastNames hints.

(** The [entries] of the lexicon ([entityById] is not read by the callers). *)
Definition buildEntityDetectionLexicon (localeCompare : Collator) (kg : KgArtifacts)
  : list EntityDetectionLexiconEntry :=
  if negb (kga_available kg) then []
  else sortBy (lexiconCompare localeCompare) (fst (collectEntries kg)).

End Lexicon.

(* ================================================================== *)
(** ** Reading the synthesis configuration (llm/config.ts) *)
(* ================================================================== *)

(** The environment variables [readConfigUncached] reads for the fields of
    [LlmConfig] modelled here; [None] is an unset variable. *)
Record ProcessEnv : Type := mkProcessEnv {
  OPENAI_API_KEY : option jsstring;
  OPENAI_MODEL : option jsstring;
  ENABLE_LLM_SYNTHESIS : option jsstring
}.

Definition TRUE_WORDS : list jsstring := [js "1"; js "true"; js "yes"; js "on"].
Definition FALSE_WORDS : list jsstring := [js "0"; js "false"; js "no"; js "off"].

Definition parseBoolean (raw : option jsstring) (fallback : bool) : bool :=
  match raw with
  | None => fallback
  | Some r =>
      let normalized := toLowerCase (trim r) in
      if mem normalized TRUE_WORDS then true
      else if mem normalized FALSE_WORDS then false
      else fallback
  end.

(** [a || b] on strings: [b] when [a] is empty. *)
Definition orIfEmpty (a b : jsstring) : jsstring := if isEmpty a then b else a.

Definition readConfigUncached (env : ProcessEnv) : LlmConfig :=
  let apiKeyRaw := trim (orElse (OPENAI_API_KEY env) []) in
  {| cfg_apiKey := if isEmpty apiKeyRaw then None else Some apiKeyRaw;
     cfg_model :=
       orIfEmpty (trim (orElse (OPENAI_MODEL env) (js "gpt-4.1-mini")))
                 (js "gpt-4.1-mini");
     cfg_enableLlmSynthesisFlag := parseBoolean (ENABLE_LLM_SYNTHESIS env) false |}.

(* ================================================================== *)
(** ** Vocabulary of the properties *)
(* ================================================================== *)

(** A needle with no blank at either end: trimming cannot cut into it. *)
Definition solid (w : jsstring) : bool :=
  match w with
  | [] => false
  | c :: _ => negb (isWhitespace c) && negb (isWhitespace (last w 0%N))
  end.

(** The shape of what [uniqueStringsFrom seen] returns: trimmed, non-empty
    values, none of them seen before. *)
Inductive fresh_trimmed : list jsstring -> list jsstring -> Prop :=
| ft_nil : forall seen, fresh_trimmed seen []
| ft_cons : forall seen v out,
    trim v = v -> isEmpty v = false -> mem v seen = false ->
    fresh_trimmed (v :: seen) out ->
    fresh_trimmed seen (v :: out).



(** Sample environments for the concrete cases below: both artifact sets
    missing (so the lexicon is empty), synthesis switched off. *)
Definition sampleCollator : Collator := fun _ _ => 0%Z.

Definition missingKg : KgStore :=
  {| kg_available := false;
     kg_entityOf := fun _ => None;
     kg_neighborsOf := fun _ => [];
     kg_search := fun _ => [] |}.

Definition missingNtg : NtgStore :=
  {| ntg_available := false;
     ntg_events := [];
     ntg_stateChanges := [];
     ntg_scriptBlocks := [];
     ntg_stateChangeRows := fun _ => ([], 0);
     ntg_traceRows := fun _ => [];
     ntg_timelineScenes := fun _ => [] |}.

Definition synthesisOff : LlmConfig :=
  {| cfg_apiKey := None;
     cfg_model := js "gpt-4.1-mini";
     cfg_enableLlmSynthesisFlag := false |}.

Definition silentProvider : TextGenerator :=
  fun _ _ => GenError (js "OPENAI_API_KEY is missing") (js "gpt-4.1-mini").

Definition bareEnv : Env :=
  {| env_localeCompare := sampleCollator;
     env_lexicon := [];
     env_kg := missingKg;
     env_ntg := missingNtg;
     env_llmConfig := synthesisOff;
     env_generate := silentProvider |}.

(** The route of a request, as [answerQueryRequest] computes it. *)
Definition requestRoute (env : Env) (request : QueryRequest) : QueryRouteDecision :=
  routeQuery (req_question request)
             (Some (preferredModeName (req_preferredMode request)))
             (Some (List.length
                      (detectEntitiesInQuestion (env_localeCompare env)
                         (env_lexicon env) (req_question request)))).

(** The builder context of a request, as [answerQueryRequest] computes it. *)
Definition requestContext (env : Env) (request : QueryRequest)
  : AnswerBuilderContext :=
  {| ctx_question := req_question request;
     ctx_queryType := route_queryType (requestRoute env request);
     ctx_routeReasoning := route_reasoning (requestRoute env request);
     ctx_entities :=
       detectEntitiesInQuestion (env_localeCompare env) (env_lexicon env)
                                (req_question request);
     ctx_includeEvidence := req_includeEvidence request |}.

Definition isSome {A : Type} (o : option A) : bool :=
  match o with Some _ => true | None => false end.

(** A context without detected entities, evidence included. *)
Definition sampleContext (question : jsstring) (qt : QueryType) (includeEvidence : bool)
  : AnswerBuilderContext :=
  {| ctx_question := question;
     ctx_queryType := qt;
     ctx_routeReasoning := [];
     ctx_entities := [];
     ctx_includeEvidence := includeEvidence |}.

(** The confidence the specification gives for an evidence answer that
    shows [shown] rows: [min(0.86, 0.45 + shown*0.04)]. *)
Definition spec_evidenceConfidence (shown : nat) : JsNum :=
  jsMin (JsFinite 0.86%Q)
        (jsAdd (JsFinite 0.45%Q) (jsMul (ofNat shown) (JsFinite 0.04%Q))).

(** Numeric equality of two numbers ([===] on numbers). *)
Definition jsNumEqb (a b : JsNum) : bool :=
  match a, b with
  | JsFinite x, JsFinite y => Qeq_bool x y
  | JsPosInf, JsPosInf | JsNegInf, JsNegInf => true
  | _, _ => false
  end.

Definition sampleEvent (id : string) : EventRecord :=
  {| ev_eventId := js id;
     ev_sceneId := js "scene_0008";
     ev_eventTypeL2 := js "meeting";
     ev_summary := js "Frank meets Russell at the gas station.";
     ev_sequenceInScene := 1%Z;
     ev_participantIds := [js "char_frank_sheeran"];
     ev_firstSnippet := js "You got a problem, kid?";
     ev_evidenceRefs := [js "evref_000123"] |}.

Definition sampleTraceRow (id : string) : TraceExplorerRow :=
  {| tr_event := sampleEvent id;
     tr_sceneHeader := Some (js "INT. GAS STATION - DAY");
     tr_participantIds := [js "char_frank_sheeran"];
     tr_stateChangesTriggered := [] |}.

(** A narrative-trace store whose artifacts are there and whose trace
    listing answers [rows] to every filter. *)
Definition ntgWithTraceRows (rows : list TraceExplorerRow) : NtgStore :=
  {| ntg_available := true;
     ntg_events := List.map tr_event rows;
     ntg_stateChanges := [];
     ntg_scriptBlocks := [];
     ntg_stateChangeRows := fun _ => ([], 0);
     ntg_traceRows := fun _ => rows;
     ntg_timelineScenes := fun _ => [] |}.

(** A structurally valid answer of low confidence: the confidence is a
    finite number of [0,1] and at most 0.15, which is below every confidence
    a builder gives when its artifacts are there, except the 0.12 of a
    baseline retrieval without lexical match. *)
Definition lowConfidenceAnswer (a : StructuredAnswerCore) : bool :=
  validAnswer a && jsLeb (confidence a) (JsFinite 0.15%Q).

Definition KG_MISSING_TEXT : jsstring := js "KG artifacts are unavailable".
Definition NTG_MISSING_TEXT : jsstring := js "artifacts are unavailable".
Definition BASELINE_MISSING_TEXT : jsstring :=
  js "narrative trace artifacts are missing".

(** A normalised answer and synthesis configurations for the concrete
    cases: the flag off, the flag on without a credential, and both there. *)
Definition sampleAnswer : StructuredAnswerCore :=
  {| answerText := js "KG answer";
     modeUsed := kg;
     queryType := fact;
     confidence := JsFinite 0.81%Q;
     entitiesUsed := [js "char_frank_sheeran"; js "char_jimmy_hoffa"];
     eventsUsed := [];
     stateChangesUsed := [];
     evidenceRefs := [js "scene:scene_0008"];
     reasoningNotes := js "Test reasoning." |}.

Definition synthesisNoKey : LlmConfig :=
  {| cfg_apiKey := None;
     cfg_model := js "gpt-4.1-mini";
     cfg_enableLlmSynthesisFlag := true |}.

Definition synthesisOn : LlmConfig :=
  {| cfg_apiKey := Some (js "sk-test");
     cfg_model := js "gpt-4.1-mini";
     cfg_enableLlmSynthesisFlag := true |}.

Definition timedOutProvider : TextGenerator :=
  fun _ _ => GenError (js "OpenAI request timed out after 15000ms") (js "gpt-4.1-mini").

Definition rewritingProvider : TextGenerator :=
  fun _ _ => GenOk (js "Frank Sheeran is tied to Jimmy Hoffa.") (js "gpt-4.1-mini")
                   (Some (js "resp_1")).

(** A string that begins, respectively ends, with a unit that is no blank. *)
Definition startsSolid (s : jsstring) : Prop :=
  match s with
  | [] => False
  | c :: _ => isWhitespace c = false
  end.

Definition endsSolid (s : jsstring) : Prop :=
  s <> [] /\ isWhitespace (last s 0%N) = false.

(** The structured fields of an answer: everything but the text and the
    reasoning notes. *)
Definition sameStructuredFields (a b : StructuredAnswerCore) : Prop :=
  modeUsed a = modeUsed b
  /\ queryType a = queryType b
  /\ confidence a = confidence b
  /\ entitiesUsed a = entitiesUsed b
  /\ eventsUsed a = eventsUsed b
  /\ stateChangesUsed a = stateChangesUsed b
  /\ evidenceRefs a = evidenceRefs b.

(** The answers a request can return: the main answer and the baseline
    comparison of [answerQueryRequest], and the answer of the baseline-only
    endpoint. *)
Inductive pipelineAnswer (env : Env) : StructuredAnswerCore -> Prop :=
| pa_main : forall request,
    pipelineAnswer env (resp_answer (answerQueryRequest env request))
| pa_comparison : forall request b,
    baselineComparison (answerQueryRequest env request) = Some b ->
    pipelineAnswer env b
| pa_baseline_only : forall question includeEvidence,
    pipelineAnswer env (resp_answer (answerBaselineOnly env question includeEvidence)).

(** A request over narrative-trace artifacts with two rows, asking the
    narrative-trace builder for evidence while excluding evidence refs. *)
Definition twoRowEnv : Env :=
  {| env_localeCompare := sampleCollator;
     env_lexicon := [];
     env_kg := missingKg;
     env_ntg := ntgWithTraceRows [sampleTraceRow "evt_000123"; sampleTraceRow "evt_000124"];
     env_llmConfig := synthesisOff;
     env_generate := silentProvider |}.

Definition evidenceWithoutRefsRequest : QueryRequest :=
  {| req_question := js "Show proof of the meeting";
     req_preferredMode := pm_ntg;
     req_includeEvidence := false;
     req_includeBaselineComparison := true |}.

(** A context with its [includeEvidence] flag replaced. *)
Definition withEvidence (context : AnswerBuilderContext) (includeEvidence : bool)
  : AnswerBuilderContext :=
  {| ctx_question := ctx_question context;
     ctx_queryType := ctx_queryType context;
     ctx_routeReasoning := ctx_routeReasoning context;
     ctx_entities := ctx_entities context;
     ctx_includeEvidence := includeEvidence |}.

(** A request with its [includeEvidence] flag replaced. *)
Definition requestWithEvidence (request : QueryRequest) (includeEvidence : bool)
  : QueryRequest :=
  {| req_question := req_question request;
     req_preferredMode := req_preferredMode request;
     req_includeEvidence := includeEvidence;
     req_includeBaselineComparison := req_includeBaselineComparison request |}.

(** The three steps every built answer goes through before synthesis. *)
Definition contractStep (built : StructuredAnswerCore) (reasoning : jsstring)
  : StructuredAnswerCore :=
  enforceEvidenceInvariant
    (appendRouteReasoning (normalizeStructuredAnswer built) reasoning).

(** The main answer of a request before and after the synthesis layer, and
    its baseline comparator, as [answerQueryRequest] computes them. *)
Definition builtMainAnswer (env : Env) (request : QueryRequest) : StructuredAnswerCore :=
  buildMainAnswer env (requestContext env request)
                  (route_modeUsed (requestRoute env request)).

Definition synthesisLabel (env : Env) (request : QueryRequest) : jsstring :=
  js "mode=" ++ answerModeName (route_modeUsed (requestRoute env request))
    ++ js ", query_type=" ++ queryTypeName (route_queryType (requestRoute env request)).

Definition synthesizedMainAnswer (env : Env) (request : QueryRequest)
  : StructuredAnswerCore :=
  out_answer
    (maybeSynthesizeStructuredAnswerWithLLM (env_llmConfig env) (env_generate env)
       (contractStep (builtMainAnswer env request)
                     (route_reasoning (requestRoute env request)))
       (req_question request) (Some (synthesisLabel env request))).

Definition comparatorAnswer (env : Env) (request : QueryRequest) : StructuredAnswerCore :=
  contractStep
    (buildBaselineRagLikeAnswer (env_localeCompare env) (env_ntg env)
                                (requestContext env request))
    BASELINE_COMPARATOR_NOTE.

(** Two answers that agree on every field except, possibly, the answer
    text, the evidence refs and the reasoning notes. *)
Definition sameOutsideEvidence (a b : StructuredAnswerCore) : Prop :=
  modeUsed a = modeUsed b
  /\ queryType a = queryType b
  /\ confidence a = confidence b
  /\ entitiesUsed a = entitiesUsed b
  /\ eventsUsed a = eventsUsed b
  /\ stateChangesUsed a = stateChangesUsed b.

(** A provider whose text depends on the prompt it is given: it returns
    the user prompt. *)
Definition echoProvider : TextGenerator :=
  fun _ userPrompt => GenOk userPrompt (js "gpt-4.1-mini") None.

Definition echoEnv : Env :=
  {| env_localeCompare := sampleCollator;
     env_lexicon := [];
     env_kg := missingKg;
     env_ntg := missingNtg;
     env_llmConfig := synthesisOn;
     env_generate := echoProvider |}.

(** The character span of a mention ends where its matched text ends. *)
Definition spanEnd (m : DetectedEntityMention) : nat :=
  startIndex m + List.length (matchedText m).

Definition spanOf (m : DetectedEntityMention) : Span :=
  mkSpan (startIndex m) (spanEnd m).

(** Two mentions whose spans do not overlap: one ends where or before the
    other starts. *)
Definition disjointMentions (a b : DetectedEntityMention) : Prop :=
  spanEnd a <= startIndex b \/ spanEnd b <= startIndex a.

Definition startsNoLater (a b : DetectedEntityMention) : Prop :=
  startIndex a <= startIndex b.

(** A mention that comes from a lexicon entry: it names the entry's entity,
    starts where the pattern of the entry's phrase first matches in the
    normalised question, and its matched text is the text found there. *)
Definition fromLexicon (entries : list EntityDetectionLexiconEntry)
    (qLower : jsstring) (m : DetectedEntityMention) : Prop :=
  exists entry,
    In entry entries
    /\ entityId m = lex_entityId entry
    /\ canonicalName m = lex_canonicalName entry
    /\ execFrom 0 qLower (lex_phrase entry) = Some (startIndex m)
    /\ matchedText m
       = firstn (List.length (lex_phrase entry)) (skipn (startIndex m) qLower).

(** The hits the scan of the lexicon accepts, before sorting. *)
Definition acceptedHits (entries : list EntityDetectionLexiconEntry)
    (qLower : jsstring) : list DetectedEntityMention :=
  fst (fold_left (scanEntry qLower) entries ([], [])).

(** What holds of the two arrays of the scan after every turn. *)
Definition scanInvariant (entries : list EntityDetectionLexiconEntry)
    (qLower : jsstring) (state : list DetectedEntityMention * list Span) : Prop :=
  snd state = List.map spanOf (fst state)
  /\ ForallOrdPairs disjointMentions (fst state)
  /\ Forall (fromLexicon entries qLower) (fst state).

(** A small lexicon in the order [buildEntityDetectionLexicon] sorts it:
    longer phrases first. *)
Definition sampleLexicon : list EntityDetectionLexiconEntry :=
  [ mkLexEntry (js "char_frank_sheeran") (js "Frank Sheeran") (js "character")
               (js "frank sheeran") mk_canonical 100;
    mkLexEntry (js "char_peggy_sheeran") (js "Peggy Sheeran") (js "character")
               (js "peggy sheeran") mk_canonical 100;
    mkLexEntry (js "char_frank_sheeran") (js "Frank Sheeran") (js "character")
               (js "frank") mk_hint 90;
    mkLexEntry (js "char_peggy_sheeran") (js "Peggy Sheeran") (js "character")
               (js "peggy") mk_hint 90 ].

(** The route and the builder context of the baseline-only endpoint. *)
Definition baselineOnlyRoute (env : Env) (question : jsstring) : QueryRouteDecision :=
  routeQuery question (Some (js "baseline_rag"))
             (Some (List.length
                      (detectEntitiesInQuestion (env_localeCompare env)
                         (env_lexicon env) question))).

Definition baselineOnlyContext (env : Env) (question : jsstring)
    (includeEvidence : bool) : AnswerBuilderContext :=
  {| ctx_question := question;
     ctx_queryType := route_queryType (baselineOnlyRoute env question);
     ctx_routeReasoning := route_reasoning (baselineOnlyRoute env question);
     ctx_entities :=
       detectEntitiesInQuestion (env_localeCompare env) (env_lexicon env) question;
     ctx_includeEvidence := includeEvidence |}.

(** A whole-word occurrence of a phrase at index [k] of a text, as the
    detection pattern matches it: the phrase up to letter case, no letter or
    digit before it and none after it. *)
Definition wholeWordAt (text phrase : jsstring) (k : nat) : bool :=
  phraseAt (skipn k text) phrase
  && match k with
     | 0 => true
     | S j => match nth_error text j with
              | Some c => negb (isAlnumIgnoreCase c)
              | None => false
              end
     end.

(** A phrase of the entity occurs as a whole word at index [k]. *)
Definition entityOccursAt (entries : list EntityDetectionLexiconEntry)
    (text entityId : jsstring) (k : nat) : bool :=
  existsb (fun entry => str_eqb (lex_entityId entry) entityId
                        && wholeWordAt text (lex_phrase entry) k) entries.

(** The order of the code units, as a collator.  [localeCompare] orders the
    same way two strings of English letters and spaces whose first
    difference is between two letters of one case, or between a space and a
    letter, as the strings of the samples are. *)
Definition codeUnitCollator : Collator :=
  fun a b => if str_eqb a b then 0%Z
             else if str_leb a b then (-1)%Z else 1%Z.

(** A lexicon, longer phrases first, in which a phrase of one entity begins
    the longer phrase of another. *)
Definition overlapLexicon : list EntityDetectionLexiconEntry :=
  [ mkLexEntry (js "char_frank_costello") (js "Frank Costello") (js "character")
               (js "frank costello") mk_canonical 100;
    mkLexEntry (js "char_frank_sheeran") (js "Frank Sheeran") (js "character")
               (js "sheeran") mk_hint 70;
    mkLexEntry (js "char_frank_sheeran") (js "Frank Sheeran") (js "character")
               (js "frank") mk_hint 90;
    mkLexEntry (js "char_jimmy_hoffa") (js "Jimmy Hoffa") (js "character")
               (js "jimmy") mk_alias 80 ].

(* ================================================================== *)
(** ** Vocabulary of the further properties *)
(* ================================================================== *)

(** A code unit a token of [tokenize] can hold: [a-z], [0-9] or the
    apostrophe. *)
Definition isTokenUnit (c : N) : bool := isLowerAlnum c || N.eqb c 39.

(** The largest confidence each builder gives. *)
Definition confidenceCap (mode : AnswerMode) : Q :=
  match mode with
  | kg => 0.95%Q
  | ntg => 0.92%Q
  | hybrid => 0.93%Q
  | baseline_rag => 0.78%Q
  end.

(** A context with its detected entities replaced. *)
Definition withEntities (context : AnswerBuilderContext)
    (entities : list DetectedEntityMention) : AnswerBuilderContext :=
  {| ctx_question := ctx_question context;
     ctx_queryType := ctx_queryType context;
     ctx_routeReasoning := ctx_routeReasoning context;
     ctx_entities := entities;
     ctx_includeEvidence := ctx_includeEvidence context |}.

(** What every builder fixes of its answer: the mode, the query type, and a
    finite confidence between [lo] and [hi]. *)
Definition builderShape (mode : AnswerMode) (qt : QueryType) (lo hi : Q)
    (a : StructuredAnswerCore) : Prop :=
  modeUsed a = mode
  /\ queryType a = qt
  /\ jsLeb (JsFinite lo) (confidence a) = true
  /\ jsLeb (confidence a) (JsFinite hi) = true.


(** What a response fixes of an answer: the mode, the query type, and the
    confidence the builder gave, which is a finite number between 0.1 and
    the cap of the mode. *)
Definition responseShape (mode : AnswerMode) (qt : QueryType)
    (built answer : StructuredAnswerCore) : Prop :=
  modeUsed answer = mode
  /\ queryType answer = qt
  /\ confidence answer = confidence built
  /\ jsLeb (JsFinite 0.1) (confidence answer) = true
  /\ jsLeb (confidence answer) (JsFinite (confidenceCap mode)) = true.

(** The entry names an entity of the graph, with its canonical name and
    type. *)
Definition namesEntity (entities : list KgData.KgEntity)
    (entry : EntityDetectionLexiconEntry) : Prop :=
  exists entity,
    In entity entities
    /\ KgData.kent_entityId entity = lex_entityId entry
    /\ KgData.kent_canonicalName entity = lex_canonicalName entry
    /\ KgData.kent_entityType entity = lex_entityType entry.

(** The key under which the lexicon builder remembers an entry. *)
Definition keyOf (entry : EntityDetectionLexiconEntry) : jsstring :=
  Lexicon.entryKey (lex_entityId entry) (lex_phrase entry) (lex_matchKind entry).

(** Longer phrases first. *)
Definition longerFirst (a b : EntityDetectionLexiconEntry) : Prop :=
  List.length (lex_phrase b) <= List.length (lex_phrase a).

(** What the lexicon builder keeps of its two accumulators. *)
Definition lexiconInvariant (entities : list KgData.KgEntity)
    (state : Lexicon.LexiconState) : Prop :=
  Forall (fun entry => 3 <= List.length (lex_phrase entry)
                       /\ namesEntity entities entry) (fst state)
  /\ NoDup (List.map keyOf (fst state))
  /\ (forall entry, In entry (fst state) -> In (keyOf entry) (snd state)).

(** A loaded entity, alias and edge, as the normalisers let them through:
    non-empty ids and names, a known entity type, a known stability. *)
Definition wellFormedEntity (entity : KgData.KgEntity) : Prop :=
  KgData.kent_entityId entity <> []
  /\ KgData.kent_canonicalName entity <> []
  /\ In (KgData.kent_entityType entity) KgData.ENTITY_TYPES.

Definition wellFormedAlias (alias : KgData.EntityAliasRecord) : Prop :=
  KgData.al_aliasRecordId alias <> []
  /\ KgData.al_aliasRaw alias <> []
  /\ KgData.al_aliasNormalized alias <> []
  /\ KgData.al_entityId alias <> []
  /\ KgData.al_aliasKind alias <> []
  /\ KgData.al_source alias <> []
  /\ In (KgData.al_entityType alias) KgData.ENTITY_TYPES.

Definition wellFormedEdge (edge : KgData.KGEdgeRecord) : Prop :=
  KgData.rec_edgeId edge <> []
  /\ KgData.rec_subjectId edge <> []
  /\ KgData.rec_predicate edge <> []
  /\ KgData.rec_objectId edge <> []
  /\ In (KgData.rec_stability edge) KgData.STABILITIES.

(** A small graph: three characters, one manual and one cue alias, two
    edges. *)
Definition sampleKgEntity (id name : string) : KgData.KgEntity :=
  KgData.mkKgEntity (js id) (js "character") (js name) [] None [].

Definition sampleKg : KgData.KgArtifacts :=
  {| KgData.kga_available := true;
     KgData.kga_entities :=
       [sampleKgEntity "char_frank_sheeran" "Frank Sheeran";
        sampleKgEntity "char_peggy_sheeran" "Peggy Sheeran";
        sampleKgEntity "char_jimmy_hoffa" "Jimmy Hoffa"];
     KgData.kga_aliases :=
       [KgData.mkAliasRecord (js "alias_0001") (js "The Irishman") (js "the irishman")
          (js "char_frank_sheeran") (js "character") (js "nickname")
          (js "manual_seed") None None;
        KgData.mkAliasRecord (js "alias_0002") (js "JIMMY") (js "jimmy")
          (js "char_jimmy_hoffa") (js "character") (js "speaker_cue")
          (js "screenplay_cue") None None];
     KgData.kga_edges :=
       [KgData.mkEdgeRecord (js "edge_0001") (js "char_frank_sheeran")
          (js "works_with") (js "char_jimmy_hoffa") (js "semi_stable")
          [js "scene:scene_0008"] [];
        KgData.mkEdgeRecord (js "edge_0002") (js "char_peggy_sheeran")
          (js "family") (js "char_frank_sheeran") (js "stable") [] []];
     KgData.kga_metadata := KgData.mkKgMetadata [] [] [];
     KgData.kga_missingFiles := [] |}.

(** The request of the first case of queryContract.test.ts, and the
    malformed payload of its last case. *)
Definition sampleRequestBody : JsValue :=
  VObject [(js "question",
            VString (js "How does Peggy's relationship with Frank change over time?"));
           (js "preferred_mode", VString (js "auto"));
           (js "include_evidence", VBool true);
           (js "include_baseline_comparison", VBool true)].

Definition malformedPayload : JsValue :=
  VObject [(js "question", VString (js "x"));
           (js "query_type", VString (js "fact"));
           (js "mode_used", VString (js "kg"));
           (js "answer_text", VString (js "x"));
           (js "confidence", VNumber (JsFinite 1.2%Q));
           (js "entities_used", VArray []);
           (js "events_used", VArray []);
           (js "state_changes_used", VArray []);
           (js "evidence_refs", VArray []);
           (js "reasoning_notes", VString (js "x"));
           (js "baseline_comparison", VNull)].

(** The graph artifacts as the answer builder reads them: the entities,
    edges and neighbour rows projected on the fields the builder uses, and
    the store whose read calls answer from the artifacts. *)
Definition toEntity (entity : KgData.KgEntity) : Entity :=
  mkEntity (KgData.kent_entityId entity) (KgData.kent_canonicalName entity)
           (KgData.kent_entityType entity).

Definition toEdge (edge : KgData.KGEdgeRecord) : KGEdge :=
  mkEdge (KgData.rec_edgeId edge) (KgData.rec_objectId edge)
         (KgData.rec_predicate edge) (KgData.rec_stability edge)
         (KgData.rec_evidenceRefs edge).

Definition toNeighbor (row : KgData.NeighborRow) : KGNeighbor :=
  mkNeighbor (KgData.nbr_direction row) (toEdge (KgData.nbr_edge row))
             (option_map toEntity (KgData.nbr_neighbor row)).

Definition storeOf (localeCompare : Collator) (artifacts : KgData.KgArtifacts)
  : KgStore :=
  {| kg_available := KgData.kga_available artifacts;
     kg_entityOf := fun id =>
       option_map toEntity
         (KgData.entityMapGet (KgData.kga_entities artifacts) id);
     kg_neighborsOf := fun id =>
       List.map toNeighbor
         (sortBy (KgData.neighborCompare localeCompare)
                 (KgData.neighborRows artifacts id));
     kg_search := fun q =>
       List.map toEntity
         (KgData.matchingEntities localeCompare artifacts
            (KgData.mkListEntitiesOptions (Some q) None None)) |}.

(** The query and the type [listEntities] filters by, as it reads them off
    its options: the trimmed lower-case query, and no type for a missing or
    empty one and for [all]. *)
Definition queryOf (options : KgData.ListEntitiesOptions) : jsstring :=
  toLowerCase (trim (orElse (KgData.leo_q options) [])).

Definition typeOf (options : KgData.ListEntitiesOptions) : option jsstring :=
  match KgData.leo_type options with
  | Some t => if isEmpty t || str_eqb t (js "all") then None else Some t
  | None => None
  end.

(** The strings [listEntities] lower-cases for an entity have all their
    code units below U+0100. *)
Definition latin1Entity (entity : KgData.KgEntity) : bool :=
  isLatin1 (KgData.kent_canonicalName entity)
  && isLatin1 (KgData.kent_entityId entity)
  && forallb isLatin1 (KgData.kent_aliases entity).

(** The service on the sample graph: the lexicon and the store both come
    from the artifacts; no narrative trace, no synthesis. *)
Definition sampleKgEnv : Env :=
  {| env_localeCompare := codeUnitCollator;
     env_lexicon := Lexicon.buildEntityDetectionLexicon codeUnitCollator sampleKg;
     env_kg := storeOf codeUnitCollator sampleKg;
     env_ntg := missingNtg;
     env_llmConfig := synthesisOff;
     env_generate := silentProvider |}.

(** The options of the trace builder's own calls to the store: the
    arguments [buildTraceAnswer] passes to [listStateChanges] and to
    [listTraceExplorerEvents] for a context. *)
Definition primaryEntityIdOf (context : AnswerBuilderContext)
  : option jsstring :=
  option_map entityId (List.hd_error (ctx_entities context)).

Definition stateChangeCallOf (context : AnswerBuilderContext)
  : ListStateChangesOptions :=
  {| sco_pair := pairFromContext context;
     sco_entityId := match pairFromContext context with
                     | Some _ => None
                     | None => primaryEntityIdOf context
                     end;
     sco_limit := 40 |}.

Definition traceCallOf (context : AnswerBuilderContext)
  : TraceExplorerOptions :=
  match ctx_queryType context with
  | evidence =>
      {| teo_q := Some (ctx_question context);
         teo_entityId := primaryEntityIdOf context;
         teo_pair := pairFromContext context;
         teo_year := qLooksLikeYear (ctx_question context);
         teo_limit := 14 |}
  | _ =>
      {| teo_q := traceTextFilterFromQuestion context;
         teo_entityId := primaryEntityIdOf context;
         teo_pair := pairFromContext context;
         teo_year := qLooksLikeYear (ctx_question context);
         teo_limit := 40 |}
  end.

(* VOCAB *)

(* PROPERTIES *)

(* ================================================================== *)
(** * Properties *)
(* ================================================================== *)

Unset Implicit Arguments.

(** ** Strings *)

Section StringFacts.

Lemma str_eqb_eq (a b : jsstring) : str_eqb a b = true <-> a = b.
Proof.
  revert b; induction a as [|x a IH]; intros [|y b]; simpl; split; intro H;
    try reflexivity; try discriminate.
  - apply andb_true_iff in H as [Hxy Hab].
    apply N.eqb_eq in Hxy; apply IH in Hab; congruence.
  - inversion H; subst. rewrite N.eqb_refl. simpl. now apply IH.
Qed.

Lemma str_eqb_refl (a : jsstring) : str_eqb a a = true.
Proof. now apply str_eqb_eq. Qed.

Lemma mem_In (v : jsstring) (l : list jsstring) : mem v l = true <-> In v l.
Proof.
  induction l as [|s l IH]; simpl.
  - split; [discriminate | tauto].
  - rewrite orb_true_iff, str_eqb_eq, IH. split; intros [H|H]; auto.
Qed.

Lemma mem_false_not_In (v : jsstring) (l : list jsstring) :
  mem v l = false <-> ~ In v l.
Proof.
  rewrite <- mem_In. destruct (mem v l); split; intro H;
    solve [reflexivity | discriminate | congruence | exfalso; now apply H].
Qed.

Lemma isEmpty_nil (s : jsstring) : isEmpty s = true <-> s = [].
Proof. destruct s; simpl; split; intro H; try reflexivity; discriminate. Qed.

(** What [trimStart] returns is empty or starts with a non-blank unit. *)
Lemma trimStart_shape (s : jsstring) :
  trimStart s = [] \/
  exists c t, trimStart s = c :: t /\ isWhitespace c = false.
Proof.
  induction s as [|c t IH]; simpl.
  - now left.
  - destruct (isWhitespace c) eqn:E.
    + exact IH.
    + right. now exists c, t.
Qed.

Lemma trimStart_solid (c : N) (t : jsstring) :
  isWhitespace c = false -> trimStart (c :: t) = c :: t.
Proof. intro H; simpl; now rewrite H. Qed.

Lemma trimEnd_cons (c : N) (t : jsstring) :
  isWhitespace c = false -> trimEnd (c :: t) = c :: trimEnd t.
Proof.
  intro H. simpl. destruct (trimEnd t); [now rewrite H | reflexivity].
Qed.

Lemma trimEnd_cons_keep (c : N) (t : jsstring) :
  trimEnd t <> [] -> trimEnd (c :: t) = c :: trimEnd t.
Proof. intro H. simpl. destruct (trimEnd t); [contradiction | reflexivity]. Qed.

Lemma trimEnd_idem (s : jsstring) : trimEnd (trimEnd s) = trimEnd s.
Proof.
  induction s as [|c t IH]; [reflexivity|].
  simpl. destruct (trimEnd t) as [|d t'] eqn:E.
  - destruct (isWhitespace c) eqn:Ec; [reflexivity|].
    simpl. now rewrite Ec.
  - rewrite trimEnd_cons_keep; rewrite IH; [reflexivity | discriminate].
Qed.

Lemma trim_idem (s : jsstring) : trim (trim s) = trim s.
Proof.
  unfold trim.
  destruct (trimStart_shape s) as [E | (c & t & E & Hc)]; rewrite E.
  - reflexivity.
  - rewrite (trimEnd_cons _ _ Hc). rewrite (trimStart_solid _ _ Hc).
    rewrite (trimEnd_cons _ _ Hc). now rewrite trimEnd_idem.
Qed.

Lemma startsWith_app (w c : jsstring) : startsWith (w ++ c) w = true.
Proof.
  induction w as [|x w IH]; simpl; [now destruct c|].
  now rewrite N.eqb_refl, IH.
Qed.

Lemma startsWith_split (s w : jsstring) :
  startsWith s w = true -> exists c, s = w ++ c.
Proof.
  revert s; induction w as [|x w IH]; intros s H.
  - now exists s.
  - destruct s as [|y s]; simpl in H; [discriminate|].
    apply andb_true_iff in H as [Hxy Hs]. apply N.eqb_eq in Hxy; subst y.
    destruct (IH _ Hs) as [c ->]. now exists c.
Qed.

Lemma includes_unfold (s w : jsstring) :
  includes s w =
  startsWith s w || match s with [] => false | _ :: s' => includes s' w end.
Proof. destruct s; reflexivity. Qed.

Lemma includes_intro (a w c : jsstring) : includes (a ++ w ++ c) w = true.
Proof.
  induction a as [|x a IH].
  - simpl app. rewrite includes_unfold, startsWith_app. reflexivity.
  - simpl. rewrite IH. apply orb_true_r.
Qed.

Lemma includes_split (s w : jsstring) :
  includes s w = true -> exists a c, s = a ++ w ++ c.
Proof.
  induction s as [|x s IH]; rewrite includes_unfold; intro H.
  - rewrite orb_false_r in H. destruct (startsWith_split _ _ H) as [c Hc].
    now exists [], c.
  - apply orb_true_iff in H as [H|H].
    + destruct (startsWith_split _ _ H) as [c Hc]. now exists [], c.
    + destruct (IH H) as (a & c & ->). now exists (x :: a), c.
Qed.

Lemma includes_iff (s w : jsstring) :
  includes s w = true <-> exists a c, s = a ++ w ++ c.
Proof.
  split; [apply includes_split|]. intros (a & c & ->). apply includes_intro.
Qed.

Lemma includes_app_l (s t w : jsstring) :
  includes s w = true -> includes (s ++ t) w = true.
Proof.
  intro H. apply includes_split in H as (a & c & ->).
  replace ((a ++ w ++ c) ++ t) with (a ++ w ++ (c ++ t))
    by (now rewrite <- !app_assoc).
  apply includes_intro.
Qed.

Lemma includes_app_r (s t w : jsstring) :
  includes t w = true -> includes (s ++ t) w = true.
Proof.
  intro H. apply includes_split in H as (a & c & ->).
  rewrite app_assoc. apply includes_intro.
Qed.

Lemma includes_refl (w : jsstring) : includes w w = true.
Proof.
  rewrite <- (app_nil_r w) at 1. apply (includes_intro [] w []).
Qed.


Lemma trimStart_keeps (a w c : jsstring) :
  solid w = true -> exists a', trimStart (a ++ w ++ c) = a' ++ w ++ c.
Proof.
  intro Hw. induction a as [|x a IH].
  - exists []. destruct w as [|y w]; [discriminate|].
    simpl in Hw. apply andb_true_iff in Hw as [Hy _].
    apply negb_true_iff in Hy. simpl. now rewrite Hy.
  - simpl. destruct (isWhitespace x).
    + exact IH.
    + now exists (x :: a).
Qed.

Lemma trimEnd_nonempty_tail (w c : jsstring) :
  solid w = true -> exists c', trimEnd (w ++ c) = w ++ c'.
Proof.
  intro Hw.
  assert (Hlast : isWhitespace (last w 0%N) = false).
  { destruct w; [discriminate|]. simpl in Hw.
    apply andb_true_iff in Hw as [_ H]. now apply negb_true_iff in H. }
  assert (Hne : w <> []) by (destruct w; [discriminate | discriminate]).
  clear Hw. induction w as [|y w IH]; [contradiction|].
  destruct w as [|z w].
  - simpl in Hlast. exists (trimEnd c). simpl app.
    now rewrite (trimEnd_cons _ _ Hlast).
  - destruct IH as [c' Hc']; [exact Hlast | discriminate |].
    exists c'. change ((y :: z :: w) ++ c) with (y :: ((z :: w) ++ c)).
    rewrite trimEnd_cons_keep; rewrite Hc'; [reflexivity | discriminate].
Qed.

Lemma trimEnd_keeps (a w c : jsstring) :
  solid w = true -> exists c', trimEnd (a ++ w ++ c) = a ++ w ++ c'.
Proof.
  intro Hw. destruct (trimEnd_nonempty_tail w c Hw) as [c' Hc'].
  exists c'. induction a as [|x a IH]; [exact Hc'|].
  simpl app. rewrite trimEnd_cons_keep; rewrite IH; [reflexivity|].
  destruct w; [discriminate|]. destruct a; discriminate.
Qed.

Lemma includes_trim (s w : jsstring) :
  solid w = true -> includes s w = true -> includes (trim s) w = true.
Proof.
  intros Hw H. apply includes_split in H as (a & c & ->).
  unfold trim. destruct (trimStart_keeps a w c Hw) as [a' ->].
  destruct (trimEnd_keeps a' w c Hw) as [c' ->]. apply includes_intro.
Qed.

End StringFacts.

(** ** The contract normaliser *)

Section NormalizerFacts.


Lemma uniqueStringsFrom_fresh (values seen : list jsstring) :
  fresh_trimmed seen (uniqueStringsFrom seen values).
Proof.
  revert seen; induction values as [|value rest IH]; intro seen; simpl.
  - constructor.
  - destruct (isEmpty (trim value)) eqn:Ee; simpl; [apply IH|].
    destruct (mem (trim value) seen) eqn:Em; [apply IH|].
    constructor; auto using trim_idem.
Qed.

Lemma uniqueStringsFrom_fixed (out seen : list jsstring) :
  fresh_trimmed seen out -> uniqueStringsFrom seen out = out.
Proof.
  induction 1 as [|seen v out Ht He Hm _ IH]; simpl; [reflexivity|].
  rewrite Ht, He, Hm. simpl. now rewrite IH.
Qed.

Lemma uniqueStrings_idem (values : list jsstring) :
  uniqueStrings (uniqueStrings values) = uniqueStrings values.
Proof.
  unfold uniqueStrings. apply uniqueStringsFrom_fixed, uniqueStringsFrom_fresh.
Qed.

Lemma uniqueStrings_nil_iff_fixed (values : list jsstring) :
  uniqueStrings (uniqueStrings values) = [] <-> uniqueStrings values = [].
Proof. now rewrite uniqueStrings_idem. Qed.

Lemma clampConfidence_idem (v : JsNum) :
  clampConfidence (clampConfidence v) = clampConfidence v.
Proof.
  destruct v as [q| | |]; try reflexivity.
  unfold clampConfidence; simpl.
  destruct (Qle_bool 1 q) eqn:E1; simpl.
  - reflexivity.
  - destruct (Qle_bool 0 q) eqn:E0; simpl.
    + now rewrite E1, E0.
    + reflexivity.
Qed.

Lemma clampConfidence_valid (v : JsNum) :
  validConfidence (clampConfidence v) = true.
Proof.
  destruct v as [q| | |]; try reflexivity.
  unfold clampConfidence; simpl.
  destruct (Qle_bool 1 q) eqn:E1; simpl; [reflexivity|].
  destruct (Qle_bool 0 q) eqn:E0; simpl; [|reflexivity].
  rewrite E0. simpl.
  destruct (Qle_bool q 1) eqn:E2; [reflexivity|].
  exfalso.
  assert (H1 : ~ (1 <= q)%Q) by (rewrite <- Qle_bool_iff; congruence).
  assert (H2 : ~ (q <= 1)%Q) by (rewrite <- Qle_bool_iff; congruence).
  apply H2. apply Qlt_le_weak. now apply Qnot_le_lt.
Qed.

(** The payload of any answer passes the confidence check of the validator,
    since [toApiAnswerPayload] normalises first. *)
Lemma payload_confidence_valid (a : StructuredAnswerCore) :
  validAnswer (normalizeStructuredAnswer a) = true.
Proof. apply clampConfidence_valid. Qed.

End NormalizerFacts.

(** C7.  Normalising is idempotent: for every answer [x],
    [normalizeStructuredAnswer (normalizeStructuredAnswer x)] is
    [normalizeStructuredAnswer x]. *)
Theorem normalizeStructuredAnswer_idempotent (x : StructuredAnswerCore) :
  normalizeStructuredAnswer (normalizeStructuredAnswer x)
  = normalizeStructuredAnswer x.
Proof.
  unfold normalizeStructuredAnswer; simpl.
  now rewrite !trim_idem, !uniqueStrings_idem, clampConfidence_idem.
Qed.

(** ** The router *)

Section RouterFacts.

Lemma normalizePreferredMode_name (pm : PreferredMode) :
  normalizePreferredMode (Some (preferredModeName pm)) = pm.
Proof. destruct pm; reflexivity. Qed.

(** Strings that are no mode name, and [undefined], select [auto]. *)
Lemma normalizePreferredMode_undefined : normalizePreferredMode None = pm_auto.
Proof. reflexivity. Qed.

(** The cases of queryRouter.test.ts. *)
Example classify_fact :
  classifyQueryType (js "Who are the key people connected to Frank Sheeran?") = fact.
Proof. vm_compute. reflexivity. Qed.

Example classify_state_change :
  classifyQueryType (js "How does Peggy's relationship with Frank change over time?")
  = state_change.
Proof. vm_compute. reflexivity. Qed.

Example classify_causal_chain :
  classifyQueryType (js "What events lead up to Hoffa's disappearance?") = causal_chain.
Proof. vm_compute. reflexivity. Qed.

Example classify_evidence :
  classifyQueryType (js "Show supporting scenes for that conclusion.") = evidence.
Proof. vm_compute. reflexivity. Qed.

Example classify_comparison :
  classifyQueryType (js "Why is this not just RAG? Compare baseline vs graph.")
  = comparison.
Proof. vm_compute. reflexivity. Qed.

Example select_override_kg_on_timeline :
  sel_modeUsed (selectModeForQueryType timeline (Some (js "kg")) None) = kg
  /\ sel_reasoning (selectModeForQueryType timeline (Some (js "kg")) None)
     = js "User preferred kg mode override.".
Proof. split; reflexivity. Qed.

Example route_comparison_defaults_to_hybrid :
  let d := routeQuery (js "Compare KG and timeline answers for Jimmy Hoffa and Frank.")
                      None (Some 2) in
  route_queryType d = comparison /\ route_modeUsed d = hybrid.
Proof. vm_compute. split; reflexivity. Qed.

End RouterFacts.




(** ** The baseline comparison of a response *)

Section BaselineComparisonFacts.

Lemma route_mode_baseline_iff (question : jsstring) (pm : PreferredMode)
    (n : option nat) :
  AnswerMode_eqb
    (route_modeUsed (routeQuery question (Some (preferredModeName pm)) n))
    baseline_rag
  = match pm with pm_baseline_rag | pm_baseline => true | _ => false end.
Proof.
  unfold routeQuery, selectModeForQueryType.
  cbn [route_modeUsed]. rewrite normalizePreferredMode_name.
  destruct pm; try reflexivity.
  destruct (classifyQueryType question); reflexivity.
Qed.

Lemma baselineComparison_isSome (env : Env) (request : QueryRequest) :
  isSome (baselineComparison (answerQueryRequest env request))
  = (req_includeBaselineComparison request
     || QueryType_eqb (route_queryType (requestRoute env request)) comparison)
    && negb (AnswerMode_eqb (route_modeUsed (requestRoute env request)) baseline_rag).
Proof.
  unfold answerQueryRequest. fold (requestRoute env request).
  cbv zeta.
  destruct (req_includeEvidence request); cbn [negb baselineComparison];
    match goal with
    | |- context [if ?b then Some _ else None] => destruct b
    end; reflexivity.
Qed.

Lemma QueryType_eqb_eq (a b : QueryType) : QueryType_eqb a b = true <-> a = b.
Proof. destruct a, b; simpl; split; intro H; try reflexivity; discriminate. Qed.

End BaselineComparisonFacts.

(** C2, the claim as stated fails: a request with a non-empty question that
    asks for the baseline comparison and prefers the [baseline_rag] mode
    gets a response whose [baselineComparison] is null. *)
Lemma baselineComparison_null_when_baseline_preferred :
  let request :=
    {| req_question := js "Who is Frank Sheeran?";
       req_preferredMode := pm_baseline_rag;
       req_includeEvidence := true;
       req_includeBaselineComparison := true |} in
  trim (req_question request) <> []
  /\ req_includeBaselineComparison request = true
  /\ baselineComparison (answerQueryRequest bareEnv request) = None.
Proof. vm_compute. repeat split; intro H; discriminate H. Qed.

(** C2, amended.  The response's [baselineComparison] is non-null exactly
    when the request asks for the baseline comparison or the routed query
    type is [comparison], and the preferred mode is neither [baseline_rag]
    nor [baseline] (the main answer is then not the baseline answer
    itself). *)
Theorem baselineComparison_present_iff (env : Env) (request : QueryRequest) :
  baselineComparison (answerQueryRequest env request) <> None
  <-> (req_includeBaselineComparison request = true
       \/ classifyQueryType (req_question request) = comparison)
      /\ req_preferredMode request <> pm_baseline_rag
      /\ req_preferredMode request <> pm_baseline.
Proof.
  pose proof (baselineComparison_isSome env request) as H.
  unfold requestRoute in H. rewrite route_mode_baseline_iff in H.
  unfold routeQuery in H. cbn [route_queryType] in H.
  destruct (baselineComparison (answerQueryRequest env request)) as [b|];
    cbn [isSome] in H; symmetry in H.
  - apply andb_true_iff in H as [H1 H2]. apply orb_true_iff in H1.
    rewrite QueryType_eqb_eq in H1.
    split; [intros _ | intros _; discriminate].
    split; [exact H1|].
    destruct (req_preferredMode request); try discriminate;
      split; discriminate.
  - split; [intro C; now contradiction C|].
    intros [[Hi|Hc] [Hb1 Hb2]]; exfalso.
    + rewrite Hi in H. simpl in H.
      destruct (req_preferredMode request); try discriminate; congruence.
    + apply QueryType_eqb_eq in Hc. rewrite Hc, orb_true_r in H. simpl in H.
      destruct (req_preferredMode request); try discriminate; congruence.
Qed.

(** ** Stripping evidence, merging, and the hybrid builder *)

Section MergeFacts.

Lemma maybeStripEvidence_frame (a : StructuredAnswerCore) (b : bool) :
  answerText (maybeStripEvidence a b) = answerText a
  /\ modeUsed (maybeStripEvidence a b) = modeUsed a
  /\ queryType (maybeStripEvidence a b) = queryType a
  /\ confidence (maybeStripEvidence a b) = confidence a
  /\ entitiesUsed (maybeStripEvidence a b) = entitiesUsed a
  /\ eventsUsed (maybeStripEvidence a b) = eventsUsed a
  /\ stateChangesUsed (maybeStripEvidence a b) = stateChangesUsed a.
Proof. destruct b; repeat split. Qed.

Lemma maybeStripEvidence_refs_off (a : StructuredAnswerCore) :
  evidenceRefs (maybeStripEvidence a false) = [].
Proof. reflexivity. Qed.

Lemma maybeStripEvidence_notes_off (a : StructuredAnswerCore) :
  includes (reasoningNotes a) EVIDENCE_OMITTED_PROBE = false ->
  reasoningNotes (maybeStripEvidence a false)
  = reasoningNotes a ++ js " " ++ EVIDENCE_OMITTED_NOTE.
Proof. intro H. unfold maybeStripEvidence. simpl. now rewrite H. Qed.

(** Without an override of the notes, [mergeAnswerCores] joins the two
    rationales with a blank and trims the result. *)
Lemma mergeAnswerCores_default_notes (p s : StructuredAnswerCore) :
  reasoningNotes (mergeAnswerCores p s noOverrides)
  = trim (reasoningNotes p ++ js " " ++ reasoningNotes s).
Proof. reflexivity. Qed.

Lemma hybridText_carries_rationales (qt : QueryType)
    (k t : StructuredAnswerCore) :
  QueryType_eqb qt comparison = false ->
  includes (hybridText qt k t) (reasoningNotes k) = true
  /\ includes (hybridText qt k t) (reasoningNotes t) = true.
Proof.
  intro Hq. unfold hybridText. rewrite Hq. cbn [join]. split.
  - do 2 apply includes_app_r. apply includes_app_l.
    apply includes_app_r, includes_refl.
  - do 4 apply includes_app_r. apply includes_app_l.
    apply includes_app_r, includes_refl.
Qed.

End MergeFacts.

(** C9, the claim as stated fails: with both artifact sets missing, the two
    builders give their rationales, and the reasoning notes of the hybrid
    answer are neither their concatenation nor contain either of them. *)
Lemma hybrid_notes_not_concatenated :
  let context := sampleContext (js "What events lead up to the meeting?") causal_chain true in
  let kgAnswer := buildKgAnswer sampleCollator missingKg context in
  let traceAnswer := buildTraceAnswer missingNtg context in
  let merged := buildHybridAnswer sampleCollator missingKg missingNtg context in
  reasoningNotes merged
    <> trim (reasoningNotes kgAnswer ++ js " " ++ reasoningNotes traceAnswer)
  /\ includes (reasoningNotes merged) (reasoningNotes kgAnswer) = false
  /\ includes (reasoningNotes merged) (reasoningNotes traceAnswer) = false.
Proof. vm_compute. repeat split. intro H; discriminate H. Qed.

(** C9, amended.  For every hybrid answer the reasoning notes are the fixed
    hybrid-mode sentence, followed by the note that evidence refs were
    omitted when the request excludes evidence; the rationales of the
    graph-neighbourhood and of the narrative-trace builder are carried by
    the answer text, for every query type but [comparison]. *)
Theorem hybrid_notes_fixed_rationales_in_text
    (localeCompare : Collator) (kgStore : KgStore) (ntgStore : NtgStore)
    (context : AnswerBuilderContext) :
  let kgAnswer := buildKgAnswer localeCompare kgStore context in
  let traceAnswer := buildTraceAnswer ntgStore context in
  let merged := buildHybridAnswer localeCompare kgStore ntgStore context in
  reasoningNotes merged
    = (if ctx_includeEvidence context then HYBRID_NOTES
       else HYBRID_NOTES ++ js " " ++ EVIDENCE_OMITTED_NOTE)
  /\ match ctx_queryType context with
     | comparison => True
     | _ => includes (answerText merged) (reasoningNotes kgAnswer) = true
            /\ includes (answerText merged) (reasoningNotes traceAnswer) = true
     end.
Proof.
  cbv zeta. unfold buildHybridAnswer. cbv zeta.
  set (k := buildKgAnswer localeCompare kgStore context).
  set (t := buildTraceAnswer ntgStore context).
  split.
  - destruct (ctx_includeEvidence context); [reflexivity|].
    rewrite maybeStripEvidence_notes_off; [reflexivity|].
    vm_compute. reflexivity.
  - match goal with
    | |- context [maybeStripEvidence ?m ?b] =>
        destruct (maybeStripEvidence_frame m b) as [-> _]
    end.
    cbn [mergeAnswerCores answerText ov_answerText orElse].
    destruct (ctx_queryType context) eqn:Eq; try exact I;
      apply hybridText_carries_rationales; reflexivity.
Qed.

(** ** The evidence branch of the narrative-trace builder *)

Section EvidenceFacts.

Lemma firstn_length_le {A : Type} (n : nat) (l : list A) :
  List.length (firstn n l) <= n.
Proof. rewrite length_firstn. apply Nat.le_min_l. Qed.

Lemma buildTraceAnswer_evidence (store : NtgStore) (context : AnswerBuilderContext) :
  ntg_available store = true ->
  ctx_queryType context = evidence ->
  exists items,
    buildTraceAnswer store context
    = maybeStripEvidence (evidenceAnswer context items) (ctx_includeEvidence context).
Proof.
  intros Ha Hq. unfold buildTraceAnswer. rewrite Hq.
  unfold listTraceExplorerEvents. rewrite Ha. cbn [negb trr_available trr_items].
  eexists. reflexivity.
Qed.

End EvidenceFacts.

(** C8, the claim as stated fails: on an evidence query over available
    artifacts that match no row, no row is shown and the confidence is 0.2,
    not [min(0.86, 0.45 + 0*0.04) = 0.45]. *)
Lemma evidence_confidence_without_rows :
  let store := ntgWithTraceRows [] in
  let context := sampleContext (js "Show proof of the 1975 meeting") evidence true in
  let answer := buildTraceAnswer store context in
  ntg_available store = true
  /\ ctx_queryType context = evidence
  /\ List.length (eventsUsed answer) = 0
  /\ confidence answer = JsFinite 0.2%Q
  /\ jsNumEqb (confidence answer) (spec_evidenceConfidence 0) = false.
Proof. vm_compute. repeat split. Qed.

(** C8, amended.  For every evidence query answered by the narrative-trace
    builder over available artifacts, at most 8 rows are shown (one per
    event used); the confidence is [min(0.86, 0.45 + shown*0.04)] when at
    least one row is shown, and 0.2 when none is. *)
Theorem evidence_confidence_by_rows
    (store : NtgStore) (context : AnswerBuilderContext) :
  ntg_available store = true ->
  ctx_queryType context = evidence ->
  let answer := buildTraceAnswer store context in
  let shown := List.length (eventsUsed answer) in
  shown <= 8
  /\ confidence answer
     = (if Nat.eqb shown 0 then JsFinite 0.2%Q else spec_evidenceConfidence shown).
Proof.
  intros Ha Hq. cbv zeta.
  destruct (buildTraceAnswer_evidence store context Ha Hq) as [items ->].
  destruct (maybeStripEvidence_frame (evidenceAnswer context items)
              (ctx_includeEvidence context))
    as (_ & _ & _ & -> & _ & -> & _).
  unfold evidenceAnswer, ntgAnswer. cbn [eventsUsed confidence].
  rewrite length_map. split; [apply firstn_length_le | reflexivity].
Qed.

Lemma evidence_confidence_by_rows_witness :
  let store := ntgWithTraceRows [sampleTraceRow "evt_000123"; sampleTraceRow "evt_000124"] in
  let context := sampleContext (js "Show proof of the 1975 meeting") evidence true in
  let answer := buildTraceAnswer store context in
  List.length (eventsUsed answer) <= 8
  /\ confidence answer
     = (if Nat.eqb (List.length (eventsUsed answer)) 0 then JsFinite 0.2%Q
        else spec_evidenceConfidence (List.length (eventsUsed answer))).
Proof.
  exact (evidence_confidence_by_rows
           (ntgWithTraceRows [sampleTraceRow "evt_000123"; sampleTraceRow "evt_000124"])
           (sampleContext (js "Show proof of the 1975 meeting") evidence true)
           eq_refl eq_refl).
Defined.

(** ** Missing artifacts *)

Section MissingArtifacts.

Lemma buildKgAnswer_missing (lc : Collator) (store : KgStore)
    (context : AnswerBuilderContext) :
  kg_available store = false ->
  buildKgAnswer lc store context
  = maybeStripEvidence (kgUnavailableAnswer context) (ctx_includeEvidence context).
Proof. intro H. unfold buildKgAnswer. now rewrite H. Qed.

Lemma buildBaseline_missing (lc : Collator) (store : NtgStore)
    (context : AnswerBuilderContext) :
  ntg_available store = false ->
  buildBaselineRagLikeAnswer lc store context
  = maybeStripEvidence (baselineUnavailableAnswer context)
                       (ctx_includeEvidence context).
Proof. intro H. unfold buildBaselineRagLikeAnswer. now rewrite H. Qed.

(** With the artifacts missing, the narrative-trace builder answers with one
    of its two "unavailable" answers, at confidence 0.12. *)
Lemma buildTraceAnswer_missing (store : NtgStore) (context : AnswerBuilderContext) :
  ntg_available store = false ->
  buildTraceAnswer store context
  = maybeStripEvidence
      (match ctx_queryType context with
       | state_change => stateChangesUnavailableAnswer context
       | other => timelineUnavailableAnswer context other
       end)
      (ctx_includeEvidence context).
Proof.
  intro H. unfold buildTraceAnswer, listStateChanges, listTraceExplorerEvents,
    getTimelineSlice, summarizeStateChangesAnswer, summarizeTimelineLikeAnswer.
  rewrite H. cbn [negb orb scr_available trr_available tlr_available].
  destruct (ctx_queryType context) eqn:Eq; rewrite ?Eq; reflexivity.
Qed.

Lemma lowConfidence_stripped (a : StructuredAnswerCore) (b : bool) :
  lowConfidenceAnswer (maybeStripEvidence a b) = lowConfidenceAnswer a.
Proof. destruct b; reflexivity. Qed.

Lemma answerText_stripped (a : StructuredAnswerCore) (b : bool) :
  answerText (maybeStripEvidence a b) = answerText a.
Proof. destruct b; reflexivity. Qed.

Lemma confidence_stripped (a : StructuredAnswerCore) (b : bool) :
  confidence (maybeStripEvidence a b) = confidence a.
Proof. destruct b; reflexivity. Qed.

(** The text of a hybrid answer carries the texts of its two parts. *)
Lemma hybridText_carries_texts (qt : QueryType) (k t : StructuredAnswerCore) :
  includes (hybridText qt k t) (answerText k) = true
  /\ includes (hybridText qt k t) (answerText t) = true.
Proof.
  unfold hybridText. destruct (QueryType_eqb qt comparison); cbn [join]; split.
  - do 4 apply includes_app_r. apply includes_app_l, includes_refl.
  - do 10 apply includes_app_r. apply includes_app_l, includes_refl.
  - do 10 apply includes_app_r. apply includes_app_l, includes_refl.
  - do 16 apply includes_app_r. apply includes_refl.
Qed.

Lemma includes_trans (s m w : jsstring) :
  includes s m = true -> includes m w = true -> includes s w = true.
Proof.
  intros H1 H2. apply includes_split in H1 as (a & c & ->).
  apply includes_split in H2 as (a' & c' & ->).
  apply includes_iff. exists (a ++ a'), (c' ++ c).
  now rewrite <- !app_assoc.
Qed.

Lemma hybrid_answerText (lc : Collator) (kgStore : KgStore) (ntgStore : NtgStore)
    (context : AnswerBuilderContext) :
  answerText (buildHybridAnswer lc kgStore ntgStore context)
  = hybridText (ctx_queryType context) (buildKgAnswer lc kgStore context)
               (buildTraceAnswer ntgStore context).
Proof. unfold buildHybridAnswer. cbv zeta. now rewrite answerText_stripped. Qed.

Lemma hybrid_confidence (lc : Collator) (kgStore : KgStore) (ntgStore : NtgStore)
    (context : AnswerBuilderContext) :
  confidence (buildHybridAnswer lc kgStore ntgStore context)
  = hybridConfidence (buildKgAnswer lc kgStore context)
                     (buildTraceAnswer ntgStore context).
Proof. unfold buildHybridAnswer. cbv zeta. now rewrite confidence_stripped. Qed.

End MissingArtifacts.

Section MissingArtifactsConfidence.

Lemma lowConfidenceAnswer_by_confidence (a : StructuredAnswerCore) (c : JsNum) :
  confidence a = c ->
  lowConfidenceAnswer a = validConfidence c && jsLeb c (JsFinite 0.15%Q).
Proof. intros <-. reflexivity. Qed.

Lemma hybridConfidence_by_parts (k t : StructuredAnswerCore) (ck ct : JsNum) :
  confidence k = ck -> confidence t = ct ->
  hybridConfidence k t
  = jsMin (JsFinite 0.93%Q)
          (jsAdd (jsMul (jsMax ck ct) (JsFinite 0.97%Q)) (JsFinite 0.03%Q)).
Proof. intros <- <-. reflexivity. Qed.

End MissingArtifactsConfidence.

(** C5, the claim as stated fails: with the KG artifacts missing and the
    narrative-trace artifacts there, the hybrid builder answers an evidence
    query that matches eight rows with confidence 0.7769, which is not a
    low confidence. *)
Lemma hybrid_confident_with_kg_missing :
  let rows := List.map sampleTraceRow
                ["e1"; "e2"; "e3"; "e4"; "e5"; "e6"; "e7"; "e8"]%string in
  let context := sampleContext (js "Show proof of the meeting") evidence true in
  let answer := buildHybridAnswer sampleCollator missingKg (ntgWithTraceRows rows) context in
  kg_available missingKg = false
  /\ jsNumEqb (confidence answer) (JsFinite 0.7769%Q) = true
  /\ lowConfidenceAnswer answer = false.
Proof. vm_compute. repeat split. Qed.

(** C5, amended.  When the artifacts a builder reads are missing, it returns
    a structurally valid answer of low confidence whose text says which
    artifacts are missing: the graph-neighbourhood builder (confidence 0.1)
    when the KG artifacts are missing, the narrative-trace builder (0.12)
    and the lexical-baseline builder (0.1) when the narrative-trace
    artifacts are missing, and the hybrid builder (its confidence is
    [min(0.93, max(0.1, 0.12) * 0.97 + 0.03)], which is below 0.15, and its
    text carries both messages) when both are missing.  The builders are
    total functions: no case raises. *)
Theorem builders_with_missing_artifacts
    (lc : Collator) (kgStore : KgStore) (ntgStore : NtgStore)
    (context : AnswerBuilderContext) :
  (kg_available kgStore = false ->
   let a := buildKgAnswer lc kgStore context in
   lowConfidenceAnswer a = true
   /\ confidence a = JsFinite 0.1%Q
   /\ includes (answerText a) KG_MISSING_TEXT = true)
  /\ (ntg_available ntgStore = false ->
      let t := buildTraceAnswer ntgStore context in
      let b := buildBaselineRagLikeAnswer lc ntgStore context in
      lowConfidenceAnswer t = true
      /\ confidence t = JsFinite 0.12%Q
      /\ includes (answerText t) (js "NTG") = true
      /\ includes (answerText t) NTG_MISSING_TEXT = true
      /\ lowConfidenceAnswer b = true
      /\ confidence b = JsFinite 0.1%Q
      /\ includes (answerText b) BASELINE_MISSING_TEXT = true)
  /\ (kg_available kgStore = false -> ntg_available ntgStore = false ->
      let h := buildHybridAnswer lc kgStore ntgStore context in
      lowConfidenceAnswer h = true
      /\ confidence h
         = jsMin (JsFinite 0.93%Q)
                 (jsAdd (jsMul (jsMax (JsFinite 0.1%Q) (JsFinite 0.12%Q))
                               (JsFinite 0.97%Q))
                        (JsFinite 0.03%Q))
      /\ includes (answerText h) KG_MISSING_TEXT = true
      /\ includes (answerText h) (answerText (buildTraceAnswer ntgStore context)) = true).
Proof.
  assert (Hkg : kg_available kgStore = false ->
                confidence (buildKgAnswer lc kgStore context) = JsFinite 0.1%Q
                /\ includes (answerText (buildKgAnswer lc kgStore context))
                            KG_MISSING_TEXT = true).
  { intro H. rewrite (buildKgAnswer_missing lc kgStore context H).
    rewrite confidence_stripped, answerText_stripped. split; reflexivity. }
  assert (Htr : ntg_available ntgStore = false ->
                confidence (buildTraceAnswer ntgStore context) = JsFinite 0.12%Q
                /\ includes (answerText (buildTraceAnswer ntgStore context))
                            (js "NTG") = true
                /\ includes (answerText (buildTraceAnswer ntgStore context))
                            NTG_MISSING_TEXT = true).
  { intro H. rewrite (buildTraceAnswer_missing ntgStore context H).
    rewrite confidence_stripped, answerText_stripped.
    destruct (ctx_queryType context); repeat split; vm_compute; reflexivity. }
  split; [|split].
  - intro H. cbv zeta. destruct (Hkg H) as [Hc Ht].
    rewrite (lowConfidenceAnswer_by_confidence _ _ Hc). auto.
  - intro H. cbv zeta. destruct (Htr H) as (Hc & Ht1 & Ht2).
    rewrite (lowConfidenceAnswer_by_confidence _ _ Hc).
    rewrite (buildBaseline_missing lc ntgStore context H).
    rewrite lowConfidence_stripped, confidence_stripped, answerText_stripped.
    repeat split; auto.
  - intros Hk Hn. cbv zeta.
    destruct (Hkg Hk) as [Hck Htk]. destruct (Htr Hn) as (Hct & _ & _).
    pose proof (hybrid_confidence lc kgStore ntgStore context) as Hc.
    rewrite (hybridConfidence_by_parts _ _ _ _ Hck Hct) in Hc.
    rewrite (lowConfidenceAnswer_by_confidence _ _ Hc), Hc.
    rewrite hybrid_answerText.
    destruct (hybridText_carries_texts (ctx_queryType context)
                (buildKgAnswer lc kgStore context)
                (buildTraceAnswer ntgStore context)) as [H1 H2].
    split; [vm_compute; reflexivity|].
    split; [reflexivity|].
    split; [|exact H2].
    exact (includes_trans _ _ _ H1 Htk).
Qed.

Lemma builders_with_missing_artifacts_witness :
  let context := sampleContext (js "Who is Frank Sheeran?") fact true in
  let a := buildKgAnswer sampleCollator missingKg context in
  let t := buildTraceAnswer missingNtg context in
  let b := buildBaselineRagLikeAnswer sampleCollator missingNtg context in
  let h := buildHybridAnswer sampleCollator missingKg missingNtg context in
  kg_available missingKg = false /\ ntg_available missingNtg = false
  /\ lowConfidenceAnswer a = true /\ lowConfidenceAnswer t = true
  /\ lowConfidenceAnswer b = true /\ lowConfidenceAnswer h = true
  /\ includes (answerText a) KG_MISSING_TEXT = true
  /\ includes (answerText t) NTG_MISSING_TEXT = true
  /\ includes (answerText b) BASELINE_MISSING_TEXT = true
  /\ includes (answerText h) KG_MISSING_TEXT = true.
Proof.
  destruct (builders_with_missing_artifacts sampleCollator missingKg missingNtg
              (sampleContext (js "Who is Frank Sheeran?") fact true))
    as (Hk & Hn & Hh).
  destruct (Hk eq_refl) as (Ha & _ & Hat).
  destruct (Hn eq_refl) as (Ht & _ & _ & Htt & Hb & _ & Hbt).
  destruct (Hh eq_refl eq_refl) as (Hhl & _ & Hht & _).
  cbv zeta. repeat split; assumption.
Defined.

(** ** Notes that survive trimming *)

Section SolidFacts.

Lemma solid_iff (s : jsstring) : solid s = true <-> startsSolid s /\ endsSolid s.
Proof.
  unfold solid, startsSolid, endsSolid. destruct s as [|c t].
  - split; [discriminate | intros [[] _]].
  - rewrite andb_true_iff, !negb_true_iff. split.
    + intros [H1 H2]. repeat split; auto. discriminate.
    + intros [H1 [_ H2]]. auto.
Qed.

Lemma startsSolid_app (a x : jsstring) : startsSolid a -> startsSolid (a ++ x).
Proof. destruct a; [intros [] | exact (fun H => H)]. Qed.

Lemma last_app_nonempty (x b : jsstring) (d : N) :
  b <> [] -> last (x ++ b) d = last b d.
Proof.
  intro Hb. induction x as [|y x IH]; [reflexivity|].
  simpl app. destruct (x ++ b) eqn:E.
  - destruct x; [simpl in E; contradiction | discriminate].
  - exact IH.
Qed.

Lemma endsSolid_app (x b : jsstring) : endsSolid b -> endsSolid (x ++ b).
Proof.
  intros [Hne Hl]. split.
  - destruct x; [exact Hne | discriminate].
  - now rewrite last_app_nonempty.
Qed.

Lemma endsSolid_join (sep : jsstring) (parts : list jsstring) :
  parts <> [] -> Forall endsSolid parts -> endsSolid (join sep parts).
Proof.
  induction parts as [|p rest IH]; [contradiction|].
  intros _ Hall. inversion Hall as [|? ? Hp Hrest]; subst.
  destruct rest as [|q rest']; [exact Hp|].
  change (join sep (p :: q :: rest')) with (p ++ sep ++ join sep (q :: rest')).
  do 2 apply endsSolid_app. apply IH; [discriminate | exact Hrest].
Qed.

Lemma startsSolid_join (sep p : jsstring) (rest : list jsstring) :
  startsSolid p -> startsSolid (join sep (p :: rest)).
Proof.
  intro Hp. destruct rest as [|q rest']; [exact Hp|].
  change (join sep (p :: q :: rest')) with (p ++ sep ++ join sep (q :: rest')).
  now apply startsSolid_app.
Qed.

Lemma trimEnd_last (x : jsstring) :
  trimEnd x <> [] -> isWhitespace (last (trimEnd x) 0%N) = false.
Proof.
  induction x as [|c t IH]; [intro H; now contradiction H|].
  simpl trimEnd. destruct (trimEnd t) as [|d t'] eqn:E.
  - destruct (isWhitespace c) eqn:Ec; [intro H; now contradiction H|].
    intros _. exact Ec.
  - intros _. change (last (c :: d :: t') 0%N) with (last (d :: t') 0%N).
    apply IH. discriminate.
Qed.

(** A non-empty string that [trim] leaves alone is solid. *)
Lemma trim_fixed_solid (b : jsstring) :
  trim b = b -> b <> [] -> solid b = true.
Proof.
  intros Ht Hne. apply solid_iff. unfold trim in Ht.
  destruct (trimStart_shape b) as [E | (c & t & E & Hc)].
  - rewrite E in Ht. simpl in Ht. congruence.
  - split.
    + rewrite <- Ht, E, (trimEnd_cons _ _ Hc). exact Hc.
    + split; [exact Hne|]. rewrite <- Ht. apply trimEnd_last.
      rewrite Ht. exact Hne.
Qed.

Lemma trim_solid_prefix (b x : jsstring) :
  solid b = true -> exists x', trim (b ++ x) = b ++ x'.
Proof.
  intro Hb. unfold trim.
  assert (Hs : trimStart (b ++ x) = b ++ x).
  { destruct b as [|c t]; [discriminate|].
    simpl in Hb. apply andb_true_iff in Hb as [Hc _].
    apply negb_true_iff in Hc. simpl. now rewrite Hc. }
  rewrite Hs. apply trimEnd_nonempty_tail. exact Hb.
Qed.

Lemma appendNote_prefix (base addendum : jsstring) :
  trim base = base ->
  exists suffix, appendNote base addendum = base ++ suffix.
Proof.
  intro Ht. unfold appendNote. rewrite Ht.
  destruct (isEmpty base) eqn:Ee.
  - apply isEmpty_nil in Ee. subst base. now exists (trim addendum).
  - destruct (includes base addendum).
    + exists []. now rewrite app_nil_r.
    + apply trim_solid_prefix. apply trim_fixed_solid; [exact Ht|].
      intro E. subst base. discriminate.
Qed.

Lemma appendNote_includes (base addendum : jsstring) :
  solid addendum = true ->
  includes (appendNote base addendum) addendum = true.
Proof.
  intro Hs. unfold appendNote.
  destruct (isEmpty (trim base)).
  - apply includes_trim; [exact Hs | apply includes_refl].
  - destruct (includes (trim base) addendum) eqn:Ei; [exact Ei|].
    apply includes_trim; [exact Hs|].
    do 2 apply includes_app_r. apply includes_refl.
Qed.

Lemma appendNote_keeps (base addendum w : jsstring) :
  solid w = true -> includes base w = true ->
  includes (appendNote base addendum) w = true.
Proof.
  intros Hw Hi. unfold appendNote.
  pose proof (includes_trim base w Hw Hi) as Ht.
  destruct (isEmpty (trim base)) eqn:Ee.
  - apply isEmpty_nil in Ee. rewrite Ee in Ht.
    destruct w; [discriminate Hw | discriminate Ht].
  - destruct (includes (trim base) addendum); [exact Ht|].
    apply includes_trim; [exact Hw|]. now apply includes_app_l.
Qed.

End SolidFacts.

(** ** The synthesis layer *)

Section SynthesisFacts.

Lemma endsSolid_dot (x : jsstring) : endsSolid (x ++ js ".").
Proof. apply endsSolid_app. split; [discriminate | reflexivity]. Qed.

Lemma fallbackNote_solid (model error : jsstring) :
  solid (fallbackNote model error) = true.
Proof.
  apply solid_iff. unfold fallbackNote. split.
  - apply startsSolid_app. reflexivity.
  - do 4 apply endsSolid_app. split; [discriminate | reflexivity].
Qed.

Lemma assistedNote_solid (model : jsstring) (label responseId : option jsstring) :
  solid (assistedNote model label responseId) = true.
Proof.
  apply solid_iff. unfold assistedNote. split.
  - apply startsSolid_join. reflexivity.
  - apply endsSolid_join; [discriminate|].
    apply Forall_app; split; [|apply Forall_app; split].
    + constructor; [split; [discriminate | reflexivity]|].
      constructor; [split; [discriminate | reflexivity]|].
      constructor; [|constructor].
      apply endsSolid_app, endsSolid_dot.
    + destruct (truthy label); constructor; [|constructor].
      apply endsSolid_app, endsSolid_dot.
    + destruct (truthy responseId); constructor; [|constructor].
      apply endsSolid_app, endsSolid_dot.
Qed.

Lemma ensureAssistedLabel_labelled (text : jsstring) :
  startsWithIgnoreCase (ensureAssistedLabel text) ASSISTED_PREFIX = true.
Proof.
  unfold ensureAssistedLabel.
  destruct (isEmpty (trim text)); [reflexivity|].
  destruct (startsWithIgnoreCase (trim text) ASSISTED_PREFIX) eqn:E; [exact E|].
  reflexivity.
Qed.

Lemma normalized_text (a : StructuredAnswerCore) :
  normalizeStructuredAnswer a = a ->
  trim (answerText a) = answerText a /\ trim (reasoningNotes a) = reasoningNotes a.
Proof.
  intro H. split.
  - exact (f_equal answerText H).
  - exact (f_equal reasoningNotes H).
Qed.

Lemma sameStructuredFields_refl (a : StructuredAnswerCore) :
  sameStructuredFields a a.
Proof. repeat split. Qed.

End SynthesisFacts.

(** C6, the claim as stated fails: with the synthesis flag off, and with
    the flag on but no credential, the layer returns the normalised answer
    as it is; no note is appended to its reasoning notes (the reason is only
    reported beside the answer, as [skippedReason]). *)
Lemma synthesis_skipped_without_note :
  let question := js "Who is Frank Sheeran?" in
  let off := maybeSynthesizeStructuredAnswerWithLLM synthesisOff silentProvider
               sampleAnswer question None in
  let nokey := maybeSynthesizeStructuredAnswerWithLLM synthesisNoKey silentProvider
                 sampleAnswer question None in
  normalizeStructuredAnswer sampleAnswer = sampleAnswer
  /\ cfg_enableLlmSynthesisFlag synthesisOff = false
  /\ cfg_apiKey synthesisNoKey = None
  /\ out_assisted off = false /\ out_assisted nokey = false
  /\ reasoningNotes (out_answer off) = reasoningNotes sampleAnswer
  /\ reasoningNotes (out_answer nokey) = reasoningNotes sampleAnswer
  /\ out_skippedReason off = Some (js "ENABLE_LLM_SYNTHESIS is disabled")
  /\ out_skippedReason nokey = Some (js "OPENAI_API_KEY is missing").
Proof. vm_compute. repeat split. Qed.

(** C6, amended.  For every normalised answer passed to the synthesis layer
    the layer returns an answer (it is a total function) with the same
    structured fields (mode, query type, confidence, entities, events, state
    changes, evidence refs) and with reasoning notes that extend the given
    ones.  When the answer text is empty, the flag is off or the credential
    is missing, the answer is returned unchanged, without a note.  When the
    text-generation call fails (error status, time-out, unreadable
    response), the text is unchanged and the fallback note is in the
    reasoning notes.  When the call succeeds, the text is the generated one,
    labelled as assisted, and the synthesis note is in the reasoning
    notes. *)
Theorem synthesis_preserves_structure
    (cfg : LlmConfig) (generate : TextGenerator) (a : StructuredAnswerCore)
    (question : jsstring) (label : option jsstring) :
  normalizeStructuredAnswer a = a ->
  let out := maybeSynthesizeStructuredAnswerWithLLM cfg generate a question label in
  sameStructuredFields (out_answer out) a
  /\ (exists suffix, reasoningNotes (out_answer out) = reasoningNotes a ++ suffix)
  /\ (if isEmpty (answerText a) || negb (st_enabled (getLlmSynthesisStatus cfg))
      then out_answer out = a /\ out_assisted out = false
      else match generate buildSystemPrompt (buildUserPrompt question a) with
           | GenError error model =>
               out_assisted out = false
               /\ answerText (out_answer out) = answerText a
               /\ includes (reasoningNotes (out_answer out))
                           (fallbackNote model error) = true
           | GenOk text model responseId =>
               out_assisted out = true
               /\ answerText (out_answer out) = ensureAssistedLabel (truncate text 8000)
               /\ startsWithIgnoreCase (answerText (out_answer out)) ASSISTED_PREFIX = true
               /\ includes (reasoningNotes (out_answer out))
                           (assistedNote model label responseId) = true
           end).
Proof.
  intro Hn. cbv zeta. unfold maybeSynthesizeStructuredAnswerWithLLM.
  rewrite Hn. destruct (normalized_text a Hn) as [Htext Hnotes].
  rewrite Htext.
  destruct (isEmpty (answerText a)); cbn [orb].
  { cbn [out_answer out_assisted]. repeat split.
    exists []. now rewrite app_nil_r. }
  destruct (st_enabled (getLlmSynthesisStatus cfg)); cbn [negb].
  2:{ cbn [out_answer out_assisted]. repeat split.
      exists []. now rewrite app_nil_r. }
  destruct (generate buildSystemPrompt (buildUserPrompt question a))
    as [text model responseId | error model];
    cbn [out_answer out_assisted setReasoningNotes setEvidenceAndNotes setAnswerText
         answerText modeUsed queryType confidence entitiesUsed eventsUsed
         stateChangesUsed evidenceRefs reasoningNotes].
  - split; [repeat split|].
    split; [now apply appendNote_prefix|].
    repeat split.
    + apply ensureAssistedLabel_labelled.
    + apply appendNote_includes, assistedNote_solid.
  - split; [repeat split|].
    split; [now apply appendNote_prefix|].
    repeat split.
    apply appendNote_includes, fallbackNote_solid.
Qed.

Lemma synthesis_preserves_structure_witness :
  let question := js "Who is Frank Sheeran?" in
  let failed := maybeSynthesizeStructuredAnswerWithLLM synthesisOn timedOutProvider
                  sampleAnswer question None in
  let assisted := maybeSynthesizeStructuredAnswerWithLLM synthesisOn rewritingProvider
                    sampleAnswer question None in
  normalizeStructuredAnswer sampleAnswer = sampleAnswer
  /\ sameStructuredFields (out_answer failed) sampleAnswer
  /\ sameStructuredFields (out_answer assisted) sampleAnswer
  /\ (exists suffix,
        reasoningNotes (out_answer failed) = reasoningNotes sampleAnswer ++ suffix)
  /\ (exists suffix,
        reasoningNotes (out_answer assisted) = reasoningNotes sampleAnswer ++ suffix).
Proof.
  pose proof (synthesis_preserves_structure synthesisOn timedOutProvider sampleAnswer
                (js "Who is Frank Sheeran?") None eq_refl) as (F1 & F2 & _).
  pose proof (synthesis_preserves_structure synthesisOn rewritingProvider sampleAnswer
                (js "Who is Frank Sheeran?") None eq_refl) as (A1 & A2 & _).
  cbv zeta. repeat split; try assumption; apply F1 || apply A1.
Defined.

(** ** The evidence invariant along the pipeline *)

Section EvidenceInvariant.

Lemma EVIDENCE_WARNING_solid : solid EVIDENCE_WARNING = true.
Proof. vm_compute. reflexivity. Qed.

Lemma length_zero_nil {A : Type} (l : list A) :
  Nat.eqb (List.length l) 0 = true <-> l = [].
Proof. destruct l; simpl; split; intro H; try reflexivity; discriminate. Qed.

Lemma enforceEvidenceInvariant_frame (a : StructuredAnswerCore) :
  answerText (enforceEvidenceInvariant a) = answerText a
  /\ sameStructuredFields (enforceEvidenceInvariant a) a.
Proof.
  unfold enforceEvidenceInvariant.
  destruct (Nat.ltb 0 (List.length (evidenceRefs a))); [repeat split|].
  destruct (Nat.eqb (List.length (eventsUsed a)) 0
            && Nat.eqb (List.length (stateChangesUsed a)) 0); repeat split.
Qed.

Lemma enforceEvidenceInvariant_keeps (a : StructuredAnswerCore) (w : jsstring) :
  includes (reasoningNotes a) w = true ->
  includes (reasoningNotes (enforceEvidenceInvariant a)) w = true.
Proof.
  intro H. unfold enforceEvidenceInvariant.
  destruct (Nat.ltb 0 (List.length (evidenceRefs a))); [exact H|].
  destruct (Nat.eqb (List.length (eventsUsed a)) 0
            && Nat.eqb (List.length (stateChangesUsed a)) 0); [exact H|].
  cbn [setReasoningNotes setEvidenceAndNotes reasoningNotes].
  now apply includes_app_l.
Qed.

(** What [enforceEvidenceInvariant] returns satisfies the invariant. *)
Lemma enforceEvidenceInvariant_holds (a : StructuredAnswerCore) :
  eventsUsed a <> [] \/ stateChangesUsed a <> [] ->
  evidenceRefs a = [] ->
  includes (reasoningNotes (enforceEvidenceInvariant a)) EVIDENCE_WARNING = true.
Proof.
  intros Hrows Hrefs. unfold enforceEvidenceInvariant. rewrite Hrefs.
  cbn [List.length Nat.ltb Nat.leb].
  destruct (Nat.eqb (List.length (eventsUsed a)) 0
            && Nat.eqb (List.length (stateChangesUsed a)) 0) eqn:E.
  - apply andb_true_iff in E as [E1 E2].
    apply length_zero_nil in E1, E2. destruct Hrows; contradiction.
  - cbn [setReasoningNotes setEvidenceAndNotes reasoningNotes].
    do 2 apply includes_app_r. apply includes_refl.
Qed.

Lemma appendRouteReasoning_frame (a : StructuredAnswerCore) (r : jsstring) :
  answerText (appendRouteReasoning a r) = answerText a
  /\ sameStructuredFields (appendRouteReasoning a r) a.
Proof. repeat split. Qed.

(** The synthesis layer, on any answer: the id lists are normalised again,
    and a solid phrase of the notes stays in the notes. *)
Lemma synthesis_lists (cfg : LlmConfig) (generate : TextGenerator)
    (a : StructuredAnswerCore) (question : jsstring) (label : option jsstring) :
  let out := out_answer (maybeSynthesizeStructuredAnswerWithLLM cfg generate a
                            question label) in
  eventsUsed out = uniqueStrings (eventsUsed a)
  /\ stateChangesUsed out = uniqueStrings (stateChangesUsed a)
  /\ evidenceRefs out = uniqueStrings (evidenceRefs a)
  /\ entitiesUsed out = uniqueStrings (entitiesUsed a)
  /\ confidence out = clampConfidence (confidence a)
  /\ modeUsed out = modeUsed a
  /\ queryType out = queryType a.
Proof.
  cbv zeta. unfold maybeSynthesizeStructuredAnswerWithLLM.
  destruct (isEmpty _); [repeat split|].
  destruct (negb _); [repeat split|].
  destruct (generate _ _); repeat split.
Qed.

Lemma synthesis_keeps_notes (cfg : LlmConfig) (generate : TextGenerator)
    (a : StructuredAnswerCore) (question : jsstring) (label : option jsstring)
    (w : jsstring) :
  solid w = true ->
  includes (reasoningNotes a) w = true ->
  includes (reasoningNotes
              (out_answer (maybeSynthesizeStructuredAnswerWithLLM cfg generate a
                             question label))) w = true.
Proof.
  intros Hw Hi. unfold maybeSynthesizeStructuredAnswerWithLLM.
  assert (Hn : includes (reasoningNotes (normalizeStructuredAnswer a)) w = true)
    by (now apply includes_trim).
  destruct (isEmpty _); [exact Hn|].
  destruct (negb _); [exact Hn|].
  destruct (generate _ _);
    cbn [out_answer setReasoningNotes setEvidenceAndNotes setAnswerText reasoningNotes];
    now apply appendNote_keeps.
Qed.

End EvidenceInvariant.

(** ** Every builder strips evidence last *)

Section BuildersStrip.

Lemma summarizeStateChangesAnswer_strips (context : AnswerBuilderContext)
    (rows : StateChangesResult) :
  summarizeStateChangesAnswer context rows
  = maybeStripEvidence (summarizeStateChangesAnswer (withEvidence context true) rows)
                       (ctx_includeEvidence context).
Proof.
  destruct context as [q qt rr ents incl].
  unfold summarizeStateChangesAnswer, withEvidence.
  cbn [ctx_question ctx_queryType ctx_routeReasoning ctx_entities ctx_includeEvidence].
  destruct (negb (scr_available rows)); [reflexivity|].
  cbv zeta. destruct (Nat.eqb (List.length (firstn 8 (scr_items rows))) 0);
    reflexivity.
Qed.

Lemma summarizeTimelineLikeAnswer_strips (context : AnswerBuilderContext)
    (qt : QueryType) (traceRows : TraceRowsResult) (timelineRes : TimelineResult) :
  summarizeTimelineLikeAnswer context qt traceRows timelineRes
  = maybeStripEvidence
      (summarizeTimelineLikeAnswer (withEvidence context true) qt traceRows timelineRes)
      (ctx_includeEvidence context).
Proof.
  destruct context as [q qt' rr ents incl].
  unfold summarizeTimelineLikeAnswer, withEvidence.
  cbn [ctx_question ctx_queryType ctx_routeReasoning ctx_entities ctx_includeEvidence].
  destruct (negb (trr_available traceRows) || negb (tlr_available timelineRes));
    [reflexivity|].
  cbv zeta.
  match goal with
  | |- (if ?c then _ else _) = _ => destruct c
  end; reflexivity.
Qed.

Lemma buildTraceAnswer_strips (store : NtgStore) (context : AnswerBuilderContext) :
  buildTraceAnswer store context
  = maybeStripEvidence (buildTraceAnswer store (withEvidence context true))
                       (ctx_includeEvidence context).
Proof.
  unfold buildTraceAnswer. cbv zeta.
  change (ctx_queryType (withEvidence context true)) with (ctx_queryType context).
  destruct (ctx_queryType context) eqn:Eq;
    try (rewrite summarizeTimelineLikeAnswer_strips at 1; reflexivity).
  - rewrite summarizeStateChangesAnswer_strips at 1. reflexivity.
  - change (ctx_question (withEvidence context true)) with (ctx_question context).
    change (ctx_entities (withEvidence context true)) with (ctx_entities context).
    change (pairFromContext (withEvidence context true)) with (pairFromContext context).
    destruct (negb (trr_available _)).
    + rewrite summarizeTimelineLikeAnswer_strips at 1. reflexivity.
    + reflexivity.
Qed.

Lemma buildKgAnswer_strips (lc : Collator) (store : KgStore)
    (context : AnswerBuilderContext) :
  buildKgAnswer lc store context
  = maybeStripEvidence (buildKgAnswer lc store (withEvidence context true))
                       (ctx_includeEvidence context).
Proof.
  destruct context as [q qt rr ents incl].
  unfold buildKgAnswer, withEvidence.
  cbn [ctx_question ctx_queryType ctx_routeReasoning ctx_entities ctx_includeEvidence].
  destruct (negb (kg_available store)); [reflexivity|].
  cbv zeta. destruct ents as [|focus ents']; [reflexivity|].
  destruct (nr_available _); [|reflexivity].
  destruct (nr_entity _); reflexivity.
Qed.

Lemma buildBaseline_strips (lc : Collator) (store : NtgStore)
    (context : AnswerBuilderContext) :
  buildBaselineRagLikeAnswer lc store context
  = maybeStripEvidence (buildBaselineRagLikeAnswer lc store (withEvidence context true))
                       (ctx_includeEvidence context).
Proof.
  destruct context as [q qt rr ents incl].
  unfold buildBaselineRagLikeAnswer, withEvidence.
  cbn [ctx_question ctx_queryType ctx_routeReasoning ctx_entities ctx_includeEvidence].
  destruct (negb (ntg_available store)); reflexivity.
Qed.

(** With [includeEvidence] false, the answer of every builder has no
    evidence refs. *)
Lemma buildMainAnswer_refs_off (env : Env) (context : AnswerBuilderContext)
    (mode : AnswerMode) :
  ctx_includeEvidence context = false ->
  evidenceRefs (buildMainAnswer env context mode) = [].
Proof.
  intro H. destruct mode; cbn [buildMainAnswer].
  - rewrite buildKgAnswer_strips, H. reflexivity.
  - rewrite buildTraceAnswer_strips, H. reflexivity.
  - unfold buildHybridAnswer. cbv zeta. rewrite H. reflexivity.
  - rewrite buildBaseline_strips, H. reflexivity.
Qed.

End BuildersStrip.

(** ** The response of a request, step by step *)

Section ResponseShape.

Lemma resp_answer_shape (env : Env) (request : QueryRequest) :
  resp_answer (answerQueryRequest env request)
  = if req_includeEvidence request then synthesizedMainAnswer env request
    else setEvidenceRefs (synthesizedMainAnswer env request) [].
Proof.
  unfold answerQueryRequest, synthesizedMainAnswer, contractStep, builtMainAnswer,
    synthesisLabel, requestContext, requestRoute.
  cbv zeta.
  destruct (req_includeEvidence request); cbn [negb resp_answer]; reflexivity.
Qed.

Lemma baselineComparison_shape (env : Env) (request : QueryRequest) :
  baselineComparison (answerQueryRequest env request)
  = if (req_includeBaselineComparison request
        || QueryType_eqb (route_queryType (requestRoute env request)) comparison)
       && negb (AnswerMode_eqb (route_modeUsed (requestRoute env request)) baseline_rag)
    then Some (if req_includeEvidence request then comparatorAnswer env request
               else setEvidenceRefs (comparatorAnswer env request) [])
    else None.
Proof.
  unfold answerQueryRequest. cbv zeta.
  fold (requestRoute env request). fold (requestContext env request).
  fold (comparatorAnswer env request).
  destruct (req_includeEvidence request); cbn [negb baselineComparison];
    match goal with
    | |- context [if ?b then Some _ else None] => destruct b
    end; reflexivity.
Qed.

Lemma contractStep_lists (built : StructuredAnswerCore) (r : jsstring) :
  eventsUsed (contractStep built r) = uniqueStrings (eventsUsed built)
  /\ stateChangesUsed (contractStep built r) = uniqueStrings (stateChangesUsed built)
  /\ evidenceRefs (contractStep built r) = uniqueStrings (evidenceRefs built)
  /\ entitiesUsed (contractStep built r) = uniqueStrings (entitiesUsed built)
  /\ confidence (contractStep built r) = clampConfidence (confidence built)
  /\ modeUsed (contractStep built r) = modeUsed built
  /\ queryType (contractStep built r) = queryType built
  /\ answerText (contractStep built r) = trim (answerText built).
Proof.
  unfold contractStep.
  destruct (enforceEvidenceInvariant_frame
              (appendRouteReasoning (normalizeStructuredAnswer built) r))
    as (-> & -> & -> & -> & -> & -> & -> & ->).
  repeat split.
Qed.

(** The invariant after the contract step, and after anything that keeps
    the lists and only extends the notes. *)
Lemma contractStep_invariant (built : StructuredAnswerCore) (r : jsstring) :
  eventsUsed (contractStep built r) <> [] \/ stateChangesUsed (contractStep built r) <> [] ->
  evidenceRefs (contractStep built r) = [] ->
  includes (reasoningNotes (contractStep built r)) EVIDENCE_WARNING = true.
Proof.
  destruct (contractStep_lists built r) as (-> & -> & -> & _).
  intros Hrows Hrefs. unfold contractStep.
  apply enforceEvidenceInvariant_holds; assumption.
Qed.

End ResponseShape.

(** C1.  Every answer the query pipeline returns (the main answer, the
    baseline comparison, and the answer of the baseline-only endpoint)
    satisfies the evidence invariant: if [eventsUsed] or [stateChangesUsed]
    is non-empty and [evidenceRefs] is empty, the reasoning notes contain
    the evidence warning.  The pipeline is a total function: such an answer
    is annotated and returned, not rejected. *)
Theorem pipeline_answers_keep_evidence_invariant
    (env : Env) (a : StructuredAnswerCore) :
  pipelineAnswer env a ->
  eventsUsed a <> [] \/ stateChangesUsed a <> [] ->
  evidenceRefs a = [] ->
  includes (reasoningNotes a) EVIDENCE_WARNING = true.
Proof.
  intros Hp. destruct Hp as [request | request b Hb | question includeEvidence].
  - (* the main answer *)
    rewrite resp_answer_shape. unfold synthesizedMainAnswer.
    set (step := contractStep (builtMainAnswer env request)
                              (route_reasoning (requestRoute env request))).
    set (out := out_answer _).
    assert (Hl : eventsUsed out = eventsUsed step
                 /\ stateChangesUsed out = stateChangesUsed step
                 /\ evidenceRefs out = evidenceRefs step).
    { subst out.
      destruct (synthesis_lists (env_llmConfig env) (env_generate env) step
                  (req_question request) (Some (synthesisLabel env request)))
        as (-> & -> & -> & _).
      subst step.
      destruct (contractStep_lists (builtMainAnswer env request)
                  (route_reasoning (requestRoute env request)))
        as (-> & -> & -> & _).
      now rewrite !uniqueStrings_idem. }
    destruct Hl as (He & Hs & Hr).
    assert (Hkeep : includes (reasoningNotes step) EVIDENCE_WARNING = true ->
                    includes (reasoningNotes out) EVIDENCE_WARNING = true).
    { subst out. apply synthesis_keeps_notes, EVIDENCE_WARNING_solid. }
    assert (Hoff : req_includeEvidence request = false -> evidenceRefs step = []).
    { intro Hoff. subst step.
      destruct (contractStep_lists (builtMainAnswer env request)
                  (route_reasoning (requestRoute env request)))
        as (_ & _ & -> & _).
      unfold builtMainAnswer. rewrite buildMainAnswer_refs_off; [reflexivity|].
      exact Hoff. }
    destruct (req_includeEvidence request) eqn:Ei;
      cbn [setEvidenceRefs setEvidenceAndNotes eventsUsed stateChangesUsed
           evidenceRefs reasoningNotes];
      rewrite He, Hs; intros Hrows Hrefs; apply Hkeep;
      apply contractStep_invariant; try exact Hrows.
    + rewrite Hr in Hrefs. exact Hrefs.
    + exact (Hoff eq_refl).
  - (* the baseline comparison *)
    rewrite baselineComparison_shape in Hb.
    destruct (_ && _) in Hb; [|discriminate].
    injection Hb as <-.
    assert (Hoff : req_includeEvidence request = false ->
                   evidenceRefs (comparatorAnswer env request) = []).
    { intro Hoff. unfold comparatorAnswer.
      destruct (contractStep_lists
                  (buildBaselineRagLikeAnswer (env_localeCompare env) (env_ntg env)
                     (requestContext env request)) BASELINE_COMPARATOR_NOTE)
        as (_ & _ & -> & _).
      rewrite buildBaseline_strips.
      change (ctx_includeEvidence (requestContext env request))
        with (req_includeEvidence request).
      rewrite Hoff. reflexivity. }
    destruct (req_includeEvidence request) eqn:Ei;
      cbn [setEvidenceRefs setEvidenceAndNotes eventsUsed stateChangesUsed
           evidenceRefs reasoningNotes];
      intros Hrows Hrefs; apply contractStep_invariant; auto.
  - (* the baseline-only endpoint *)
    unfold answerBaselineOnly. cbv zeta. cbn [resp_answer].
    apply contractStep_invariant.
Qed.

Lemma pipeline_answers_keep_evidence_invariant_witness :
  let a := resp_answer (answerQueryRequest twoRowEnv evidenceWithoutRefsRequest) in
  pipelineAnswer twoRowEnv a
  /\ eventsUsed a <> []
  /\ evidenceRefs a = []
  /\ includes (reasoningNotes a) EVIDENCE_WARNING = true.
Proof.
  assert (Hrows : eventsUsed (resp_answer (answerQueryRequest twoRowEnv
                                             evidenceWithoutRefsRequest)) <> [])
    by (vm_compute; discriminate).
  cbv zeta. split; [apply pa_main|]. split; [exact Hrows|].
  split; [vm_compute; reflexivity|].
  exact (pipeline_answers_keep_evidence_invariant twoRowEnv _
           (pa_main twoRowEnv evidenceWithoutRefsRequest)
           (or_introl Hrows) eq_refl).
Defined.

(** ** Excluding evidence: the note and the frame *)

Section EvidenceExcluded.

Lemma EVIDENCE_OMITTED_NOTE_solid : solid EVIDENCE_OMITTED_NOTE = true.
Proof. vm_compute. reflexivity. Qed.

Lemma maybeStripEvidence_note (a : StructuredAnswerCore) :
  includes (reasoningNotes a) EVIDENCE_OMITTED_PROBE = false ->
  includes (reasoningNotes (maybeStripEvidence a false)) EVIDENCE_OMITTED_NOTE = true.
Proof.
  intro H. rewrite (maybeStripEvidence_notes_off a H).
  do 2 apply includes_app_r. apply includes_refl.
Qed.

(** The rationale a builder writes never mentions omitted evidence by
    itself: the note comes from [maybeStripEvidence] only. *)
Lemma buildKgAnswer_rationale (lc : Collator) (store : KgStore)
    (context : AnswerBuilderContext) :
  includes (reasoningNotes (buildKgAnswer lc store (withEvidence context true)))
           EVIDENCE_OMITTED_PROBE = false.
Proof.
  destruct context as [q qt rr ents incl].
  unfold buildKgAnswer, withEvidence.
  cbn [ctx_question ctx_queryType ctx_routeReasoning ctx_entities ctx_includeEvidence].
  destruct (negb (kg_available store)); [reflexivity|].
  cbv zeta. destruct ents as [|focus ents']; [reflexivity|].
  destruct (nr_available _); [|reflexivity].
  destruct (nr_entity _); reflexivity.
Qed.

Lemma buildBaseline_rationale (lc : Collator) (store : NtgStore)
    (context : AnswerBuilderContext) :
  includes (reasoningNotes (buildBaselineRagLikeAnswer lc store
                              (withEvidence context true)))
           EVIDENCE_OMITTED_PROBE = false.
Proof.
  destruct context as [q qt rr ents incl].
  unfold buildBaselineRagLikeAnswer, withEvidence.
  cbn [ctx_question ctx_queryType ctx_routeReasoning ctx_entities ctx_includeEvidence].
  destruct (negb (ntg_available store)); reflexivity.
Qed.

Lemma summarizeStateChangesAnswer_rationale (context : AnswerBuilderContext)
    (rows : StateChangesResult) :
  includes (reasoningNotes (summarizeStateChangesAnswer (withEvidence context true) rows))
           EVIDENCE_OMITTED_PROBE = false.
Proof.
  destruct context as [q qt rr ents incl].
  unfold summarizeStateChangesAnswer, withEvidence.
  cbn [ctx_question ctx_queryType ctx_routeReasoning ctx_entities ctx_includeEvidence].
  destruct (negb (scr_available rows)); [reflexivity|].
  cbv zeta. destruct (Nat.eqb (List.length (firstn 8 (scr_items rows))) 0);
    reflexivity.
Qed.

Lemma summarizeTimelineLikeAnswer_rationale (context : AnswerBuilderContext)
    (qt : QueryType) (traceRows : TraceRowsResult) (timelineRes : TimelineResult) :
  includes (reasoningNotes (summarizeTimelineLikeAnswer (withEvidence context true)
                              qt traceRows timelineRes))
           EVIDENCE_OMITTED_PROBE = false.
Proof.
  destruct context as [q qt' rr ents incl].
  unfold summarizeTimelineLikeAnswer, withEvidence.
  cbn [ctx_question ctx_queryType ctx_routeReasoning ctx_entities ctx_includeEvidence].
  destruct (negb (trr_available traceRows) || negb (tlr_available timelineRes));
    [reflexivity|].
  cbv zeta.
  match goal with
  | |- includes (reasoningNotes (if ?c then _ else _)) _ = _ => destruct c
  end; [reflexivity|].
  cbn [maybeStripEvidence ntgAnswer reasoningNotes].
  destruct (QueryType_eqb qt timeline); reflexivity.
Qed.

Lemma buildTraceAnswer_rationale (store : NtgStore) (context : AnswerBuilderContext) :
  includes (reasoningNotes (buildTraceAnswer store (withEvidence context true)))
           EVIDENCE_OMITTED_PROBE = false.
Proof.
  unfold buildTraceAnswer. cbv zeta.
  change (ctx_queryType (withEvidence context true)) with (ctx_queryType context).
  destruct (ctx_queryType context) eqn:Eq;
    try apply summarizeTimelineLikeAnswer_rationale.
  - apply summarizeStateChangesAnswer_rationale.
  - destruct (negb (trr_available _)).
    + apply summarizeTimelineLikeAnswer_rationale.
    + reflexivity.
Qed.

(** With [includeEvidence] false, the notes of every builder's answer carry
    the omission note. *)
Lemma buildMainAnswer_note_off (env : Env) (context : AnswerBuilderContext)
    (mode : AnswerMode) :
  ctx_includeEvidence context = false ->
  includes (reasoningNotes (buildMainAnswer env context mode))
           EVIDENCE_OMITTED_NOTE = true.
Proof.
  intro H. destruct mode; cbn [buildMainAnswer].
  - rewrite buildKgAnswer_strips, H.
    apply maybeStripEvidence_note, buildKgAnswer_rationale.
  - rewrite buildTraceAnswer_strips, H.
    apply maybeStripEvidence_note, buildTraceAnswer_rationale.
  - unfold buildHybridAnswer. cbv zeta. rewrite H.
    apply maybeStripEvidence_note. vm_compute. reflexivity.
  - rewrite buildBaseline_strips, H.
    apply maybeStripEvidence_note, buildBaseline_rationale.
Qed.

Lemma appendRouteReasoning_keeps (a : StructuredAnswerCore) (r w : jsstring) :
  solid w = true ->
  includes (reasoningNotes a) w = true ->
  includes (reasoningNotes (appendRouteReasoning a r)) w = true.
Proof.
  intros Hw Hi. unfold appendRouteReasoning.
  cbn [setReasoningNotes setEvidenceAndNotes reasoningNotes].
  destruct (includes (reasoningNotes a) r); [exact Hi|].
  apply includes_trim; [exact Hw|]. now apply includes_app_l.
Qed.

Lemma contractStep_keeps (built : StructuredAnswerCore) (r w : jsstring) :
  solid w = true ->
  includes (reasoningNotes built) w = true ->
  includes (reasoningNotes (contractStep built r)) w = true.
Proof.
  intros Hw Hi. unfold contractStep.
  apply enforceEvidenceInvariant_keeps, appendRouteReasoning_keeps; [exact Hw|].
  cbn [normalizeStructuredAnswer reasoningNotes]. now apply includes_trim.
Qed.

End EvidenceExcluded.

Section EvidenceFrame.

Lemma sameOutsideEvidence_stripped (a : StructuredAnswerCore) (b : bool) :
  sameOutsideEvidence (maybeStripEvidence a b) a.
Proof. destruct b; repeat split. Qed.

Lemma buildHybridAnswer_frame (lc : Collator) (kgStore : KgStore)
    (ntgStore : NtgStore) (context : AnswerBuilderContext) :
  sameOutsideEvidence (buildHybridAnswer lc kgStore ntgStore context)
                      (buildHybridAnswer lc kgStore ntgStore (withEvidence context true))
  /\ (ctx_queryType context = comparison ->
      answerText (buildHybridAnswer lc kgStore ntgStore context)
      = answerText (buildHybridAnswer lc kgStore ntgStore (withEvidence context true))).
Proof.
  unfold buildHybridAnswer. cbv zeta.
  rewrite (buildKgAnswer_strips lc kgStore context).
  rewrite (buildTraceAnswer_strips ntgStore context).
  change (ctx_queryType (withEvidence context true)) with (ctx_queryType context).
  change (ctx_includeEvidence (withEvidence context true)) with true.
  set (k := buildKgAnswer lc kgStore (withEvidence context true)).
  set (t := buildTraceAnswer ntgStore (withEvidence context true)).
  destruct (ctx_includeEvidence context).
  - split; [repeat split | reflexivity].
  - split; [repeat split|].
    intro Hq. cbn [maybeStripEvidence setEvidenceAndNotes answerText mergeAnswerCores
                   ov_answerText orElse].
    rewrite Hq. reflexivity.
Qed.

(** A builder's answer without evidence differs from its answer with
    evidence in the refs and the notes only; for the hybrid builder the
    text is compared on [comparison] queries only. *)
Lemma buildMainAnswer_frame (env : Env) (context : AnswerBuilderContext)
    (mode : AnswerMode) :
  sameOutsideEvidence (buildMainAnswer env context mode)
                      (buildMainAnswer env (withEvidence context true) mode)
  /\ (mode <> hybrid \/ ctx_queryType context = comparison ->
      answerText (buildMainAnswer env context mode)
      = answerText (buildMainAnswer env (withEvidence context true) mode)).
Proof.
  destruct mode; cbn [buildMainAnswer].
  - rewrite buildKgAnswer_strips at 1 2.
    split; [apply sameOutsideEvidence_stripped | intros _; apply answerText_stripped].
  - rewrite buildTraceAnswer_strips at 1 2.
    split; [apply sameOutsideEvidence_stripped | intros _; apply answerText_stripped].
  - destruct (buildHybridAnswer_frame (env_localeCompare env) (env_kg env)
                (env_ntg env) context) as [H1 H2].
    split; [exact H1|]. intros [H|H]; [now contradiction H | now apply H2].
  - rewrite buildBaseline_strips at 1 2.
    split; [apply sameOutsideEvidence_stripped | intros _; apply answerText_stripped].
Qed.

Lemma contractStep_frame (b b' : StructuredAnswerCore) (r r' : jsstring) :
  sameOutsideEvidence b b' ->
  sameOutsideEvidence (contractStep b r) (contractStep b' r').
Proof.
  intros (H1 & H2 & H3 & H4 & H5 & H6).
  destruct (contractStep_lists b r) as (E1 & E2 & _ & E4 & E5 & E6 & E7 & _).
  destruct (contractStep_lists b' r') as (F1 & F2 & _ & F4 & F5 & F6 & F7 & _).
  unfold sameOutsideEvidence.
  rewrite E1, E2, E4, E5, E6, E7, F1, F2, F4, F5, F6, F7.
  rewrite H1, H2, H3, H4, H5, H6. repeat split.
Qed.

Lemma synthesis_frame (cfg : LlmConfig) (generate : TextGenerator)
    (a a' : StructuredAnswerCore) (q q' : jsstring) (l l' : option jsstring) :
  sameOutsideEvidence a a' ->
  sameOutsideEvidence
    (out_answer (maybeSynthesizeStructuredAnswerWithLLM cfg generate a q l))
    (out_answer (maybeSynthesizeStructuredAnswerWithLLM cfg generate a' q' l')).
Proof.
  intros (H1 & H2 & H3 & H4 & H5 & H6).
  destruct (synthesis_lists cfg generate a q l) as (E1 & E2 & _ & E4 & E5 & E6 & E7).
  destruct (synthesis_lists cfg generate a' q' l') as (F1 & F2 & _ & F4 & F5 & F6 & F7).
  unfold sameOutsideEvidence.
  rewrite E1, E2, E4, E5, E6, E7, F1, F2, F4, F5, F6, F7.
  rewrite H1, H2, H3, H4, H5, H6. repeat split.
Qed.

Lemma synthesis_disabled (cfg : LlmConfig) (generate : TextGenerator)
    (a : StructuredAnswerCore) (q : jsstring) (l : option jsstring) :
  st_enabled (getLlmSynthesisStatus cfg) = false ->
  out_answer (maybeSynthesizeStructuredAnswerWithLLM cfg generate a q l)
  = normalizeStructuredAnswer a.
Proof.
  intro H. unfold maybeSynthesizeStructuredAnswerWithLLM. rewrite H.
  destruct (isEmpty _); reflexivity.
Qed.

Lemma contractStep_text (b : StructuredAnswerCore) (r : jsstring) :
  answerText (contractStep b r) = trim (answerText b).
Proof. apply contractStep_lists. Qed.

Lemma sameOutsideEvidence_setRefs (a b : StructuredAnswerCore) (refs : list jsstring) :
  sameOutsideEvidence a b -> sameOutsideEvidence (setEvidenceRefs a refs) b.
Proof. intro H. exact H. Qed.

End EvidenceFrame.

Lemma baselineOnly_shape (env : Env) (question : jsstring) (includeEvidence : bool) :
  resp_answer (answerBaselineOnly env question includeEvidence)
  = contractStep
      (buildBaselineRagLikeAnswer (env_localeCompare env) (env_ntg env)
         (baselineOnlyContext env question includeEvidence))
      (route_reasoning (baselineOnlyRoute env question)).
Proof. reflexivity. Qed.

Lemma baselineOnly_frame (env : Env) (question : jsstring) :
  let only := resp_answer (answerBaselineOnly env question false) in
  let only' := resp_answer (answerBaselineOnly env question true) in
  evidenceRefs only = []
  /\ includes (reasoningNotes only) EVIDENCE_OMITTED_NOTE = true
  /\ sameOutsideEvidence only only'
  /\ answerText only = answerText only'.
Proof.
  cbv zeta. rewrite !baselineOnly_shape.
  pose proof (buildBaseline_strips (env_localeCompare env) (env_ntg env)
                (baselineOnlyContext env question false)) as Hb.
  change (withEvidence (baselineOnlyContext env question false) true)
    with (baselineOnlyContext env question true) in Hb.
  cbn [baselineOnlyContext ctx_includeEvidence] in Hb.
  fold (baselineOnlyContext env question false) in Hb.
  fold (baselineOnlyContext env question true) in Hb.
  rewrite Hb.
  split; [|split; [|split]].
  - destruct (contractStep_lists
                (maybeStripEvidence
                   (buildBaselineRagLikeAnswer (env_localeCompare env) (env_ntg env)
                      (baselineOnlyContext env question true)) false)
                (route_reasoning (baselineOnlyRoute env question)))
      as (_ & _ & -> & _).
    reflexivity.
  - apply contractStep_keeps; [apply EVIDENCE_OMITTED_NOTE_solid|].
    apply maybeStripEvidence_note.
    apply (buildBaseline_rationale (env_localeCompare env) (env_ntg env)
             (baselineOnlyContext env question false)).
  - apply contractStep_frame, sameOutsideEvidence_stripped.
  - rewrite !contractStep_text. reflexivity.
Qed.

(** C10, the claim as stated fails on the answer text.  In hybrid mode the
    text of a non-comparison answer quotes the rationales of its two parts,
    which carry the omission note when evidence is excluded; and when the
    synthesis layer is enabled the provider is prompted with the reasoning
    notes, so its text can differ too. *)
Lemma text_differs_when_evidence_excluded :
  let request :=
    {| req_question := js "What events lead up to the meeting?";
       req_preferredMode := pm_auto;
       req_includeEvidence := false;
       req_includeBaselineComparison := false |} in
  let off := resp_answer (answerQueryRequest bareEnv request) in
  let on := resp_answer (answerQueryRequest bareEnv (requestWithEvidence request true)) in
  let factRequest :=
    {| req_question := js "Who is Frank Sheeran?";
       req_preferredMode := pm_auto;
       req_includeEvidence := false;
       req_includeBaselineComparison := false |} in
  let echoOff := resp_answer (answerQueryRequest echoEnv factRequest) in
  let echoOn :=
    resp_answer (answerQueryRequest echoEnv (requestWithEvidence factRequest true)) in
  modeUsed off = hybrid
  /\ st_enabled (getLlmSynthesisStatus (env_llmConfig bareEnv)) = false
  /\ answerText off <> answerText on
  /\ includes (answerText off) EVIDENCE_OMITTED_NOTE = true
  /\ modeUsed echoOff = kg
  /\ answerText echoOff <> answerText echoOn.
Proof.
  cbv zeta. repeat split; try (vm_compute; reflexivity);
    intro H; apply str_eqb_eq in H; vm_compute in H; discriminate H.
Qed.

(** C10, amended.  For every request with [includeEvidence] false, the main
    answer and the baseline comparison (present exactly when it is present
    for the same request with [includeEvidence] true) have an empty
    [evidenceRefs] list and reasoning notes that contain 'Evidence refs
    omitted by request.'; their mode, query type, confidence, entities,
    events and state changes are those of the answer for the same request
    with [includeEvidence] true; the text of the baseline comparison is the
    same too, and so is the text of the main answer when the synthesis layer
    is not enabled and the mode is not hybrid or the query type is
    comparison.  The same holds of the answer of the baseline-only
    endpoint. *)
Theorem evidence_excluded_frame (env : Env) (request : QueryRequest) :
  req_includeEvidence request = false ->
  let off := answerQueryRequest env request in
  let on := answerQueryRequest env (requestWithEvidence request true) in
  evidenceRefs (resp_answer off) = []
  /\ includes (reasoningNotes (resp_answer off)) EVIDENCE_OMITTED_NOTE = true
  /\ sameOutsideEvidence (resp_answer off) (resp_answer on)
  /\ (st_enabled (getLlmSynthesisStatus (env_llmConfig env)) = false ->
      route_modeUsed (requestRoute env request) <> hybrid
      \/ route_queryType (requestRoute env request) = comparison ->
      answerText (resp_answer off) = answerText (resp_answer on))
  /\ match baselineComparison off, baselineComparison on with
     | Some b, Some b' =>
         evidenceRefs b = []
         /\ includes (reasoningNotes b) EVIDENCE_OMITTED_NOTE = true
         /\ sameOutsideEvidence b b'
         /\ answerText b = answerText b'
     | None, None => True
     | _, _ => False
     end
  /\ (let only := resp_answer (answerBaselineOnly env (req_question request) false) in
      let only' := resp_answer (answerBaselineOnly env (req_question request) true) in
      evidenceRefs only = []
      /\ includes (reasoningNotes only) EVIDENCE_OMITTED_NOTE = true
      /\ sameOutsideEvidence only only'
      /\ answerText only = answerText only').
Proof.
  intro Hoff. cbv zeta.
  match goal with
  | |- _ /\ _ /\ _ /\ _ /\ _ /\ ?P => set (baselineOnlyPart := P)
  end.
  rewrite !resp_answer_shape, !baselineComparison_shape.
  change (req_includeEvidence (requestWithEvidence request true)) with true.
  change (req_includeBaselineComparison (requestWithEvidence request true))
    with (req_includeBaselineComparison request).
  change (requestRoute env (requestWithEvidence request true))
    with (requestRoute env request).
  rewrite Hoff.
  cbn [setEvidenceRefs setEvidenceAndNotes evidenceRefs reasoningNotes answerText].
  pose proof (buildMainAnswer_frame env (requestContext env request)
                (route_modeUsed (requestRoute env request))) as [Hframe Htext].
  change (ctx_queryType (requestContext env request))
    with (route_queryType (requestRoute env request)) in Htext.
  assert (Hcx : ctx_includeEvidence (requestContext env request) = false)
    by exact Hoff.
  split; [reflexivity|]. split; [|split; [|split; [|split]]].
  - (* the note of the main answer *)
    unfold synthesizedMainAnswer.
    apply synthesis_keeps_notes; [apply EVIDENCE_OMITTED_NOTE_solid|].
    apply contractStep_keeps; [apply EVIDENCE_OMITTED_NOTE_solid|].
    unfold builtMainAnswer. now apply buildMainAnswer_note_off.
  - (* the structured fields of the main answer *)
    apply sameOutsideEvidence_setRefs. unfold synthesizedMainAnswer.
    apply synthesis_frame, contractStep_frame. exact Hframe.
  - (* the text of the main answer *)
    intros Hdis Hmode. unfold synthesizedMainAnswer.
    rewrite !(synthesis_disabled _ _ _ _ _ Hdis).
    cbn [normalizeStructuredAnswer answerText].
    rewrite !contractStep_text.
    unfold builtMainAnswer at 1. rewrite (Htext Hmode). reflexivity.
  - (* the baseline comparison *)
    destruct (_ && _); [|exact I].
    pose proof (buildBaseline_strips (env_localeCompare env) (env_ntg env)
                  (requestContext env request)) as Hb.
    rewrite Hcx in Hb.
    unfold comparatorAnswer.
    change (requestContext env (requestWithEvidence request true))
      with (withEvidence (requestContext env request) true).
    set (b' := buildBaselineRagLikeAnswer (env_localeCompare env) (env_ntg env)
                 (withEvidence (requestContext env request) true)) in *.
    rewrite Hb.
    cbn [setEvidenceRefs setEvidenceAndNotes evidenceRefs reasoningNotes answerText].
    split; [reflexivity|]. split; [|split].
    + apply contractStep_keeps; [apply EVIDENCE_OMITTED_NOTE_solid|].
      apply maybeStripEvidence_note. apply buildBaseline_rationale.
    + apply sameOutsideEvidence_setRefs, contractStep_frame,
        sameOutsideEvidence_stripped.
    + rewrite !contractStep_text. reflexivity.
  - subst baselineOnlyPart. apply baselineOnly_frame.
Qed.

Lemma evidence_excluded_frame_witness :
  let request :=
    {| req_question := js "Show proof of the meeting";
       req_preferredMode := pm_ntg;
       req_includeEvidence := false;
       req_includeBaselineComparison := true |} in
  let off := answerQueryRequest twoRowEnv request in
  let on := answerQueryRequest twoRowEnv (requestWithEvidence request true) in
  req_includeEvidence request = false
  /\ st_enabled (getLlmSynthesisStatus (env_llmConfig twoRowEnv)) = false
  /\ route_modeUsed (requestRoute twoRowEnv request) <> hybrid
  /\ evidenceRefs (resp_answer off) = []
  /\ evidenceRefs (resp_answer on) <> []
  /\ includes (reasoningNotes (resp_answer off)) EVIDENCE_OMITTED_NOTE = true
  /\ sameOutsideEvidence (resp_answer off) (resp_answer on)
  /\ answerText (resp_answer off) = answerText (resp_answer on).
Proof.
  pose proof (evidence_excluded_frame twoRowEnv evidenceWithoutRefsRequest eq_refl)
    as (H1 & H2 & H3 & H4 & _ & _).
  assert (Hm : route_modeUsed (requestRoute twoRowEnv evidenceWithoutRefsRequest)
               <> hybrid) by (vm_compute; discriminate).
  cbv zeta. split; [reflexivity|]. split; [reflexivity|]. split; [exact Hm|].
  split; [exact H1|]. split; [vm_compute; discriminate|].
  split; [exact H2|]. split; [exact H3|].
  exact (H4 eq_refl (or_introl Hm)).
Defined.

(** ** Entity detection *)

Section SortFacts.

Context {A : Type}.
Variable cmp : A -> A -> Z.

Lemma insertBy_In (x y : A) (l : list A) :
  In y (insertBy cmp x l) <-> y = x \/ In y l.
Proof.
  induction l as [|z l IH]; simpl.
  - split; [intros [H|[]]; auto | intros [H|[]]; auto].
  - destruct (cmp x z <=? 0)%Z; simpl.
    + split; [intros [H|H]; auto | intros [H|H]; auto].
    + rewrite IH. split; [intros [H|[H|H]]; auto | intros [H|[H|H]]; auto].
Qed.

Lemma sortBy_In (y : A) (l : list A) : In y (sortBy cmp l) <-> In y l.
Proof.
  induction l as [|x l IH]; simpl; [tauto|].
  rewrite insertBy_In, IH. split; [intros [H|H]; auto | intros [H|H]; auto].
Qed.

Variable R : A -> A -> Prop.
Hypothesis R_sym : forall a b, R a b -> R b a.

Lemma insertBy_pairs (x : A) (l : list A) :
  Forall (R x) l -> ForallOrdPairs R l -> ForallOrdPairs R (insertBy cmp x l).
Proof.
  induction l as [|z l IH]; intros Hx Hl; simpl.
  - constructor; [constructor | constructor].
  - destruct (cmp x z <=? 0)%Z.
    + constructor; assumption.
    + inversion Hx as [|? ? Hxz Hxl]; subst.
      inversion Hl as [|? ? Hzl Hl']; subst.
      constructor.
      * apply Forall_forall. intros y Hy. apply insertBy_In in Hy as [->|Hy].
        -- now apply R_sym.
        -- rewrite Forall_forall in Hzl. now apply Hzl.
      * now apply IH.
Qed.

Lemma sortBy_pairs (l : list A) :
  ForallOrdPairs R l -> ForallOrdPairs R (sortBy cmp l).
Proof.
  induction l as [|x l IH]; intro H; simpl; [constructor|].
  inversion H as [|? ? Hx Hl]; subst.
  apply insertBy_pairs; [|now apply IH].
  apply Forall_forall. intros y Hy. apply (proj1 (sortBy_In y l)) in Hy.
  rewrite Forall_forall in Hx. now apply Hx.
Qed.

End SortFacts.

Section SortedByKey.

Context {A : Type}.
Variable cmp : A -> A -> Z.
Variable key : A -> nat.
Hypothesis cmp_le : forall a b, (cmp a b <= 0)%Z -> key a <= key b.
Hypothesis cmp_gt : forall a b, (0 < cmp a b)%Z -> key b <= key a.

Lemma insertBy_sorted (x : A) (l : list A) :
  StronglySorted (fun a b => key a <= key b) l ->
  StronglySorted (fun a b => key a <= key b) (insertBy cmp x l).
Proof.
  induction l as [|z l IH]; intro Hl; simpl.
  - constructor; constructor.
  - destruct (cmp x z <=? 0)%Z eqn:E.
    + apply Z.leb_le in E. apply cmp_le in E.
      constructor; [exact Hl|].
      inversion Hl as [|? ? Hl' Hz]; subst.
      constructor; [exact E|].
      rewrite Forall_forall in *. intros y Hy.
      specialize (Hz y Hy). cbv beta in Hz. lia.
    + apply Z.leb_gt in E. apply cmp_gt in E.
      inversion Hl as [|? ? Hl' Hz]; subst.
      constructor; [now apply IH|].
      apply Forall_forall. intros y Hy. apply insertBy_In in Hy as [->|Hy].
      * exact E.
      * rewrite Forall_forall in Hz. now apply Hz.
Qed.

Lemma sortBy_sorted (l : list A) :
  StronglySorted (fun a b => key a <= key b) (sortBy cmp l).
Proof.
  induction l as [|x l IH]; simpl; [constructor|].
  now apply insertBy_sorted.
Qed.

End SortedByKey.

Section DetectionFacts.

Lemma pairs_snoc {A : Type} (R : A -> A -> Prop) (l : list A) (x : A) :
  ForallOrdPairs R l -> Forall (fun y => R y x) l -> ForallOrdPairs R (l ++ [x]).
Proof.
  induction l as [|y l IH]; intros Hl Hx; simpl.
  - constructor; constructor.
  - inversion Hl as [|? ? Hy Hl']; subst. inversion Hx as [|? ? Hyx Hx']; subst.
    constructor; [|now apply IH].
    apply Forall_app. split; [exact Hy | now constructor].
Qed.

Lemma existsb_false_Forall {A : Type} (f : A -> bool) (l : list A) :
  existsb f l = false -> Forall (fun x => f x = false) l.
Proof.
  induction l as [|x l IH]; simpl; intro H; [constructor|].
  apply orb_false_iff in H as [H1 H2]. constructor; auto.
Qed.

Lemma disjointMentions_sym (a b : DetectedEntityMention) :
  disjointMentions a b -> disjointMentions b a.
Proof. unfold disjointMentions. tauto. Qed.

Lemma overlapsSpan_false (s e : nat) (sp : Span) :
  overlapsSpan s e sp = false <-> e <= span_start sp \/ span_end sp <= s.
Proof.
  unfold overlapsSpan. rewrite negb_false_iff, orb_true_iff, !Nat.leb_le. tauto.
Qed.

Lemma scanEntry_invariant (entries : list EntityDetectionLexiconEntry)
    (qLower : jsstring) (state : list DetectedEntityMention * list Span)
    (entry : EntityDetectionLexiconEntry) :
  In entry entries ->
  scanInvariant entries qLower state ->
  scanInvariant entries qLower (scanEntry qLower state entry).
Proof.
  intros Hin Hinv. destruct state as [hits occupied].
  unfold scanEntry.
  destruct (execFrom 0 qLower (lex_phrase entry)) as [startIdx|] eqn:Ex;
    [|exact Hinv].
  destruct (existsb _ occupied) eqn:Eo; [exact Hinv|].
  destruct Hinv as (Hocc & Hpairs & Hfrom). simpl in Hocc, Hpairs, Hfrom.
  unfold scanInvariant. cbn [fst snd].
  split; [|split].
  - rewrite map_app, <- Hocc. reflexivity.
  - apply pairs_snoc; [exact Hpairs|].
    apply Forall_forall. intros y Hy.
    assert (Hsp : In (spanOf y) occupied)
      by (rewrite Hocc; now apply in_map).
    pose proof (existsb_false_Forall _ _ Eo) as Hall.
    rewrite Forall_forall in Hall. specialize (Hall _ Hsp).
    apply overlapsSpan_false in Hall.
    unfold disjointMentions, spanEnd. cbn [startIndex matchedText].
    unfold spanOf, spanEnd in Hall. cbn [span_start span_end] in Hall. tauto.
  - apply Forall_app. split; [exact Hfrom|].
    constructor; [|constructor].
    exists entry. cbn [entityId canonicalName startIndex matchedText].
    repeat split; auto.
Qed.

Lemma scan_invariant (entries scanned : list EntityDetectionLexiconEntry)
    (qLower : jsstring) (state : list DetectedEntityMention * list Span) :
  (forall entry, In entry scanned -> In entry entries) ->
  scanInvariant entries qLower state ->
  scanInvariant entries qLower (fold_left (scanEntry qLower) scanned state).
Proof.
  revert state. induction scanned as [|entry rest IH]; intros state Hsub Hinv.
  - exact Hinv.
  - simpl. apply IH.
    + intros e He. apply Hsub. now right.
    + apply scanEntry_invariant; [apply Hsub; now left | exact Hinv].
Qed.

Lemma acceptedHits_invariant (entries : list EntityDetectionLexiconEntry)
    (qLower : jsstring) :
  ForallOrdPairs disjointMentions (acceptedHits entries qLower)
  /\ Forall (fromLexicon entries qLower) (acceptedHits entries qLower).
Proof.
  unfold acceptedHits.
  destruct (scan_invariant entries entries qLower ([], []))
    as (_ & H1 & H2).
  - auto.
  - repeat split; constructor.
  - split; assumption.
Qed.

Lemma dedupeByEntity_In (hits : list DetectedEntityMention)
    (seen : list jsstring) (m : DetectedEntityMention) :
  In m (dedupeByEntity seen hits) ->
  In m hits /\ mem (entityId m) seen = false.
Proof.
  revert seen. induction hits as [|hit rest IH]; intros seen H; simpl in H.
  - contradiction.
  - destruct (mem (entityId hit) seen) eqn:Em.
    + destruct (IH _ H) as [H1 H2]. split; [now right | exact H2].
    + destruct H as [<-|H].
      * split; [now left | exact Em].
      * destruct (IH _ H) as [H1 H2]. split; [now right|].
        simpl in H2. now apply orb_false_iff in H2.
Qed.

Lemma dedupeByEntity_NoDup (hits : list DetectedEntityMention)
    (seen : list jsstring) :
  NoDup (List.map entityId (dedupeByEntity seen hits)).
Proof.
  revert seen. induction hits as [|hit rest IH]; intro seen; simpl.
  - constructor.
  - destruct (mem (entityId hit) seen) eqn:Em; [apply IH|].
    simpl. constructor; [|apply IH].
    intro Hin. apply in_map_iff in Hin as (m & Hid & Hm).
    apply dedupeByEntity_In in Hm as [_ Hmem].
    simpl in Hmem. apply orb_false_iff in Hmem as [Hne _].
    rewrite Hid, str_eqb_refl in Hne. discriminate.
Qed.

Lemma dedupeByEntity_Forall (P : DetectedEntityMention -> Prop)
    (hits : list DetectedEntityMention) (seen : list jsstring) :
  Forall P hits -> Forall P (dedupeByEntity seen hits).
Proof.
  intro H. apply Forall_forall. intros m Hm.
  apply dedupeByEntity_In in Hm as [Hm _].
  rewrite Forall_forall in H. now apply H.
Qed.

Lemma dedupeByEntity_pairs (R : DetectedEntityMention -> DetectedEntityMention -> Prop)
    (hits : list DetectedEntityMention) (seen : list jsstring) :
  ForallOrdPairs R hits -> ForallOrdPairs R (dedupeByEntity seen hits).
Proof.
  revert seen. induction hits as [|hit rest IH]; intros seen H; simpl.
  - constructor.
  - inversion H as [|? ? Hh Hrest]; subst.
    destruct (mem (entityId hit) seen); [now apply IH|].
    constructor; [now apply dedupeByEntity_Forall | now apply IH].
Qed.

Lemma dedupeByEntity_sorted (R : DetectedEntityMention -> DetectedEntityMention -> Prop)
    (hits : list DetectedEntityMention) (seen : list jsstring) :
  StronglySorted R hits -> StronglySorted R (dedupeByEntity seen hits).
Proof.
  revert seen. induction hits as [|hit rest IH]; intros seen H; simpl.
  - constructor.
  - inversion H as [|? ? Hrest Hh]; subst.
    destruct (mem (entityId hit) seen); [now apply IH|].
    constructor; [now apply IH | now apply dedupeByEntity_Forall].
Qed.

(** Of the hits of one entity, the de-duplication keeps the leftmost. *)
Lemma dedupeByEntity_leftmost (hits : list DetectedEntityMention)
    (seen : list jsstring) (h : DetectedEntityMention) :
  StronglySorted startsNoLater hits ->
  In h hits ->
  mem (entityId h) seen = true
  \/ exists m, In m (dedupeByEntity seen hits)
               /\ entityId m = entityId h /\ startIndex m <= startIndex h.
Proof.
  revert seen. induction hits as [|hit rest IH]; intros seen Hs Hin.
  - contradiction.
  - inversion Hs as [|? ? Hrest Hhit]; subst. simpl.
    destruct (mem (entityId hit) seen) eqn:Em.
    + destruct Hin as [<-|Hin]; [now left|].
      destruct (IH seen Hrest Hin) as [H|(m & Hm & Hid & Hle)]; [now left|].
      right. now exists m.
    + destruct Hin as [<-|Hin].
      * right. exists hit. split; [now left | split; [reflexivity | lia]].
      * destruct (IH (entityId hit :: seen) Hrest Hin)
          as [H|(m & Hm & Hid & Hle)].
        -- simpl in H. apply orb_true_iff in H as [H|H]; [|now left].
           right. exists hit. split; [now left|].
           apply str_eqb_eq in H. split; [now symmetry|].
           rewrite Forall_forall in Hhit. exact (Hhit h Hin).
        -- right. exists m. split; [now right | split; assumption].
Qed.

Lemma hitCompare_le (lc : Collator) (a b : DetectedEntityMention) :
  (hitCompare lc a b <= 0)%Z -> startIndex a <= startIndex b.
Proof.
  unfold hitCompare.
  destruct (Z.of_nat (startIndex a) - Z.of_nat (startIndex b) =? 0)%Z eqn:E;
    cbn [negb]; [apply Z.eqb_eq in E | apply Z.eqb_neq in E]; lia.
Qed.

Lemma hitCompare_gt (lc : Collator) (a b : DetectedEntityMention) :
  (0 < hitCompare lc a b)%Z -> startIndex b <= startIndex a.
Proof.
  unfold hitCompare.
  destruct (Z.of_nat (startIndex a) - Z.of_nat (startIndex b) =? 0)%Z eqn:E;
    cbn [negb]; [apply Z.eqb_eq in E | apply Z.eqb_neq in E]; lia.
Qed.

End DetectionFacts.

(** C4, the claim as stated fails on the order.  A phrase is tried at its
    first match only and is dropped for good when that match overlaps an
    accepted span.  On 'Frank Costello, Frank, Jimmy and Sheeran' the phrase
    'frank' of Frank Sheeran first matches inside 'frank costello' and is
    dropped, so Frank Sheeran, who occurs as a whole word at index 16, is
    mentioned at index 33 only, after Jimmy Hoffa, who first occurs at 23:
    the mentions are not in the order of the entities' first occurrences. *)
Lemma detectEntities_not_by_first_occurrence :
  let question := js "Frank Costello, Frank, Jimmy and Sheeran" in
  let text := normalizeText question in
  let mentions :=
    detectEntitiesInQuestion codeUnitCollator overlapLexicon question in
  List.map (fun m => (entityId m, matchedText m, startIndex m)) mentions
  = [(js "char_frank_costello", js "frank costello", 0);
     (js "char_jimmy_hoffa", js "jimmy", 23);
     (js "char_frank_sheeran", js "sheeran", 33)]
  /\ entityOccursAt overlapLexicon text (js "char_frank_sheeran") 16 = true
  /\ entityOccursAt overlapLexicon text (js "char_jimmy_hoffa") 23 = true
  /\ (forall k, k < 23 ->
      entityOccursAt overlapLexicon text (js "char_jimmy_hoffa") k = false).
Proof.
  cbv zeta. split; [vm_compute; reflexivity|].
  split; [vm_compute; reflexivity|].
  split; [vm_compute; reflexivity|].
  intros k Hk.
  do 23 (destruct k as [|k]; [vm_compute; reflexivity|]).
  lia.
Qed.

(** C4, amended.  For every question and lexicon, the mentions returned by
    entity detection have pairwise non-overlapping character spans, name
    every entity at most once, and are ordered by their own start index in
    the normalised question; each mention sits where the pattern of one of
    its entity's phrases first matches, and it is the leftmost of the
    accepted hits of its entity. *)
Theorem detectEntities_disjoint_unique_ordered
    (localeCompare : Collator) (entries : list EntityDetectionLexiconEntry)
    (question : jsstring) :
  let mentions := detectEntitiesInQuestion localeCompare entries question in
  ForallOrdPairs disjointMentions mentions
  /\ NoDup (List.map entityId mentions)
  /\ StronglySorted startsNoLater mentions
  /\ Forall (fromLexicon entries (normalizeText question)) mentions
  /\ (forall h, In h (acceptedHits entries (normalizeText question)) ->
      exists m, In m mentions
                /\ entityId m = entityId h /\ startIndex m <= startIndex h).
Proof.
  cbv zeta. unfold detectEntitiesInQuestion.
  destruct (Nat.eqb (List.length entries) 0) eqn:E.
  - apply length_zero_nil in E. subst entries.
    repeat split; try constructor. intros h [].
  - fold (acceptedHits entries (normalizeText question)).
    destruct (acceptedHits_invariant entries (normalizeText question))
      as [Hpairs Hfrom].
    set (hits := acceptedHits entries (normalizeText question)) in *.
    assert (Hsorted : StronglySorted startsNoLater
                        (sortBy (hitCompare localeCompare) hits)).
    { apply (sortBy_sorted (hitCompare localeCompare) startIndex
               (hitCompare_le localeCompare) (hitCompare_gt localeCompare)). }
    split; [|split; [|split; [|split]]].
    + apply dedupeByEntity_pairs.
      apply sortBy_pairs; [exact disjointMentions_sym | exact Hpairs].
    + apply dedupeByEntity_NoDup.
    + now apply dedupeByEntity_sorted.
    + apply dedupeByEntity_Forall. apply Forall_forall. intros m Hm.
      apply (proj1 (sortBy_In _ _ _)) in Hm.
      rewrite Forall_forall in Hfrom. now apply Hfrom.
    + intros h Hh.
      apply (proj2 (sortBy_In (hitCompare localeCompare) h hits)) in Hh.
      destruct (dedupeByEntity_leftmost _ [] h Hsorted Hh) as [H|H];
        [discriminate H | exact H].
Qed.

Section DetectionExamples.

Example detect_frank_sheeran :
  List.map (fun m => (entityId m, matchedText m, startIndex m))
    (detectEntitiesInQuestion sampleCollator sampleLexicon
       (js "Who are the key people connected to Frank Sheeran?"))
  = [(js "char_frank_sheeran", js "frank sheeran", 36)].
Proof. vm_compute. reflexivity. Qed.

Example detect_peggy_then_frank :
  List.map (fun m => (entityId m, matchedText m, startIndex m))
    (detectEntitiesInQuestion sampleCollator sampleLexicon
       (js "How does Peggy's relationship with  Frank change over time?"))
  = [(js "char_peggy_sheeran", js "peggy", 9);
     (js "char_frank_sheeran", js "frank", 35)].
Proof. vm_compute. reflexivity. Qed.

(** The pattern is anchored on both sides: "frankly" is no mention. *)
Example detect_anchored :
  List.map startIndex
    (detectEntitiesInQuestion sampleCollator sampleLexicon
       (js "Frankly, was Frank there?"))
  = [13].
Proof. vm_compute. reflexivity. Qed.

Example detect_nothing_without_lexicon :
  detectEntitiesInQuestion sampleCollator [] (js "Who is Frank Sheeran?") = [].
Proof. reflexivity. Qed.

End DetectionExamples.

Section ConfidenceExamples.

(** Two rows shown: [0.45 + 2*0.04 = 0.53]. *)
Example evidence_confidence_two_rows :
  jsNumEqb
    (confidence
       (buildTraceAnswer
          (ntgWithTraceRows [sampleTraceRow "evt_000123"; sampleTraceRow "evt_000124"])
          (sampleContext (js "Show proof of the meeting") evidence true)))
    (JsFinite 0.53%Q) = true.
Proof. vm_compute. reflexivity. Qed.

(** Non-finite and out-of-range confidences are clamped. *)
Example clampConfidence_cases :
  clampConfidence JsNaN = JsFinite 0
  /\ clampConfidence JsPosInf = JsFinite 0
  /\ clampConfidence (JsFinite 1.2%Q) = JsFinite 1
  /\ clampConfidence (JsFinite (-0.5)%Q) = JsFinite 0
  /\ clampConfidence (JsFinite 0.81%Q) = JsFinite 0.81%Q.
Proof. repeat split. Qed.

Example uniqueStrings_case :
  uniqueStrings [js " a "; js "b"; js "a"; js "  "; js "b "] = [js "a"; js "b"].
Proof. vm_compute. reflexivity. Qed.

Example toFixed2_cases :
  toFixed2 0.81%Q = js "0.81" /\ toFixed2 0.125%Q = js "0.13" /\ toFixed2 1%Q = js "1.00".
Proof. vm_compute. repeat split. Qed.

End ConfidenceExamples.

(* ================================================================== *)
(** * Further properties of the pipeline code *)
(* ================================================================== *)

(** ** The contract normaliser (queryContract.ts) *)

Lemma uniqueStringsFrom_In (values seen : list jsstring) (v : jsstring) :
  In v (uniqueStringsFrom seen values)
  <-> v <> [] /\ In v (List.map trim values) /\ ~ In v seen.
Proof.
  revert seen. induction values as [|value rest IH]; intro seen; simpl.
  - tauto.
  - destruct (isEmpty (trim value)) eqn:Ee; simpl.
    + apply isEmpty_nil in Ee. rewrite IH, Ee. split.
      * intros (H1 & H2 & H3). auto.
      * intros (H1 & [H2|H2] & H3); [congruence | auto].
    + assert (Hne : trim value <> [])
        by (intro E; rewrite E in Ee; discriminate).
      destruct (mem (trim value) seen) eqn:Em.
      * apply mem_In in Em. rewrite IH. split.
        -- intros (H1 & H2 & H3). auto.
        -- intros (H1 & [H2|H2] & H3); [subst v; contradiction | auto].
      * apply mem_false_not_In in Em. simpl. rewrite IH. simpl. split.
        -- intros [H|(H1 & H2 & H3)]; [subst v; auto | auto 6].
        -- intros (H1 & H2 & H3).
           destruct (list_eq_dec N.eq_dec (trim value) v) as [E|E];
             [now left | right].
           repeat split; auto.
           ++ destruct H2 as [H2|H2]; [contradiction | exact H2].
           ++ intros [H|H]; contradiction.
Qed.

Lemma uniqueStringsFrom_NoDup (values seen : list jsstring) :
  NoDup (uniqueStringsFrom seen values).
Proof.
  revert seen. induction values as [|value rest IH]; intro seen; simpl.
  - constructor.
  - destruct (isEmpty (trim value) || mem (trim value) seen); [apply IH|].
    constructor; [|apply IH].
    intro H. apply uniqueStringsFrom_In in H.
    destruct H as (_ & _ & H). apply H. now left.
Qed.

Lemma Qle_bool_false_lt (a b : Q) : Qle_bool a b = false -> (b < a)%Q.
Proof.
  intro H. apply Qnot_le_lt. intro Hle.
  apply Qle_bool_iff in Hle. congruence.
Qed.

Lemma clampConfidence_cases_of (value : JsNum) :
  match value with
  | JsFinite q =>
      if Qle_bool q 0 then jsNumEqb (clampConfidence value) (JsFinite 0) = true
      else if Qle_bool 1 q then clampConfidence value = JsFinite 1
      else clampConfidence value = value
  | _ => clampConfidence value = JsFinite 0
  end.
Proof.
  destruct value as [q| | |]; try reflexivity.
  unfold clampConfidence, jsMax, jsMin, jsLeb, jsNumEqb. cbn [isFinite negb].
  destruct (Qle_bool q 0) eqn:E0.
  - apply Qle_bool_iff in E0.
    destruct (Qle_bool 1 q) eqn:E1.
    + apply Qle_bool_iff in E1. exfalso.
      assert (H : (1 <= 0)%Q) by (eapply Qle_trans; eauto).
      unfold Qle in H; simpl in H; lia.
    + destruct (Qle_bool 0 q) eqn:E2.
      * apply Qle_bool_iff in E2. apply Qeq_bool_iff.
        apply Qle_antisym; assumption.
      * reflexivity.
  - apply Qle_bool_false_lt in E0.
    destruct (Qle_bool 1 q) eqn:E1.
    + reflexivity.
    + assert (E2 : Qle_bool 0 q = true)
        by (apply Qle_bool_iff; apply Qlt_le_weak; exact E0).
      rewrite E2. reflexivity.
Qed.

(** X1. What normalising gives, for every answer: the text and the notes
    without whitespace around them, the mode and the query type unchanged, a
    finite confidence between 0 and 1 (a value strictly inside the range is
    kept, a value at or below 0 and every non-finite one become 0, a value at
    or above 1 becomes 1), and four id lists without repetitions whose
    members are exactly the non-empty trimmed ids of the input lists. *)
Theorem normalizeStructuredAnswer_output (input : StructuredAnswerCore) :
  let normalized := normalizeStructuredAnswer input in
  (trim (answerText normalized) = answerText normalized
   /\ trim (reasoningNotes normalized) = reasoningNotes normalized
   /\ modeUsed normalized = modeUsed input
   /\ queryType normalized = queryType input)
  /\ (validConfidence (confidence normalized) = true
      /\ match confidence input with
         | JsFinite q =>
             if Qle_bool q 0
             then jsNumEqb (confidence normalized) (JsFinite 0) = true
             else if Qle_bool 1 q then confidence normalized = JsFinite 1
             else confidence normalized = confidence input
         | _ => confidence normalized = JsFinite 0
         end)
  /\ (NoDup (entitiesUsed normalized) /\ NoDup (eventsUsed normalized)
      /\ NoDup (stateChangesUsed normalized) /\ NoDup (evidenceRefs normalized))
  /\ forall id,
       (In id (entitiesUsed normalized)
        <-> id <> [] /\ In id (List.map trim (entitiesUsed input)))
       /\ (In id (eventsUsed normalized)
           <-> id <> [] /\ In id (List.map trim (eventsUsed input)))
       /\ (In id (stateChangesUsed normalized)
           <-> id <> [] /\ In id (List.map trim (stateChangesUsed input)))
       /\ (In id (evidenceRefs normalized)
           <-> id <> [] /\ In id (List.map trim (evidenceRefs input))).
Proof.
  cbv zeta. unfold normalizeStructuredAnswer.
  cbn [answerText reasoningNotes modeUsed queryType confidence entitiesUsed
       eventsUsed stateChangesUsed evidenceRefs].
  split; [|split; [|split]].
  - rewrite !trim_idem. auto.
  - split; [apply clampConfidence_valid|].
    pose proof (clampConfidence_cases_of (confidence input)) as H.
    destruct (confidence input); exact H.
  - unfold uniqueStrings. repeat split; apply uniqueStringsFrom_NoDup.
  - intro id. unfold uniqueStrings. rewrite !uniqueStringsFrom_In.
    cbn [In]. tauto.
Qed.

(** ** The router (queryRouter.ts) *)

Lemma str_eqb_neq (a b : jsstring) : a <> b -> str_eqb a b = false.
Proof.
  intro H. destruct (str_eqb a b) eqn:E; [|reflexivity].
  apply str_eqb_eq in E. contradiction.
Qed.


Lemma isWhitespace_lowerUnit (c : N) :
  isWhitespace (lowerUnit c) = isWhitespace c.
Proof.
  unfold lowerUnit. cbv zeta.
  destruct ((65 <=? Z.of_N c) && (Z.of_N c <=? 90))%Z eqn:E1.
  - apply andb_true_iff in E1. destruct E1 as [Ha Hb].
    apply Z.leb_le in Ha, Hb.
    unfold isWhitespace. cbv zeta. rewrite N2Z.inj_add.
    change (Z.of_N 32) with 32%Z.
    repeat (match goal with
            | |- context [(?a <=? ?b)%Z] => destruct (Z.leb_spec a b)
            | |- context [(?a =? ?b)%Z] => destruct (Z.eqb_spec a b)
            end; try lia); reflexivity.
  - destruct ((192 <=? Z.of_N c) && (Z.of_N c <=? 222)
              && negb (Z.of_N c =? 215))%Z eqn:E2; [|reflexivity].
    apply andb_true_iff in E2. destruct E2 as [E2 _].
    apply andb_true_iff in E2. destruct E2 as [Ha Hb].
    apply Z.leb_le in Ha, Hb.
    unfold isWhitespace. cbv zeta. rewrite N2Z.inj_add.
    change (Z.of_N 32) with 32%Z.
    repeat (match goal with
            | |- context [(?a <=? ?b)%Z] => destruct (Z.leb_spec a b)
            | |- context [(?a =? ?b)%Z] => destruct (Z.eqb_spec a b)
            end; try lia); reflexivity.
Qed.

Lemma lowerUnit_idem (c : N) : lowerUnit (lowerUnit c) = lowerUnit c.
Proof.
  assert (H : lowerUnit c = c
              \/ (lowerUnit c = (c + 32)%N
                  /\ ((65 <= Z.of_N c <= 90)%Z
                      \/ (192 <= Z.of_N c <= 222)%Z))).
  { unfold lowerUnit. cbv zeta.
    destruct ((65 <=? Z.of_N c) && (Z.of_N c <=? 90))%Z eqn:E1.
    - apply andb_true_iff in E1. destruct E1 as [Ha Hb].
      apply Z.leb_le in Ha, Hb. right. split; [reflexivity | lia].
    - destruct ((192 <=? Z.of_N c) && (Z.of_N c <=? 222)
                && negb (Z.of_N c =? 215))%Z eqn:E2; [|now left].
      apply andb_true_iff in E2. destruct E2 as [E2 _].
      apply andb_true_iff in E2. destruct E2 as [Ha Hb].
      apply Z.leb_le in Ha, Hb. right. split; [reflexivity | lia]. }
  destruct H as [H|[H Hr]].
  - rewrite H. exact H.
  - rewrite H. unfold lowerUnit. cbv zeta. rewrite N2Z.inj_add.
    change (Z.of_N 32) with 32%Z.
    repeat (match goal with
            | |- context [(?a <=? ?b)%Z] => destruct (Z.leb_spec a b)
            | |- context [(?a =? ?b)%Z] => destruct (Z.eqb_spec a b)
            end; try lia); reflexivity.
Qed.

Lemma toLowerCase_idem (s : jsstring) :
  toLowerCase (toLowerCase s) = toLowerCase s.
Proof.
  unfold toLowerCase. rewrite map_map. apply map_ext. apply lowerUnit_idem.
Qed.

Lemma trimStart_toLowerCase (s : jsstring) :
  trimStart (toLowerCase s) = toLowerCase (trimStart s).
Proof.
  induction s as [|c t IH]; [reflexivity|].
  cbn [toLowerCase List.map trimStart]. rewrite isWhitespace_lowerUnit.
  destruct (isWhitespace c); [exact IH | reflexivity].
Qed.

Lemma trimEnd_toLowerCase (s : jsstring) :
  trimEnd (toLowerCase s) = toLowerCase (trimEnd s).
Proof.
  induction s as [|c t IH]; [reflexivity|].
  cbn [toLowerCase List.map trimEnd].
  change (List.map lowerUnit t) with (toLowerCase t). rewrite IH.
  rewrite isWhitespace_lowerUnit.
  destruct (trimEnd t) as [|d r]; cbn [toLowerCase List.map].
  - destruct (isWhitespace c); reflexivity.
  - reflexivity.
Qed.

Lemma trim_toLowerCase (s : jsstring) :
  trim (toLowerCase s) = toLowerCase (trim s).
Proof.
  unfold trim. rewrite trimStart_toLowerCase. apply trimEnd_toLowerCase.
Qed.

Lemma trimStart_pad (pad s : jsstring) :
  forallb isWhitespace pad = true -> trimStart (pad ++ s) = trimStart s.
Proof.
  induction pad as [|c t IH]; intro H; [reflexivity|].
  cbn [forallb] in H. apply andb_true_iff in H. destruct H as [Hc Ht].
  cbn [app trimStart]. rewrite Hc. auto.
Qed.

Lemma trimEnd_blank (pad : jsstring) :
  forallb isWhitespace pad = true -> trimEnd pad = [].
Proof.
  induction pad as [|c t IH]; intro H; [reflexivity|].
  cbn [forallb] in H. apply andb_true_iff in H. destruct H as [Hc Ht].
  cbn [trimEnd]. rewrite (IH Ht), Hc. reflexivity.
Qed.

Lemma trimEnd_pad (s pad : jsstring) :
  forallb isWhitespace pad = true -> trimEnd (s ++ pad) = trimEnd s.
Proof.
  intro H. induction s as [|c t IH].
  - cbn [app]. rewrite (trimEnd_blank _ H). reflexivity.
  - cbn [app trimEnd]. rewrite IH. reflexivity.
Qed.

Lemma trimStart_app_pad (s pad : jsstring) :
  forallb isWhitespace pad = true ->
  trimEnd (trimStart (s ++ pad)) = trimEnd (trimStart s).
Proof.
  intro H. induction s as [|c t IH].
  - cbn [app]. rewrite <- (app_nil_r pad), (trimStart_pad pad [] H).
    reflexivity.
  - cbn [app trimStart]. destruct (isWhitespace c); [exact IH|].
    change (c :: t ++ pad) with ((c :: t) ++ pad).
    apply trimEnd_pad. exact H.
Qed.

Lemma trim_pad (pad1 s pad2 : jsstring) :
  forallb isWhitespace pad1 = true -> forallb isWhitespace pad2 = true ->
  trim (pad1 ++ s ++ pad2) = trim s.
Proof.
  intros H1 H2. unfold trim. rewrite (trimStart_pad _ _ H1).
  apply trimStart_app_pad. exact H2.
Qed.

(** X2. [normalizePreferredMode] reads the preference without regard to
    letter case and surrounding whitespace: the preference in lower case
    between two runs of whitespace is read as the preference itself, each of
    the six mode names between two runs of whitespace gives its mode, and
    the name of the mode read for a preference is read as that mode again. *)
Theorem normalizePreferredMode_ignores_case_and_padding
    (pad1 pad2 raw : jsstring) :
  forallb isWhitespace pad1 = true ->
  forallb isWhitespace pad2 = true ->
  normalizePreferredMode (Some (pad1 ++ toLowerCase raw ++ pad2))
  = normalizePreferredMode (Some raw)
  /\ (forall pm,
        normalizePreferredMode (Some (pad1 ++ preferredModeName pm ++ pad2))
        = pm)
  /\ normalizePreferredMode
       (Some (preferredModeName (normalizePreferredMode (Some raw))))
     = normalizePreferredMode (Some raw).
Proof.
  intros H1 H2. split; [|split].
  - unfold normalizePreferredMode. cbn [orElse].
    rewrite (trim_pad _ _ _ H1 H2), trim_toLowerCase, toLowerCase_idem.
    reflexivity.
  - intro pm. unfold normalizePreferredMode. cbn [orElse].
    rewrite (trim_pad _ _ _ H1 H2).
    destruct pm; reflexivity.
  - destruct (normalizePreferredMode (Some raw)); reflexivity.
Qed.

Lemma normalizePreferredMode_ignores_case_and_padding_witness :
  normalizePreferredMode (Some (js "  " ++ toLowerCase (js "KG") ++ js " "))
  = normalizePreferredMode (Some (js "KG"))
  /\ (forall pm,
        normalizePreferredMode
          (Some (js "  " ++ preferredModeName pm ++ js " "))
        = pm)
  /\ normalizePreferredMode
       (Some (preferredModeName (normalizePreferredMode (Some (js "KG")))))
     = normalizePreferredMode (Some (js "KG")).
Proof.
  apply (normalizePreferredMode_ignores_case_and_padding
           (js "  ") (js " ") (js "KG")); reflexivity.
Defined.

Lemma extractQuerySignals_by_lowered (q q' : jsstring) :
  toLowerCase (trim q) = toLowerCase (trim q') ->
  extractQuerySignals q = extractQuerySignals q'.
Proof. intro H. unfold extractQuerySignals. rewrite H. reflexivity. Qed.

(** X3. Routing ignores the letter case of the question and whitespace
    around it: the question in lower case between two runs of whitespace is
    routed exactly as the question itself (same signals, query type, mode and
    rationale). *)
Theorem routeQuery_ignores_case_and_padding
    (pad1 pad2 question : jsstring) (preferredMode : option jsstring)
    (entityCount : option nat) :
  forallb isWhitespace pad1 = true ->
  forallb isWhitespace pad2 = true ->
  routeQuery (pad1 ++ toLowerCase question ++ pad2) preferredMode entityCount
  = routeQuery question preferredMode entityCount.
Proof.
  intros H1 H2.
  assert (E : extractQuerySignals (pad1 ++ toLowerCase question ++ pad2)
              = extractQuerySignals question).
  { apply extractQuerySignals_by_lowered.
    rewrite (trim_pad _ _ _ H1 H2), trim_toLowerCase. apply toLowerCase_idem. }
  unfold routeQuery, classifyQueryType. rewrite E. reflexivity.
Qed.

Lemma routeQuery_ignores_case_and_padding_witness :
  routeQuery (js "  " ++ toLowerCase (js "When does Frank meet Russell?")
              ++ js " ") None None
  = routeQuery (js "When does Frank meet Russell?") None None.
Proof.
  apply (routeQuery_ignores_case_and_padding (js "  ") (js " ")
           (js "When does Frank meet Russell?") None None); reflexivity.
Defined.

(** X4. The number of detected entities never changes where a question is
    routed: the query type, the mode and the signals are the same for every
    entity count (only the rationale of a fact question can differ). *)
Theorem routeQuery_mode_independent_of_entityCount
    (question : jsstring) (preferredMode : option jsstring)
    (n m : option nat) :
  route_queryType (routeQuery question preferredMode n)
  = route_queryType (routeQuery question preferredMode m)
  /\ route_modeUsed (routeQuery question preferredMode n)
     = route_modeUsed (routeQuery question preferredMode m)
  /\ route_signals (routeQuery question preferredMode n)
     = route_signals (routeQuery question preferredMode m)
  /\ (classifyQueryType question <> fact ->
      route_reasoning (routeQuery question preferredMode n)
      = route_reasoning (routeQuery question preferredMode m)).
Proof.
  unfold routeQuery, selectModeForQueryType.
  cbn [route_queryType route_modeUsed route_signals route_reasoning].
  repeat split.
  - destruct (normalizePreferredMode preferredMode);
      destruct (classifyQueryType question); reflexivity.
  - intro H. destruct (normalizePreferredMode preferredMode);
      destruct (classifyQueryType question); try reflexivity.
    contradiction.
Qed.

(** ** Helpers shared by the answer builders (answers/shared.ts) *)

Lemma trimEnd_prefix (s : jsstring) : exists r, s = trimEnd s ++ r.
Proof.
  induction s as [|c t [r IH]]; [now exists []|].
  cbn [trimEnd]. destruct (trimEnd t) as [|d u] eqn:E.
  - destruct (isWhitespace c).
    + now exists (c :: t).
    + exists t. reflexivity.
  - exists r. cbn [app]. f_equal. exact IH.
Qed.

Lemma trimEnd_length (s : jsstring) : List.length (trimEnd s) <= List.length s.
Proof.
  destruct (trimEnd_prefix s) as [r H].
  rewrite H at 2. rewrite length_app. lia.
Qed.

(** X5. [truncate] with a limit of at least 3 never returns more than the
    limit: a text within the limit is returned as it is, a longer one is cut
    to a prefix of the text followed by three dots. *)
Theorem truncate_within_limit (text : jsstring) (maxLen : nat) :
  3 <= maxLen ->
  List.length (truncate text maxLen) <= maxLen
  /\ (List.length text <= maxLen -> truncate text maxLen = text)
  /\ (maxLen < List.length text ->
      exists kept rest, text = kept ++ rest
                        /\ truncate text maxLen = kept ++ js "...").
Proof.
  intro H3. unfold truncate, sliceTo.
  destruct (Nat.leb (List.length text) maxLen) eqn:E.
  - apply Nat.leb_le in E. repeat split; auto. intro; lia.
  - apply Nat.leb_gt in E. repeat split.
    + rewrite length_app.
      pose proof (trimEnd_length (firstn (maxLen - 3) text)) as Ht.
      rewrite length_firstn in Ht. cbn [List.length js]. 
      change (List.length (js "...")) with 3. lia.
    + intro; lia.
    + intros _. destruct (trimEnd_prefix (firstn (maxLen - 3) text)) as [r Hr].
      exists (trimEnd (firstn (maxLen - 3) text)),
             (r ++ skipn (maxLen - 3) text).
      split; [|reflexivity].
      rewrite app_assoc, <- Hr. symmetry. apply firstn_skipn.
Qed.

Lemma truncate_within_limit_witness :
  List.length (truncate (js "Frank meets Russell at the gas station.") 12) <= 12
  /\ (List.length (js "Frank meets Russell at the gas station.") <= 12 ->
      truncate (js "Frank meets Russell at the gas station.") 12
      = js "Frank meets Russell at the gas station.")
  /\ (12 < List.length (js "Frank meets Russell at the gas station.") ->
      exists kept rest,
        js "Frank meets Russell at the gas station." = kept ++ rest
        /\ truncate (js "Frank meets Russell at the gas station.") 12
           = kept ++ js "...").
Proof.
  apply (truncate_within_limit (js "Frank meets Russell at the gas station.") 12).
  lia.
Defined.

Lemma trimStart_In (s : jsstring) (c : N) : In c (trimStart s) -> In c s.
Proof.
  induction s as [|d t IH]; [auto|].
  cbn [trimStart]. destruct (isWhitespace d); [|auto].
  intro H. right. auto.
Qed.

Lemma trimEnd_In (s : jsstring) (c : N) : In c (trimEnd s) -> In c s.
Proof.
  destruct (trimEnd_prefix s) as [r H]. intro Hc. rewrite H.
  apply in_or_app. now left.
Qed.

Lemma trim_In (s : jsstring) (c : N) : In c (trim s) -> In c s.
Proof. intro H. apply trimStart_In, trimEnd_In. exact H. Qed.

Lemma splitWhitespace_pieces (P : N -> Prop) (s cur : jsstring) (prevWs : bool) :
  Forall P cur ->
  Forall (fun c => isWhitespace c = true \/ P c) s ->
  Forall (Forall P) (splitWhitespace s cur prevWs).
Proof.
  revert cur prevWs. induction s as [|c t IH]; intros cur prevWs Hcur Hs.
  - cbn [splitWhitespace]. constructor; [|constructor].
    apply Forall_rev. exact Hcur.
  - inversion Hs as [|? ? Hc Ht]; subst. cbn [splitWhitespace].
    destruct (isWhitespace c) eqn:Ew.
    + destruct prevWs.
      * apply IH; assumption.
      * constructor; [apply Forall_rev; exact Hcur|].
        apply IH; [constructor | assumption].
    + apply IH; [|assumption]. constructor; [|assumption].
      destruct Hc as [Hc|Hc]; [congruence | exact Hc].
Qed.

(** X6. Every token of [tokenize] has at least two code units, and each of
    them is a lower-case ASCII letter, a digit or an apostrophe. *)
Theorem tokenize_token_shape (text : jsstring) :
  Forall (fun token => 2 <= List.length token
                       /\ Forall (fun c => isTokenUnit c = true) token)
         (tokenize text).
Proof.
  unfold tokenize. cbv zeta.
  apply Forall_forall. intros token Hin.
  apply filter_In in Hin. destruct Hin as [Hin Hlen].
  apply Nat.leb_le in Hlen. split; [exact Hlen|].
  apply in_map_iff in Hin. destruct Hin as (piece & <- & Hpiece).
  assert (Hall : Forall (Forall (fun c => isTokenUnit c = true))
            (splitWhitespace
               (List.map (fun c => if isLowerAlnum c || isWhitespace c
                                      || N.eqb c 39 then c else 32%N)
                  (toLowerCase text)) [] false)).
  { apply splitWhitespace_pieces; [constructor|].
    apply Forall_forall. intros c Hc.
    apply in_map_iff in Hc. destruct Hc as (d & <- & _).
    unfold isTokenUnit.
    destruct (isLowerAlnum d) eqn:Ea; cbn [orb].
    - right. rewrite Ea. reflexivity.
    - destruct (isWhitespace d) eqn:Ew; cbn [orb].
      + now left.
      + destruct (N.eqb d 39) eqn:E9.
        * right. rewrite Ea, E9. reflexivity.
        * left. reflexivity. }
  rewrite Forall_forall in Hall. specialize (Hall piece Hpiece).
  rewrite Forall_forall in Hall. apply Forall_forall.
  intros c Hc. apply Hall. apply trim_In. exact Hc.
Qed.

Lemma EVIDENCE_OMITTED_NOTE_probe (notes : jsstring) :
  includes (notes ++ js " " ++ EVIDENCE_OMITTED_NOTE) EVIDENCE_OMITTED_PROBE
  = true.
Proof.
  apply includes_app_r. apply includes_app_r. reflexivity.
Qed.

(** X7. Stripping evidence composes as a conjunction: stripping under one
    flag and then under another is stripping once under both, so a second
    stripping changes nothing (the omission note is added only once). *)
Theorem maybeStripEvidence_compose (answer : StructuredAnswerCore)
    (first second : bool) :
  maybeStripEvidence (maybeStripEvidence answer first) second
  = maybeStripEvidence answer (first && second).
Proof.
  destruct first, second; try reflexivity.
  unfold maybeStripEvidence at 1. cbn [andb].
  unfold maybeStripEvidence.
  cbn [reasoningNotes setEvidenceAndNotes].
  destruct (includes (reasoningNotes answer) EVIDENCE_OMITTED_PROBE) eqn:E.
  - rewrite E. reflexivity.
  - rewrite EVIDENCE_OMITTED_NOTE_probe. reflexivity.
Qed.

(** X8. The id lists of a merged answer have no repetitions, and hold
    exactly the non-empty trimmed ids of the override list, of the primary
    answer and of the secondary answer: merging loses no id and invents
    none. *)
Theorem mergeAnswerCores_id_lists
    (primary secondary : StructuredAnswerCore) (overrides : AnswerOverrides) :
  let merged := mergeAnswerCores primary secondary overrides in
  (NoDup (entitiesUsed merged) /\ NoDup (eventsUsed merged)
   /\ NoDup (stateChangesUsed merged) /\ NoDup (evidenceRefs merged))
  /\ forall id,
       (In id (entitiesUsed merged)
        <-> id <> [] /\ (In id (List.map trim (orElse (ov_entitiesUsed overrides) []))
                         \/ In id (List.map trim (entitiesUsed primary))
                         \/ In id (List.map trim (entitiesUsed secondary))))
       /\ (In id (eventsUsed merged)
           <-> id <> [] /\ (In id (List.map trim (orElse (ov_eventsUsed overrides) []))
                            \/ In id (List.map trim (eventsUsed primary))
                            \/ In id (List.map trim (eventsUsed secondary))))
       /\ (In id (stateChangesUsed merged)
           <-> id <> [] /\ (In id (List.map trim (orElse (ov_stateChangesUsed overrides) []))
                            \/ In id (List.map trim (stateChangesUsed primary))
                            \/ In id (List.map trim (stateChangesUsed secondary))))
       /\ (In id (evidenceRefs merged)
           <-> id <> [] /\ (In id (List.map trim (orElse (ov_evidenceRefs overrides) []))
                            \/ In id (List.map trim (evidenceRefs primary))
                            \/ In id (List.map trim (evidenceRefs secondary)))).
Proof.
  cbv zeta. unfold mergeAnswerCores, uniqueStrings.
  cbn [entitiesUsed eventsUsed stateChangesUsed evidenceRefs].
  split.
  - repeat split; apply uniqueStringsFrom_NoDup.
  - intro id. rewrite !uniqueStringsFrom_In, !map_app, !in_app_iff.
    cbn [In]. tauto.
Qed.

(** ** The answer builders *)

Lemma inject_nat_nonneg (n : nat) : (0 <= inject_Z (Z.of_nat n))%Q.
Proof. unfold Qle. simpl. lia. Qed.

Lemma conf_affine (lo hi cap base step : Q) (n : nat) :
  (lo <= base)%Q -> (lo <= cap)%Q -> (cap <= hi)%Q -> (0 <= step)%Q ->
  let v := jsMin (JsFinite cap)
                 (jsAdd (JsFinite base) (jsMul (ofNat n) (JsFinite step))) in
  jsLeb (JsFinite lo) v = true /\ jsLeb v (JsFinite hi) = true.
Proof.
  intros Hb Hc Hh Hs. cbv zeta. unfold ofNat. cbn [jsMul jsAdd jsMin].
  assert (Hx : (lo <= base + inject_Z (Z.of_nat n) * step)%Q).
  { rewrite <- (Qplus_0_r lo). apply Qplus_le_compat; [exact Hb|].
    apply Qmult_le_0_compat; [apply inject_nat_nonneg | exact Hs]. }
  destruct (Qle_bool cap (base + inject_Z (Z.of_nat n) * step)) eqn:E;
    cbn [jsLeb]; split; apply Qle_bool_iff; auto.
  apply Qle_bool_false_lt in E.
  apply Qle_trans with cap; [apply Qlt_le_weak; exact E | exact Hh].
Qed.

Lemma builderShape_stripped (mode : AnswerMode) (qt : QueryType) (lo hi : Q)
    (a : StructuredAnswerCore) (b : bool) :
  builderShape mode qt lo hi a ->
  builderShape mode qt lo hi (maybeStripEvidence a b).
Proof.
  unfold builderShape.
  destruct (maybeStripEvidence_frame a b) as (_ & -> & -> & -> & _).
  auto.
Qed.

Ltac closed_Qle := unfold Qle; simpl; lia.

Lemma buildKgAnswer_shape (lc : Collator) (store : KgStore)
    (context : AnswerBuilderContext) :
  builderShape kg (ctx_queryType context) 0.1 0.95
               (buildKgAnswer lc store context).
Proof.
  assert (Hfb : builderShape kg (ctx_queryType context) 0.1 0.95
                  (maybeStripEvidence (kgFallbackAnswer store context)
                                      (ctx_includeEvidence context))).
  { apply builderShape_stripped. unfold builderShape, kgFallbackAnswer.
    cbv zeta. cbn [modeUsed queryType confidence].
    destruct (negb _); repeat split; reflexivity. }
  unfold buildKgAnswer. cbv zeta.
  destruct (negb (kg_available store)).
  - apply builderShape_stripped. repeat split; reflexivity.
  - destruct (ctx_entities context) as [|focus rest]; [exact Hfb|].
    destruct (nr_available _); [|exact Hfb].
    destruct (nr_entity _) as [entity|]; [|exact Hfb].
    apply builderShape_stripped. unfold builderShape, kgNeighborhoodAnswer.
    cbv zeta. cbn [modeUsed queryType confidence].
    split; [reflexivity|]. split; [reflexivity|].
    apply conf_affine; closed_Qle.
Qed.

Lemma summarizeStateChangesAnswer_shape (context : AnswerBuilderContext)
    (rows : StateChangesResult) :
  builderShape ntg (ctx_queryType context) 0.1 0.92
               (summarizeStateChangesAnswer context rows).
Proof.
  unfold summarizeStateChangesAnswer. cbv zeta.
  destruct (negb (scr_available rows)).
  - apply builderShape_stripped. repeat split; reflexivity.
  - destruct (Nat.eqb _ 0); apply builderShape_stripped.
    + repeat split; reflexivity.
    + unfold builderShape, ntgAnswer. cbn [modeUsed queryType confidence].
      split; [reflexivity|]. split; [reflexivity|].
      apply conf_affine; closed_Qle.
Qed.

Lemma summarizeTimelineLikeAnswer_shape (context : AnswerBuilderContext)
    (qt : QueryType) (traceRows : TraceRowsResult) (timelineRes : TimelineResult) :
  builderShape ntg qt 0.1 0.92
               (summarizeTimelineLikeAnswer context qt traceRows timelineRes).
Proof.
  unfold summarizeTimelineLikeAnswer. cbv zeta.
  destruct (negb (trr_available traceRows) || negb (tlr_available timelineRes)).
  - apply builderShape_stripped. repeat split; reflexivity.
  - destruct (Nat.eqb _ 0 && Nat.eqb _ 0); apply builderShape_stripped.
    + repeat split; reflexivity.
    + unfold builderShape, ntgAnswer. cbn [modeUsed queryType confidence].
      split; [reflexivity|]. split; [reflexivity|].
      apply conf_affine; closed_Qle.
Qed.

Lemma evidenceAnswer_shape (context : AnswerBuilderContext)
    (items : list TraceExplorerRow) :
  builderShape ntg evidence 0.1 0.92 (evidenceAnswer context items).
Proof.
  unfold builderShape, evidenceAnswer, ntgAnswer. cbv zeta.
  cbn [modeUsed queryType confidence].
  split; [reflexivity|]. split; [reflexivity|].
  destruct (Nat.eqb _ 0); [split; reflexivity|].
  apply conf_affine; closed_Qle.
Qed.

Lemma buildTraceAnswer_shape (store : NtgStore) (context : AnswerBuilderContext) :
  builderShape ntg (ctx_queryType context) 0.1 0.92
               (buildTraceAnswer store context).
Proof.
  unfold buildTraceAnswer. cbv zeta.
  destruct (ctx_queryType context) eqn:Eq;
    try (rewrite <- Eq; apply summarizeTimelineLikeAnswer_shape).
  - rewrite <- Eq. apply summarizeStateChangesAnswer_shape.
  - destruct (negb (trr_available _)).
    + apply summarizeTimelineLikeAnswer_shape.
    + apply builderShape_stripped, evidenceAnswer_shape.
Qed.

Lemma buildBaseline_shape (lc : Collator) (store : NtgStore)
    (context : AnswerBuilderContext) :
  builderShape baseline_rag (ctx_queryType context) 0.1 0.78
               (buildBaselineRagLikeAnswer lc store context).
Proof.
  unfold buildBaselineRagLikeAnswer.
  destruct (negb (ntg_available store)); apply builderShape_stripped.
  - repeat split; reflexivity.
  - unfold builderShape, baselineRetrievalAnswer. cbv zeta.
    cbn [modeUsed queryType confidence].
    split; [reflexivity|]. split; [reflexivity|].
    destruct (firstn 6 _) as [|first rest]; [split; reflexivity|].
    pose proof (conf_affine 0.1 0.78 0.78 0.28 (1 / 12) (row_score first))
      as H.
    cbv zeta in H. unfold ofNat in H. cbn [jsMul jsAdd] in H.
    apply H; closed_Qle.
Qed.

Lemma hybridConfidence_range (k t : StructuredAnswerCore) :
  jsLeb (JsFinite 0.1) (confidence k) = true ->
  jsLeb (JsFinite 0.1) (confidence t) = true ->
  jsLeb (JsFinite 0.1) (hybridConfidence k t) = true
  /\ jsLeb (hybridConfidence k t) (JsFinite 0.93) = true.
Proof.
  unfold hybridConfidence.
  destruct (confidence k) as [x| | |]; try discriminate.
  destruct (confidence t) as [y| | |]; try discriminate.
  cbn [jsLeb]. intros Hx Hy.
  apply Qle_bool_iff in Hx, Hy.
  assert (Hm : exists m, jsMax (JsFinite x) (JsFinite y) = JsFinite m
                         /\ (0.1 <= m)%Q).
  { cbn [jsMax]. destruct (Qle_bool x y); eauto. }
  destruct Hm as (m & -> & Hm). cbn [jsMul jsAdd jsMin].
  assert (Hv : (0.1 <= m * 0.97 + 0.03)%Q).
  { apply Qle_trans with (0.1 * 0.97 + 0.03)%Q; [closed_Qle|].
    apply Qplus_le_compat; [|apply Qle_refl].
    apply Qmult_le_compat_r; [exact Hm | closed_Qle]. }
  destruct (Qle_bool 0.93 (m * 0.97 + 0.03)) eqn:E; cbn [jsLeb];
    split; try reflexivity; apply Qle_bool_iff; auto.
  apply Qle_bool_false_lt in E. apply Qlt_le_weak. exact E.
Qed.

Lemma buildHybridAnswer_shape (lc : Collator) (kgStore : KgStore)
    (ntgStore : NtgStore) (context : AnswerBuilderContext) :
  builderShape hybrid (ctx_queryType context) 0.1 0.93
               (buildHybridAnswer lc kgStore ntgStore context).
Proof.
  unfold buildHybridAnswer. cbv zeta. apply builderShape_stripped.
  unfold builderShape, mergeAnswerCores.
  cbn [modeUsed queryType confidence orElse ov_modeUsed ov_queryType
       ov_confidence].
  split; [reflexivity|]. split; [reflexivity|].
  apply hybridConfidence_range.
  - apply (buildKgAnswer_shape lc kgStore context).
  - apply (buildTraceAnswer_shape ntgStore context).
Qed.

(** X9. Whatever the stores hold, the answer a builder returns carries the
    mode it was asked for and the query type of the context, and a finite
    confidence between 0.1 and the cap of its mode (0.95 for kg, 0.92 for
    ntg, 0.93 for hybrid, 0.78 for baseline_rag). *)
Theorem buildMainAnswer_mode_type_confidence (env : Env)
    (context : AnswerBuilderContext) (mode : AnswerMode) :
  let answer := buildMainAnswer env context mode in
  modeUsed answer = mode
  /\ queryType answer = ctx_queryType context
  /\ jsLeb (JsFinite 0.1) (confidence answer) = true
  /\ jsLeb (confidence answer) (JsFinite (confidenceCap mode)) = true.
Proof.
  cbv zeta. destruct mode; cbn [buildMainAnswer confidenceCap].
  - apply buildKgAnswer_shape.
  - apply buildTraceAnswer_shape.
  - apply buildHybridAnswer_shape.
  - apply buildBaseline_shape.
Qed.

Lemma firstn_In_list {A : Type} (n : nat) (l : list A) (x : A) :
  In x (firstn n l) -> In x l.
Proof.
  intro H. rewrite <- (firstn_skipn n l). apply in_or_app. now left.
Qed.

Lemma evidenceRefs_stripped_In (a : StructuredAnswerCore) (b : bool)
    (ref : jsstring) :
  In ref (evidenceRefs (maybeStripEvidence a b)) ->
  b = true /\ In ref (evidenceRefs a).
Proof.
  destruct b; cbn [maybeStripEvidence].
  - auto.
  - cbn [evidenceRefs setEvidenceAndNotes]. intros [].
Qed.

Lemma buildKgAnswer_no_events (lc : Collator) (store : KgStore)
    (context : AnswerBuilderContext) :
  eventsUsed (buildKgAnswer lc store context) = []
  /\ stateChangesUsed (buildKgAnswer lc store context) = [].
Proof.
  unfold buildKgAnswer. cbv zeta.
  destruct (negb (kg_available store)).
  - destruct (maybeStripEvidence_frame (kgUnavailableAnswer context)
                (ctx_includeEvidence context)) as (_ & _ & _ & _ & _ & -> & ->).
    split; reflexivity.
  - assert (Hfb :
      eventsUsed (maybeStripEvidence (kgFallbackAnswer store context)
                                     (ctx_includeEvidence context)) = []
      /\ stateChangesUsed (maybeStripEvidence (kgFallbackAnswer store context)
                                              (ctx_includeEvidence context)) = []).
    { destruct (maybeStripEvidence_frame (kgFallbackAnswer store context)
                  (ctx_includeEvidence context)) as (_ & _ & _ & _ & _ & -> & ->).
      split; reflexivity. }
    destruct (ctx_entities context) as [|focus rest]; [exact Hfb|].
    destruct (nr_available _); [|exact Hfb].
    destruct (nr_entity _) as [entity|]; [|exact Hfb].
    match goal with
    | |- context [maybeStripEvidence ?a ?b] =>
        destruct (maybeStripEvidence_frame a b) as (_ & _ & _ & _ & _ & -> & ->)
    end.
    split; reflexivity.
Qed.

(** X10. A graph-neighbourhood answer never cites events or state changes,
    and every evidence ref it carries is an evidence ref of an edge in the
    store's neighbourhood of the first detected entity, returned only when
    evidence was asked for. *)
Theorem buildKgAnswer_cites_focus_edges (lc : Collator) (store : KgStore)
    (context : AnswerBuilderContext) :
  let answer := buildKgAnswer lc store context in
  eventsUsed answer = []
  /\ stateChangesUsed answer = []
  /\ forall ref, In ref (evidenceRefs answer) ->
       ctx_includeEvidence context = true
       /\ exists focus rest row,
            ctx_entities context = focus :: rest
            /\ In row (kg_neighborsOf store (entityId focus))
            /\ In ref (edge_evidenceRefs (nb_edge row)).
Proof.
  cbv zeta.
  destruct (buildKgAnswer_no_events lc store context) as [He Hs].
  split; [exact He|]. split; [exact Hs|].
  intros ref. unfold buildKgAnswer. cbv zeta.
  destruct (negb (kg_available store)) eqn:Ea.
  - intro H. apply evidenceRefs_stripped_In in H. destruct H as [_ []].
  - assert (Hfb : In ref (evidenceRefs
                    (maybeStripEvidence (kgFallbackAnswer store context)
                                        (ctx_includeEvidence context))) ->
                  False).
    { intro H. apply evidenceRefs_stripped_In in H. destruct H as [_ []]. }
    destruct (ctx_entities context) as [|focus rest]; [intro H; destruct (Hfb H)|].
    unfold getEntityNeighbors. rewrite Ea.
    destruct (kg_entityOf store (entityId focus)) as [entity|];
      cbn [nr_available nr_entity nr_neighbors];
      [|intro H; destruct (Hfb H)].
    intro H. apply evidenceRefs_stripped_In in H. destruct H as [Hinc H].
    split; [exact Hinc|].
    unfold kgNeighborhoodAnswer in H. cbv zeta in H. cbn [evidenceRefs] in H.
    apply in_flat_map in H. destruct H as (row & Hrow & Href).
    exists focus, rest, row. split; [reflexivity|]. split; [|exact Href].
    assert (Hrows : forall r,
              In r (firstn 8 (sortBy (rankCompare lc)
                                (kg_neighborsOf store (entityId focus)))) ->
              In r (kg_neighborsOf store (entityId focus))).
    { intros r Hr. apply firstn_In_list in Hr.
      apply (proj1 (sortBy_In (rankCompare lc) r _)) in Hr. exact Hr. }
    destruct (Nat.leb 3 _) in Hrow.
    + apply firstn_In_list in Hrow. apply filter_In in Hrow.
      apply Hrows. apply Hrow.
    + apply Hrows. exact Hrow.
Qed.

(** ** The narrative-trace builder (answers/traceAnswer.ts) *)

Lemma str_leb_total (a b : jsstring) : str_leb a b = true \/ str_leb b a = true.
Proof.
  revert b. induction a as [|x a IH]; intro b; [now left|].
  destruct b as [|y b]; [now right|].
  cbn [str_leb]. destruct (N.ltb_spec x y) as [H|H].
  - now left.
  - destruct (N.ltb_spec y x) as [H'|H']; [now right|].
    apply IH.
Qed.

Lemma str_leb_antisym (a b : jsstring) :
  str_leb a b = true -> str_leb b a = true -> a = b.
Proof.
  revert b. induction a as [|x a IH]; intros b Hab Hba.
  - destruct b; [reflexivity | discriminate].
  - destruct b as [|y b]; [discriminate|].
    cbn [str_leb] in Hab, Hba. revert Hab Hba.
    destruct (N.ltb_spec x y) as [H|H];
      destruct (N.ltb_spec y x) as [H'|H']; intros Hab Hba;
      try discriminate; try lia.
    assert (x = y) by lia. subst y. f_equal. apply IH; assumption.
Qed.

Lemma isDigit_value (c : N) :
  isDigit c = true -> (0 <= digitValue c <= 9)%Z.
Proof.
  unfold isDigit, digitValue. cbv zeta. intro H.
  apply andb_true_iff in H. destruct H as [Ha Hb].
  apply Z.leb_le in Ha, Hb. lia.
Qed.

Lemma yearAt_range (prev : option N) (s : jsstring) (y : Z) :
  yearAt prev s = Some y -> (1900 <= y <= 2099)%Z.
Proof.
  unfold yearAt. destruct s as [|a [|b [|c [|d rest]]]]; try discriminate.
  match goal with |- (if ?cond then _ else _) = _ -> _ =>
    destruct cond eqn:E; [|discriminate] end.
  intro H.
  assert (Hy : y = (1000 * digitValue a + 100 * digitValue b
                    + 10 * digitValue c + digitValue d)%Z) by congruence.
  clear H. subst y.
  repeat (apply andb_true_iff in E; destruct E as [E ?]).
  match goal with Hc : isDigit c = true |- _ => apply isDigit_value in Hc end.
  match goal with Hd : isDigit d = true |- _ => apply isDigit_value in Hd end.
  match goal with Ho : (_ || _) = true |- _ =>
    apply orb_true_iff in Ho; destruct Ho as [Ho|Ho];
    apply andb_true_iff in Ho; destruct Ho as [Ha Hb];
    apply N.eqb_eq in Ha, Hb; subst a b
  end; unfold digitValue in *;
    change (Z.of_N 49) with 49%Z; change (Z.of_N 57) with 57%Z;
    change (Z.of_N 50) with 50%Z; change (Z.of_N 48) with 48%Z; lia.
Qed.

Lemma findYear_range (prev : option N) (q : jsstring) (y : Z) :
  findYear prev q = Some y -> (1900 <= y <= 2099)%Z.
Proof.
  revert prev. induction q as [|c t IH]; intros prev H.
  - cbn in H. discriminate.
  - cbn [findYear] in H.
    destruct (yearAt prev (c :: t)) as [y'|] eqn:E.
    + injection H as <-. eapply yearAt_range; eauto.
    + eapply IH; eauto.
Qed.

(** X11. The filters the trace builder derives from the context.  The
    relationship pair key needs two detected entities and does not depend on
    their order: swapping the first two gives the same key, and the later
    entities play no part.  A year read out of the question is always
    between 1900 and 2099. *)
Theorem trace_filters_from_context (context : AnswerBuilderContext)
    (e0 e1 : DetectedEntityMention) (rest rest' : list DetectedEntityMention) :
  pairFromContext (withEntities context (e0 :: e1 :: rest))
  = pairFromContext (withEntities context (e1 :: e0 :: rest'))
  /\ pairFromContext (withEntities context (e0 :: e1 :: rest)) <> None
  /\ pairFromContext (withEntities context [e0]) = None
  /\ pairFromContext (withEntities context []) = None
  /\ forall y, qLooksLikeYear (ctx_question context) = Some y ->
               (1900 <= y <= 2099)%Z.
Proof.
  split; [|split; [discriminate|split; [reflexivity|split; [reflexivity|]]]].
  - unfold pairFromContext, withEntities. cbn [ctx_entities]. cbv zeta.
    f_equal.
    destruct (str_leb (entityId e0) (entityId e1)) eqn:E01;
      destruct (str_leb (entityId e1) (entityId e0)) eqn:E10;
      try reflexivity.
    + rewrite (str_leb_antisym _ _ E01 E10). reflexivity.
    + destruct (str_leb_total (entityId e0) (entityId e1)); congruence.
  - intros y H. apply (findYear_range None (ctx_question context)). exact H.
Qed.

Example qLooksLikeYear_cases :
  qLooksLikeYear (js "What happens in 1975?") = Some 1975%Z
  /\ qLooksLikeYear (js "What happens in 19755?") = None
  /\ qLooksLikeYear (js "Room 1875 in 2003") = Some 2003%Z.
Proof. repeat split; reflexivity. Qed.


Lemma stripped_cites_nothing (a : StructuredAnswerCore) (b : bool) (ids : list jsstring) :
  eventsUsed a = [] -> stateChangesUsed a = [] -> evidenceRefs a = [] ->
  entitiesUsed a = ids ->
  jsLeb (confidence a) (JsFinite 0.25) = true ->
  eventsUsed (maybeStripEvidence a b) = []
  /\ stateChangesUsed (maybeStripEvidence a b) = []
  /\ evidenceRefs (maybeStripEvidence a b) = []
  /\ entitiesUsed (maybeStripEvidence a b) = ids
  /\ jsLeb (confidence (maybeStripEvidence a b)) (JsFinite 0.25) = true.
Proof.
  intros He Hs Hr Hi Hc.
  destruct (maybeStripEvidence_frame a b) as (_ & _ & _ & -> & -> & -> & ->).
  repeat split; auto.
  destruct b; [exact Hr | reflexivity].
Qed.

(** X12. When the trace artifacts are there but the store returns no state
    change, no event and no scene for any filter, the trace builder cites
    nothing: no event, no state change, no evidence ref, only the detected
    entities, and its confidence is at most 0.25. *)
Theorem buildTraceAnswer_without_rows (store : NtgStore)
    (context : AnswerBuilderContext) :
  ntg_available store = true ->
  (forall options, fst (ntg_stateChangeRows store options) = []) ->
  (forall options, ntg_traceRows store options = []) ->
  (forall options, ntg_timelineScenes store options = []) ->
  let answer := buildTraceAnswer store context in
  eventsUsed answer = []
  /\ stateChangesUsed answer = []
  /\ evidenceRefs answer = []
  /\ entitiesUsed answer = List.map entityId (ctx_entities context)
  /\ jsLeb (confidence answer) (JsFinite 0.25) = true.
Proof.
  intros Ha Hsc Htr Hts. cbv zeta.
  unfold buildTraceAnswer, listStateChanges, listTraceExplorerEvents,
    getTimelineSlice. cbv zeta. rewrite Ha. cbn [negb].
  destruct (ctx_queryType context);
    try (unfold summarizeTimelineLikeAnswer; cbv zeta;
         cbn [trr_available tlr_available trr_items tlr_scenes negb orb];
         rewrite Htr, Hts; rewrite !firstn_nil; cbn [List.length Nat.eqb andb];
         apply stripped_cites_nothing;
         try reflexivity;
         unfold ntgAnswer, contextEntityIds; cbn [entitiesUsed];
         apply app_nil_r).
  - unfold summarizeStateChangesAnswer. cbv zeta.
    cbn [scr_available scr_items negb]. rewrite Hsc.
    cbn [firstn List.length Nat.eqb].
    apply stripped_cites_nothing; try reflexivity.
    unfold ntgAnswer, contextEntityIds; cbn [entitiesUsed]. apply app_nil_r.
  - cbn [trr_available trr_items negb]. rewrite Htr.
    apply stripped_cites_nothing; try reflexivity.
    unfold evidenceAnswer, ntgAnswer, contextEntityIds; cbv zeta.
    cbn [entitiesUsed firstn flat_map]. apply app_nil_r.
Qed.

Lemma buildTraceAnswer_without_rows_witness :
  let answer :=
    buildTraceAnswer (ntgWithTraceRows [])
      (sampleContext (js "When does Frank meet Russell?") timeline true) in
  eventsUsed answer = []
  /\ stateChangesUsed answer = []
  /\ evidenceRefs answer = []
  /\ entitiesUsed answer = []
  /\ jsLeb (confidence answer) (JsFinite 0.25) = true.
Proof.
  apply (buildTraceAnswer_without_rows (ntgWithTraceRows [])
           (sampleContext (js "When does Frank meet Russell?") timeline true));
    reflexivity.
Defined.

Lemma eventsUsed_stripped (a : StructuredAnswerCore) (b : bool) :
  eventsUsed (maybeStripEvidence a b) = eventsUsed a.
Proof. apply maybeStripEvidence_frame. Qed.

Lemma stateChangesUsed_stripped (a : StructuredAnswerCore) (b : bool) :
  stateChangesUsed (maybeStripEvidence a b) = stateChangesUsed a.
Proof. apply maybeStripEvidence_frame. Qed.

Lemma summarizeTimelineLikeAnswer_events (context : AnswerBuilderContext)
    (qt : QueryType) (traceRows : TraceRowsResult) (timelineRes : TimelineResult) :
  let answer := summarizeTimelineLikeAnswer context qt traceRows timelineRes in
  List.length (eventsUsed answer) <= (if QueryType_eqb qt causal_chain then 10 else 8)
  /\ forall id, In id (eventsUsed answer) ->
       exists row, In row (trr_items traceRows)
                   /\ ev_eventId (tr_event row) = id.
Proof.
  cbv zeta. unfold summarizeTimelineLikeAnswer. cbv zeta.
  destruct (negb (trr_available traceRows) || negb (tlr_available timelineRes)).
  - rewrite eventsUsed_stripped. cbn. split; [lia | intros id []].
  - destruct (Nat.eqb _ 0 && Nat.eqb _ 0); rewrite eventsUsed_stripped.
    + cbn. split; [lia | intros id []].
    + unfold ntgAnswer. cbn [eventsUsed]. split.
      * rewrite length_map. apply firstn_length_le.
      * intros id H. apply in_map_iff in H. destruct H as (row & Hid & Hrow).
        exists row. split; [|exact Hid].
        eapply firstn_In_list. exact Hrow.
Qed.

Lemma evidenceAnswer_events (context : AnswerBuilderContext)
    (items : list TraceExplorerRow) :
  List.length (eventsUsed (evidenceAnswer context items)) <= 8
  /\ forall id, In id (eventsUsed (evidenceAnswer context items)) ->
       exists row, In row items /\ ev_eventId (tr_event row) = id.
Proof.
  unfold evidenceAnswer, ntgAnswer. cbv zeta. cbn [eventsUsed]. split.
  - rewrite length_map. apply firstn_length_le.
  - intros id H. apply in_map_iff in H. destruct H as (row & Hid & Hrow).
    exists row. split; [|exact Hid]. eapply firstn_In_list. exact Hrow.
Qed.

Lemma summarizeStateChangesAnswer_ids (context : AnswerBuilderContext)
    (rows : StateChangesResult) :
  let answer := summarizeStateChangesAnswer context rows in
  List.length (stateChangesUsed answer) <= 8
  /\ forall id, In id (stateChangesUsed answer) ->
       exists item, In item (scr_items rows)
                    /\ sc_stateChangeId (sci_stateChange item) = id.
Proof.
  cbv zeta. unfold summarizeStateChangesAnswer. cbv zeta.
  destruct (negb (scr_available rows)).
  - rewrite stateChangesUsed_stripped. cbn. split; [lia | intros id []].
  - destruct (Nat.eqb _ 0); rewrite stateChangesUsed_stripped.
    + cbn. split; [lia | intros id []].
    + unfold ntgAnswer. cbn [stateChangesUsed]. split.
      * rewrite length_map. apply firstn_length_le.
      * intros id H. apply in_map_iff in H. destruct H as (item & Hid & Hitem).
        exists item. split; [|exact Hid]. eapply firstn_In_list. exact Hitem.
Qed.

Lemma traceRows_from_store (store : NtgStore) (options : TraceExplorerOptions)
    (row : TraceExplorerRow) :
  In row (trr_items (listTraceExplorerEvents store options)) ->
  In row (ntg_traceRows store options).
Proof.
  unfold listTraceExplorerEvents. destruct (negb (ntg_available store)).
  - intros [].
  - auto.
Qed.

Lemma summarizeTimelineLikeAnswer_eventsUsed (context : AnswerBuilderContext)
    (qt : QueryType) (traceRows : TraceRowsResult) (timelineRes : TimelineResult) :
  eventsUsed (summarizeTimelineLikeAnswer context qt traceRows timelineRes)
  = if trr_available traceRows && tlr_available timelineRes
    then List.map (fun row => ev_eventId (tr_event row))
           (firstn (if QueryType_eqb qt causal_chain then 10 else 8)
                   (trr_items traceRows))
    else [].
Proof.
  unfold summarizeTimelineLikeAnswer. cbv zeta.
  destruct (trr_available traceRows), (tlr_available timelineRes);
    cbn [negb orb andb];
    try (rewrite eventsUsed_stripped; reflexivity).
  destruct (Nat.eqb (List.length (firstn _ (trr_items traceRows))) 0) eqn:E;
    cbn [andb].
  - apply length_zero_nil in E. rewrite E.
    destruct (Nat.eqb _ 0); rewrite eventsUsed_stripped; reflexivity.
  - rewrite eventsUsed_stripped. reflexivity.
Qed.

Lemma summarizeStateChangesAnswer_stateChangesUsed
    (context : AnswerBuilderContext) (rows : StateChangesResult) :
  stateChangesUsed (summarizeStateChangesAnswer context rows)
  = if scr_available rows
    then List.map (fun item => sc_stateChangeId (sci_stateChange item))
           (firstn 8 (scr_items rows))
    else [].
Proof.
  unfold summarizeStateChangesAnswer. cbv zeta.
  destruct (scr_available rows); cbn [negb];
    [|rewrite stateChangesUsed_stripped; reflexivity].
  destruct (Nat.eqb (List.length (firstn 8 (scr_items rows))) 0) eqn:E;
    rewrite stateChangesUsed_stripped.
  - apply length_zero_nil in E. rewrite E. reflexivity.
  - reflexivity.
Qed.

(** X13. The trace builder cites the first rows of its own call to the
    store. For a state-change question the state changes used are the ids of
    the first 8 rows that [listStateChanges] returns for the builder's
    options ([stateChangeCallOf]); for every other question the events used
    are the ids of the first 8 rows (10 for a causal chain) that
    [listTraceExplorerEvents] returns for the builder's options
    ([traceCallOf]). Without the artifacts nothing is cited. *)
Theorem buildTraceAnswer_cites_returned_rows (store : NtgStore)
    (context : AnswerBuilderContext) :
  let answer := buildTraceAnswer store context in
  let cap := if QueryType_eqb (ctx_queryType context) causal_chain
             then 10 else 8 in
  if QueryType_eqb (ctx_queryType context) state_change then
    stateChangesUsed answer
    = List.map (fun item => sc_stateChangeId (sci_stateChange item))
        (firstn 8 (scr_items (listStateChanges store (stateChangeCallOf context))))
    /\ scr_items (listStateChanges store (stateChangeCallOf context))
       = (if ntg_available store
          then fst (ntg_stateChangeRows store (stateChangeCallOf context))
          else [])
    /\ List.length (stateChangesUsed answer) <= 8
  else
    eventsUsed answer
    = List.map (fun row => ev_eventId (tr_event row))
        (firstn cap (trr_items (listTraceExplorerEvents store (traceCallOf context))))
    /\ trr_items (listTraceExplorerEvents store (traceCallOf context))
       = (if ntg_available store
          then ntg_traceRows store (traceCallOf context)
          else [])
    /\ List.length (eventsUsed answer) <= cap.
Proof.
  cbv zeta.
  assert (Hsc : forall options,
            scr_items (listStateChanges store options)
            = (if ntg_available store
               then fst (ntg_stateChangeRows store options) else [])
            /\ scr_available (listStateChanges store options)
               = ntg_available store).
  { intro options. unfold listStateChanges.
    destruct (ntg_available store); split; reflexivity. }
  assert (Htr : forall options,
            trr_items (listTraceExplorerEvents store options)
            = (if ntg_available store
               then ntg_traceRows store options else [])
            /\ trr_available (listTraceExplorerEvents store options)
               = ntg_available store).
  { intro options. unfold listTraceExplorerEvents.
    destruct (ntg_available store); split; reflexivity. }
  assert (Htl : forall options,
            tlr_available (getTimelineSlice store options)
            = ntg_available store).
  { intro options. unfold getTimelineSlice.
    destruct (ntg_available store); reflexivity. }
  assert (Hnil : forall n, List.map (fun row => ev_eventId (tr_event row))
                             (firstn n (@nil TraceExplorerRow)) = []).
  { intro n. rewrite firstn_nil. reflexivity. }
  unfold buildTraceAnswer, traceCallOf, stateChangeCallOf, primaryEntityIdOf.
  cbv zeta.
  destruct (ctx_queryType context) eqn:Eq;
    cbn [QueryType_eqb];
    try (rewrite summarizeTimelineLikeAnswer_eventsUsed;
         cbn [QueryType_eqb];
         match goal with
         | |- context [listTraceExplorerEvents store ?o] =>
             destruct (Htr o) as [Hi Ha]
         end;
         rewrite Htl, Ha, Hi;
         destruct (ntg_available store); cbn [andb];
         (split; [first [reflexivity | symmetry; apply Hnil]|]);
         (split; [reflexivity|]);
         try (rewrite length_map; apply firstn_length_le);
         cbn; lia).
  - rewrite summarizeStateChangesAnswer_stateChangesUsed.
    match goal with
    | |- context [listStateChanges store ?o] => destruct (Hsc o) as [Hi Ha]
    end.
    rewrite Ha, Hi.
    destruct (ntg_available store).
    + split; [reflexivity|]. split; [reflexivity|].
      rewrite length_map. apply firstn_length_le.
    + split; [reflexivity|]. split; [reflexivity|]. cbn. lia.
  - match goal with
    | |- context [listTraceExplorerEvents store ?o] =>
        destruct (Htr o) as [Hi Ha]
    end.
    rewrite Ha. destruct (ntg_available store) eqn:Eav; cbn [negb].
    + rewrite eventsUsed_stripped.
      unfold evidenceAnswer, ntgAnswer. cbv zeta. cbn [eventsUsed].
      split; [reflexivity|]. split; [exact Hi|].
      rewrite length_map. apply firstn_length_le.
    + rewrite summarizeTimelineLikeAnswer_eventsUsed.
      rewrite Ha. cbn [andb]. rewrite Hi.
      split; [reflexivity|]. split; [reflexivity|]. cbn. lia.
Qed.

(** ** The baseline builder (answers/baselineRagLike.ts) *)

Lemma source_filters_length (rows : list RetrievalRow) :
  List.length (List.filter isEventRow rows)
  + List.length (List.filter isStateChangeRow rows) <= List.length rows.
Proof.
  induction rows as [|r rows IH]; [cbn; lia|].
  cbn [List.filter List.length]. unfold isEventRow at 1, isStateChangeRow at 1.
  destruct (row_source r); cbn [List.length]; lia.
Qed.

Lemma baseline_top_rows (lc : Collator) (docs : list RetrievalRow)
    (row : RetrievalRow) :
  In row (firstn 6 (List.filter (fun r => Nat.ltb 0 (row_score r))
                      (sortBy (docCompare lc) docs))) ->
  In row docs /\ 0 < row_score row.
Proof.
  intro H. apply firstn_In_list in H. apply filter_In in H.
  destruct H as [H Hs]. apply Nat.ltb_lt in Hs. split; [|exact Hs].
  apply (proj1 (sortBy_In (docCompare lc) row docs)). exact H.
Qed.

Lemma eventDocs_rows (context : AnswerBuilderContext) (events : list EventRecord)
    (row : RetrievalRow) :
  In row (eventDocs context events) ->
  row_source row = src_event
  /\ exists event,
       In event events
       /\ row_id row = ev_eventId event
       /\ row_evidenceRefs row = ev_evidenceRefs event
       /\ row_score row
          = overlapScore (ctx_question context)
              (ev_eventTypeL2 event ++ js " "
                 ++ trim (ev_summary event ++ LF ++ ev_firstSnippet event))
       /\ (ctx_entities context = []
           \/ exists mention, In mention (ctx_entities context)
                              /\ In (entityId mention) (ev_participantIds event)).
Proof.
  unfold eventDocs. cbv zeta. intro H.
  apply in_flat_map in H. destruct H as (event & Hev & Hrow).
  destruct (Nat.eqb (List.length (List.map entityId (ctx_entities context))) 0
            || existsb (fun id => mem id (ev_participantIds event))
                 (List.map entityId (ctx_entities context))) eqn:E;
    cbn [negb] in Hrow; [|destruct Hrow].
  destruct Hrow as [<-|[]]. cbn [row_source row_id row_evidenceRefs row_score].
  split; [reflexivity|]. exists event. repeat split; try reflexivity; auto.
  apply orb_true_iff in E. destruct E as [E|E].
  - left. apply Nat.eqb_eq in E. rewrite length_map in E.
    destruct (ctx_entities context); [reflexivity | discriminate].
  - right. apply existsb_exists in E. destruct E as (id & Hid & Hmem).
    apply in_map_iff in Hid. destruct Hid as (mention & <- & Hm).
    exists mention. split; [exact Hm|]. apply mem_In. exact Hmem.
Qed.

Lemma stateChangeDocs_rows (context : AnswerBuilderContext)
    (stateChanges : list StateChangeRecord) (row : RetrievalRow) :
  In row (stateChangeDocs context stateChanges) ->
  row_source row = src_state_change
  /\ exists sc, In sc stateChanges /\ row_id row = sc_stateChangeId sc.
Proof.
  unfold stateChangeDocs. cbv zeta. intro H.
  apply in_flat_map in H. destruct H as (sc & Hsc & Hrow).
  destruct (negb _); [destruct Hrow|].
  destruct Hrow as [<-|[]]. cbn [row_source row_id].
  split; [reflexivity|]. exists sc. auto.
Qed.

Lemma scriptBlockDocs_rows (context : AnswerBuilderContext)
    (blocks : list ScriptBlock) (row : RetrievalRow) :
  In row (scriptBlockDocs context blocks) ->
  row_source row = src_script_block.
Proof.
  unfold scriptBlockDocs. intro H.
  apply in_flat_map in H. destruct H as (block & Hb & Hrow).
  cbv zeta in Hrow. destruct (negb _); [destruct Hrow|].
  destruct Hrow as [<-|[]]. reflexivity.
Qed.

(** X14. The baseline builder cites at most six rows in all, and only rows
    that share a token with the question: each cited event is an event of
    the store whose text scores above zero against the question and, when
    entities were detected, has one of them among its participants; each
    cited state change is a state change of the store. *)
Theorem buildBaseline_cites_matching_rows (lc : Collator) (store : NtgStore)
    (context : AnswerBuilderContext) :
  let answer := buildBaselineRagLikeAnswer lc store context in
  List.length (eventsUsed answer) + List.length (stateChangesUsed answer) <= 6
  /\ (forall id, In id (eventsUsed answer) ->
        exists event,
          In event (ntg_events store)
          /\ ev_eventId event = id
          /\ 0 < overlapScore (ctx_question context)
                   (ev_eventTypeL2 event ++ js " "
                      ++ trim (ev_summary event ++ LF ++ ev_firstSnippet event))
          /\ (ctx_entities context = []
              \/ exists mention, In mention (ctx_entities context)
                                 /\ In (entityId mention) (ev_participantIds event)))
  /\ (forall id, In id (stateChangesUsed answer) ->
        exists sc, In sc (ntg_stateChanges store) /\ sc_stateChangeId sc = id).
Proof.
  cbv zeta. unfold buildBaselineRagLikeAnswer.
  destruct (negb (ntg_available store));
    rewrite eventsUsed_stripped, stateChangesUsed_stripped.
  - cbn. repeat split; try lia; intros id [].
  - unfold baselineRetrievalAnswer. cbv zeta.
    cbn [eventsUsed stateChangesUsed].
    set (docs := eventDocs context (ntg_events store)
                 ++ stateChangeDocs context (ntg_stateChanges store)
                 ++ scriptBlockDocs context (ntg_scriptBlocks store)).
    set (top := firstn 6 (List.filter (fun row => Nat.ltb 0 (row_score row))
                            (sortBy (docCompare lc) docs))).
    assert (Htop : forall row, In row top -> In row docs /\ 0 < row_score row)
      by (intros row; apply baseline_top_rows).
    split; [|split].
    + rewrite !length_map.
      pose proof (source_filters_length top) as Hl.
      pose proof (firstn_length_le 6
                    (List.filter (fun row => Nat.ltb 0 (row_score row))
                       (sortBy (docCompare lc) docs))) as H6.
      fold top in H6. lia.
    + intros id H. apply in_map_iff in H. destruct H as (row & Hid & Hrow).
      apply filter_In in Hrow. destruct Hrow as [Hrow Hsrc].
      destruct (Htop row Hrow) as [Hdocs Hscore].
      unfold docs in Hdocs. apply in_app_or in Hdocs.
      destruct Hdocs as [Hd|Hd].
      * apply eventDocs_rows in Hd.
        destruct Hd as (_ & event & Hev & Hrid & _ & Hsc & Hent).
        exists event. split; [exact Hev|]. split; [congruence|].
        split; [rewrite <- Hsc; exact Hscore | exact Hent].
      * apply in_app_or in Hd. unfold isEventRow in Hsrc.
        destruct Hd as [Hd|Hd].
        -- apply stateChangeDocs_rows in Hd. destruct Hd as [Hs _].
           rewrite Hs in Hsrc. discriminate.
        -- apply scriptBlockDocs_rows in Hd.
           rewrite Hd in Hsrc. discriminate.
    + intros id H. apply in_map_iff in H. destruct H as (row & Hid & Hrow).
      apply filter_In in Hrow. destruct Hrow as [Hrow Hsrc].
      destruct (Htop row Hrow) as [Hdocs _].
      unfold docs in Hdocs. apply in_app_or in Hdocs.
      unfold isStateChangeRow in Hsrc.
      destruct Hdocs as [Hd|Hd].
      * apply eventDocs_rows in Hd. destruct Hd as [Hs _].
        rewrite Hs in Hsrc. discriminate.
      * apply in_app_or in Hd. destruct Hd as [Hd|Hd].
        -- apply stateChangeDocs_rows in Hd.
           destruct Hd as (_ & sc & Hsc & Hrid).
           exists sc. split; [exact Hsc | congruence].
        -- apply scriptBlockDocs_rows in Hd.
           rewrite Hd in Hsrc. discriminate.
Qed.

Lemma overlapScore_no_tokens (query text : jsstring) :
  tokenize query = [] -> overlapScore query text = 0.
Proof. intro H. unfold overlapScore. cbv zeta. rewrite H. reflexivity. Qed.

Lemma filter_none {A : Type} (f : A -> bool) (l : list A) :
  (forall x, In x l -> f x = false) -> List.filter f l = [].
Proof.
  induction l as [|x l IH]; intro H; [reflexivity|].
  cbn [List.filter]. rewrite (H x (or_introl eq_refl)).
  apply IH. intros y Hy. apply H. now right.
Qed.

(** X15. A question of code units below U+0100 without a token of two or
    more letters, digits or apostrophes matches nothing: with the artifacts
    there, the baseline builder then cites no event, no state change and no
    evidence ref, and gives the confidence 0.12, whatever the store holds. *)
Theorem buildBaseline_without_tokens (lc : Collator) (store : NtgStore)
    (context : AnswerBuilderContext) :
  ntg_available store = true ->
  isLatin1 (ctx_question context) = true ->
  tokenize (ctx_question context) = [] ->
  let answer := buildBaselineRagLikeAnswer lc store context in
  confidence answer = JsFinite 0.12
  /\ eventsUsed answer = []
  /\ stateChangesUsed answer = []
  /\ evidenceRefs answer = [].
Proof.
  intros Ha _ Htok. cbv zeta. unfold buildBaselineRagLikeAnswer.
  rewrite Ha. cbn [negb].
  rewrite confidence_stripped, eventsUsed_stripped, stateChangesUsed_stripped.
  assert (Hnone :
    List.filter (fun row => Nat.ltb 0 (row_score row))
      (sortBy (docCompare lc)
         (eventDocs context (ntg_events store)
          ++ stateChangeDocs context (ntg_stateChanges store)
          ++ scriptBlockDocs context (ntg_scriptBlocks store))) = []).
  { apply filter_none. intros row Hrow.
    apply (proj1 (sortBy_In (docCompare lc) row _)) in Hrow.
    assert (Hs : row_score row = 0); [|rewrite Hs; reflexivity].
    apply in_app_or in Hrow. destruct Hrow as [H|H].
    - unfold eventDocs in H. cbv zeta in H. apply in_flat_map in H.
      destruct H as (event & _ & H). destruct (negb _); [destruct H|].
      destruct H as [<-|[]]. cbn [row_score].
      apply overlapScore_no_tokens. exact Htok.
    - apply in_app_or in H. destruct H as [H|H].
      + unfold stateChangeDocs in H. cbv zeta in H. apply in_flat_map in H.
        destruct H as (sc & _ & H). destruct (negb _); [destruct H|].
        destruct H as [<-|[]]. cbn [row_score].
        apply overlapScore_no_tokens. exact Htok.
      + unfold scriptBlockDocs in H. apply in_flat_map in H.
        destruct H as (block & _ & H). cbv zeta in H.
        destruct (negb _); [destruct H|].
        destruct H as [<-|[]]. cbn [row_score].
        apply overlapScore_no_tokens. exact Htok. }
  assert (Hrefs : evidenceRefs (baselineRetrievalAnswer lc store context) = []).
  { unfold baselineRetrievalAnswer. cbv zeta. cbn [evidenceRefs].
    rewrite Hnone. reflexivity. }
  split; [|split; [|split]].
  - unfold baselineRetrievalAnswer. cbv zeta. cbn [confidence].
    rewrite Hnone. reflexivity.
  - unfold baselineRetrievalAnswer. cbv zeta. cbn [eventsUsed].
    rewrite Hnone. reflexivity.
  - unfold baselineRetrievalAnswer. cbv zeta. cbn [stateChangesUsed].
    rewrite Hnone. reflexivity.
  - destruct (ctx_includeEvidence context); cbn [maybeStripEvidence].
    + exact Hrefs.
    + reflexivity.
Qed.

Lemma buildBaseline_without_tokens_witness :
  let answer :=
    buildBaselineRagLikeAnswer sampleCollator
      (ntgWithTraceRows [sampleTraceRow "evt_000123"])
      (sampleContext (js "a ?") fact true) in
  confidence answer = JsFinite 0.12
  /\ eventsUsed answer = []
  /\ stateChangesUsed answer = []
  /\ evidenceRefs answer = [].
Proof.
  apply (buildBaseline_without_tokens sampleCollator
           (ntgWithTraceRows [sampleTraceRow "evt_000123"])
           (sampleContext (js "a ?") fact true)); reflexivity.
Defined.

(** ** The hybrid builder (answers/hybridAnswer.ts) *)

(** X16. A hybrid answer cites exactly what its two parts cite, without
    repetition: its events and state changes are those of the trace answer
    (the graph answer has none), its entities are the non-empty trimmed
    entity ids of either part, and, when evidence is asked for, its evidence
    refs are the non-empty trimmed refs of either part. *)
Theorem buildHybridAnswer_unites_parts (lc : Collator) (kgStore : KgStore)
    (ntgStore : NtgStore) (context : AnswerBuilderContext) :
  let kgAnswer := buildKgAnswer lc kgStore context in
  let traceAnswer := buildTraceAnswer ntgStore context in
  let answer := buildHybridAnswer lc kgStore ntgStore context in
  eventsUsed answer = uniqueStrings (eventsUsed traceAnswer)
  /\ stateChangesUsed answer = uniqueStrings (stateChangesUsed traceAnswer)
  /\ NoDup (entitiesUsed answer)
  /\ NoDup (evidenceRefs answer)
  /\ (forall id, In id (entitiesUsed answer)
        <-> id <> [] /\ (In id (List.map trim (entitiesUsed kgAnswer))
                         \/ In id (List.map trim (entitiesUsed traceAnswer))))
  /\ (forall ref, In ref (evidenceRefs answer)
        <-> ctx_includeEvidence context = true
            /\ ref <> []
            /\ (In ref (List.map trim (evidenceRefs kgAnswer))
                \/ In ref (List.map trim (evidenceRefs traceAnswer)))).
Proof.
  cbv zeta. unfold buildHybridAnswer. cbv zeta.
  destruct (buildKgAnswer_no_events lc kgStore context) as [Hke Hks].
  set (k := buildKgAnswer lc kgStore context) in *.
  set (t := buildTraceAnswer ntgStore context).
  match goal with
  | |- context [maybeStripEvidence ?m _] => set (merged := m)
  end.
  assert (He : eventsUsed merged = uniqueStrings (eventsUsed t)).
  { unfold merged, mergeAnswerCores.
    cbn [eventsUsed orElse ov_eventsUsed app]. rewrite Hke. reflexivity. }
  assert (Hs : stateChangesUsed merged = uniqueStrings (stateChangesUsed t)).
  { unfold merged, mergeAnswerCores.
    cbn [stateChangesUsed orElse ov_stateChangesUsed app]. rewrite Hks.
    reflexivity. }
  assert (Hi : entitiesUsed merged
               = uniqueStrings (entitiesUsed k ++ entitiesUsed t))
    by reflexivity.
  assert (Hr : evidenceRefs merged
               = uniqueStrings (evidenceRefs k ++ evidenceRefs t))
    by reflexivity.
  destruct (maybeStripEvidence_frame merged (ctx_includeEvidence context))
    as (_ & _ & _ & _ & -> & -> & ->).
  rewrite He, Hs, Hi.
  split; [reflexivity|]. split; [reflexivity|].
  split; [apply uniqueStringsFrom_NoDup|].
  split.
  { destruct (ctx_includeEvidence context); cbn [maybeStripEvidence].
    - rewrite Hr. apply uniqueStringsFrom_NoDup.
    - cbn [evidenceRefs setEvidenceAndNotes]. constructor. }
  split.
  - intro id. unfold uniqueStrings.
    rewrite uniqueStringsFrom_In, map_app, in_app_iff. cbn [In]. tauto.
  - intro ref. destruct (ctx_includeEvidence context); cbn [maybeStripEvidence].
    + rewrite Hr. unfold uniqueStrings.
      rewrite uniqueStringsFrom_In, map_app, in_app_iff. cbn [In]. tauto.
    + cbn [evidenceRefs setEvidenceAndNotes In]. split; [tauto|].
      intros [H _]. discriminate.
Qed.

(** ** The synthesis layer (answers/synthesizeWithLLM.ts) *)

Lemma trimEnd_fixed (s : jsstring) : endsSolid s -> trimEnd s = s.
Proof.
  induction s as [|c t IH]; intros [Hne Hlast]; [congruence|].
  destruct t as [|d u].
  - cbn [trimEnd]. cbn [last] in Hlast. rewrite Hlast. reflexivity.
  - cbn [trimEnd]. change (trimEnd (d :: u)) with (trimEnd (d :: u)).
    assert (Ht : trimEnd (d :: u) = d :: u).
    { apply IH. split; [discriminate|]. exact Hlast. }
    cbn [trimEnd] in Ht. rewrite Ht. reflexivity.
Qed.

Lemma trim_fixed (s : jsstring) : startsSolid s -> endsSolid s -> trim s = s.
Proof.
  intros Hs He. unfold trim. destruct s as [|c t]; [destruct Hs|].
  cbn [startsSolid] in Hs. rewrite (trimStart_solid c t Hs).
  apply trimEnd_fixed. exact He.
Qed.

Lemma trim_endsSolid (s : jsstring) : trim s <> [] -> endsSolid (trim s).
Proof.
  intro H. split; [exact H|]. unfold trim in *. apply trimEnd_last. exact H.
Qed.

Lemma isEmpty_false (s : jsstring) : isEmpty s = false -> s <> [].
Proof. intros H E. subst s. discriminate. Qed.

Lemma ensureAssistedLabel_shape (text : jsstring) :
  trim (ensureAssistedLabel text) = ensureAssistedLabel text
  /\ ensureAssistedLabel text <> []
  /\ startsWithIgnoreCase (ensureAssistedLabel text) ASSISTED_PREFIX = true.
Proof.
  unfold ensureAssistedLabel. cbv zeta.
  destruct (isEmpty (trim text)) eqn:Ee.
  - split; [reflexivity|]. split; [discriminate | reflexivity].
  - apply isEmpty_false in Ee.
    destruct (startsWithIgnoreCase (trim text) ASSISTED_PREFIX) eqn:Es.
    + split; [apply trim_idem|]. split; [exact Ee | exact Es].
    + split; [|split].
      * apply trim_fixed.
        -- reflexivity.
        -- apply endsSolid_app, endsSolid_app. apply trim_endsSolid. exact Ee.
      * discriminate.
      * reflexivity.
Qed.

(** X17. [ensureAssistedLabel] is idempotent: its result is never empty,
    has no whitespace around it and starts with the assisted label, so
    labelling a labelled text again changes nothing. *)
Theorem ensureAssistedLabel_idempotent (text : jsstring) :
  ensureAssistedLabel (ensureAssistedLabel text) = ensureAssistedLabel text
  /\ trim (ensureAssistedLabel text) = ensureAssistedLabel text
  /\ ensureAssistedLabel text <> []
  /\ startsWithIgnoreCase (ensureAssistedLabel text) ASSISTED_PREFIX = true.
Proof.
  destruct (ensureAssistedLabel_shape text) as (Ht & Hne & Hs).
  repeat split; auto.
  unfold ensureAssistedLabel at 1. cbv zeta. rewrite Ht.
  destruct (ensureAssistedLabel text) eqn:E; [congruence|].
  cbn [isEmpty]. rewrite Hs. reflexivity.
Qed.

Lemma appendNote_trimmed (base addendum : jsstring) :
  trim (appendNote base addendum) = appendNote base addendum.
Proof.
  unfold appendNote. cbv zeta.
  destruct (isEmpty (trim base)); [apply trim_idem|].
  destruct (includes (trim base) addendum); apply trim_idem.
Qed.

Lemma includes_nil_false (w : jsstring) : w <> [] -> includes [] w = false.
Proof. destruct w; [congruence | reflexivity]. Qed.

Lemma solid_nonempty (w : jsstring) : solid w = true -> w <> [].
Proof. destruct w; [discriminate | discriminate]. Qed.

(** X18. Appending a note is idempotent for a note without whitespace around
    it: once the note is in the reasoning notes, appending it again returns
    the notes unchanged. *)
Theorem appendNote_idempotent (base addendum : jsstring) :
  solid addendum = true ->
  appendNote (appendNote base addendum) addendum = appendNote base addendum.
Proof.
  intro Hs.
  pose proof (appendNote_includes base addendum Hs) as Hinc.
  pose proof (appendNote_trimmed base addendum) as Htrim.
  unfold appendNote at 1. cbv zeta. rewrite Htrim.
  destruct (appendNote base addendum) as [|c r] eqn:E.
  - rewrite (includes_nil_false _ (solid_nonempty _ Hs)) in Hinc. discriminate.
  - cbn [isEmpty]. rewrite Hinc. reflexivity.
Qed.

Lemma appendNote_idempotent_witness :
  appendNote (appendNote (js "Test reasoning.") EVIDENCE_WARNING) EVIDENCE_WARNING
  = appendNote (js "Test reasoning.") EVIDENCE_WARNING.
Proof.
  apply (appendNote_idempotent (js "Test reasoning.") EVIDENCE_WARNING).
  reflexivity.
Defined.

Lemma normalizeStructuredAnswer_fixed (a : StructuredAnswerCore) :
  trim (answerText a) = answerText a ->
  clampConfidence (confidence a) = confidence a ->
  uniqueStrings (entitiesUsed a) = entitiesUsed a ->
  uniqueStrings (eventsUsed a) = eventsUsed a ->
  uniqueStrings (stateChangesUsed a) = stateChangesUsed a ->
  uniqueStrings (evidenceRefs a) = evidenceRefs a ->
  trim (reasoningNotes a) = reasoningNotes a ->
  normalizeStructuredAnswer a = a.
Proof.
  intros H1 H2 H3 H4 H5 H6 H7. unfold normalizeStructuredAnswer.
  rewrite H1, H2, H3, H4, H5, H6, H7. destruct a; reflexivity.
Qed.

(** X19. Whatever answer the synthesis layer is given and whatever the
    provider returns, the answer it hands back is in normal form: normalising
    it again changes nothing. *)
Theorem synthesis_output_normalized (cfg : LlmConfig) (generate : TextGenerator)
    (answer : StructuredAnswerCore) (question : jsstring) (label : option jsstring) :
  let out := maybeSynthesizeStructuredAnswerWithLLM cfg generate answer
               question label in
  normalizeStructuredAnswer (out_answer out) = out_answer out.
Proof.
  cbv zeta. unfold maybeSynthesizeStructuredAnswerWithLLM. cbv zeta.
  assert (Hn : normalizeStructuredAnswer (normalizeStructuredAnswer answer)
               = normalizeStructuredAnswer answer).
  { apply normalizeStructuredAnswer_fixed;
      unfold normalizeStructuredAnswer;
      cbn [answerText confidence entitiesUsed eventsUsed stateChangesUsed
           evidenceRefs reasoningNotes];
      auto using trim_idem, clampConfidence_idem, uniqueStrings_idem. }
  destruct (isEmpty (trim (answerText (normalizeStructuredAnswer answer))));
    [exact Hn|].
  destruct (negb (st_enabled (getLlmSynthesisStatus cfg))); [exact Hn|].
  destruct (generate _ _) as [text model responseId | error model];
    cbn [out_answer];
    apply normalizeStructuredAnswer_fixed;
    unfold setReasoningNotes, setEvidenceAndNotes, setAnswerText,
      normalizeStructuredAnswer;
    cbn [answerText confidence entitiesUsed eventsUsed stateChangesUsed
         evidenceRefs reasoningNotes];
    auto using trim_idem, clampConfidence_idem, uniqueStrings_idem,
      appendNote_trimmed.
  apply (ensureAssistedLabel_shape (truncate text 8000)).
Qed.

(** X20. The provider is never consulted when the synthesis flag is off,
    when there is no API key, or when the answer text is blank: the outcome
    is then the same whatever the provider would return, it is not marked as
    assisted, carries no error, and reports the reason it was skipped. *)
Theorem synthesis_skips_provider (cfg : LlmConfig)
    (answer : StructuredAnswerCore) (question : jsstring)
    (label : option jsstring) (generate generate' : TextGenerator) :
  cfg_enableLlmSynthesisFlag cfg = false
  \/ truthy (cfg_apiKey cfg) = false
  \/ trim (answerText answer) = [] ->
  let out := maybeSynthesizeStructuredAnswerWithLLM cfg generate answer
               question label in
  out = maybeSynthesizeStructuredAnswerWithLLM cfg generate' answer question label
  /\ out_assisted out = false
  /\ out_error out = None
  /\ out_skippedReason out <> None.
Proof.
  intro H. cbv zeta. unfold maybeSynthesizeStructuredAnswerWithLLM. cbv zeta.
  destruct (isEmpty (trim (answerText (normalizeStructuredAnswer answer)))) eqn:Ee.
  - repeat split. discriminate.
  - assert (Hoff : st_enabled (getLlmSynthesisStatus cfg) = false).
    { unfold getLlmSynthesisStatus. cbv zeta.
      destruct H as [H|[H|H]].
      - rewrite H. reflexivity.
      - rewrite H. destruct (cfg_enableLlmSynthesisFlag cfg); reflexivity.
      - unfold normalizeStructuredAnswer in Ee. cbn [answerText] in Ee.
        rewrite H in Ee. discriminate. }
    rewrite Hoff. cbn [negb]. repeat split. discriminate.
Qed.

Lemma synthesis_skips_provider_witness :
  let out := maybeSynthesizeStructuredAnswerWithLLM synthesisNoKey
               rewritingProvider sampleAnswer (js "Who is Frank Sheeran?") None in
  out = maybeSynthesizeStructuredAnswerWithLLM synthesisNoKey timedOutProvider
          sampleAnswer (js "Who is Frank Sheeran?") None
  /\ out_assisted out = false
  /\ out_error out = None
  /\ out_skippedReason out <> None.
Proof.
  apply (synthesis_skips_provider synthesisNoKey sampleAnswer
           (js "Who is Frank Sheeran?") None rewritingProvider timedOutProvider).
  right. left. reflexivity.
Defined.

(** ** Entity detection (queryService.ts) *)

Lemma execFrom_anchored (s phrase : jsstring) (i k : nat) :
  execFrom i s phrase = Some k ->
  exists before rest,
    s = before ++ rest
    /\ k = i + List.length before
    /\ phraseAt rest phrase = true
    /\ ((before = [] /\ i = 0)
        \/ exists b c, before = b ++ [c] /\ isAlnumIgnoreCase c = false).
Proof.
  revert i k. induction s as [|c t IH]; intros i k H.
  - cbn [execFrom] in H.
    destruct (Nat.eqb i 0 && phraseAt [] phrase) eqn:E; [|discriminate].
    injection H as <-. apply andb_true_iff in E. destruct E as [Ei Ep].
    apply Nat.eqb_eq in Ei. exists [], []. cbn [List.length app].
    repeat split; auto; try lia.
  - cbn [execFrom] in H.
    destruct (Nat.eqb i 0 && phraseAt (c :: t) phrase) eqn:E.
    + injection H as <-. apply andb_true_iff in E. destruct E as [Ei Ep].
      apply Nat.eqb_eq in Ei. exists [], (c :: t). cbn [List.length app].
      repeat split; auto; try lia.
    + destruct (negb (isAlnumIgnoreCase c) && phraseAt t phrase) eqn:E'.
      * injection H as <-. apply andb_true_iff in E'. destruct E' as [Ec Ep].
        apply negb_true_iff in Ec. exists [c], t. cbn [List.length app].
        split; [reflexivity|]. split; [lia|]. split; [exact Ep|].
        right. exists [], c. auto.
      * apply IH in H. destruct H as (before & rest & Ht & Hk & Hp & Hb).
        exists (c :: before), rest. cbn [List.length app].
        split; [congruence|]. split; [lia|]. split; [exact Hp|].
        right. destruct Hb as [[_ Hi]|(b & d & Hb & Hd)]; [discriminate|].
        exists (c :: b), d. subst before. auto.
Qed.

Lemma startsWithIgnoreCase_firstn (s p : jsstring) :
  startsWithIgnoreCase s p = true ->
  List.length (firstn (List.length p) s) = List.length p
  /\ toLowerCase (firstn (List.length p) s) = toLowerCase p.
Proof.
  revert s. induction p as [|x p IH]; intros s H; [auto|].
  destruct s as [|y s]; [discriminate|].
  cbn [startsWithIgnoreCase] in H. apply andb_true_iff in H.
  destruct H as [Hc Hr]. apply N.eqb_eq in Hc.
  destruct (IH s Hr) as [Hl Ht].
  cbn [List.length firstn toLowerCase List.map]. split; [now rewrite Hl|].
  unfold toLowerCase in Ht. rewrite Ht, Hc. reflexivity.
Qed.

Lemma skipn_app_length {A : Type} (a b : list A) :
  skipn (List.length a) (a ++ b) = b.
Proof. induction a as [|x a IH]; [reflexivity | exact IH]. Qed.

Lemma detected_fromLexicon (lc : Collator)
    (entries : list EntityDetectionLexiconEntry) (question : jsstring)
    (m : DetectedEntityMention) :
  In m (detectEntitiesInQuestion lc entries question) ->
  fromLexicon entries (normalizeText question) m.
Proof.
  unfold detectEntitiesInQuestion.
  destruct (Nat.eqb (List.length entries) 0); [intros []|].
  fold (acceptedHits entries (normalizeText question)). intro H.
  apply dedupeByEntity_In in H. destruct H as [H _].
  apply (proj1 (sortBy_In _ _ _)) in H.
  destruct (acceptedHits_invariant entries (normalizeText question)) as [_ Hf].
  rewrite Forall_forall in Hf. apply Hf. exact H.
Qed.



(** ** The query service (queryService.ts) *)

Lemma buildMainAnswer_shape (env : Env) (context : AnswerBuilderContext)
    (mode : AnswerMode) :
  builderShape mode (ctx_queryType context) 0.1 (confidenceCap mode)
               (buildMainAnswer env context mode).
Proof.
  destruct mode; cbn [buildMainAnswer confidenceCap].
  - apply buildKgAnswer_shape.
  - apply buildTraceAnswer_shape.
  - apply buildHybridAnswer_shape.
  - apply buildBaseline_shape.
Qed.

Lemma clampConfidence_inside (v : JsNum) (hi : Q) :
  (hi < 1)%Q ->
  jsLeb (JsFinite 0.1) v = true -> jsLeb v (JsFinite hi) = true ->
  clampConfidence v = v.
Proof.
  intros Hhi Hlo Hup. destruct v as [q| | |]; try discriminate.
  cbn [jsLeb] in Hlo, Hup. apply Qle_bool_iff in Hlo, Hup.
  unfold clampConfidence. cbn [isFinite negb jsMin jsMax].
  destruct (Qle_bool 1 q) eqn:E1.
  - apply Qle_bool_iff in E1. exfalso.
    apply (Qlt_irrefl 1). eapply Qle_lt_trans; [exact E1|].
    eapply Qle_lt_trans; [exact Hup | exact Hhi].
  - cbn [jsMax].
    assert (E0 : Qle_bool 0 q = true).
    { apply Qle_bool_iff. eapply Qle_trans; [|exact Hlo]. closed_Qle. }
    rewrite E0. reflexivity.
Qed.

Lemma confidenceCap_below_one (mode : AnswerMode) : (confidenceCap mode < 1)%Q.
Proof. destruct mode; reflexivity. Qed.

Lemma contractStep_responseShape (mode : AnswerMode) (qt : QueryType)
    (built : StructuredAnswerCore) (reasoning : jsstring) :
  builderShape mode qt 0.1 (confidenceCap mode) built ->
  responseShape mode qt built (contractStep built reasoning).
Proof.
  intros (Hm & Hq & Hlo & Hup).
  destruct (contractStep_lists built reasoning)
    as (_ & _ & _ & _ & Hc & Hm' & Hq' & _).
  unfold responseShape. rewrite Hc, Hm', Hq'.
  rewrite (clampConfidence_inside _ _ (confidenceCap_below_one mode) Hlo Hup).
  auto.
Qed.

Lemma synthesis_responseShape (cfg : LlmConfig) (generate : TextGenerator)
    (mode : AnswerMode) (qt : QueryType) (built a : StructuredAnswerCore)
    (question : jsstring) (label : option jsstring) :
  responseShape mode qt built a ->
  responseShape mode qt built
    (out_answer (maybeSynthesizeStructuredAnswerWithLLM cfg generate a
                   question label)).
Proof.
  intros (Hm & Hq & Hc & Hlo & Hup).
  destruct (synthesis_lists cfg generate a question label)
    as (_ & _ & _ & _ & Hc' & Hm' & Hq').
  cbv zeta in Hc', Hm', Hq'.
  unfold responseShape. rewrite Hc', Hm', Hq'.
  rewrite (clampConfidence_inside _ _ (confidenceCap_below_one mode) Hlo Hup).
  auto.
Qed.

Lemma setEvidenceRefs_responseShape (mode : AnswerMode) (qt : QueryType)
    (built a : StructuredAnswerCore) (refs : list jsstring) :
  responseShape mode qt built a ->
  responseShape mode qt built (setEvidenceRefs a refs).
Proof. intro H. exact H. Qed.

(** X22. A response echoes the question, and its main answer carries the
    routed mode, the classified query type and the confidence of the builder
    unchanged (between 0.1 and the cap of the mode): normalisation, synthesis
    and evidence stripping never alter them.  The baseline comparison, when
    there is one, is a baseline_rag answer of the same query type with the
    baseline builder's confidence.  The baseline-only endpoint always answers
    in baseline_rag mode, without a comparison. *)
Theorem service_response_shape (env : Env) (request : QueryRequest)
    (includeEvidence : bool) :
  let response := answerQueryRequest env request in
  let route := requestRoute env request in
  let only := answerBaselineOnly env (req_question request) includeEvidence in
  resp_question response = req_question request
  /\ route_queryType route = classifyQueryType (req_question request)
  /\ responseShape (route_modeUsed route) (route_queryType route)
       (builtMainAnswer env request) (resp_answer response)
  /\ match baselineComparison response with
     | Some baseline =>
         responseShape baseline_rag (route_queryType route)
           (buildBaselineRagLikeAnswer (env_localeCompare env) (env_ntg env)
              (requestContext env request))
           baseline
     | None => True
     end
  /\ resp_question only = req_question request
  /\ baselineComparison only = None
  /\ responseShape baseline_rag (classifyQueryType (req_question request))
       (buildBaselineRagLikeAnswer (env_localeCompare env) (env_ntg env)
          (baselineOnlyContext env (req_question request) includeEvidence))
       (resp_answer only).
Proof.
  cbv zeta.
  split; [|split; [reflexivity|split; [|split; [|split; [reflexivity|split; [reflexivity|]]]]]].
  - unfold answerQueryRequest. cbv zeta.
    destruct (negb (req_includeEvidence request)); reflexivity.
  - rewrite resp_answer_shape.
    assert (H : responseShape (route_modeUsed (requestRoute env request))
                  (route_queryType (requestRoute env request))
                  (builtMainAnswer env request)
                  (synthesizedMainAnswer env request)).
    { unfold synthesizedMainAnswer. apply synthesis_responseShape.
      apply contractStep_responseShape.
      apply (buildMainAnswer_shape env (requestContext env request)). }
    destruct (req_includeEvidence request); exact H.
  - rewrite baselineComparison_shape.
    destruct ((req_includeBaselineComparison request
               || QueryType_eqb (route_queryType (requestRoute env request))
                    comparison)
              && negb (AnswerMode_eqb (route_modeUsed (requestRoute env request))
                         baseline_rag)); [|exact I].
    assert (H : responseShape baseline_rag
                  (route_queryType (requestRoute env request))
                  (buildBaselineRagLikeAnswer (env_localeCompare env)
                     (env_ntg env) (requestContext env request))
                  (comparatorAnswer env request)).
    { unfold comparatorAnswer. apply contractStep_responseShape.
      apply (buildBaseline_shape (env_localeCompare env) (env_ntg env)
               (requestContext env request)). }
    destruct (req_includeEvidence request); exact H.
  - rewrite baselineOnly_shape. apply contractStep_responseShape.
    apply (buildBaseline_shape (env_localeCompare env) (env_ntg env)
             (baselineOnlyContext env (req_question request) includeEvidence)).
Qed.

(** ** The wire side of the contract (queryContract.ts) *)

Lemma normalizeQueryRequest_shape (input : JsValue) :
  match normalizeQueryRequest input with
  | Ok request =>
      (exists raw, asString (getProp (asObject input) (js "question")) = Some raw
                   /\ req_question request = trim raw)
      /\ req_question request <> []
  | Err _ =>
      forall raw, asString (getProp (asObject input) (js "question")) = Some raw ->
                  trim raw = []
  end.
Proof.
  unfold normalizeQueryRequest. cbv zeta.
  destruct (isEmpty (trim (orElse (asString (getProp (asObject input)
                                               (js "question"))) []))) eqn:E.
  - intros raw Hraw. rewrite Hraw in E. cbn [orElse] in E.
    apply isEmpty_nil. exact E.
  - cbn [req_question]. split.
    + destruct (asString (getProp (asObject input) (js "question"))) as [raw|].
      * exists raw. split; reflexivity.
      * discriminate E.
    + apply isEmpty_false. exact E.
Qed.

(** X23. [normalizeQueryRequest] accepts exactly the inputs whose [question]
    property is a string that is not blank.  The accepted request holds the
    trimmed question, reads the preferred mode as the router does (snake case
    before camel case, unknown names as [auto]), and defaults to evidence
    included and no baseline comparison; every other input (no object, no
    question, a blank one) is rejected. *)
Theorem normalizeQueryRequest_accepts (input : JsValue) :
  let obj := asObject input in
  match normalizeQueryRequest input with
  | Ok request =>
      (exists raw, asString (getProp obj (js "question")) = Some raw
                   /\ req_question request = trim raw)
      /\ req_question request <> []
      /\ req_preferredMode request
         = normalizePreferredMode
             (optOr (asString (getProp obj (js "preferred_mode")))
                    (asString (getProp obj (js "preferredMode"))))
      /\ req_includeEvidence request
         = orElse (optOr (asBoolean (getProp obj (js "include_evidence")))
                         (asBoolean (getProp obj (js "includeEvidence")))) true
      /\ req_includeBaselineComparison request
         = orElse (optOr (asBoolean (getProp obj (js "include_baseline_comparison")))
                         (asBoolean (getProp obj (js "includeBaselineComparison"))))
                  false
  | Err _ =>
      forall raw, asString (getProp obj (js "question")) = Some raw ->
                  trim raw = []
  end.
Proof.
  cbv zeta. unfold normalizeQueryRequest. cbv zeta.
  destruct (isEmpty (trim (orElse (asString (getProp (asObject input)
                                               (js "question"))) []))) eqn:E.
  - intros raw Hraw. rewrite Hraw in E. cbn [orElse] in E.
    apply isEmpty_nil. exact E.
  - cbn [req_question req_preferredMode req_includeEvidence
         req_includeBaselineComparison].
    split; [|split; [|split; [|split]]]; try reflexivity.
    + destruct (asString (getProp (asObject input) (js "question"))) as [raw|].
      * exists raw. split; reflexivity.
      * discriminate E.
    + apply isEmpty_false. exact E.
Qed.

Lemma asStringArray_strings (l : list jsstring) :
  asStringArray (VArray (List.map VString l)) = Some l.
Proof.
  unfold asStringArray. cbv zeta.
  assert (H : flat_map (fun item => match item with VString s => [s] | _ => [] end)
                (List.map VString l) = l).
  { induction l as [|x l IH]; [reflexivity|].
    cbn [List.map flat_map app]. now rewrite IH. }
  rewrite H, length_map, Nat.eqb_refl. reflexivity.
Qed.

Lemma validConfidence_checks (v : JsNum) :
  validConfidence v = true ->
  asFiniteNumber (VNumber v) = Some v
  /\ jsLeb (JsFinite 0) v = true /\ jsLeb v (JsFinite 1) = true.
Proof.
  destruct v as [q| | |]; try discriminate.
  cbn [validConfidence asFiniteNumber isFinite jsLeb].
  intro H. apply andb_true_iff in H. destruct H as [-> ->]. auto.
Qed.

Lemma notOneOf_queryTypeName (qt : QueryType) :
  notOneOf (Some (queryTypeName qt)) QUERY_TYPE_NAMES = false.
Proof. destruct qt; reflexivity. Qed.

Lemma notOneOf_answerModeName (m : AnswerMode) :
  notOneOf (Some (answerModeName m)) ANSWER_MODE_NAMES = false.
Proof. destruct m; reflexivity. Qed.

(** The checks of [validateApiAnswerPayload] on an object that reads, at the
    nine keys, as the payload of [answer]. *)
Lemma validateApiAnswerPayload_reads (fields : list (jsstring * JsValue))
    (answer : StructuredAnswerCore) (allowNull : bool) :
  (forall key, mem key [js "query_type"; js "mode_used"; js "answer_text";
                        js "confidence"; js "entities_used"; js "events_used";
                        js "state_changes_used"; js "evidence_refs";
                        js "reasoning_notes"] = true ->
               getProp fields key = getProp (toApiAnswerPayload answer) key) ->
  validateApiAnswerPayload (VObject fields) allowNull = Ok tt.
Proof.
  intro H. unfold validateApiAnswerPayload. cbv zeta.
  rewrite andb_false_r. cbn [asObject].
  rewrite (H (js "query_type") eq_refl), (H (js "mode_used") eq_refl),
    (H (js "answer_text") eq_refl), (H (js "confidence") eq_refl),
    (H (js "entities_used") eq_refl), (H (js "events_used") eq_refl),
    (H (js "state_changes_used") eq_refl), (H (js "evidence_refs") eq_refl),
    (H (js "reasoning_notes") eq_refl).
  change (getProp (toApiAnswerPayload answer) (js "query_type"))
    with (VString (queryTypeName (queryType (normalizeStructuredAnswer answer)))).
  change (getProp (toApiAnswerPayload answer) (js "mode_used"))
    with (VString (answerModeName (modeUsed (normalizeStructuredAnswer answer)))).
  change (getProp (toApiAnswerPayload answer) (js "answer_text"))
    with (VString (answerText (normalizeStructuredAnswer answer))).
  change (getProp (toApiAnswerPayload answer) (js "confidence"))
    with (VNumber (confidence (normalizeStructuredAnswer answer))).
  change (getProp (toApiAnswerPayload answer) (js "entities_used"))
    with (VArray (List.map VString (entitiesUsed (normalizeStructuredAnswer answer)))).
  change (getProp (toApiAnswerPayload answer) (js "events_used"))
    with (VArray (List.map VString (eventsUsed (normalizeStructuredAnswer answer)))).
  change (getProp (toApiAnswerPayload answer) (js "state_changes_used"))
    with (VArray (List.map VString
                    (stateChangesUsed (normalizeStructuredAnswer answer)))).
  change (getProp (toApiAnswerPayload answer) (js "evidence_refs"))
    with (VArray (List.map VString (evidenceRefs (normalizeStructuredAnswer answer)))).
  change (getProp (toApiAnswerPayload answer) (js "reasoning_notes"))
    with (VString (reasoningNotes (normalizeStructuredAnswer answer))).
  cbn [asString]. rewrite notOneOf_queryTypeName, notOneOf_answerModeName.
  rewrite !asStringArray_strings. cbn [isNone].
  destruct (validConfidence_checks (confidence (normalizeStructuredAnswer answer)))
    as (-> & -> & ->).
  { unfold normalizeStructuredAnswer. cbn [confidence].
    apply clampConfidence_valid. }
  reflexivity.
Qed.

Lemma validateApiAnswerPayload_built (answer : StructuredAnswerCore)
    (allowNull : bool) :
  validateApiAnswerPayload (VObject (toApiAnswerPayload answer)) allowNull = Ok tt.
Proof.
  apply (validateApiAnswerPayload_reads _ answer). intros key _. reflexivity.
Qed.

Lemma validateApiQueryResponse_built (response : QueryResponse) :
  validateApiQueryResponse (toApiQueryResponse response)
  = if isEmpty (trim (resp_question response))
    then Err (js "Missing question") else Ok tt.
Proof.
  unfold validateApiQueryResponse, toApiQueryResponse. cbv zeta.
  cbn [asObject].
  match goal with
  | |- context [getProp ?fields (js "question")] =>
      change (getProp fields (js "question"))
        with (VString (resp_question response))
  end.
  cbn [asString].
  assert (Hq : isEmpty (resp_question response)
               || isEmpty (trim (resp_question response))
               = isEmpty (trim (resp_question response))).
  { destruct (resp_question response); reflexivity. }
  rewrite Hq. destruct (isEmpty (trim (resp_question response))); [reflexivity|].
  rewrite (validateApiAnswerPayload_reads _ (resp_answer response) false).
  2:{ intros key Hkey. cbn [mem existsb] in Hkey.
      repeat (apply orb_true_iff in Hkey; destruct Hkey as [Hkey|Hkey];
              [apply str_eqb_eq in Hkey; subst key; reflexivity|]).
      discriminate. }
  match goal with
  | |- context [getProp ?fields (js "baseline_comparison")] =>
      change (getProp fields (js "baseline_comparison"))
        with (match baselineComparison response with
              | Some baseline => VObject (toApiAnswerPayload baseline)
              | None => VNull
              end)
  end.
  destruct (baselineComparison response) as [baseline|].
  - rewrite validateApiAnswerPayload_built. reflexivity.
  - reflexivity.
Qed.

(** X24. Whatever response the service builds, its wire form passes the
    response validation exactly when the question is not blank: the answer
    payload and the baseline comparison built by [toApiQueryResponse] always
    satisfy every check, and a blank question is reported as missing. *)
Theorem toApiQueryResponse_validates (response : QueryResponse) :
  (trim (resp_question response) <> [] ->
   validateApiQueryResponse (toApiQueryResponse response) = Ok tt)
  /\ (trim (resp_question response) = [] ->
      validateApiQueryResponse (toApiQueryResponse response)
      = Err (js "Missing question"))
  /\ validateApiAnswerPayload (VObject (toApiAnswerPayload (resp_answer response)))
       false = Ok tt.
Proof.
  rewrite validateApiQueryResponse_built. split; [|split].
  - intro H. destruct (trim (resp_question response)); [congruence | reflexivity].
  - intros ->. reflexivity.
  - apply validateApiAnswerPayload_built.
Qed.

(** ** The baseline endpoint (app/api/query/baseline-rag/route.ts) *)

(** X25. The baseline endpoint answers 200, 400 or 500.  The status is 400
    exactly when the body is not JSON whose [question] property is a string
    that is not blank.  For a body that is, a pipeline that runs gives 200
    with the wire form of the baseline-only answer to the trimmed question,
    which passes the response validation (so the validation failure is not
    reached), and a pipeline that throws gives 500 with the error
    "Baseline query processing failed: " followed by the message of the
    error, or by "Unknown error" when the thrown value has none. *)
Theorem POST_status (run : PipelineRun) (body : option JsValue) :
  let res := POST run body in
  let accepted :=
    exists payload raw,
      body = Some payload
      /\ asString (getProp (asObject payload) (js "question")) = Some raw
      /\ trim raw <> [] in
  (res_status res = 200 \/ res_status res = 400 \/ res_status res = 500)
  /\ (res_status res = 400 <-> ~ accepted)
  /\ (accepted ->
      match run with
      | Runs env =>
          res_status res = 200
          /\ exists payload request,
               body = Some payload
               /\ normalizeQueryRequest payload = Ok request
               /\ res_body res
                  = toApiQueryResponse
                      (answerBaselineOnly env (req_question request)
                                          (req_includeEvidence request))
               /\ validateApiQueryResponse (res_body res) = Ok tt
      | Throws message =>
          res_status res = 500
          /\ res_body res
             = errorBody (js "Baseline query processing failed: "
                            ++ orElse message (js "Unknown error"))
      end).
Proof.
  cbv zeta. unfold POST.
  destruct body as [payload|].
  2:{ cbn [res_status]. split; [right; now left|]. split.
      - split; [|reflexivity]. intros _ (p & raw & H & _). discriminate.
      - intros (p & raw & H & _). discriminate. }
  pose proof (normalizeQueryRequest_shape payload) as Hn.
  destruct (normalizeQueryRequest payload) as [request|error] eqn:En.
  - destruct Hn as ((raw & Hraw & Hq) & Hne).
    assert (Hacc : exists payload0 raw0,
               Some payload = Some payload0
               /\ asString (getProp (asObject payload0) (js "question"))
                  = Some raw0
               /\ trim raw0 <> []).
    { exists payload, raw. split; [reflexivity|]. split; [exact Hraw|].
      congruence. }
    destruct run as [env|message].
    + cbv zeta.
      assert (Hv : validateApiQueryResponse
                     (toApiQueryResponse
                        (answerBaselineOnly env (req_question request)
                                            (req_includeEvidence request)))
                   = Ok tt).
      { rewrite validateApiQueryResponse_built.
        change (resp_question (answerBaselineOnly env (req_question request)
                                 (req_includeEvidence request)))
          with (req_question request).
        rewrite Hq, trim_idem, <- Hq.
        destruct (req_question request); [congruence | reflexivity]. }
      rewrite Hv. cbn [res_status res_body]. split; [now left|]. split.
      * split; [discriminate|]. intro H. elim H. exact Hacc.
      * intros _. split; [reflexivity|]. exists payload, request. auto.
    + cbn [res_status res_body]. split; [right; now right|]. split.
      * split; [discriminate|]. intro H. elim H. exact Hacc.
      * intros _. split; reflexivity.
  - cbn [res_status]. split; [right; now left|]. split.
    + split; [|reflexivity]. intros _ (p & raw & Hp & Hraw & Hne).
      injection Hp as <-. elim Hne. apply Hn. exact Hraw.
    + intros (p & raw & Hp & Hraw & Hne).
      injection Hp as <-. elim Hne. apply Hn. exact Hraw.
Qed.

(** ** The entity-detection lexicon (queryService.ts) *)

Section SortByRelation.
Variable A : Type.
Variable cmp : A -> A -> Z.
Variable R : A -> A -> Prop.
Hypothesis R_le : forall a b, (cmp a b <= 0)%Z -> R a b.
Hypothesis R_gt : forall a b, (0 < cmp a b)%Z -> R b a.
Hypothesis R_trans : forall a b c, R a b -> R b c -> R a c.

Lemma insertBy_sorted_rel (x : A) (l : list A) :
  StronglySorted R l -> StronglySorted R (insertBy cmp x l).
Proof.
  induction l as [|y l IH]; intro Hs; cbn [insertBy].
  - constructor; constructor.
  - apply StronglySorted_inv in Hs. destruct Hs as [Hl Hy].
    destruct (Z.leb_spec (cmp x y) 0) as [Hc|Hc].
    + constructor; [constructor; assumption|].
      constructor; [apply R_le; exact Hc|].
      rewrite Forall_forall in *. intros z Hz.
      apply R_trans with y; [apply R_le; exact Hc | apply Hy; exact Hz].
    + constructor; [apply IH; exact Hl|].
      rewrite Forall_forall in *. intros z Hz.
      apply insertBy_In in Hz. destruct Hz as [->|Hz].
      * apply R_gt. exact Hc.
      * apply Hy. exact Hz.
Qed.

Lemma sortBy_sorted_rel (l : list A) : StronglySorted R (sortBy cmp l).
Proof.
  induction l as [|x l IH]; cbn [sortBy]; [constructor|].
  apply insertBy_sorted_rel. exact IH.
Qed.

End SortByRelation.

Lemma insertBy_NoDup_map {A B : Type} (cmp : A -> A -> Z) (f : A -> B)
    (x : A) (l : list A) :
  NoDup (List.map f (x :: l)) -> NoDup (List.map f (insertBy cmp x l)).
Proof.
  induction l as [|y l IH]; intro H; cbn [insertBy]; [exact H|].
  destruct (cmp x y <=? 0)%Z; [exact H|].
  cbn [List.map] in *.
  apply NoDup_cons_iff in H. destruct H as [Hx H].
  apply NoDup_cons_iff in H. destruct H as [Hy H].
  constructor.
  - intro Hin. apply in_map_iff in Hin. destruct Hin as (z & Hz & Hin).
    apply insertBy_In in Hin. destruct Hin as [->|Hin].
    + apply Hx. left. symmetry. exact Hz.
    + apply Hy. rewrite <- Hz. apply in_map. exact Hin.
  - apply IH. constructor; [|exact H].
    intro Hin. apply Hx. right. exact Hin.
Qed.

Lemma sortBy_NoDup_map {A B : Type} (cmp : A -> A -> Z) (f : A -> B)
    (l : list A) :
  NoDup (List.map f l) -> NoDup (List.map f (sortBy cmp l)).
Proof.
  induction l as [|x l IH]; intro H; cbn [sortBy]; [exact H|].
  apply insertBy_NoDup_map. cbn [List.map] in *.
  apply NoDup_cons_iff in H. destruct H as [Hx H].
  constructor; [|apply IH; exact H].
  intro Hin. apply Hx. apply in_map_iff in Hin.
  destruct Hin as (z & Hz & Hin). apply sortBy_In in Hin.
  rewrite <- Hz. apply in_map. exact Hin.
Qed.

Lemma NoDup_app_iff_local {A : Type} (l1 l2 : list A) :
  NoDup l1 -> NoDup l2 -> (forall x, In x l1 -> In x l2 -> False) ->
  NoDup (l1 ++ l2).
Proof.
  induction l1 as [|x l1 IH]; intros H1 H2 Hd; [exact H2|].
  cbn [app]. apply NoDup_cons_iff in H1. destruct H1 as [Hx H1].
  constructor.
  - intro Hin. apply in_app_or in Hin. destruct Hin as [Hin|Hin].
    + contradiction.
    + apply (Hd x); [now left | exact Hin].
  - apply IH; auto. intros y Hy Hy2. apply (Hd y); [now right | exact Hy2].
Qed.

Lemma addEntry_invariant (entities : list KgData.KgEntity)
    (state : Lexicon.LexiconState)
    (entityId canonicalName entityType phraseRaw : jsstring)
    (matchKind : MatchKind) (priority : nat) :
  (exists entity, In entity entities
                  /\ KgData.kent_entityId entity = entityId
                  /\ KgData.kent_canonicalName entity = canonicalName
                  /\ KgData.kent_entityType entity = entityType) ->
  lexiconInvariant entities state ->
  lexiconInvariant entities
    (Lexicon.addEntry state entityId canonicalName entityType phraseRaw
                      matchKind priority).
Proof.
  intros Hent (Hall & Hnd & Hseen). unfold Lexicon.addEntry. cbv zeta.
  destruct (isEmpty (normalizeText phraseRaw)
            || Nat.ltb (List.length (normalizeText phraseRaw)) 3) eqn:E;
    [repeat split; assumption|].
  apply orb_false_iff in E. destruct E as [_ E]. apply Nat.ltb_ge in E.
  destruct (mem _ (snd state)) eqn:Em; [repeat split; assumption|].
  apply mem_false_not_In in Em.
  unfold lexiconInvariant. cbn [fst snd]. split; [|split].
  - apply Forall_app. split; [exact Hall|]. constructor; [|constructor].
    cbn [lex_phrase]. split; [exact E | exact Hent].
  - rewrite map_app. cbn [List.map]. 
    apply NoDup_app_iff_local; [exact Hnd | constructor; [intros []|constructor] |].
    intros k Hk [Hk'|[]]. subst k. apply Em.
    apply in_map_iff in Hk. destruct Hk as (entry & Hkey & Hin).
    pose proof (Hseen entry Hin) as Hk2. rewrite Hkey in Hk2. exact Hk2.
  - intros entry Hin. apply in_app_or in Hin. destruct Hin as [Hin|[<-|[]]].
    + right. apply Hseen. exact Hin.
    + left. reflexivity.
Qed.

Lemma entityById_known (entities : list KgData.KgEntity)
    (id canonicalName entityType : jsstring) :
  Lexicon.entityById entities id = Some (canonicalName, entityType) ->
  exists entity, In entity entities
                 /\ KgData.kent_entityId entity = id
                 /\ KgData.kent_canonicalName entity = canonicalName
                 /\ KgData.kent_entityType entity = entityType.
Proof.
  unfold Lexicon.entityById. intro H.
  destruct (List.find _ (rev entities)) as [entity|] eqn:E; [|discriminate].
  cbn [option_map] in H. injection H as Hn Ht.
  apply find_some in E. destruct E as [Hin Hid].
  apply in_rev in Hin. apply str_eqb_eq in Hid.
  exists entity. auto.
Qed.

Lemma fold_left_invariant {S X : Type} (P : S -> Prop) (step : S -> X -> S)
    (items : list X) (start : S) :
  (forall state item, In item items -> P state -> P (step state item)) ->
  P start -> P (fold_left step items start).
Proof.
  revert start. induction items as [|item items IH]; intros start Hstep H0.
  - exact H0.
  - cbn [fold_left]. apply IH.
    + intros state it Hin. apply Hstep. now right.
    + apply Hstep; [now left | exact H0].
Qed.

Lemma addHint_invariant (entities : list KgData.KgEntity) (priority : nat)
    (state : Lexicon.LexiconState) (hint : jsstring * jsstring) :
  lexiconInvariant entities state ->
  lexiconInvariant entities (Lexicon.addHint entities priority state hint).
Proof.
  intro H. unfold Lexicon.addHint.
  destruct (Lexicon.entityById entities (fst hint)) as [[name type]|] eqn:E;
    [|exact H].
  apply addEntry_invariant; [|exact H].
  apply entityById_known. exact E.
Qed.

Lemma collectEntries_invariant (kg : KgData.KgArtifacts) :
  lexiconInvariant (KgData.kga_entities kg) (Lexicon.collectEntries kg).
Proof.
  unfold Lexicon.collectEntries. cbv zeta.
  apply fold_left_invariant.
  { intros state item _ H. unfold Lexicon.addLastName.
    destruct (snd item) as [|entityId [|more rest]]; try exact H.
    apply addHint_invariant. exact H. }
  apply fold_left_invariant.
  { intros state hint _ H. apply addHint_invariant. exact H. }
  apply fold_left_invariant.
  { intros state alias _ H. unfold Lexicon.addAlias.
    destruct (negb _); [exact H|].
    destruct (Lexicon.entityById _ _) as [[name type]|] eqn:E; [|exact H].
    apply entityById_known in E.
    apply addEntry_invariant; [exact E|].
    apply addEntry_invariant; [exact E | exact H]. }
  apply fold_left_invariant.
  { intros state entity Hin H. unfold Lexicon.addCanonical.
    apply addEntry_invariant; [|exact H].
    exists entity. auto. }
  unfold lexiconInvariant. cbn [fst snd]. repeat split.
  - constructor.
  - constructor.
  - intros entry [].
Qed.

Lemma lexiconCompare_le (lc : Collator) (a b : EntityDetectionLexiconEntry) :
  (Lexicon.lexiconCompare lc a b <= 0)%Z -> longerFirst a b.
Proof.
  unfold Lexicon.lexiconCompare, longerFirst. cbv zeta.
  destruct (Z.eqb_spec (Z.of_nat (List.length (lex_phrase b))
                        - Z.of_nat (List.length (lex_phrase a))) 0) as [E|E];
    cbn [negb]; intro H; lia.
Qed.

Lemma lexiconCompare_gt (lc : Collator) (a b : EntityDetectionLexiconEntry) :
  (0 < Lexicon.lexiconCompare lc a b)%Z -> longerFirst b a.
Proof.
  unfold Lexicon.lexiconCompare, longerFirst. cbv zeta.
  destruct (Z.eqb_spec (Z.of_nat (List.length (lex_phrase b))
                        - Z.of_nat (List.length (lex_phrase a))) 0) as [E|E];
    cbn [negb]; intro H; lia.
Qed.

Lemma longerFirst_trans (a b c : EntityDetectionLexiconEntry) :
  longerFirst a b -> longerFirst b c -> longerFirst a c.
Proof. unfold longerFirst. lia. Qed.

Lemma buildEntityDetectionLexicon_invariant (lc : Collator)
    (kg : KgData.KgArtifacts) :
  Forall (fun entry => 3 <= List.length (lex_phrase entry)
                       /\ namesEntity (KgData.kga_entities kg) entry)
         (Lexicon.buildEntityDetectionLexicon lc kg).
Proof.
  unfold Lexicon.buildEntityDetectionLexicon.
  destruct (negb (KgData.kga_available kg)); [constructor|].
  destruct (collectEntries_invariant kg) as (Hall & _ & _).
  rewrite Forall_forall in *. intros entry Hin.
  apply sortBy_In in Hin. apply Hall. exact Hin.
Qed.

(** X26. The lexicon built from the graph artifacts is empty when they are
    missing; otherwise every entry has a phrase of at least three units and
    names an entity of the graph with its canonical name and type, no two
    entries share a key (entity id, phrase, match kind), and the entries are
    in order of decreasing phrase length.  Hence every mention detected with
    it names an entity of the graph and matched at least three units. *)
Theorem buildEntityDetectionLexicon_entries (lc : Collator)
    (kg : KgData.KgArtifacts) :
  let entries := Lexicon.buildEntityDetectionLexicon lc kg in
  (KgData.kga_available kg = false -> entries = [])
  /\ Forall (fun entry => 3 <= List.length (lex_phrase entry)
                          /\ namesEntity (KgData.kga_entities kg) entry) entries
  /\ NoDup (List.map keyOf entries)
  /\ StronglySorted longerFirst entries
  /\ forall question mention,
       In mention (detectEntitiesInQuestion lc entries question) ->
       3 <= List.length (matchedText mention)
       /\ exists entity,
            In entity (KgData.kga_entities kg)
            /\ KgData.kent_entityId entity = entityId mention
            /\ KgData.kent_canonicalName entity = canonicalName mention.
Proof.
  cbv zeta. split; [|split; [|split; [|split]]].
  - intro H. unfold Lexicon.buildEntityDetectionLexicon. rewrite H. reflexivity.
  - apply buildEntityDetectionLexicon_invariant.
  - unfold Lexicon.buildEntityDetectionLexicon.
    destruct (negb (KgData.kga_available kg)); [constructor|].
    apply sortBy_NoDup_map. apply (collectEntries_invariant kg).
  - unfold Lexicon.buildEntityDetectionLexicon.
    destruct (negb (KgData.kga_available kg)); [constructor|].
    apply sortBy_sorted_rel.
    + apply lexiconCompare_le.
    + apply lexiconCompare_gt.
    + apply longerFirst_trans.
  - intros question mention Hin.
    apply detected_fromLexicon in Hin.
    destruct Hin as (entry & Hentry & Hid & Hname & Hexec & Htext).
    pose proof (buildEntityDetectionLexicon_invariant lc kg) as Hall.
    rewrite Forall_forall in Hall.
    destruct (Hall entry Hentry) as (Hlen & entity & He & Heid & Hen & _).
    split.
    + apply execFrom_anchored in Hexec.
      destruct Hexec as (before & rest & Hq & Hk & Hp & _).
      cbn [Nat.add] in Hk. unfold phraseAt in Hp.
      apply andb_true_iff in Hp. destruct Hp as [Hs _].
      destruct (startsWithIgnoreCase_firstn _ _ Hs) as [Hl _].
      rewrite Htext, Hq, Hk, skipn_app_length, Hl. exact Hlen.
    + exists entity. split; [exact He|]. split; congruence.
Qed.

(** ** The graph artifacts and their read API (kgData.ts) *)

Lemma insertBy_length {A : Type} (cmp : A -> A -> Z) (x : A) (l : list A) :
  List.length (insertBy cmp x l) = S (List.length l).
Proof.
  induction l as [|y l IH]; [reflexivity|].
  cbn [insertBy]. destruct (cmp x y <=? 0)%Z; [reflexivity|].
  cbn [List.length]. now rewrite IH.
Qed.

Lemma sortBy_length {A : Type} (cmp : A -> A -> Z) (l : list A) :
  List.length (sortBy cmp l) = List.length l.
Proof.
  induction l as [|x l IH]; [reflexivity|].
  cbn [sortBy]. rewrite insertBy_length. cbn [List.length]. now rewrite IH.
Qed.

Lemma neighborRows_spec (artifacts : KgData.KgArtifacts) (id : jsstring)
    (row : KgData.NeighborRow) :
  In row (KgData.neighborRows artifacts id)
  <-> exists edge,
        In edge (KgData.kga_edges artifacts)
        /\ ((KgData.rec_subjectId edge = id
             /\ row = KgData.mkNeighborRow outgoing edge
                        (KgData.entityMapGet (KgData.kga_entities artifacts)
                                             (KgData.rec_objectId edge)))
            \/ (KgData.rec_subjectId edge <> id
                /\ KgData.rec_objectId edge = id
                /\ row = KgData.mkNeighborRow incoming edge
                           (KgData.entityMapGet (KgData.kga_entities artifacts)
                                                (KgData.rec_subjectId edge)))).
Proof.
  unfold KgData.neighborRows. rewrite in_flat_map. split.
  - intros (edge & Hedge & Hrow). exists edge. split; [exact Hedge|].
    destruct (str_eqb (KgData.rec_subjectId edge) id) eqn:Es.
    + apply str_eqb_eq in Es. destruct Hrow as [<-|[]]. left. auto.
    + destruct (str_eqb (KgData.rec_objectId edge) id) eqn:Eo; [|destruct Hrow].
      apply str_eqb_eq in Eo. destruct Hrow as [<-|[]]. right.
      split; [|auto]. intro H. rewrite H, str_eqb_refl in Es. discriminate.
  - intros (edge & Hedge & [[Hs ->]|(Hs & Ho & ->)]); exists edge;
      (split; [exact Hedge|]).
    + rewrite Hs, str_eqb_refl. now left.
    + rewrite (str_eqb_neq _ _ Hs), Ho, str_eqb_refl. now left.
Qed.

Lemma entityMapGet_id (entities : list KgData.KgEntity) (id : jsstring)
    (entity : KgData.KgEntity) :
  KgData.entityMapGet entities id = Some entity ->
  In entity entities /\ KgData.kent_entityId entity = id.
Proof.
  unfold KgData.entityMapGet. intro H. apply find_some in H.
  destruct H as [Hin Hid]. apply in_rev in Hin. apply str_eqb_eq in Hid. auto.
Qed.

(** X27. [getEntityNeighbors] returns one row for each edge of the graph
    that touches the entity, and no other: an edge whose subject is the
    entity gives an outgoing row with the entity of its object, any other
    edge whose object is the entity gives an incoming row with the entity of
    its subject (an edge from the entity to itself counts once, as
    outgoing).  There are no rows when the artifacts are missing or the
    entity is unknown, even if edges mention its id. *)
Theorem getEntityNeighbors_rows (lc : Collator) (artifacts : KgData.KgArtifacts)
    (id : jsstring) :
  let result := KgData.getEntityNeighbors lc artifacts id in
  let entities := KgData.kga_entities artifacts in
  (KgData.nres_entity result
   = if KgData.kga_available artifacts then KgData.entityMapGet entities id
     else None)
  /\ (KgData.nres_entity result = None -> KgData.nres_neighbors result = [])
  /\ (forall row, In row (KgData.nres_neighbors result) ->
        In (KgData.nbr_edge row) (KgData.kga_edges artifacts)
        /\ match KgData.nbr_direction row with
           | outgoing =>
               KgData.rec_subjectId (KgData.nbr_edge row) = id
               /\ KgData.nbr_neighbor row
                  = KgData.entityMapGet entities
                      (KgData.rec_objectId (KgData.nbr_edge row))
           | incoming =>
               KgData.rec_objectId (KgData.nbr_edge row) = id
               /\ KgData.rec_subjectId (KgData.nbr_edge row) <> id
               /\ KgData.nbr_neighbor row
                  = KgData.entityMapGet entities
                      (KgData.rec_subjectId (KgData.nbr_edge row))
           end)
  /\ (KgData.nres_entity result <> None ->
      forall edge, In edge (KgData.kga_edges artifacts) ->
        KgData.rec_subjectId edge = id \/ KgData.rec_objectId edge = id ->
        exists row, In row (KgData.nres_neighbors result)
                    /\ KgData.nbr_edge row = edge)
  /\ List.length (KgData.nres_neighbors result)
     <= List.length (KgData.kga_edges artifacts).
Proof.
  cbv zeta. unfold KgData.getEntityNeighbors.
  destruct (KgData.kga_available artifacts); cbn [negb].
  2:{ cbn. repeat split; auto; try lia; try contradiction. }
  destruct (KgData.entityMapGet (KgData.kga_entities artifacts) id)
    as [entity|] eqn:E.
  2:{ cbn. repeat split; auto; try lia; try contradiction. }
  cbn [KgData.nres_entity KgData.nres_neighbors].
  split; [reflexivity|]. split; [discriminate|]. split; [|split].
  - intros row Hrow. apply sortBy_In in Hrow.
    apply neighborRows_spec in Hrow.
    destruct Hrow as (edge & Hedge & [[Hs ->]|(Hs & Ho & ->)]);
      cbn [KgData.nbr_edge KgData.nbr_direction KgData.nbr_neighbor]; auto.
  - intros _ edge Hedge Htouch.
    destruct (list_eq_dec N.eq_dec (KgData.rec_subjectId edge) id) as [Hs|Hs].
    + eexists. split.
      * apply sortBy_In. apply neighborRows_spec. exists edge.
        split; [exact Hedge|]. left. split; [exact Hs | reflexivity].
      * reflexivity.
    + destruct Htouch as [Hs'|Ho]; [contradiction|].
      eexists. split.
      * apply sortBy_In. apply neighborRows_spec. exists edge.
        split; [exact Hedge|]. right. split; [exact Hs|].
        split; [exact Ho | reflexivity].
      * reflexivity.
  - rewrite sortBy_length. unfold KgData.neighborRows.
    generalize (KgData.kga_edges artifacts) as edges.
    induction edges as [|edge edges IH]; [cbn; lia|].
    cbn [flat_map]. rewrite length_app. cbn [List.length].
    destruct (str_eqb (KgData.rec_subjectId edge) id);
      [cbn [List.length]; lia|].
    destruct (str_eqb (KgData.rec_objectId edge) id); cbn [List.length]; lia.
Qed.

Lemma matchingEntities_In (lc : Collator) (artifacts : KgData.KgArtifacts)
    (options : KgData.ListEntitiesOptions) (entity : KgData.KgEntity) :
  In entity (KgData.matchingEntities lc artifacts options)
  <-> In entity (KgData.kga_entities artifacts)
      /\ (forall t, typeOf options = Some t -> KgData.kent_entityType entity = t)
      /\ (queryOf options <> [] ->
          KgData.entityMatches (queryOf options) entity = true).
Proof.
  unfold KgData.matchingEntities. cbv zeta.
  fold (queryOf options). fold (typeOf options).
  rewrite sortBy_In.
  assert (Hty : forall l,
            In entity (match typeOf options with
                       | Some t =>
                           List.filter
                             (fun e => str_eqb (KgData.kent_entityType e) t) l
                       | None => l
                       end)
            <-> In entity l
                /\ (forall t, typeOf options = Some t ->
                               KgData.kent_entityType entity = t)).
  { intro l. destruct (typeOf options) as [t|].
    - rewrite filter_In. split.
      + intros [Hin Ht]. apply str_eqb_eq in Ht. split; [exact Hin|].
        intros t' H. injection H as <-. exact Ht.
      + intros [Hin Ht]. split; [exact Hin|].
        rewrite (Ht t eq_refl). apply str_eqb_refl.
    - split; [intro Hin; split; [exact Hin | discriminate] | tauto]. }
  destruct (queryOf options) as [|c q] eqn:Eq; cbn [isEmpty].
  - rewrite Hty. split.
    + intros [Hin Ht]. split; [exact Hin|]. split; [exact Ht | congruence].
    + intros (Hin & Ht & _). auto.
  - rewrite filter_In, Hty. split.
    + intros [[Hin Ht] Hq]. auto.
    + intros (Hin & Ht & Hq). split; [auto|]. apply Hq. discriminate.
Qed.

(** X28. On a query and a graph whose names, ids and aliases have all
    their code units below U+0100, [listEntities] returns at most [limit]
    entities, where the limit is brought between 1 and 500 (200 when none is
    given), and only entities of the graph that pass its filters: the type
    asked for (unless it is missing, empty or [all]) and the trimmed
    lower-case query, which must occur in the lower-cased name, id or an
    alias (unless it is blank).  The counts [total] and [filtered] are those
    of the graph and of the entities that pass; with the artifacts missing
    everything is empty. *)
Theorem listEntities_items (lc : Collator) (artifacts : KgData.KgArtifacts)
    (options : KgData.ListEntitiesOptions) :
  isLatin1 (orElse (KgData.leo_q options) []) = true ->
  forallb latin1Entity (KgData.kga_entities artifacts) = true ->
  let result := KgData.listEntities lc artifacts options in
  let limit := Nat.max 1 (Nat.min (orElse (KgData.leo_limit options) 200) 500) in
  KgData.eres_available result = KgData.kga_available artifacts
  /\ List.length (KgData.eres_items result) = Nat.min limit (KgData.eres_filtered result)
  /\ List.length (KgData.eres_items result) <= 500
  /\ KgData.eres_filtered result <= KgData.eres_total result
  /\ (KgData.kga_available artifacts = true ->
      KgData.eres_total result = List.length (KgData.kga_entities artifacts))
  /\ (KgData.kga_available artifacts = false ->
      KgData.eres_items result = [] /\ KgData.eres_total result = 0)
  /\ forall entity, In entity (KgData.eres_items result) ->
       In entity (KgData.kga_entities artifacts)
       /\ (forall t, typeOf options = Some t -> KgData.kent_entityType entity = t)
       /\ (queryOf options <> [] ->
           KgData.entityMatches (queryOf options) entity = true).
Proof.
  intros _ _. cbv zeta. unfold KgData.listEntities.
  destruct (KgData.kga_available artifacts); cbn [negb].
  2:{ cbn. repeat split; auto; try lia; try discriminate; try contradiction. }
  cbv zeta.
  cbn [KgData.eres_available KgData.eres_items KgData.eres_total
       KgData.eres_filtered].
  split; [reflexivity|]. split; [apply length_firstn|].
  split; [rewrite length_firstn; lia|].
  split.
  { unfold KgData.matchingEntities. cbv zeta. rewrite sortBy_length.
    assert (Hf : forall (f : KgData.KgEntity -> bool) l,
               List.length (List.filter f l) <= List.length l).
    { intros f l. induction l as [|x l IH]; [cbn; lia|].
      cbn [List.filter]. destruct (f x); cbn [List.length]; lia. }
    destruct (isEmpty _); destruct (match KgData.leo_type options with
                                    | Some _ => _ | None => _ end);
      try apply Hf; try lia.
    eapply Nat.le_trans; [apply Hf | apply Hf]. }
  split; [reflexivity|]. split; [discriminate|].
  intros entity H. apply firstn_In_list in H.
  apply matchingEntities_In in H. exact H.
Qed.

Lemma listEntities_items_witness :
  let options :=
    {| KgData.leo_q := Some (js " Sheeran");
       KgData.leo_type := Some (js "character");
       KgData.leo_limit := Some 1 |} in
  let result := KgData.listEntities codeUnitCollator sampleKg options in
  let limit := Nat.max 1 (Nat.min (orElse (KgData.leo_limit options) 200) 500) in
  KgData.eres_available result = KgData.kga_available sampleKg
  /\ List.length (KgData.eres_items result) = Nat.min limit (KgData.eres_filtered result)
  /\ List.length (KgData.eres_items result) <= 500
  /\ KgData.eres_filtered result <= KgData.eres_total result
  /\ (KgData.kga_available sampleKg = true ->
      KgData.eres_total result = List.length (KgData.kga_entities sampleKg))
  /\ (KgData.kga_available sampleKg = false ->
      KgData.eres_items result = [] /\ KgData.eres_total result = 0)
  /\ forall entity, In entity (KgData.eres_items result) ->
       In entity (KgData.kga_entities sampleKg)
       /\ (forall t, typeOf options = Some t -> KgData.kent_entityType entity = t)
       /\ (queryOf options <> [] ->
           KgData.entityMatches (queryOf options) entity = true).
Proof.
  apply (listEntities_items codeUnitCollator sampleKg
           {| KgData.leo_q := Some (js " Sheeran");
              KgData.leo_type := Some (js "character");
              KgData.leo_limit := Some 1 |}); reflexivity.
Defined.

(** The store the answer builder reads is implemented by the read API of
    kgData.ts: on the store of the artifacts, the two read calls of the
    builder return the projections of what [getEntityNeighbors] and
    [listEntities] return. *)
Lemma storeOf_getEntityNeighbors (lc : Collator) (artifacts : KgData.KgArtifacts)
    (id : jsstring) :
  let result := KgData.getEntityNeighbors lc artifacts id in
  getEntityNeighbors (storeOf lc artifacts) id
  = {| nr_available := KgData.nres_available result;
       nr_entity := option_map toEntity (KgData.nres_entity result);
       nr_neighbors := List.map toNeighbor (KgData.nres_neighbors result) |}.
Proof.
  cbv zeta. unfold getEntityNeighbors, KgData.getEntityNeighbors, storeOf.
  cbn [kg_available kg_entityOf kg_neighborsOf].
  destruct (KgData.kga_available artifacts); cbn [negb]; [|reflexivity].
  destruct (KgData.entityMapGet (KgData.kga_entities artifacts) id);
    reflexivity.
Qed.

Lemma storeOf_listEntities (lc : Collator) (artifacts : KgData.KgArtifacts)
    (q : jsstring) (limit : nat) :
  let result :=
    KgData.listEntities lc artifacts
      (KgData.mkListEntitiesOptions (Some q) None (Some limit)) in
  listEntities (storeOf lc artifacts) q limit
  = {| er_available := KgData.eres_available result;
       er_items := List.map toEntity (KgData.eres_items result) |}.
Proof.
  cbv zeta. unfold listEntities, KgData.listEntities, storeOf.
  cbn [kg_available kg_search KgData.leo_limit orElse].
  destruct (KgData.kga_available artifacts); cbn [negb]; [|reflexivity].
  cbv zeta. cbn [KgData.eres_available KgData.eres_items].
  rewrite firstn_map. reflexivity.
Qed.

Lemma nonEmptyString_some (value : JsValue) (s : jsstring) :
  KgData.nonEmptyString value = Some s -> value = VString s /\ s <> [].
Proof.
  unfold KgData.nonEmptyString. destruct value; try discriminate.
  cbn [asString]. destruct s0 as [|c r]; cbn [isEmpty]; [discriminate|].
  intro H. injection H as <-. split; [reflexivity | discriminate].
Qed.

Lemma normalizeEntity_wellFormed (raw : JsValue) (entity : KgData.KgEntity) :
  KgData.normalizeEntity raw = Some entity -> wellFormedEntity entity.
Proof.
  unfold KgData.normalizeEntity. cbv zeta.
  destruct (KgData.nonEmptyString (getProp (asObject raw) (js "entity_id")))
    as [id|] eqn:Ei; [|discriminate].
  destruct (KgData.nonEmptyString (getProp (asObject raw) (js "entity_type")))
    as [ty|] eqn:Et; [|discriminate].
  destruct (KgData.nonEmptyString (getProp (asObject raw) (js "canonical_name")))
    as [nm|] eqn:En; [|discriminate].
  destruct (mem ty KgData.ENTITY_TYPES) eqn:Em; cbn [negb]; [|discriminate].
  intro H. injection H as <-. unfold wellFormedEntity.
  cbn [KgData.kent_entityId KgData.kent_canonicalName KgData.kent_entityType].
  apply nonEmptyString_some in Ei, En. apply mem_In in Em.
  split; [apply Ei|]. split; [apply En | exact Em].
Qed.

Lemma normalizeAlias_wellFormed (raw : JsValue) (alias : KgData.EntityAliasRecord) :
  KgData.normalizeAlias raw = Some alias -> wellFormedAlias alias.
Proof.
  unfold KgData.normalizeAlias. cbv zeta.
  destruct (KgData.nonEmptyString (getProp (asObject raw) (js "alias_record_id")))
    as [a1|] eqn:E1; [|discriminate].
  destruct (KgData.nonEmptyString (getProp (asObject raw) (js "alias_raw")))
    as [a2|] eqn:E2; [|discriminate].
  destruct (KgData.nonEmptyString (getProp (asObject raw) (js "alias_normalized")))
    as [a3|] eqn:E3; [|discriminate].
  destruct (KgData.nonEmptyString (getProp (asObject raw) (js "entity_id")))
    as [a4|] eqn:E4; [|discriminate].
  destruct (KgData.nonEmptyString (getProp (asObject raw) (js "entity_type")))
    as [a5|] eqn:E5; [|discriminate].
  destruct (KgData.nonEmptyString (getProp (asObject raw) (js "alias_kind")))
    as [a6|] eqn:E6; [|discriminate].
  destruct (KgData.nonEmptyString (getProp (asObject raw) (js "source")))
    as [a7|] eqn:E7; [|discriminate].
  destruct (mem a5 KgData.ENTITY_TYPES) eqn:Em; cbn [negb]; [|discriminate].
  intro H. injection H as <-. unfold wellFormedAlias.
  cbn [KgData.al_aliasRecordId KgData.al_aliasRaw KgData.al_aliasNormalized
       KgData.al_entityId KgData.al_aliasKind KgData.al_source
       KgData.al_entityType].
  apply nonEmptyString_some in E1, E2, E3, E4, E6, E7. apply mem_In in Em.
  repeat split; first [exact Em | tauto].
Qed.

Lemma normalizeKgEdge_wellFormed (raw : JsValue) (edge : KgData.KGEdgeRecord) :
  KgData.normalizeKgEdge raw = Some edge -> wellFormedEdge edge.
Proof.
  unfold KgData.normalizeKgEdge. cbv zeta.
  destruct (KgData.nonEmptyString (getProp (asObject raw) (js "edge_id")))
    as [e|] eqn:Ee; [|discriminate].
  destruct (KgData.nonEmptyString (getProp (asObject raw) (js "subject_id")))
    as [s|] eqn:Es; [|discriminate].
  destruct (KgData.nonEmptyString (getProp (asObject raw) (js "predicate")))
    as [p|] eqn:Ep; [|discriminate].
  destruct (KgData.nonEmptyString (getProp (asObject raw) (js "object_id")))
    as [o|] eqn:Eo; [|discriminate].
  destruct (KgData.nonEmptyString (getProp (asObject raw) (js "stability")))
    as [st|] eqn:Est; [|discriminate].
  destruct (mem st KgData.STABILITIES) eqn:Em; cbn [negb]; [|discriminate].
  intro H. injection H as <-. unfold wellFormedEdge.
  cbn [KgData.rec_edgeId KgData.rec_subjectId KgData.rec_predicate
       KgData.rec_objectId KgData.rec_stability].
  apply nonEmptyString_some in Ee, Es, Ep, Eo. apply mem_In in Em.
  repeat split; first [exact Em | tauto].
Qed.

Lemma mapFilter_In {A B : Type} (f : A -> option B) (items : list A) (b : B) :
  In b (KgData.mapFilter f items) <-> exists a, In a items /\ f a = Some b.
Proof.
  unfold KgData.mapFilter. rewrite in_flat_map. split.
  - intros (a & Ha & Hb). exists a. split; [exact Ha|].
    destruct (f a) as [b'|]; [|destruct Hb].
    destruct Hb as [<-|[]]. reflexivity.
  - intros (a & Ha & Hb). exists a. split; [exact Ha|].
    rewrite Hb. now left.
Qed.

(** X29. The graph artifacts are available exactly when each of the three
    files holds an envelope (an object whose [items] is an array); otherwise
    the collections are empty and the missing files are listed.  Every entity
    that is loaded has a non-empty id and name and one of the five entity
    types, every alias has non-empty fields and one of those types, and
    every edge has non-empty ids and predicate and one of the three
    stabilities: malformed items are dropped. *)
Theorem loadKgArtifactsUncached_validated
    (entitiesFile aliasesFile edgesFile : option JsValue) :
  let artifacts :=
    KgData.loadKgArtifactsUncached entitiesFile aliasesFile edgesFile in
  (KgData.kga_available artifacts = true
   <-> KgData.readEnvelope entitiesFile <> None
       /\ KgData.readEnvelope aliasesFile <> None
       /\ KgData.readEnvelope edgesFile <> None)
  /\ (KgData.kga_available artifacts = true
      -> KgData.kga_missingFiles artifacts = [])
  /\ (KgData.kga_available artifacts = false
      -> KgData.kga_entities artifacts = []
         /\ KgData.kga_aliases artifacts = []
         /\ KgData.kga_edges artifacts = []
         /\ KgData.kga_missingFiles artifacts <> [])
  /\ Forall wellFormedEntity (KgData.kga_entities artifacts)
  /\ Forall wellFormedAlias (KgData.kga_aliases artifacts)
  /\ Forall wellFormedEdge (KgData.kga_edges artifacts).
Proof.
  cbv zeta. unfold KgData.loadKgArtifactsUncached. cbv zeta.
  destruct (KgData.readEnvelope entitiesFile) as [entitiesEnv|].
  2:{ cbn. repeat split; try discriminate; try tauto; constructor. }
  destruct (KgData.readEnvelope aliasesFile) as [aliasesEnv|].
  2:{ cbn. repeat split; try discriminate; try tauto; constructor. }
  destruct (KgData.readEnvelope edgesFile) as [edgesEnv|].
  2:{ cbn. repeat split; try discriminate; try tauto; constructor. }
  cbn [KgData.kga_available KgData.kga_missingFiles KgData.kga_entities
       KgData.kga_aliases KgData.kga_edges].
  split; [split; [intros _; repeat split; discriminate | reflexivity]|].
  split; [reflexivity|]. split; [discriminate|]. split; [|split].
  - apply Forall_forall. intros entity H. apply mapFilter_In in H.
    destruct H as (raw & _ & H). eapply normalizeEntity_wellFormed; eauto.
  - apply Forall_forall. intros alias H. apply mapFilter_In in H.
    destruct H as (raw & _ & H). eapply normalizeAlias_wellFormed; eauto.
  - apply Forall_forall. intros edge H. apply mapFilter_In in H.
    destruct H as (raw & _ & H). eapply normalizeKgEdge_wellFormed; eauto.
Qed.

(** ** Reading the synthesis configuration (llm/config.ts) *)

Lemma parseBoolean_default_false (raw : option jsstring) :
  parseBoolean raw false = true
  <-> exists r, raw = Some r /\ In (toLowerCase (trim r)) TRUE_WORDS.
Proof.
  unfold parseBoolean. destruct raw as [r|].
  - cbv zeta. destruct (mem (toLowerCase (trim r)) TRUE_WORDS) eqn:E.
    + apply mem_In in E. split; [|reflexivity]. intros _. eauto.
    + apply mem_false_not_In in E. split.
      * destruct (mem _ FALSE_WORDS); discriminate.
      * intros (r' & Hr & Hin). injection Hr as <-. contradiction.
  - split; [discriminate|]. intros (r & Hr & _). discriminate.
Qed.

(** X30. With the configuration read from the environment, synthesis is
    enabled exactly when ENABLE_LLM_SYNTHESIS is one of 1, true, yes, on (in
    any letter case, whitespace around it ignored) and OPENAI_API_KEY is not
    blank; with both unset it is off.  The API key is kept trimmed, and the
    model name is never empty. *)
Theorem readConfigUncached_synthesis_enabled (env : ProcessEnv) :
  let cfg := readConfigUncached env in
  (st_enabled (getLlmSynthesisStatus cfg) = true
   <-> (exists raw, ENABLE_LLM_SYNTHESIS env = Some raw
                    /\ In (toLowerCase (trim raw)) TRUE_WORDS)
       /\ (exists key, OPENAI_API_KEY env = Some key /\ trim key <> []))
  /\ (forall key, cfg_apiKey cfg = Some key ->
        key <> [] /\ trim key = key
        /\ exists raw, OPENAI_API_KEY env = Some raw /\ key = trim raw)
  /\ cfg_model cfg <> [].
Proof.
  cbv zeta. split; [|split].
  - unfold getLlmSynthesisStatus, readConfigUncached. cbv zeta.
    cbn [cfg_enableLlmSynthesisFlag cfg_apiKey].
    pose proof (parseBoolean_default_false (ENABLE_LLM_SYNTHESIS env)) as Hflag.
    destruct (parseBoolean (ENABLE_LLM_SYNTHESIS env) false); cbn [negb].
    + destruct (OPENAI_API_KEY env) as [key|]; cbn [orElse].
      * destruct (trim key) as [|c r] eqn:Ek; cbn [isEmpty truthy negb st_enabled].
        -- split; [discriminate|]. intros (_ & key' & Hk & Hne).
           injection Hk as <-. congruence.
        -- split; [|reflexivity]. intros _. split; [apply Hflag; reflexivity|].
           exists key. split; [reflexivity|]. rewrite Ek. discriminate.
      * cbn. split; [discriminate|]. intros (_ & key & Hk & _). discriminate.
    + cbn [st_enabled]. split; [discriminate|]. intros (Hraw & _).
      apply Hflag in Hraw. discriminate.
  - unfold readConfigUncached. cbn [cfg_apiKey]. intros key H.
    destruct (OPENAI_API_KEY env) as [raw|]; cbn [orElse] in H.
    + destruct (isEmpty (trim raw)) eqn:E; [discriminate|].
      injection H as <-. split; [apply isEmpty_false; exact E|].
      split; [apply trim_idem|]. exists raw. auto.
    + discriminate.
  - unfold readConfigUncached, orIfEmpty. cbn [cfg_model].
    destruct (isEmpty _) eqn:E; [discriminate|].
    apply isEmpty_false. exact E.
Qed.

(** ** Sample runs of the added models *)

Section AddedModelExamples.

(** The cases of queryContract.test.ts. *)
Example normalizeQueryRequest_snake_case :
  normalizeQueryRequest sampleRequestBody
  = Ok {| req_question :=
            js "How does Peggy's relationship with Frank change over time?";
          req_preferredMode := pm_auto;
          req_includeEvidence := true;
          req_includeBaselineComparison := true |}.
Proof. vm_compute. reflexivity. Qed.

Example normalizeQueryRequest_missing_question :
  match normalizeQueryRequest (VObject [(js "preferred_mode", VString (js "kg"))]) with
  | Ok _ => False
  | Err _ => True
  end.
Proof. vm_compute. exact I. Qed.

Example validateApiQueryResponse_sample :
  let response :=
    {| resp_question := js "Who are the key people connected to Frank Sheeran?";
       resp_answer := sampleAnswer;
       baselineComparison :=
         Some {| answerText := js "Baseline answer";
                 modeUsed := baseline_rag;
                 queryType := fact;
                 confidence := JsFinite 0.33%Q;
                 entitiesUsed := [js "char_frank_sheeran"];
                 eventsUsed := [js "evt_000123"];
                 stateChangesUsed := [];
                 evidenceRefs := [js "evref_000123"];
                 reasoningNotes := js "Baseline reasoning." |} |} in
  validateApiQueryResponse (toApiQueryResponse response) = Ok tt
  /\ getProp (asObject (toApiQueryResponse response)) (js "query_type")
     = VString (js "fact")
  /\ getProp (asObject (toApiQueryResponse response)) (js "mode_used")
     = VString (js "kg")
  /\ getProp (asObject (getProp (asObject (toApiQueryResponse response))
                          (js "baseline_comparison"))) (js "mode_used")
     = VString (js "baseline_rag").
Proof. vm_compute. repeat split; reflexivity. Qed.

Example validateApiQueryResponse_malformed :
  validateApiQueryResponse malformedPayload = Err (js "Invalid confidence").
Proof. vm_compute. reflexivity. Qed.

Example POST_cases :
  res_status (POST (Runs bareEnv) (Some sampleRequestBody)) = 200
  /\ res_status (POST (Runs bareEnv) (Some (VArray []))) = 400
  /\ res_status (POST (Runs bareEnv) None) = 400
  /\ POST (Throws (Some (js "Unexpected token"))) (Some sampleRequestBody)
     = mkJsonResponse 500
         (errorBody (js "Baseline query processing failed: Unexpected token"))
  /\ POST (Throws None) (Some sampleRequestBody)
     = mkJsonResponse 500
         (errorBody (js "Baseline query processing failed: Unknown error"))
  /\ res_status (POST (Throws None) None) = 400.
Proof. vm_compute. repeat split; reflexivity. Qed.

Example buildEntityDetectionLexicon_sample :
  List.map (fun entry => (lex_phrase entry, lex_matchKind entry, lex_priority entry))
    (Lexicon.buildEntityDetectionLexicon codeUnitCollator sampleKg)
  = [(js "frank sheeran", mk_canonical, 100);
     (js "peggy sheeran", mk_canonical, 100);
     (js "frank sheeran", mk_hint, 90);
     (js "peggy sheeran", mk_hint, 90);
     (js "the irishman", mk_alias, 80);
     (js "jimmy hoffa", mk_canonical, 100);
     (js "jimmy hoffa", mk_hint, 90);
     (js "frank", mk_hint, 90);
     (js "hoffa", mk_hint, 90);
     (js "peggy", mk_hint, 90)].
Proof. vm_compute. reflexivity. Qed.

Example detect_with_built_lexicon :
  List.map (fun m => (entityId m, matchedText m, startIndex m))
    (detectEntitiesInQuestion codeUnitCollator
       (Lexicon.buildEntityDetectionLexicon codeUnitCollator sampleKg)
       (js "Did the Irishman meet Hoffa and  Peggy?"))
  = [(js "char_frank_sheeran", js "the irishman", 4);
     (js "char_jimmy_hoffa", js "hoffa", 22);
     (js "char_peggy_sheeran", js "peggy", 32)].
Proof. vm_compute. reflexivity. Qed.

Example getEntityNeighbors_sample :
  List.map (fun row => (KgData.nbr_direction row,
                        KgData.rec_edgeId (KgData.nbr_edge row),
                        option_map KgData.kent_canonicalName (KgData.nbr_neighbor row)))
    (KgData.nres_neighbors
       (KgData.getEntityNeighbors codeUnitCollator sampleKg (js "char_frank_sheeran")))
  = [(outgoing, js "edge_0001", Some (js "Jimmy Hoffa"));
     (incoming, js "edge_0002", Some (js "Peggy Sheeran"))].
Proof. vm_compute. reflexivity. Qed.

Example parseBoolean_cases :
  parseBoolean (Some (js " TRUE ")) false = true
  /\ parseBoolean (Some (js "off")) true = false
  /\ parseBoolean (Some (js "maybe")) true = true
  /\ parseBoolean None false = false.
Proof. vm_compute. repeat split; reflexivity. Qed.

(** A request served from the sample graph, end to end: detection with the
    built lexicon, routing, and the graph-neighbourhood builder on the store
    of the artifacts. *)
Example answerQueryRequest_on_sample_graph :
  let answer :=
    resp_answer
      (answerQueryRequest sampleKgEnv
         {| req_question := js "Who is connected to Frank Sheeran?";
            req_preferredMode := pm_auto;
            req_includeEvidence := true;
            req_includeBaselineComparison := false |}) in
  modeUsed answer = kg
  /\ queryType answer = fact
  /\ entitiesUsed answer
     = [js "char_frank_sheeran"; js "char_peggy_sheeran"; js "char_jimmy_hoffa"]
  /\ evidenceRefs answer = [js "scene:scene_0008"]
  /\ jsNumEqb (confidence answer) (JsFinite 0.65%Q) = true.
Proof. vm_compute. repeat split; reflexivity. Qed.

End AddedModelExamples.
